(** * BMP and PNG decoders of the codec library: a shallow embedding

    The development follows [src/codec/SkCodec_libbmp.cpp] and
    [src/codec/SkCodec_libpng.cpp].  Machine integers are mathematical
    integers with the wrap-around of their C++ type written out, byte buffers
    are lists of integers read modulo 256, the input stream is a byte list with
    a read position, and the destination is a byte-addressed memory.  Code that
    lives in headers or libraries outside the two files (mask parsing, colour
    packing, swizzlers, libpng) is an interface, [Externals], over which every
    definition is parametric. *)

From Stdlib Require Import ZArith List Bool Lia.
Import ListNotations.
Open Scope Z_scope.

(** ** Machine integers *)

Definition wrap8u (z : Z) : Z := z mod 2 ^ 8.
Definition wrap16u (z : Z) : Z := z mod 2 ^ 16.
Definition wrap32u (z : Z) : Z := z mod 2 ^ 32.
Definition wrap64u (z : Z) : Z := z mod 2 ^ 64.
(** [int]: two's complement on 32 bits. *)
Definition wrap32s (z : Z) : Z := (z + 2 ^ 31) mod 2 ^ 32 - 2 ^ 31.

Definition INT_MIN : Z := - 2 ^ 31.

(** ** The option monad, for paths on which the source returns NULL *)

Definition obind {A B : Type} (c : option A) (k : A -> option B) : option B :=
  match c with
  | Some a => k a
  | None => None
  end.

Notation "x <- c ;; k" := (obind c (fun x => k))
  (at level 61, c at next level, right associativity).
Notation "' p <- c ;; k" := (obind c (fun x => let 'p := x in k))
  (at level 61, p pattern, c at next level, right associativity).

(** ** Byte buffers *)

(** Modelled from the spec: [get_byte], [get_short] and [get_int] of
    SkCodecPriv.h, which is not among the sources; the spec fixes the header
    fields as little-endian. *)
Definition get_byte (buffer : list Z) (i : Z) : Z :=
  wrap8u (nth (Z.to_nat i) buffer 0).

Definition get_short (buffer : list Z) (i : Z) : Z :=
  get_byte buffer i + 2 ^ 8 * get_byte buffer (i + 1).

Definition get_int (buffer : list Z) (i : Z) : Z :=
  get_byte buffer i + 2 ^ 8 * get_byte buffer (i + 1)
  + 2 ^ 16 * get_byte buffer (i + 2) + 2 ^ 24 * get_byte buffer (i + 3).

(** Modelled from the spec: [compute_row_bytes] of SkCodecPriv.h, the number of
    bytes that hold [width] pixels of [bitsPerPixel] bits, rounded up. *)
Definition compute_row_bytes (width bitsPerPixel : Z) : Z :=
  (width * bitsPerPixel + 7) / 8.

(** Modelled from the spec: the alignment helpers of SkTypes.h. *)
Definition SkAlign2 (x : Z) : Z := Z.shiftl (Z.shiftr (x + 1) 1) 1.
Definition SkIsAlign2 (x : Z) : bool := Z.land x 1 =? 0.
Definition SkAlign4 (x : Z) : Z := Z.shiftl (Z.shiftr (x + 3) 2) 2.

(** ** The input stream *)

Record SkStream := mkStream { sdata : list Z; spos : nat }.

(** [stream->read(buffer, n)]: the bytes obtained, at most [n] of them, and
    the stream past them. *)
Definition stream_read (s : SkStream) (n : Z) : list Z * SkStream :=
  let got := firstn (Z.to_nat n) (skipn (spos s) (sdata s)) in
  (got, mkStream (sdata s) (spos s + length got)).

(** [stream->skip(n)]: the number of bytes skipped. *)
Definition stream_skip (s : SkStream) (n : Z) : Z * SkStream :=
  let got := firstn (Z.to_nat n) (skipn (spos s) (sdata s)) in
  (Z.of_nat (length got), mkStream (sdata s) (spos s + length got)).

(** ** The destination memory *)

(** The caller's [dst] as a byte-addressed memory; address 0 is [dst].  The
    journal lists, newest first, the start and length of every pixel store; no
    operation of the decoders reads it, it is there for the statements about
    which bytes were written. *)
Record Buffer := mkBuffer { bytes : Z -> Z; journal : list (Z * Z) }.

Definition memset (b : Buffer) (value n : Z) : Buffer :=
  mkBuffer (fun a => if (0 <=? a) && (a <? n) then value else bytes b a)
           (journal b).

Definition store_bytes (b : Buffer) (addr : Z) (data : list Z) : Buffer :=
  mkBuffer (fun a => if (addr <=? a) && (a <? addr + Z.of_nat (length data))
                     then wrap8u (nth (Z.to_nat (a - addr)) data 0)
                     else bytes b a)
           ((addr, Z.of_nat (length data)) :: journal b).

Definition le_bytes32 (v : Z) : list Z :=
  [wrap8u v; wrap8u (Z.shiftr v 8); wrap8u (Z.shiftr v 16);
   wrap8u (Z.shiftr v 24)].

Definition le_bytes16 (v : Z) : list Z := [wrap8u v; wrap8u (Z.shiftr v 8)].

Definition store32 (b : Buffer) (addr v : Z) : Buffer :=
  store_bytes b addr (le_bytes32 v).

Definition store16 (b : Buffer) (addr v : Z) : Buffer :=
  store_bytes b addr (le_bytes16 v).

Definition load32 (b : Buffer) (addr : Z) : Z :=
  wrap8u (bytes b addr) + 2 ^ 8 * wrap8u (bytes b (addr + 1))
  + 2 ^ 16 * wrap8u (bytes b (addr + 2)) + 2 ^ 24 * wrap8u (bytes b (addr + 3)).

(** An address lies in the footprint of a journal entry. *)
Definition covers (entry : Z * Z) (a : Z) : bool :=
  (fst entry <=? a) && (a <? fst entry + snd entry).

Definition written (j : list (Z * Z)) (a : Z) : bool := existsb (fun e => covers e a) j.

(** ** Image descriptions *)

Inductive SkColorType :=
| kUnknown_SkColorType
| kAlpha_8_SkColorType
| kRGB_565_SkColorType
| kARGB_4444_SkColorType
| kN32_SkColorType
| kIndex_8_SkColorType.

Inductive SkAlphaType :=
| kIgnore_SkAlphaType
| kOpaque_SkAlphaType
| kPremul_SkAlphaType
| kUnpremul_SkAlphaType.

Inductive SkColorProfileType := kLinear_SkColorProfileType | kSRGB_SkColorProfileType.

Record SkImageInfo := mkInfo {
  width : Z;
  height : Z;
  colorType : SkColorType;
  alphaType : SkAlphaType;
  profileType : SkColorProfileType
}.

(** [SkImageInfo::Make(width, height, ct, at)] leaves the profile at its
    default. *)
Definition SkImageInfo_Make (w h : Z) (ct : SkColorType) (at_ : SkAlphaType) : SkImageInfo :=
  mkInfo w h ct at_ kLinear_SkColorProfileType.

Definition makeAlphaType (i : SkImageInfo) (at_ : SkAlphaType) : SkImageInfo :=
  mkInfo (width i) (height i) (colorType i) at_ (profileType i).

Definition SkColorType_eqb (a b : SkColorType) : bool :=
  match a, b with
  | kUnknown_SkColorType, kUnknown_SkColorType
  | kAlpha_8_SkColorType, kAlpha_8_SkColorType
  | kRGB_565_SkColorType, kRGB_565_SkColorType
  | kARGB_4444_SkColorType, kARGB_4444_SkColorType
  | kN32_SkColorType, kN32_SkColorType
  | kIndex_8_SkColorType, kIndex_8_SkColorType => true
  | _, _ => false
  end.

Definition SkAlphaType_eqb (a b : SkAlphaType) : bool :=
  match a, b with
  | kIgnore_SkAlphaType, kIgnore_SkAlphaType
  | kOpaque_SkAlphaType, kOpaque_SkAlphaType
  | kPremul_SkAlphaType, kPremul_SkAlphaType
  | kUnpremul_SkAlphaType, kUnpremul_SkAlphaType => true
  | _, _ => false
  end.

Definition SkColorProfileType_eqb (a b : SkColorProfileType) : bool :=
  match a, b with
  | kLinear_SkColorProfileType, kLinear_SkColorProfileType
  | kSRGB_SkColorProfileType, kSRGB_SkColorProfileType => true
  | _, _ => false
  end.

(** [a.dimensions() == b.dimensions()] *)
Definition dimensions_eqb (a b : SkImageInfo) : bool :=
  (width a =? width b) && (height a =? height b).

Inductive Result :=
| kSuccess
| kIncompleteInput
| kInvalidConversion
| kInvalidScale
| kInvalidParameters
| kInvalidInput
| kCouldNotRewind
| kUnimplemented.

(** [SkSwizzler::ResultAlpha] and the source configurations of SkSwizzler.h. *)
Inductive ResultAlpha := kOpaque_ResultAlpha | kTransparent_ResultAlpha | kNeither_ResultAlpha.

Definition IsOpaque (r : ResultAlpha) : bool :=
  match r with kOpaque_ResultAlpha => true | _ => false end.

Definition IsTransparent (r : ResultAlpha) : bool :=
  match r with kTransparent_ResultAlpha => true | _ => false end.

Inductive SrcConfig :=
| kUnknown_SrcConfig
| kGray
| kIndex1
| kIndex2
| kIndex4
| kIndex
| kRGB
| kBGR
| kRGBX
| kBGRX
| kRGBA
| kBGRA
| kRGB_565.

Inductive ZeroInitialized := kYes_ZeroInitialized | kNo_ZeroInitialized.

Record InputMasks := mkInputMasks {
  red : Z;
  green : Z;
  blue : Z;
  alpha : Z
}.

(** ** Code outside the two source files *)

(** What the decoders call in headers and libraries that are not part of the
    sources: SkMasks, the colour packing of SkColorPriv.h, SkSwizzler and
    SkMaskSwizzler, the rewinding of the SkCodec base class, and libpng.  A
    swizzler converts one source row; where the converted row goes is modelled
    below from the spec's description of its addressing. *)
Class Externals := {
  SkMasks : Type;
  CreateMasks : InputMasks -> Z -> option SkMasks;
  getAlphaMask : SkMasks -> Z;
  SkPackARGB32NoCheck : Z -> Z -> Z -> Z -> Z;
  SkPackARGB32 : Z -> Z -> Z -> Z -> Z;
  SkPreMultiplyARGB : Z -> Z -> Z -> Z -> Z;
  SkPixel32ToPixel16 : Z -> Z;
  SkPack888ToRGB16 : Z -> Z -> Z -> Z;
  (** [SkCodec::rewindIfNeeded], on the codec's rewind flag and stream. *)
  rewindIfNeeded : bool -> SkStream -> bool * bool * SkStream;
  (** whether [SkSwizzler::CreateSwizzler] returns a swizzler *)
  CreateSwizzler_ok :
    SrcConfig -> option (list Z) -> SkImageInfo -> Z -> ZeroInitialized -> bool;
  (** the row procedure of a swizzler: source row, address of the destination
      row, destination *)
  swizzle_row :
    SrcConfig -> option (list Z) -> SkImageInfo -> ZeroInitialized ->
    list Z -> Z -> Buffer -> ResultAlpha * Buffer;
  BytesPerPixel : SrcConfig -> Z;
  (** [SkImageInfo::minRowBytes] *)
  minRowBytes : SkImageInfo -> Z;
  (** [SkAutoMalloc::reset(n)]: the bytes of the fresh block, which the source
      does not initialise *)
  fresh_storage : Z -> list Z;
  (** whether [SkMaskSwizzler::CreateMaskSwizzler] returns a swizzler *)
  CreateMaskSwizzler_ok : SkImageInfo -> Z -> SkMasks -> Z -> bool;
  (** the row procedure of a mask swizzler: the destination row it produces
      from a source row, and the alpha it reports *)
  mask_row : SkImageInfo -> SkMasks -> Z -> list Z -> list Z * ResultAlpha;
  (** libpng: the read structure together with its info structure *)
  png_struct : Type;
  (** [png_get_IHDR]: width, height, bit depth, colour type, interlace type *)
  png_get_IHDR : png_struct -> Z * Z * Z * Z * Z;
  png_set_interlace_handling : png_struct -> Z * png_struct;
  (** [png_get_PLTE]: the palette entries (red, green, blue), if any *)
  png_get_PLTE : png_struct -> option (list (Z * Z * Z));
  (** [png_get_valid(.., PNG_INFO_tRNS)] *)
  png_valid_tRNS : png_struct -> bool;
  (** [png_get_tRNS]: the [num_trans] transparency entries *)
  png_get_tRNS : png_struct -> list Z;
  (** [png_read_update_info]; [None] is a [longjmp] out of libpng *)
  png_read_update_info : png_struct -> option png_struct;
  (** [png_read_rows] for one row, given the row buffer's previous bytes *)
  png_read_row : png_struct -> list Z -> option (png_struct * list Z);
  (** [png_read_rows] with a null row pointer, [count] rows discarded *)
  png_skip_rows : png_struct -> Z -> option png_struct;
  png_read_end : png_struct -> option png_struct
}.

(** ** Swizzlers *)

Section Swizzler.
Context {X : Externals}.

(** The state of an [SkSwizzler].  [swReported] lists, newest first, the alpha
    results the swizzler has returned; no operation of the decoders reads it,
    it is there for the statements about what the swizzler reported. *)
Record SkSwizzler := mkSwizzler {
  swConfig : SrcConfig;
  swColors : option (list Z);
  swInfo : SkImageInfo;
  swRowBytes : Z;
  swZero : ZeroInitialized;
  (** the address of the next destination row; none while [dst] is null *)
  swDstRow : option Z;
  swReported : list ResultAlpha
}.

(** [SkSwizzler::CreateSwizzler]; [None] for NULL. *)
Definition CreateSwizzler (config : SrcConfig) (colors : option (list Z))
    (info : SkImageInfo) (dst : option Z) (dstRowBytes : Z)
    (zero : ZeroInitialized) : option SkSwizzler :=
  if CreateSwizzler_ok config colors info dstRowBytes zero
  then Some (mkSwizzler config colors info dstRowBytes zero dst [])
  else None.

(** Modelled from the spec: [SkSwizzler::next(srcRow, row)], which is not among
    the sources: the row is converted into [dst + row * dstRowBytes].  [None]
    is the use of a null destination. *)
Definition swizzler_next_row (sw : SkSwizzler) (srcRow : list Z) (row : Z)
    (dst : Buffer) : option (ResultAlpha * SkSwizzler * Buffer) :=
  base <- swDstRow sw ;;
  let '(r, dst) :=
    swizzle_row (swConfig sw) (swColors sw) (swInfo sw) (swZero sw) srcRow
      (base + row * swRowBytes sw) dst in
  Some (r,
        mkSwizzler (swConfig sw) (swColors sw) (swInfo sw) (swRowBytes sw)
          (swZero sw) (swDstRow sw) (r :: swReported sw),
        dst).

(** Modelled from the spec: [SkSwizzler::next(srcRow)]: the row is converted
    into the current destination row, and the swizzler moves to the next. *)
Definition swizzler_next (sw : SkSwizzler) (srcRow : list Z) (dst : Buffer)
  : option (ResultAlpha * SkSwizzler * Buffer) :=
  base <- swDstRow sw ;;
  let '(r, dst) :=
    swizzle_row (swConfig sw) (swColors sw) (swInfo sw) (swZero sw) srcRow
      base dst in
  Some (r,
        mkSwizzler (swConfig sw) (swColors sw) (swInfo sw) (swRowBytes sw)
          (swZero sw) (Some (base + swRowBytes sw)) (r :: swReported sw),
        dst).

End Swizzler.

(** * The BMP decoder *)

Module Bmp.

Inductive BitmapHeaderType :=
| kInfoV1_BitmapHeaderType
| kInfoV2_BitmapHeaderType
| kInfoV3_BitmapHeaderType
| kInfoV4_BitmapHeaderType
| kInfoV5_BitmapHeaderType
| kOS2V1_BitmapHeaderType
| kOS2VX_BitmapHeaderType
| kUnknown_BitmapHeaderType.

Definition kNone_BitmapCompressionMethod : Z := 0.
Definition k8BitRLE_BitmapCompressionMethod : Z := 1.
Definition k4BitRLE_BitmapCompressionMethod : Z := 2.
Definition kBitMasks_BitmapCompressionMethod : Z := 3.
Definition kJpeg_BitmapCompressionMethod : Z := 4.
Definition kPng_BitmapCompressionMethod : Z := 5.
Definition kAlphaBitMasks_BitmapCompressionMethod : Z := 6.
Definition kCMYK_BitmapCompressionMethod : Z := 11.
Definition kCMYK8BitRLE_BitmapCompressionMethod : Z := 12.
Definition kCMYK4BitRLE_BitmapCompressionMethod : Z := 13.

Inductive BitmapInputFormat :=
| kStandard_BitmapInputFormat
| kRLE_BitmapInputFormat
| kBitMask_BitmapInputFormat
| kUnknown_BitmapInputFormat.

Inductive RowOrder := kTopDown_RowOrder | kBottomUp_RowOrder.

Definition kBmpHeaderBytes : Z := 14.
Definition kBmpHeaderBytesPlusFour : Z := kBmpHeaderBytes + 4.
Definition kBmpOS2V1Bytes : Z := 12.
Definition kBmpOS2V2Bytes : Z := 64.
Definition kBmpInfoBaseBytes : Z := 16.
Definition kBmpInfoV1Bytes : Z := 40.
Definition kBmpInfoV2Bytes : Z := 52.
Definition kBmpInfoV3Bytes : Z := 56.
Definition kBmpInfoV4Bytes : Z := 108.
Definition kBmpInfoV5Bytes : Z := 124.
Definition kBmpMaskBytes : Z := 12.
Definition kBmpMaxDim : Z := Z.shiftl 1 16.

Definition conversion_possible (dst src : SkImageInfo) : bool :=
  if negb (SkColorProfileType_eqb (profileType dst) (profileType src)) then false
  else
    match colorType dst with
    | kN32_SkColorType =>
        SkAlphaType_eqb (alphaType src) (alphaType dst)
        || (SkAlphaType_eqb kPremul_SkAlphaType (alphaType dst)
            && SkAlphaType_eqb kUnpremul_SkAlphaType (alphaType src))
    | _ => false
    end.

(** [SkBmpCodec::IsBmp] *)
Definition IsBmp (stream : SkStream) : bool * SkStream :=
  let '(buffer, stream) := stream_read stream 2 in
  ((Z.of_nat (length buffer) =? 2)
   && (get_byte buffer 0 =? 66) && (get_byte buffer 1 =? 77), stream).

(** *** The header parser, [SkBmpCodec::NewFromStream]

    The function is cut at its comment blocks; each piece returns [None] where
    the source returns NULL.  Assertions are not modelled. *)

(** Lines 135-195: the file header (absent in an ICO) and the bytes of the
    info header: [totalBytes], [offset], [infoBytes], [iBuffer]. *)
Definition readHeaders (stream : SkStream) (isIco : bool)
  : option (Z * Z * Z * list Z * SkStream) :=
  '(totalBytes, offset, infoBytes, stream) <-
    (if negb isIco then
       let '(hBuffer, stream) := stream_read stream kBmpHeaderBytesPlusFour in
       if negb (Z.of_nat (length hBuffer) =? kBmpHeaderBytesPlusFour) then None
       else
         let totalBytes := get_int hBuffer 2 in
         let offset := get_int hBuffer 10 in
         if offset <? kBmpHeaderBytes + kBmpOS2V1Bytes then None
         else
           let infoBytes := get_int hBuffer 14 in
           if infoBytes <? kBmpOS2V1Bytes then None
           else Some (totalBytes, offset, infoBytes, stream)
     else
       let totalBytes := 0 in
       let offset := 0 in
       let '(hBuffer, stream) := stream_read stream 4 in
       if negb (Z.of_nat (length hBuffer) =? 4) then None
       else
         let infoBytes := get_int hBuffer 0 in
         if infoBytes <? kBmpOS2V1Bytes then None
         else Some (totalBytes, offset, infoBytes, stream)) ;;
  let infoBytesRemaining := wrap32u (infoBytes - 4) in
  let '(iBuffer, stream) := stream_read stream infoBytesRemaining in
  if negb (Z.of_nat (length iBuffer) =? infoBytesRemaining) then None
  else Some (totalBytes, offset, infoBytes, iBuffer, stream).

Record HeaderFields := mkFields {
  hf_headerType : BitmapHeaderType;
  hf_width : Z;
  hf_height : Z;
  hf_bitsPerPixel : Z;
  hf_compression : Z;
  hf_numColors : Z;
  hf_bytesPerColor : Z
}.

(** Lines 197-286: the fields of the info header, by header size. *)
Definition readFields (infoBytes : Z) (iBuffer : list Z) : option HeaderFields :=
  let infoBytesRemaining := wrap32u (infoBytes - 4) in
  if infoBytes >=? kBmpInfoBaseBytes then
    let headerType :=
      if infoBytes =? kBmpInfoV1Bytes then kInfoV1_BitmapHeaderType
      else if infoBytes =? kBmpInfoV2Bytes then kInfoV2_BitmapHeaderType
      else if infoBytes =? kBmpInfoV3Bytes then kInfoV3_BitmapHeaderType
      else if infoBytes =? kBmpInfoV4Bytes then kInfoV4_BitmapHeaderType
      else if infoBytes =? kBmpInfoV5Bytes then kInfoV5_BitmapHeaderType
      else if existsb (Z.eqb infoBytes)
                [16; 20; 24; 28; 32; 36; 42; 46; 48; 60; kBmpOS2V2Bytes]
           then kOS2VX_BitmapHeaderType
      else kUnknown_BitmapHeaderType in
    let width := wrap32s (get_int iBuffer 0) in
    let height := wrap32s (get_int iBuffer 4) in
    let bitsPerPixel := get_short iBuffer 10 in
    let compression :=
      if infoBytesRemaining >=? 16 then get_int iBuffer 12
      else kNone_BitmapCompressionMethod in
    let numColors :=
      if (infoBytesRemaining >=? 16) && (infoBytesRemaining >=? 32)
      then get_int iBuffer 28 else 0 in
    Some (mkFields headerType width height bitsPerPixel compression numColors 4)
  else if infoBytes >=? kBmpOS2V1Bytes then
    Some (mkFields kOS2V1_BitmapHeaderType (get_short iBuffer 0)
            (get_short iBuffer 2) (get_short iBuffer 6)
            kNone_BitmapCompressionMethod 0 3)
  else None.

(** Lines 288-304: the row order and the dimension check.  [-height] is taken
    on 32 bits. *)
Definition checkDimensions (width height : Z) (isIco : bool)
  : option (Z * Z * RowOrder) :=
  let '(height, rowOrder) :=
    if height <? 0 then (wrap32s (- height), kTopDown_RowOrder)
    else (height, kBottomUp_RowOrder) in
  let height := if isIco then Z.quot height 2 else height in
  if (width <? 0) || (width >=? kBmpMaxDim) || (height >=? kBmpMaxDim) then None
  else Some (width, height, rowOrder).

Definition noMasks : InputMasks := mkInputMasks 0 0 0 0.

(** Lines 306-396: the input format by compression method: [bitsPerPixel],
    [inputFormat], [inputMasks], [maskBytes]. *)
Definition selectFormat (f : HeaderFields) (iBuffer : list Z) (stream : SkStream)
  : option (Z * BitmapInputFormat * InputMasks * Z * SkStream) :=
  let compression := hf_compression f in
  let bitsPerPixel := hf_bitsPerPixel f in
  if compression =? kNone_BitmapCompressionMethod then
    Some (bitsPerPixel, kStandard_BitmapInputFormat, noMasks, 0, stream)
  else if compression =? k8BitRLE_BitmapCompressionMethod then
    Some (8, kRLE_BitmapInputFormat, noMasks, 0, stream)
  else if compression =? k4BitRLE_BitmapCompressionMethod then
    Some (4, kRLE_BitmapInputFormat, noMasks, 0, stream)
  else if (compression =? kAlphaBitMasks_BitmapCompressionMethod)
          || (compression =? kBitMasks_BitmapCompressionMethod) then
    match hf_headerType f with
    | kInfoV1_BitmapHeaderType =>
        let '(mBuffer, stream) := stream_read stream kBmpMaskBytes in
        if negb (Z.of_nat (length mBuffer) =? kBmpMaskBytes) then None
        else
          Some (bitsPerPixel, kBitMask_BitmapInputFormat,
                mkInputMasks (get_int mBuffer 0) (get_int mBuffer 4)
                  (get_int mBuffer 8) 0,
                kBmpMaskBytes, stream)
    | kInfoV2_BitmapHeaderType
    | kInfoV3_BitmapHeaderType
    | kInfoV4_BitmapHeaderType
    | kInfoV5_BitmapHeaderType =>
        Some (bitsPerPixel, kBitMask_BitmapInputFormat,
              mkInputMasks (get_int iBuffer 36) (get_int iBuffer 40)
                (get_int iBuffer 44) 0,
              0, stream)
    | kOS2VX_BitmapHeaderType => None
    | _ => None
    end
  else if (compression =? kJpeg_BitmapCompressionMethod) && (24 =? bitsPerPixel) then
    Some (bitsPerPixel, kRLE_BitmapInputFormat, noMasks, 0, stream)
  else None.

(** Lines 398-424: the alpha mask and the alpha type. *)
Definition selectAlpha (headerType : BitmapHeaderType) (isIco : bool)
    (bitsPerPixel : Z) (iBuffer : list Z) (inputMasks : InputMasks)
  : InputMasks * SkAlphaType :=
  let '(inputMasks, alphaType) :=
    if match headerType with
       | kInfoV3_BitmapHeaderType => isIco
       | kInfoV4_BitmapHeaderType | kInfoV5_BitmapHeaderType => true
       | _ => false
       end
    then
      let a := get_int iBuffer 48 in
      (mkInputMasks (red inputMasks) (green inputMasks) (blue inputMasks) a,
       if negb (a =? 0) then kUnpremul_SkAlphaType else kOpaque_SkAlphaType)
    else (inputMasks, kOpaque_SkAlphaType) in
  if isIco && (32 =? bitsPerPixel) then (inputMasks, kUnpremul_SkAlphaType)
  else (inputMasks, alphaType).

(** Lines 426-451: the legal values of [bitsPerPixel]; 16 bits always decode
    through masks. *)
Definition checkBitsPerPixel (bitsPerPixel : Z) (inputFormat : BitmapInputFormat)
    (inputMasks : InputMasks) : option (InputMasks * BitmapInputFormat) :=
  if bitsPerPixel =? 16 then
    match inputFormat with
    | kBitMask_BitmapInputFormat => Some (inputMasks, inputFormat)
    | _ => Some (mkInputMasks 0x7C00 0x03E0 0x001F (alpha inputMasks),
                 kBitMask_BitmapInputFormat)
    end
  else if existsb (Z.eqb bitsPerPixel) [1; 2; 4; 8; 24; 32] then
    Some (inputMasks, inputFormat)
  else None.

Definition BitmapInputFormat_eqb (a b : BitmapInputFormat) : bool :=
  match a, b with
  | kStandard_BitmapInputFormat, kStandard_BitmapInputFormat
  | kRLE_BitmapInputFormat, kRLE_BitmapInputFormat
  | kBitMask_BitmapInputFormat, kBitMask_BitmapInputFormat
  | kUnknown_BitmapInputFormat, kUnknown_BitmapInputFormat => true
  | _, _ => false
  end.

Section Codec.
Context {X : Externals}.

Record SkBmpCodec := mkBmpCodec {
  fInfo : SkImageInfo;
  fNeedsRewind : bool;
  fBitsPerPixel : Z;
  fInputFormat : BitmapInputFormat;
  fMasks : SkMasks;
  fColorTable : option (list Z);
  fNumColors : Z;
  fBytesPerColor : Z;
  fOffset : Z;
  fRowOrder : RowOrder;
  fRLEBytes : Z;
  fIsIco : bool
}.

(** [SkBmpCodec::NewFromStream(stream, isIco)]; the codec and the stream it
    holds, or [None] for NULL. *)
Definition NewFromStream (stream : SkStream) (isIco : bool)
  : option (SkBmpCodec * SkStream) :=
  '(totalBytes, offset, infoBytes, iBuffer, stream) <- readHeaders stream isIco ;;
  f <- readFields infoBytes iBuffer ;;
  '(width, height, rowOrder) <- checkDimensions (hf_width f) (hf_height f) isIco ;;
  '(bitsPerPixel, inputFormat, inputMasks, maskBytes, stream) <-
    selectFormat f iBuffer stream ;;
  let '(inputMasks, alphaType) :=
    selectAlpha (hf_headerType f) isIco bitsPerPixel iBuffer inputMasks in
  '(inputMasks, inputFormat) <-
    checkBitsPerPixel bitsPerPixel inputFormat inputMasks ;;
  masks <- CreateMasks inputMasks bitsPerPixel ;;
  if (totalBytes <=? offset)
     && BitmapInputFormat_eqb kRLE_BitmapInputFormat inputFormat then None
  else
    let RLEBytes := wrap32u (totalBytes - offset) in
    let bytesRead := wrap32u (kBmpHeaderBytes + infoBytes + maskBytes) in
    if negb isIco && (offset <? bytesRead) then None
    else
      let imageInfo := SkImageInfo_Make width height kN32_SkColorType alphaType in
      Some (mkBmpCodec imageInfo false bitsPerPixel inputFormat masks None
              (hf_numColors f) (hf_bytesPerColor f)
              (wrap32u (offset - bytesRead)) rowOrder RLEBytes isIco,
            stream).

(** [SkBmpCodec::NewFromIco] *)
Definition NewFromIco (stream : SkStream) : option (SkBmpCodec * SkStream) :=
  NewFromStream stream true.

(** The height field as stored in the header, before the parser changes its
    sign or halves it. *)
Definition storedHeight (stream : SkStream) (isIco : bool) : option Z :=
  '(totalBytes, offset, infoBytes, iBuffer, stream) <- readHeaders stream isIco ;;
  f <- readFields infoBytes iBuffer ;;
  Some (hf_height f).

Definition setColorTable (c : SkBmpCodec) (t : option (list Z)) : SkBmpCodec :=
  mkBmpCodec (fInfo c) (fNeedsRewind c) (fBitsPerPixel c) (fInputFormat c)
    (fMasks c) t (fNumColors c) (fBytesPerColor c) (fOffset c) (fRowOrder c)
    (fRLEBytes c) (fIsIco c).

Definition setNumColors (c : SkBmpCodec) (n : Z) : SkBmpCodec :=
  mkBmpCodec (fInfo c) (fNeedsRewind c) (fBitsPerPixel c) (fInputFormat c)
    (fMasks c) (fColorTable c) n (fBytesPerColor c) (fOffset c) (fRowOrder c)
    (fRLEBytes c) (fIsIco c).

Definition setNeedsRewind (c : SkBmpCodec) (b : bool) : SkBmpCodec :=
  mkBmpCodec (fInfo c) b (fBitsPerPixel c) (fInputFormat c)
    (fMasks c) (fColorTable c) (fNumColors c) (fBytesPerColor c) (fOffset c)
    (fRowOrder c) (fRLEBytes c) (fIsIco c).

(** The packing function chosen by alpha type; none for the other alpha types,
    where the source holds a null function pointer. *)
Definition choosePack (alphaType : SkAlphaType) : option (Z -> Z -> Z -> Z -> Z) :=
  match alphaType with
  | kOpaque_SkAlphaType | kUnpremul_SkAlphaType => Some SkPackARGB32NoCheck
  | kPremul_SkAlphaType => Some SkPreMultiplyARGB
  | _ => None
  end.

(** One entry of the colour table, lines 602-608. *)
Definition colorEntry (c : SkBmpCodec) (alphaType : SkAlphaType)
    (packARGB : Z -> Z -> Z -> Z -> Z) (cBuffer : list Z) (i : Z) : Z :=
  let blue := get_byte cBuffer (wrap32u (i * fBytesPerColor c)) in
  let green := get_byte cBuffer (wrap32u (i * fBytesPerColor c + 1)) in
  let red := get_byte cBuffer (wrap32u (i * fBytesPerColor c + 2)) in
  let alpha :=
    if SkAlphaType_eqb kOpaque_SkAlphaType alphaType then 0xFF
    else Z.land (Z.shiftr (getAlphaMask (fMasks c)) 24)
                (get_byte cBuffer (wrap32u (i * fBytesPerColor c + 3))) in
  packARGB alpha red green blue.

(** [SkBmpCodec::createColorTable]: the value returned, the codec and the
    stream.  The outer [None] is the call through the null packing pointer. *)
Definition createColorTable (c : SkBmpCodec) (stream : SkStream)
    (alphaType : SkAlphaType) : option (bool * SkBmpCodec * SkStream) :=
  '(ok, colorBytes, maxColors, colorTable, c, stream) <-
    (if fBitsPerPixel c <=? 8 then
       let maxColors := wrap32u (Z.shiftl 1 (fBitsPerPixel c)) in
       let c :=
         if (fNumColors c =? 0) || (fNumColors c >=? maxColors)
         then setNumColors c maxColors else c in
       let colorBytes := wrap32u (fNumColors c * fBytesPerColor c) in
       let '(cBuffer, stream) := stream_read stream colorBytes in
       if negb (Z.of_nat (length cBuffer) =? colorBytes)
       then Some (false, colorBytes, maxColors, [], c, stream)
       else
         match choosePack alphaType with
         | None =>
             if 0 <? fNumColors c then None
             else Some (true, colorBytes, maxColors,
                        repeat (SkPackARGB32NoCheck 0xFF 0 0 0)
                          (Z.to_nat maxColors), c, stream)
         | Some packARGB =>
             Some (true, colorBytes, maxColors,
                   map (fun i => colorEntry c alphaType packARGB cBuffer (Z.of_nat i))
                     (seq 0 (Z.to_nat (fNumColors c)))
                   ++ repeat (SkPackARGB32NoCheck 0xFF 0 0 0)
                        (Z.to_nat (maxColors - fNumColors c)),
                   c, stream)
         end
     else Some (true, 0, 0, [], c, stream)) ;;
  if negb ok then Some (false, c, stream)
  else if negb (fIsIco c) then
    if fOffset c <? colorBytes then Some (false, c, stream)
    else
      let '(skipped, stream) := stream_skip stream (wrap32u (fOffset c - colorBytes)) in
      if negb (skipped =? wrap32u (fOffset c - colorBytes))
      then Some (false, c, stream)
      else Some (true, setColorTable c (Some colorTable), stream)
  else Some (true, setColorTable c (Some colorTable), stream).

(** The colours an engine reads; engines run after [createColorTable] has set
    the table. *)
Definition colorsOf (c : SkBmpCodec) : list Z :=
  match fColorTable c with
  | Some t => t
  | None => []
  end.

(** The destination row of source row [y]. *)
Definition dstRowOf (c : SkBmpCodec) (height y : Z) : Z :=
  match fRowOrder c with
  | kBottomUp_RowOrder => wrap32s (height - 1 - y)
  | kTopDown_RowOrder => y
  end.

(** *** The bit-mask engine *)

(** Modelled from the spec: [SkMaskSwizzler::next(srcRow, row)], which is not
    among the sources: the converted row goes to [dst + row * dstRowBytes]. *)
Definition maskSwizzler_next (info : SkImageInfo) (dstRowBytes : Z)
    (masks : SkMasks) (bitsPerPixel : Z) (srcRow : list Z) (row : Z)
    (dst : Buffer) : ResultAlpha * Buffer :=
  let '(out, r) := mask_row info masks bitsPerPixel srcRow in
  (r, store_bytes dst (row * dstRowBytes) out).

(** Lines 667-683: the first pass over [n] more rows from row [y]; the rows read
    so far are kept in [srcBuffer], oldest first.  [inl] is the early return,
    [None] the use of a null swizzler. *)
Fixpoint decodeMaskRows (c : SkBmpCodec) (dstInfo : SkImageInfo)
    (dstRowBytes rowBytes : Z) (n : nat) (y : Z) (transparent : bool)
    (srcBuffer : list (list Z)) (stream : SkStream) (dst : Buffer)
  : option ((Result * SkStream * Buffer)
            + (bool * list (list Z) * SkStream * Buffer)) :=
  match n with
  | O => Some (inr (transparent, srcBuffer, stream, dst))
  | S n' =>
      let '(srcRow, stream) := stream_read stream rowBytes in
      if negb (Z.of_nat (length srcRow) =? rowBytes)
      then Some (inl (kIncompleteInput, stream, dst))
      else if negb (CreateMaskSwizzler_ok dstInfo dstRowBytes (fMasks c)
                      (fBitsPerPixel c))
      then None
      else
        let row := dstRowOf c (height dstInfo) y in
        let '(r, dst) :=
          maskSwizzler_next dstInfo dstRowBytes (fMasks c) (fBitsPerPixel c)
            srcRow row dst in
        decodeMaskRows c dstInfo dstRowBytes rowBytes n' (wrap32s (y + 1))
          (transparent && IsTransparent r) (srcBuffer ++ [srcRow]) stream dst
  end.

(** Lines 693-701: the second pass, over the buffered rows. *)
Fixpoint opaqueMaskRows (c : SkBmpCodec) (opaqueInfo : SkImageInfo)
    (dstRowBytes : Z) (srcBuffer : list (list Z)) (y : Z) (dst : Buffer)
  : option Buffer :=
  match srcBuffer with
  | [] => Some dst
  | srcRow :: rest =>
      if negb (CreateMaskSwizzler_ok opaqueInfo dstRowBytes (fMasks c)
                 (fBitsPerPixel c))
      then None
      else
        let row := dstRowOf c (height opaqueInfo) y in
        let '(_, dst) :=
          maskSwizzler_next opaqueInfo dstRowBytes (fMasks c) (fBitsPerPixel c)
            srcRow row dst in
        opaqueMaskRows c opaqueInfo dstRowBytes rest (wrap32s (y + 1)) dst
  end.

(** [SkBmpCodec::decodeMask]; [None] where the source uses a null swizzler. *)
Definition decodeMask (c : SkBmpCodec) (stream : SkStream) (dstInfo : SkImageInfo)
    (dst : Buffer) (dstRowBytes : Z) : option (Result * SkStream * Buffer) :=
  let height := height dstInfo in
  let rowBytes := SkAlign4 (compute_row_bytes (width dstInfo) (fBitsPerPixel c)) in
  pass <- decodeMaskRows c dstInfo dstRowBytes rowBytes (Z.to_nat height) 0
            true [] stream dst ;;
  match pass with
  | inl early => Some early
  | inr (transparent, srcBuffer, stream, dst) =>
      if transparent then
        let opaqueInfo := makeAlphaType dstInfo kOpaque_SkAlphaType in
        dst <- opaqueMaskRows c opaqueInfo dstRowBytes srcBuffer 0 dst ;;
        Some (kSuccess, stream, dst)
      else Some (kSuccess, stream, dst)
  end.

(** *** The RLE engine *)

Definition RLE_ESCAPE : Z := 0.
Definition RLE_EOL : Z := 0.
Definition RLE_EOF : Z := 1.
Definition RLE_DELTA : Z := 2.

(** The destination row of [setRLEPixel] and [setRLE24Pixel], whose [y] is a
    [uint32_t]. *)
Definition rleRow (c : SkBmpCodec) (dstInfo : SkImageInfo) (y : Z) : Z :=
  match fRowOrder c with
  | kBottomUp_RowOrder => wrap32s (height dstInfo - wrap32u y - 1)
  | kTopDown_RowOrder => wrap32s (wrap32u y)
  end.

(** [SkBmpCodec::setRLEPixel] *)
Definition setRLEPixel (c : SkBmpCodec) (dst : Buffer) (dstRowBytes : Z)
    (dstInfo : SkImageInfo) (x y index : Z) : Buffer :=
  let row := rleRow c dstInfo y in
  let dstRow := wrap32s (row * wrap32s dstRowBytes) in
  match colorType dstInfo with
  | kN32_SkColorType =>
      store32 dst (dstRow + 4 * wrap32u x) (nth (Z.to_nat index) (colorsOf c) 0)
  | kRGB_565_SkColorType =>
      store16 dst (dstRow + 2 * wrap32u x)
        (SkPixel32ToPixel16 (nth (Z.to_nat index) (colorsOf c) 0))
  | _ => dst
  end.

(** [SkBmpCodec::setRLE24Pixel] *)
Definition setRLE24Pixel (c : SkBmpCodec) (dst : Buffer) (dstRowBytes : Z)
    (dstInfo : SkImageInfo) (x y red green blue : Z) : Buffer :=
  let row := rleRow c dstInfo y in
  let dstRow := wrap32s (row * wrap32s dstRowBytes) in
  match colorType dstInfo with
  | kN32_SkColorType =>
      store32 dst (dstRow + 4 * wrap32u x) (SkPackARGB32NoCheck 0xFF red green blue)
  | kRGB_565_SkColorType =>
      store16 dst (dstRow + 2 * wrap32u x) (SkPack888ToRGB16 red green blue)
  | _ => dst
  end.

(** The variables of the opcode loop of [decodeRLE]. *)
Record RleState := mkRle { rx : Z; ry : Z; currByte : Z; rdst : Buffer }.

(** What one pass through the loop body does: go round again, or return. *)
Inductive Step :=
| Continue (s : RleState)
| Return (r : Result) (s : RleState).

(** Lines 888-922: the loop [while (numPixels > 0)] of an absolute run.  The
    case for 24 bits has no [break] and runs into the default case. *)
Fixpoint absoluteRun (c : SkBmpCodec) (dstInfo : SkImageInfo) (dstRowBytes : Z)
    (buffer : list Z) (numPixels : nat) (s : RleState) : Step :=
  match numPixels with
  | O => Continue s
  | S n1 =>
      if fBitsPerPixel c =? 4 then
        let val := get_byte buffer (currByte s) in
        let curr := wrap32u (currByte s + 1) in
        let d1 := setRLEPixel c (rdst s) dstRowBytes dstInfo (rx s) (ry s)
                    (Z.shiftr val 4) in
        let x1 := wrap32s (rx s + 1) in
        match n1 with
        | O => Continue (mkRle x1 (ry s) curr d1)
        | S n2 =>
            let d2 := setRLEPixel c d1 dstRowBytes dstInfo x1 (ry s)
                        (Z.land val 0xF) in
            absoluteRun c dstInfo dstRowBytes buffer n2
              (mkRle (wrap32s (x1 + 1)) (ry s) curr d2)
        end
      else if fBitsPerPixel c =? 8 then
        let d1 := setRLEPixel c (rdst s) dstRowBytes dstInfo (rx s) (ry s)
                    (get_byte buffer (currByte s)) in
        absoluteRun c dstInfo dstRowBytes buffer n1
          (mkRle (wrap32s (rx s + 1)) (ry s) (wrap32u (currByte s + 1)) d1)
      else if fBitsPerPixel c =? 24 then
        let blue := get_byte buffer (currByte s) in
        let green := get_byte buffer (wrap32u (currByte s + 1)) in
        let red := get_byte buffer (wrap32u (currByte s + 2)) in
        let d1 := setRLE24Pixel c (rdst s) dstRowBytes dstInfo (rx s) (ry s)
                    red green blue in
        Return kInvalidInput
          (mkRle (wrap32s (rx s + 1)) (ry s) (wrap32u (currByte s + 3)) d1)
      else Return kInvalidInput s
  end.

(** Lines 949-952: [while (x < endX)] of a 24-bit run, [n] pixels to go. *)
Fixpoint fillRun24 (c : SkBmpCodec) (dstInfo : SkImageInfo) (dstRowBytes : Z)
    (red green blue : Z) (n : nat) (x y : Z) (dst : Buffer) : Z * Buffer :=
  match n with
  | O => (x, dst)
  | S n' =>
      fillRun24 c dstInfo dstRowBytes red green blue n' (wrap32s (x + 1)) y
        (setRLE24Pixel c dst dstRowBytes dstInfo x y red green blue)
  end.

(** Lines 966-970: the loop over [x < endX] of an indexed run; [which] selects
    among the two indices. *)
Fixpoint fillRun (c : SkBmpCodec) (dstInfo : SkImageInfo) (dstRowBytes : Z)
    (index0 index1 : Z) (which : bool) (n : nat) (x y : Z) (dst : Buffer)
  : Z * Buffer :=
  match n with
  | O => (x, dst)
  | S n' =>
      fillRun c dstInfo dstRowBytes index0 index1 (negb which) n'
        (wrap32s (x + 1)) y
        (setRLEPixel c dst dstRowBytes dstInfo x y
           (if which then index1 else index0))
  end.

(** Lines 825-972: one pass through the body of [while (true)]. *)
Definition rleStep (c : SkBmpCodec) (dstInfo : SkImageInfo) (dstRowBytes : Z)
    (buffer : list Z) (totalBytes : Z) (s : RleState) : Step :=
  let width := width dstInfo in
  let height := height dstInfo in
  if wrap32u (totalBytes - currByte s) <? 2 then Return kIncompleteInput s
  else
    let flag := get_byte buffer (currByte s) in
    let task := get_byte buffer (wrap32u (currByte s + 1)) in
    let curr := wrap32u (currByte s + 2) in
    let x := rx s in
    let y := ry s in
    let dst := rdst s in
    if (y >=? height) && (negb (flag =? RLE_ESCAPE) || negb (task =? RLE_EOF))
    then Return kIncompleteInput (mkRle x y curr dst)
    else if RLE_ESCAPE =? flag then
      if task =? RLE_EOL then Continue (mkRle 0 (wrap32s (y + 1)) curr dst)
      else if task =? RLE_EOF then Return kSuccess (mkRle x y curr dst)
      else if task =? RLE_DELTA then
        if wrap32u (totalBytes - curr) <? 2
        then Return kIncompleteInput (mkRle x y curr dst)
        else
          let dx := get_byte buffer curr in
          let dy := get_byte buffer (wrap32u (curr + 1)) in
          let curr := wrap32u (curr + 2) in
          let x := wrap32s (x + dx) in
          let y := wrap32s (y + dy) in
          if (x >? width) || (y >? height)
          then Return kIncompleteInput (mkRle x y curr dst)
          else Continue (mkRle x y curr dst)
      else
        let numPixels := task in
        let rowBytes := compute_row_bytes numPixels (fBitsPerPixel c) in
        if (wrap32s (x + numPixels) >? width)
           || (wrap32u (totalBytes - curr) <? SkAlign2 rowBytes)
        then Return kIncompleteInput (mkRle x y curr dst)
        else
          match absoluteRun c dstInfo dstRowBytes buffer (Z.to_nat numPixels)
                  (mkRle x y curr dst) with
          | Return r s' => Return r s'
          | Continue s' =>
              if negb (SkIsAlign2 rowBytes)
              then Continue (mkRle (rx s') (ry s') (wrap32u (currByte s' + 1))
                               (rdst s'))
              else Continue s'
          end
    else
      let numPixels := flag in
      let endX := Z.min (wrap32s (x + numPixels)) width in
      if 24 =? fBitsPerPixel c then
        if wrap32u (totalBytes - curr) <? 2
        then Return kIncompleteInput (mkRle x y curr dst)
        else
          let blue := task in
          let green := get_byte buffer curr in
          let red := get_byte buffer (wrap32u (curr + 1)) in
          let curr := wrap32u (curr + 2) in
          let '(x, dst) :=
            fillRun24 c dstInfo dstRowBytes red green blue (Z.to_nat (endX - x))
              x y dst in
          Continue (mkRle x y curr dst)
      else
        let index0 := if 4 =? fBitsPerPixel c then Z.shiftr task 4 else task in
        let index1 := if 4 =? fBitsPerPixel c then Z.land task 0xf else task in
        let '(x, dst) :=
          fillRun c dstInfo dstRowBytes index0 index1 false (Z.to_nat (endX - x))
            x y dst in
        Continue (mkRle x y curr dst).

(** The loop [while (true)], at most [fuel] passes; [None] when they do not
    reach a [return]. *)
Fixpoint rleLoop (c : SkBmpCodec) (dstInfo : SkImageInfo) (dstRowBytes : Z)
    (buffer : list Z) (totalBytes : Z) (fuel : nat) (s : RleState)
  : option (Result * RleState) :=
  match fuel with
  | O => None
  | S fuel' =>
      match rleStep c dstInfo dstRowBytes buffer totalBytes s with
      | Return r s' => Some (r, s')
      | Continue s' => rleLoop c dstInfo dstRowBytes buffer totalBytes fuel' s'
      end
  end.

(** [SkBmpCodec::decodeRLE].  Every pass of the loop takes two bytes or more of
    the buffer, so [totalBytes] passes and one more reach a [return]. *)
Definition decodeRLE (c : SkBmpCodec) (stream : SkStream) (dstInfo : SkImageInfo)
    (dst : Buffer) (dstRowBytes : Z) : option (Result * SkStream * Buffer) :=
  let height := height dstInfo in
  let '(buffer, stream) := stream_read stream (fRLEBytes c) in
  let totalBytes := Z.of_nat (length buffer) in
  if negb (totalBytes <? fRLEBytes c) && (totalBytes <=? 0)
  then Some (kInvalidInput, stream, dst)
  else
    let dst := memset dst 0 (wrap64u (dstRowBytes * wrap64u height)) in
    match rleLoop c dstInfo dstRowBytes buffer totalBytes
            (S (Z.to_nat totalBytes)) (mkRle 0 0 0 dst) with
    | Some (r, s) => Some (r, stream, rdst s)
    | None => None
    end.

(** *** The standard engine *)

(** The swizzler configuration of lines 988-1016. *)
Definition standardConfig (c : SkBmpCodec) (dstInfo : SkImageInfo)
  : option SrcConfig :=
  if fBitsPerPixel c =? 1 then Some kIndex1
  else if fBitsPerPixel c =? 2 then Some kIndex2
  else if fBitsPerPixel c =? 4 then Some kIndex4
  else if fBitsPerPixel c =? 8 then Some kIndex
  else if fBitsPerPixel c =? 24 then Some kBGR
  else if fBitsPerPixel c =? 32 then
    if SkAlphaType_eqb kOpaque_SkAlphaType (alphaType dstInfo)
    then Some kBGRX else Some kBGRA
  else None.

(** Lines 1028-1047: the colour rows, [n] more from row [y].  [inl] is the
    early return, [None] the use of a null swizzler. *)
Fixpoint decodeRows (c : SkBmpCodec) (dstInfo : SkImageInfo)
    (swizzler : option SkSwizzler) (rowBytes : Z) (n : nat) (y : Z)
    (stream : SkStream) (dst : Buffer)
  : option ((Result * SkStream * Buffer) + (SkStream * Buffer)) :=
  match n with
  | O => Some (inr (stream, dst))
  | S n' =>
      let '(srcBuffer, stream) := stream_read stream rowBytes in
      if negb (Z.of_nat (length srcBuffer) =? rowBytes)
      then Some (inl (kIncompleteInput, stream, dst))
      else
        sw <- swizzler ;;
        let row :=
          match fRowOrder c with
          | kTopDown_RowOrder => wrap32u y
          | kBottomUp_RowOrder => wrap32u (height dstInfo - 1 - y)
          end in
        '(_, sw, dst) <- swizzler_next_row sw srcBuffer row dst ;;
        decodeRows c dstInfo (Some sw) rowBytes n' (wrap32s (y + 1)) stream dst
  end.

(** Lines 1097-1105: the AND mask along one row, [n] more pixels from [x]. *)
Fixpoint applyMaskRow (srcBuffer : list Z) (dstRow : Z) (n : nat) (x : Z)
    (dst : Buffer) : Buffer :=
  match n with
  | O => dst
  | S n' =>
      let quotient := Z.quot x 8 in
      let modulus := Z.rem x 8 in
      let shift := wrap32u (7 - modulus) in
      let alphaBit := Z.land (Z.shiftr (get_byte srcBuffer quotient) shift) 0x1 in
      let addr := dstRow + 4 * x in
      let dst := store32 dst addr (Z.land (load32 dst addr) (wrap32u (alphaBit - 1))) in
      applyMaskRow srcBuffer dstRow n' (wrap32s (x + 1)) dst
  end.

(** Lines 1080-1106: the rows of the AND mask, [n] more from row [y]. *)
Fixpoint applyAndMask (c : SkBmpCodec) (dstInfo : SkImageInfo)
    (dstRowBytes rowBytes : Z) (n : nat) (y : Z) (stream : SkStream)
    (dst : Buffer) : Result * SkStream * Buffer :=
  match n with
  | O => (kSuccess, stream, dst)
  | S n' =>
      let '(srcBuffer, stream) := stream_read stream rowBytes in
      if negb (Z.of_nat (length srcBuffer) =? rowBytes)
      then (kIncompleteInput, stream, dst)
      else
        let row :=
          match fRowOrder c with
          | kBottomUp_RowOrder => wrap32s (height dstInfo - y - 1)
          | kTopDown_RowOrder => y
          end in
        let dstRow := wrap64u (row * dstRowBytes) in
        let dst := applyMaskRow srcBuffer dstRow (Z.to_nat (width dstInfo)) 0 dst in
        applyAndMask c dstInfo dstRowBytes rowBytes n' (wrap32s (y + 1)) stream dst
  end.

(** [SkBmpCodec::decode] *)
Definition decode (c : SkBmpCodec) (stream : SkStream) (dstInfo : SkImageInfo)
    (dst : Buffer) (dstRowBytes : Z) : option (Result * SkStream * Buffer) :=
  let width := width dstInfo in
  let height := height dstInfo in
  let rowBytes := SkAlign4 (compute_row_bytes width (fBitsPerPixel c)) in
  match standardConfig c dstInfo with
  | None => Some (kInvalidInput, stream, dst)
  | Some config =>
      let swizzler :=
        CreateSwizzler config (Some (colorsOf c)) dstInfo (Some 0) dstRowBytes
          kNo_ZeroInitialized in
      pass <- decodeRows c dstInfo swizzler rowBytes (Z.to_nat height) 0 stream dst ;;
      match pass with
      | inl early => Some early
      | inr (stream, dst) =>
          if fIsIco c then
            let rowBytes := SkAlign4 (compute_row_bytes width 1) in
            Some (applyAndMask c dstInfo dstRowBytes rowBytes (Z.to_nat height) 0
                    stream dst)
          else Some (kSuccess, stream, dst)
      end
  end.

(** *** [SkBmpCodec::onGetPixels] *)

Definition onGetPixels (c : SkBmpCodec) (stream : SkStream) (dstInfo : SkImageInfo)
    (dst : Buffer) (dstRowBytes : Z)
  : option (Result * SkBmpCodec * SkStream * Buffer) :=
  let '(rewound, needsRewind, stream) := rewindIfNeeded (fNeedsRewind c) stream in
  let c := setNeedsRewind c needsRewind in
  if negb rewound then Some (kCouldNotRewind, c, stream, dst)
  else if negb (dimensions_eqb dstInfo (fInfo c))
  then Some (kInvalidScale, c, stream, dst)
  else if negb (conversion_possible dstInfo (fInfo c))
  then Some (kInvalidConversion, c, stream, dst)
  else
    '(created, c, stream) <- createColorTable c stream (alphaType dstInfo) ;;
    if negb created then Some (kInvalidInput, c, stream, dst)
    else
      '(r, stream, dst) <-
        match fInputFormat c with
        | kBitMask_BitmapInputFormat => decodeMask c stream dstInfo dst dstRowBytes
        | kRLE_BitmapInputFormat => decodeRLE c stream dstInfo dst dstRowBytes
        | kStandard_BitmapInputFormat => decode c stream dstInfo dst dstRowBytes
        | _ => Some (kInvalidInput, stream, dst)
        end ;;
      Some (r, c, stream, dst).

End Codec.

End Bmp.

(** * The PNG decoder *)

Module Png.

Definition PNG_COLOR_TYPE_GRAY : Z := 0.
Definition PNG_COLOR_TYPE_RGB : Z := 2.
Definition PNG_COLOR_TYPE_PALETTE : Z := 3.
Definition PNG_COLOR_TYPE_GRAY_ALPHA : Z := 4.
Definition PNG_COLOR_TYPE_RGB_ALPHA : Z := 6.
Definition PNG_INTERLACE_NONE : Z := 0.
Definition INVALID_NUMBER_PASSES : Z := -1.

Definition conversion_possible (dst src : SkImageInfo) : bool :=
  if negb (SkColorType_eqb (colorType dst) (colorType src)) then false
  else if negb (SkColorProfileType_eqb (profileType dst) (profileType src))
  then false
  else if SkAlphaType_eqb (alphaType dst) (alphaType src) then true
  else SkAlphaType_eqb kPremul_SkAlphaType (alphaType dst)
       && SkAlphaType_eqb kUnpremul_SkAlphaType (alphaType src).

(** The outcome of a row loop: the use of a null pointer, a [longjmp], or the
    state at the end of the loop. *)
Inductive Rows (A : Type) :=
| Crash
| LongJmp (a : A)
| Done (a : A).
Arguments Crash {A}.
Arguments LongJmp {A} a.
Arguments Done {A} a.

Section Codec.
Context {X : Externals}.

Record SkPngCodec := mkPngCodec {
  fInfo : SkImageInfo;
  fStream : SkStream;
  fNeedsRewind : bool;
  fPng_ptr : png_struct;
  fSrcConfig : SrcConfig;
  fNumberPasses : Z;
  fReallyHasAlpha : bool;
  fColorTable : option (list Z);
  fSwizzler : option SkSwizzler
}.

Definition setPng (c : SkPngCodec) (png : png_struct) : SkPngCodec :=
  mkPngCodec (fInfo c) (fStream c) (fNeedsRewind c) png (fSrcConfig c)
    (fNumberPasses c) (fReallyHasAlpha c) (fColorTable c) (fSwizzler c).

Definition setSrcConfig (c : SkPngCodec) (config : SrcConfig) : SkPngCodec :=
  mkPngCodec (fInfo c) (fStream c) (fNeedsRewind c) (fPng_ptr c) config
    (fNumberPasses c) (fReallyHasAlpha c) (fColorTable c) (fSwizzler c).

Definition setNumberPasses (c : SkPngCodec) (n : Z) : SkPngCodec :=
  mkPngCodec (fInfo c) (fStream c) (fNeedsRewind c) (fPng_ptr c) (fSrcConfig c)
    n (fReallyHasAlpha c) (fColorTable c) (fSwizzler c).

Definition setReallyHasAlpha (c : SkPngCodec) (b : bool) : SkPngCodec :=
  mkPngCodec (fInfo c) (fStream c) (fNeedsRewind c) (fPng_ptr c) (fSrcConfig c)
    (fNumberPasses c) b (fColorTable c) (fSwizzler c).

Definition setColorTable (c : SkPngCodec) (t : option (list Z)) : SkPngCodec :=
  mkPngCodec (fInfo c) (fStream c) (fNeedsRewind c) (fPng_ptr c) (fSrcConfig c)
    (fNumberPasses c) (fReallyHasAlpha c) t (fSwizzler c).

Definition setSwizzler (c : SkPngCodec) (sw : option SkSwizzler) : SkPngCodec :=
  mkPngCodec (fInfo c) (fStream c) (fNeedsRewind c) (fPng_ptr c) (fSrcConfig c)
    (fNumberPasses c) (fReallyHasAlpha c) (fColorTable c) sw.

Definition setRewind (c : SkPngCodec) (needs : bool) (stream : SkStream)
  : SkPngCodec :=
  mkPngCodec (fInfo c) stream needs (fPng_ptr c) (fSrcConfig c)
    (fNumberPasses c) (fReallyHasAlpha c) (fColorTable c) (fSwizzler c).

(** [has_transparency_in_palette] *)
Definition has_transparency_in_palette (png : png_struct) : bool :=
  if negb (png_valid_tRNS png) then false
  else Z.of_nat (length (png_get_tRNS png)) >? 0.

(** The value of [transLessThanFF] after the loop of lines 161-165 over the
    transparency entries [trans]. *)
Definition transLessThanFF (trans : list Z) : Z :=
  fold_left (fun acc t => Z.lor acc (wrap8u t - 0xFF)) trans 0.

(** [SkPngCodec::decodePalette].  The colour duplicated into the spare slot is
    the last one stored; with no colour stored the source reads before the
    array, and the model takes 0. *)
Definition decodePalette (c : SkPngCodec) (premultiply : bool)
  : bool * SkPngCodec :=
  match png_get_PLTE (fPng_ptr c) with
  | None => (false, c)
  | Some palette =>
      let numPalette := Z.of_nat (length palette) in
      let colorCount := numPalette + (if numPalette <? 256 then 1 else 0) in
      let trans :=
        if png_valid_tRNS (fPng_ptr c) then png_get_tRNS (fPng_ptr c) else [] in
      let numTrans := Z.of_nat (length trans) in
      let numTrans := if numTrans >? numPalette then numPalette else numTrans in
      let proc := if premultiply then SkPreMultiplyARGB else SkPackARGB32NoCheck in
      let withTrans :=
        map (fun tp : Z * (Z * Z * Z) =>
               let '(t, (r, g, b)) := tp in proc (wrap8u t) r g b)
          (combine (firstn (Z.to_nat numTrans) trans)
                   (firstn (Z.to_nat numTrans) palette)) in
      let c :=
        setReallyHasAlpha c
          (transLessThanFF (firstn (Z.to_nat numTrans) trans) <? 0) in
      let opaque :=
        map (fun p : Z * Z * Z => let '(r, g, b) := p in SkPackARGB32 0xFF r g b)
          (skipn (Z.to_nat numTrans) palette) in
      let colors := withTrans ++ opaque in
      let colors :=
        if numPalette <? 256 then colors ++ [last colors 0] else colors in
      (true, setColorTable c (Some (firstn (Z.to_nat colorCount) colors)))
  end.

(** [SkPngCodec::initializeSwizzler]; a [longjmp] out of libpng lands on the
    [setjmp] at the top and returns [kInvalidInput]. *)
Definition initializeSwizzler (c : SkPngCodec) (requestedInfo : SkImageInfo)
    (dst : option Z) (rowBytes : Z) (zero : ZeroInitialized)
  : Result * SkPngCodec :=
  let '(origWidth, origHeight, bitDepth, pngColorType, interlaceType) :=
    png_get_IHDR (fPng_ptr c) in
  let c :=
    if negb (interlaceType =? PNG_INTERLACE_NONE) then
      let '(passes, png) := png_set_interlace_handling (fPng_ptr c) in
      setNumberPasses (setPng c png) passes
    else setNumberPasses c 1 in
  let c := setReallyHasAlpha c false in
  let '(paletteOk, c) :=
    if PNG_COLOR_TYPE_PALETTE =? pngColorType then
      decodePalette (setSrcConfig c kIndex)
        (SkAlphaType_eqb kPremul_SkAlphaType (alphaType requestedInfo))
    else if SkColorType_eqb kAlpha_8_SkColorType (colorType requestedInfo) then
      (true, setSrcConfig c kGray)
    else if SkAlphaType_eqb (alphaType (fInfo c)) kOpaque_SkAlphaType then
      (true, setSrcConfig c kRGBX)
    else (true, setSrcConfig c kRGBA) in
  if negb paletteOk then (kInvalidInput, c)
  else
    let c :=
      setSwizzler c
        (CreateSwizzler (fSrcConfig c) (fColorTable c) requestedInfo dst
           rowBytes zero) in
    match fSwizzler c with
    | None => (kUnimplemented, c)
    | Some _ =>
        match png_read_update_info (fPng_ptr c) with
        | None => (kInvalidInput, c)
        | Some png => (kSuccess, setPng c png)
        end
    end.

(** Lines 456-460: one pass of an interlaced image over the rows of the
    storage; [None] is a [longjmp] out of libpng. *)
Fixpoint readPass (png : png_struct) (rows : list (list Z))
  : option (png_struct * list (list Z)) :=
  match rows with
  | [] => Some (png, [])
  | bmRow :: rest =>
      '(png, bmRow) <- png_read_row png bmRow ;;
      '(png, rest) <- readPass png rest ;;
      Some (png, bmRow :: rest)
  end.

(** Lines 454-461: [n] more passes. *)
Fixpoint readPasses (n : nat) (png : png_struct) (rows : list (list Z))
  : option (png_struct * list (list Z)) :=
  match n with
  | O => Some (png, rows)
  | S n' =>
      '(png, rows) <- readPass png rows ;;
      readPasses n' png rows
  end.

(** Lines 465-468: the swizzling pass over the assembled rows. *)
Fixpoint swizzleRows (rows : list (list Z)) (sw : SkSwizzler)
    (reallyHasAlpha : bool) (dst : Buffer)
  : option (SkSwizzler * bool * Buffer) :=
  match rows with
  | [] => Some (sw, reallyHasAlpha, dst)
  | row :: rest =>
      '(r, sw, dst) <- swizzler_next sw row dst ;;
      swizzleRows rest sw (reallyHasAlpha || negb (IsOpaque r)) dst
  end.

(** Lines 472-475: the rows of a non-interlaced image, [n] more. *)
Fixpoint readAndSwizzleRows (n : nat) (png : png_struct) (srcRow : list Z)
    (sw : SkSwizzler) (reallyHasAlpha : bool) (dst : Buffer)
  : Rows (png_struct * SkSwizzler * bool * Buffer) :=
  match n with
  | O => Done (png, sw, reallyHasAlpha, dst)
  | S n' =>
      match png_read_row png srcRow with
      | None => LongJmp (png, sw, reallyHasAlpha, dst)
      | Some (png, srcRow) =>
          match swizzler_next sw srcRow dst with
          | None => Crash
          | Some (r, sw, dst) =>
              readAndSwizzleRows n' png srcRow sw
                (reallyHasAlpha || negb (IsOpaque r)) dst
          end
      end
  end.

(** Cuts a block of storage into [n] rows of [rowBytes] bytes. *)
Fixpoint rowsOf (n : nat) (rowBytes : nat) (block : list Z) : list (list Z) :=
  match n with
  | O => []
  | S n' => firstn rowBytes block :: rowsOf n' rowBytes (skipn rowBytes block)
  end.

(** [SkPngCodec::finish]: a [longjmp] out of [png_read_end] is a success. *)
Definition finish (c : SkPngCodec) : SkPngCodec :=
  match png_read_end (fPng_ptr c) with
  | Some png => setPng c png
  | None => c
  end.

(** [SkPngCodec::onGetPixels]; [None] is the use of a null pointer. *)
Definition onGetPixels (c : SkPngCodec) (requestedInfo : SkImageInfo)
    (dst : Buffer) (rowBytes : Z) (zero : ZeroInitialized)
  : option (Result * SkPngCodec * Buffer) :=
  let '(rewound, needsRewind, stream) :=
    rewindIfNeeded (fNeedsRewind c) (fStream c) in
  let c := setRewind c needsRewind stream in
  if negb rewound then Some (kCouldNotRewind, c, dst)
  else if negb (dimensions_eqb requestedInfo (fInfo c))
  then Some (kInvalidScale, c, dst)
  else if negb (conversion_possible requestedInfo (fInfo c))
  then Some (kInvalidConversion, c, dst)
  else
    let '(result, c) :=
      initializeSwizzler c requestedInfo (Some 0) rowBytes zero in
    match result with
    | kSuccess =>
        sw <- fSwizzler c ;;
        if fNumberPasses c >? 1 then
          let width := width requestedInfo in
          let height := height requestedInfo in
          let bpp := BytesPerPixel (fSrcConfig c) in
          let srcRowBytes := width * bpp in
          let storage :=
            rowsOf (Z.to_nat height) (Z.to_nat srcRowBytes)
              (fresh_storage (width * height * bpp)) in
          match readPasses (Z.to_nat (fNumberPasses c)) (fPng_ptr c) storage with
          | None => Some (kInvalidInput, c, dst)
          | Some (png, storage) =>
              '(sw, reallyHasAlpha, dst) <-
                swizzleRows storage sw (fReallyHasAlpha c) dst ;;
              let c :=
                setSwizzler (setReallyHasAlpha (setPng c png) reallyHasAlpha)
                  (Some sw) in
              Some (kSuccess, finish c, dst)
          end
        else
          let srcRow :=
            fresh_storage (width requestedInfo * BytesPerPixel (fSrcConfig c)) in
          match readAndSwizzleRows (Z.to_nat (height requestedInfo)) (fPng_ptr c)
                  srcRow sw (fReallyHasAlpha c) dst with
          | Crash => None
          | LongJmp (png, sw, reallyHasAlpha, dst) =>
              Some (kInvalidInput,
                    setSwizzler (setReallyHasAlpha (setPng c png) reallyHasAlpha)
                      (Some sw),
                    dst)
          | Done (png, sw, reallyHasAlpha, dst) =>
              let c :=
                setSwizzler (setReallyHasAlpha (setPng c png) reallyHasAlpha)
                  (Some sw) in
              Some (kSuccess, finish c, dst)
          end
    | _ => Some (result, c, dst)
    end.

(** The state of an [SkPngScanlineDecoder] after its constructor. *)
Record SkPngScanlineDecoder := mkScanlineDecoder {
  sdDstInfo : SkImageInfo;
  fHasAlpha : bool;
  fSrcRow : list Z
}.

(** [SkPngCodec::onGetScanlineDecoder]; [None] for NULL. *)
Definition onGetScanlineDecoder (c : SkPngCodec) (dstInfo : SkImageInfo)
  : option SkPngScanlineDecoder * SkPngCodec :=
  if negb (dimensions_eqb dstInfo (fInfo c)) then (None, c)
  else if negb (conversion_possible dstInfo (fInfo c)) then (None, c)
  else
    let '(result, c) :=
      initializeSwizzler c dstInfo None (minRowBytes dstInfo)
        kNo_ZeroInitialized in
    match result with
    | kSuccess =>
        if fNumberPasses c >? 1 then (None, c)
        else
          (Some (mkScanlineDecoder dstInfo false
                   (fresh_storage (width dstInfo * BytesPerPixel (fSrcConfig c)))),
           c)
    | _ => (None, c)
    end.

(** The number of passes [initializeSwizzler] finds for the stream of [c]. *)
Definition numberPasses (c : SkPngCodec) : Z :=
  let '(_, _, _, _, interlaceType) := png_get_IHDR (fPng_ptr c) in
  if negb (interlaceType =? PNG_INTERLACE_NONE)
  then fst (png_set_interlace_handling (fPng_ptr c))
  else 1.

(** *** The methods of [SkPngScanlineDecoder] *)

(** Modelled from the spec: [SkSwizzler::setDstRow(dst)], which is not among
    the sources: the swizzler's destination row becomes [dst]. *)
Definition setDstRow (sw : SkSwizzler) (dstRow : Z) : SkSwizzler :=
  mkSwizzler (swConfig sw) (swColors sw) (swInfo sw) (swRowBytes sw) (swZero sw)
    (Some dstRow) (swReported sw).

(** Lines 512-517: [n] more rows into the rows from address [dstRow] on; the
    row is read before the codec's swizzler is used. *)
Fixpoint getScanlineRows (n : nat) (png : png_struct) (srcRow : list Z)
    (swizzler : option SkSwizzler) (hasAlpha : bool) (dstRow rowBytes : Z)
    (dst : Buffer)
  : Rows (png_struct * list Z * option SkSwizzler * bool * Buffer) :=
  match n with
  | O => Done (png, srcRow, swizzler, hasAlpha, dst)
  | S n' =>
      match png_read_row png srcRow with
      | None => LongJmp (png, srcRow, swizzler, hasAlpha, dst)
      | Some (png, srcRow) =>
          match swizzler with
          | None => Crash
          | Some sw =>
              match swizzler_next (setDstRow sw dstRow) srcRow dst with
              | None => Crash
              | Some (r, sw, dst) =>
                  getScanlineRows n' png srcRow (Some sw)
                    (hasAlpha || negb (IsOpaque r)) (dstRow + rowBytes) rowBytes
                    dst
              end
          end
      end
  end.

(** [SkPngScanlineDecoder::onGetScanlines], on the decoder and the codec it
    points to; [dstRow] is the address of [dst].  [None] is the use of a null
    swizzler. *)
Definition onGetScanlines (d : SkPngScanlineDecoder) (c : SkPngCodec)
    (dstRow count rowBytes : Z) (dst : Buffer)
  : option (Result * SkPngScanlineDecoder * SkPngCodec * Buffer) :=
  match getScanlineRows (Z.to_nat count) (fPng_ptr c) (fSrcRow d) (fSwizzler c)
          (fHasAlpha d) dstRow rowBytes dst with
  | Crash => None
  | LongJmp (png, srcRow, sw, hasAlpha, dst) =>
      Some (kInvalidInput, mkScanlineDecoder (sdDstInfo d) hasAlpha srcRow,
            setSwizzler (setPng c png) sw, dst)
  | Done (png, srcRow, sw, hasAlpha, dst) =>
      Some (kSuccess, mkScanlineDecoder (sdDstInfo d) hasAlpha srcRow,
            setSwizzler (setPng c png) sw, dst)
  end.

(** [SkPngScanlineDecoder::onSkipScanlines] *)
Definition onSkipScanlines (c : SkPngCodec) (count : Z) : Result * SkPngCodec :=
  match png_skip_rows (fPng_ptr c) count with
  | None => (kInvalidInput, c)
  | Some png => (kSuccess, setPng c png)
  end.

(** [SkPngScanlineDecoder::onFinish] *)
Definition onFinish (c : SkPngCodec) : SkPngCodec := finish c.

(** [SkPngScanlineDecoder::onReallyHasAlpha] *)
Definition onReallyHasAlpha (d : SkPngScanlineDecoder) : bool := fHasAlpha d.

End Codec.

(** *** The factory, [SkPngCodec::NewFromStream] *)

(** The requests the factory makes to libpng before any row is read. *)
Inductive Transform :=
| strip_16
| packing
| expand_gray_1_2_4_to_8
| gray_to_rgb
| filler_0xff_after.

(** What the factory calls in libpng, beside [Externals]: the creation of the
    read and info structures (null on failure), [png_set_read_fn],
    [png_read_info] ([None] is a [longjmp] out of libpng) and the [png_set_]
    function of each transformation. *)
Class FactoryExternals {X : Externals} := {
  png_create_read_struct : option png_struct;
  png_create_info_struct : png_struct -> option png_struct;
  png_set_read_fn : png_struct -> SkStream -> png_struct;
  png_read_info : png_struct -> option png_struct;
  png_set : Transform -> png_struct -> png_struct
}.

Section Factory.
Context {X : Externals} {F : FactoryExternals}.

(** Lines 203-233: the read and info structures are made, and the chunks
    before the image data are read. *)
Definition readInfo (stream : SkStream) : option png_struct :=
  png <- png_create_read_struct ;;
  png <- png_create_info_struct png ;;
  let png := png_set_read_fn png stream in
  png_read_info png.

(** Modelled from the spec: the product [width * height] of the oversize
    guard; [sk_64_mul] of SkMath.h, which is not among the sources, returns it
    on 64 signed bits. *)
Definition sk_64_mul (a b : Z) : Z := (a * b + 2 ^ 63) mod 2 ^ 64 - 2 ^ 63.

(** Lines 248-262: the transformations asked for before the types are chosen,
    in the order of the calls.  [PNG_READ_PACK_SUPPORTED] is taken as
    defined. *)
Definition transformsOfDepth (bitDepth colorType : Z) : list Transform :=
  (if bitDepth =? 16 then [strip_16] else [])
  ++ (if bitDepth <? 8 then [packing] else [])
  ++ (if (colorType =? PNG_COLOR_TYPE_GRAY) && (bitDepth <? 8)
      then [expand_gray_1_2_4_to_8] else []).

(** Lines 266-304: the default colour type and alpha type. *)
Definition defaultTypes (png : png_struct) (colorType : Z)
  : SkColorType * SkAlphaType :=
  if colorType =? PNG_COLOR_TYPE_PALETTE then
    (kN32_SkColorType,
     if has_transparency_in_palette png
     then kUnpremul_SkAlphaType else kOpaque_SkAlphaType)
  else if colorType =? PNG_COLOR_TYPE_GRAY then
    (kN32_SkColorType, kOpaque_SkAlphaType)
  else
    (kN32_SkColorType,
     if has_transparency_in_palette png
        || (PNG_COLOR_TYPE_RGB_ALPHA =? colorType)
        || (PNG_COLOR_TYPE_GRAY_ALPHA =? colorType)
     then kUnpremul_SkAlphaType
     else kOpaque_SkAlphaType).

(** Lines 306-321: the transformations asked for once the types are chosen. *)
Definition transformsOfType (colorType : Z) (skColorType : SkColorType)
  : list Transform :=
  let convertGrayToRGB :=
    (PNG_COLOR_TYPE_GRAY =? colorType)
    && negb (SkColorType_eqb skColorType kAlpha_8_SkColorType) in
  (if convertGrayToRGB || (colorType =? PNG_COLOR_TYPE_GRAY_ALPHA)
   then [gray_to_rgb] else [])
  ++ (if (colorType =? PNG_COLOR_TYPE_RGB) || convertGrayToRGB
      then [filler_0xff_after] else []).

Definition applyTransforms (ts : list Transform) (png : png_struct) : png_struct :=
  fold_left (fun p t => png_set t p) ts png.

(** [SkPngCodec::NewFromStream]; [None] for NULL.  The width and the height
    that libpng reports are [png_uint_32], and become the [int]s of the image
    description. *)
Definition NewFromStream (stream : SkStream) : option SkPngCodec :=
  png <- readInfo stream ;;
  let '(origWidth, origHeight, bitDepth, colorType, _) := png_get_IHDR png in
  let origWidth := wrap32u origWidth in
  let origHeight := wrap32u origHeight in
  let size := sk_64_mul origWidth origHeight in
  if (size <? 0) || (size >? Z.shiftr 0x7FFFFFFF 2) then None
  else
    let png := applyTransforms (transformsOfDepth bitDepth colorType) png in
    let '(skColorType, skAlphaType) := defaultTypes png colorType in
    let png := applyTransforms (transformsOfType colorType skColorType) png in
    let info :=
      SkImageInfo_Make (wrap32s origWidth) (wrap32s origHeight) skColorType
        skAlphaType in
    Some (mkPngCodec info stream false png kUnknown_SrcConfig
            INVALID_NUMBER_PASSES false None None).

End Factory.

End Png.

(** * Reference instances and sample inputs

    A concrete instance of [Externals] on which the decoders run, and the
    inputs of the examples below.  The theorems hold for every instance. *)

Definition ref_pack (a r g b : Z) : Z :=
  Z.lor (Z.shiftl (wrap8u a) 24)
    (Z.lor (Z.shiftl (wrap8u r) 16) (Z.lor (Z.shiftl (wrap8u g) 8) (wrap8u b))).

Definition ref_premul (a r g b : Z) : Z :=
  ref_pack a (wrap8u r * wrap8u a / 255) (wrap8u g * wrap8u a / 255)
    (wrap8u b * wrap8u a / 255).

(** The alpha a row of packed colours reports. *)
Definition ref_alpha (colors : list Z) : ResultAlpha :=
  if forallb (fun c => Z.shiftr c 24 =? 255) colors then kOpaque_ResultAlpha
  else if forallb (fun c => Z.shiftr c 24 =? 0) colors then kTransparent_ResultAlpha
  else kNeither_ResultAlpha.

(** Pixel [i] of a row of four-byte pixels. *)
Definition ref_quad (src : list Z) (i : nat) : Z * Z * Z * Z :=
  (get_byte src (4 * Z.of_nat i), get_byte src (4 * Z.of_nat i + 1),
   get_byte src (4 * Z.of_nat i + 2), get_byte src (4 * Z.of_nat i + 3)).

Definition ref_colors (config : SrcConfig) (colors : option (list Z))
    (info : SkImageInfo) (src : list Z) : list Z :=
  let n := Z.to_nat (width info) in
  match config with
  | kIndex =>
      map (fun i => nth (Z.to_nat (get_byte src (Z.of_nat i)))
                      (match colors with Some t => t | None => [] end) 0)
        (seq 0 n)
  | kRGBX =>
      map (fun i => let '(r, g, b, _) := ref_quad src i in ref_pack 255 r g b)
        (seq 0 n)
  | kBGRX =>
      map (fun i => let '(b, g, r, _) := ref_quad src i in ref_pack 255 r g b)
        (seq 0 n)
  | kBGRA =>
      map (fun i => let '(b, g, r, a) := ref_quad src i in ref_pack a r g b)
        (seq 0 n)
  | kBGR =>
      map (fun i => ref_pack 255 (get_byte src (3 * Z.of_nat i + 2))
                      (get_byte src (3 * Z.of_nat i + 1))
                      (get_byte src (3 * Z.of_nat i)))
        (seq 0 n)
  | _ =>
      map (fun i => let '(r, g, b, a) := ref_quad src i in ref_pack a r g b)
        (seq 0 n)
  end.

Definition ref_swizzle_row (config : SrcConfig) (colors : option (list Z))
    (info : SkImageInfo) (zero : ZeroInitialized) (src : list Z) (addr : Z)
    (dst : Buffer) : ResultAlpha * Buffer :=
  let cs := ref_colors config colors info src in
  (ref_alpha cs, store_bytes dst addr (flat_map le_bytes32 cs)).

Definition ref_mask_row (info : SkImageInfo) (masks : InputMasks)
    (bitsPerPixel : Z) (src : list Z) : list Z * ResultAlpha :=
  let cs :=
    map (fun i =>
           let '(b, g, r, a) := ref_quad src i in
           ref_pack
             (match alphaType info with
              | kOpaque_SkAlphaType => 255
              | _ => Z.land a (Z.shiftr (alpha masks) 24)
              end) r g b)
      (seq 0 (Z.to_nat (width info))) in
  (flat_map le_bytes32 cs, ref_alpha cs).

(** A PNG stream after libpng has read its header: the IHDR fields, the
    palette and transparency chunks, and the rows libpng will deliver. *)
Record ref_png := mkRefPng {
  ref_ihdr : Z * Z * Z * Z * Z;
  ref_plte : option (list (Z * Z * Z));
  ref_trns : option (list Z);
  ref_rows : list (list Z)
}.

Definition ref_read_row (p : ref_png) (row : list Z) : option (ref_png * list Z) :=
  match ref_rows p with
  | [] => None
  | r :: rest => Some (mkRefPng (ref_ihdr p) (ref_plte p) (ref_trns p) rest, r)
  end.

Definition ref_interlace (p : ref_png) : Z * ref_png :=
  let '(_, _, _, _, interlaceType) := ref_ihdr p in
  (if interlaceType =? 0 then 1 else 7, p).

Definition ref_externals : Externals := {|
  SkMasks := InputMasks;
  CreateMasks := fun m _ => Some m;
  getAlphaMask := alpha;
  SkPackARGB32NoCheck := ref_pack;
  SkPackARGB32 := ref_pack;
  SkPreMultiplyARGB := ref_premul;
  SkPixel32ToPixel16 := fun c => wrap16u c;
  SkPack888ToRGB16 := fun r g b => wrap16u (ref_pack 0 r g b);
  rewindIfNeeded := fun needs s =>
    (true, true, if needs then mkStream (sdata s) 0 else s);
  CreateSwizzler_ok := fun _ _ _ _ _ => true;
  swizzle_row := ref_swizzle_row;
  BytesPerPixel := fun config => match config with kIndex | kGray => 1 | _ => 4 end;
  minRowBytes := fun info => 4 * width info;
  fresh_storage := fun n => repeat 0 (Z.to_nat n);
  CreateMaskSwizzler_ok := fun _ _ _ _ => true;
  mask_row := ref_mask_row;
  png_struct := ref_png;
  png_get_IHDR := ref_ihdr;
  png_set_interlace_handling := ref_interlace;
  png_get_PLTE := ref_plte;
  png_valid_tRNS := fun p => match ref_trns p with Some _ => true | None => false end;
  png_get_tRNS := fun p => match ref_trns p with Some t => t | None => [] end;
  png_read_update_info := fun p => Some p;
  png_read_row := ref_read_row;
  png_skip_rows := fun p n =>
    Some (mkRefPng (ref_ihdr p) (ref_plte p) (ref_trns p)
            (skipn (Z.to_nat n) (ref_rows p)));
  png_read_end := fun p => Some p
|}.

(** The factory over the reference libpng, which takes the eleven bytes at the
    head of the stream for the IHDR fields: width and height on four bytes
    each, then bit depth, colour type and interlace type. *)
Definition ref_read_fn (p : ref_png) (stream : SkStream) : ref_png :=
  let b := skipn (spos stream) (sdata stream) in
  mkRefPng (get_int b 0, get_int b 4, get_byte b 8, get_byte b 9, get_byte b 10)
    (ref_plte p) (ref_trns p)
    (if Nat.leb 11 (length b) then [[]] else []).

Definition ref_read_info (p : ref_png) : option ref_png :=
  match ref_rows p with
  | [] => None
  | _ => Some (mkRefPng (ref_ihdr p) (ref_plte p) (ref_trns p) [])
  end.

Definition ref_factory : Png.FactoryExternals (X := ref_externals) :=
  Png.Build_FactoryExternals ref_externals
    (Some (mkRefPng (0, 0, 0, 0, 0) None None []))
    (fun p : ref_png => Some p)
    ref_read_fn
    ref_read_info
    (fun (_ : Png.Transform) (p : ref_png) => p).

(** The head of a PNG stream for [ref_factory]. *)
Definition sample_png_stream (w h bitDepth colorType interlace : Z) : SkStream :=
  mkStream (le_bytes32 w ++ le_bytes32 h ++ [bitDepth; colorType; interlace]) 0.

(** A BMP file: the 14-byte file header, a 40-byte info header, and what
    follows them. *)
Definition sample_bmp (totalBytes offset w h bitsPerPixel compression numColors : Z)
    (rest : list Z) : SkStream :=
  mkStream
    ([66; 77] ++ le_bytes32 totalBytes ++ [0; 0; 0; 0] ++ le_bytes32 offset
     ++ le_bytes32 40 ++ le_bytes32 w ++ le_bytes32 h ++ [1; 0]
     ++ le_bytes16 bitsPerPixel ++ le_bytes32 compression ++ le_bytes32 0
     ++ le_bytes32 0 ++ le_bytes32 0 ++ le_bytes32 numColors ++ le_bytes32 0
     ++ rest)
    0.

(** A destination whose bytes are all 0xAA, with no store recorded. *)
Definition sample_dst : Buffer := mkBuffer (fun _ => 0xAA) [].

Definition sample_info (w h : Z) (at_ : SkAlphaType) : SkImageInfo :=
  SkImageInfo_Make w h kN32_SkColorType at_.

(** A PNG codec as the factory leaves it, over the reference libpng. *)
Definition sample_png (info : SkImageInfo) (png : ref_png)
  : Png.SkPngCodec (X := ref_externals) :=
  Png.mkPngCodec (X := ref_externals) info (mkStream [] 0) false png
    kUnknown_SrcConfig Png.INVALID_NUMBER_PASSES false None None.

(** 2 by 2, RGBA, not interlaced, every pixel opaque red. *)
Definition sample_png_red : ref_png :=
  mkRefPng (2, 2, 8, Png.PNG_COLOR_TYPE_RGB_ALPHA, 0) None None
    [[255; 0; 0; 255; 255; 0; 0; 255]; [255; 0; 0; 255; 255; 0; 0; 255]].

(** 2 by 2, paletted: black and white, the black entry fully transparent, and
    every pixel white. *)
Definition sample_png_white : ref_png :=
  mkRefPng (2, 2, 8, Png.PNG_COLOR_TYPE_PALETTE, 0)
    (Some [(0, 0, 0); (255, 255, 255)]) (Some [0]) [[1; 1]; [1; 1]].

(** 2 by 2, RGBA, interlaced. *)
Definition sample_png_interlaced : ref_png :=
  mkRefPng (2, 2, 8, Png.PNG_COLOR_TYPE_RGB_ALPHA, 1) None None [].

(** * Notions used in the statements *)

Section Vocabulary.
Import Bmp.
Context {X : Externals}.

(** The number of colours [createColorTable] settles on: the header's count,
    or the largest the bit depth allows when that count is 0 or too large. *)
Definition tableColors (c : SkBmpCodec) : Z :=
  if (fNumColors c =? 0) || (fNumColors c >=? 2 ^ fBitsPerPixel c)
  then 2 ^ fBitsPerPixel c else fNumColors c.

(** [d'] comes from [d] by pixel stores only: its journal is that of [d] with
    the entries [new] in front, and outside the footprint of [new] the bytes
    are those of [d]. *)
Definition stores_only (d d' : Buffer) (new : list (Z * Z)) : Prop :=
  journal d' = new ++ journal d
  /\ forall a, written new a = false -> bytes d' a = bytes d a.

(** [d'] comes from [d] by pixel stores only, whichever they are. *)
Definition grows (d d' : Buffer) : Prop := exists new, stores_only d d' new.

(** The buffer a pass through the RLE loop ends with. *)
Definition step_dst (st : Step) : Buffer :=
  match st with
  | Continue s => rdst s
  | Return _ s => rdst s
  end.

(** The source row, in the order of the stream, whose destination row is
    [row]. *)
Definition srcRowOf (c : SkBmpCodec) (height row : Z) : Z :=
  match fRowOrder c with
  | kBottomUp_RowOrder => height - 1 - row
  | kTopDown_RowOrder => row
  end.

(** Bit [x] of a row of the AND mask: the bits of a byte go from the most to
    the least significant. *)
Definition maskBit (maskRow : list Z) (x : Z) : Z :=
  Z.land (Z.shiftr (get_byte maskRow (x / 8)) (7 - x mod 8)) 1.

(** The AND-mask bit of the destination pixel [x] of row [row], where [stream]
    stands at the first row of the mask, each row of the mask taking
    [alignUp(ceil(width / 8), 4)] bytes. *)
Definition andMaskBit (c : SkBmpCodec) (dstInfo : SkImageInfo)
    (stream : SkStream) (x row : Z) : Z :=
  let rowBytes := SkAlign4 (compute_row_bytes (width dstInfo) 1) in
  maskBit
    (skipn (Z.to_nat (srcRowOf c (height dstInfo) row * rowBytes))
       (skipn (spos stream) (sdata stream)))
    x.

(** The stores a pass of the mask swizzler for [info] makes over the source
    rows [rows], the first of them being source row [y]: the address and the
    bytes of each. *)
Fixpoint maskStores (c : SkBmpCodec) (info : SkImageInfo) (dstRowBytes : Z)
    (rows : list (list Z)) (y : Z) : list (Z * list Z) :=
  match rows with
  | [] => []
  | srcRow :: rest =>
      (dstRowOf c (height info) y * dstRowBytes,
       fst (mask_row info (fMasks c) (fBitsPerPixel c) srcRow))
      :: maskStores c info dstRowBytes rest (wrap32s (y + 1))
  end.

Definition applyStores (stores : list (Z * list Z)) (d : Buffer) : Buffer :=
  fold_left (fun d w => store_bytes d (fst w) (snd w)) stores d.

(** Where the stores go: start and length of each. *)
Definition footprints (stores : list (Z * list Z)) : list (Z * Z) :=
  map (fun w => (fst w, Z.of_nat (length (snd w)))) stores.



End Vocabulary.

Section PngVocabulary.
Import Png.
Context {X : Externals}.

(** What the palette pass of [initializeSwizzler] makes of the transparency
    chunk: the image is paletted and one of the transparency entries that have
    a palette entry is below 0xFF.  The chunks are read after the interlace
    handling has been set. *)
Definition paletteAlpha (c : SkPngCodec) : bool :=
  let '(_, _, _, pngColorType, interlaceType) := png_get_IHDR (fPng_ptr c) in
  let png :=
    if negb (interlaceType =? PNG_INTERLACE_NONE)
    then snd (png_set_interlace_handling (fPng_ptr c))
    else fPng_ptr c in
  (PNG_COLOR_TYPE_PALETTE =? pngColorType)
  && match png_get_PLTE png with
     | None => false
     | Some palette =>
         existsb (fun t => wrap8u t <? 0xFF)
           (firstn (length palette)
              (if png_valid_tRNS png then png_get_tRNS png else []))
     end.

(** Some row was reported as not opaque. *)
Definition someRowNotOpaque (reported : list ResultAlpha) : bool :=
  existsb (fun r => negb (IsOpaque r)) reported.

End PngVocabulary.

(** ** Notions of the further properties *)

(** The bytes of a stream that have not been read, and their number. *)
Definition pending (s : SkStream) : list Z := skipn (spos s) (sdata s).

Definition available (s : SkStream) : Z := Z.of_nat (length (pending s)).

Section HeaderVocabulary.
Import Bmp.
Context {X : Externals}.

(** The fields of the info header as stored in the stream. *)
Definition storedFields (stream : SkStream) (isIco : bool) : option HeaderFields :=
  '(totalBytes, offset, infoBytes, iBuffer, stream) <- readHeaders stream isIco ;;
  readFields infoBytes iBuffer.

(** The size of the file and the offset of the pixel data that the file header
    of a BMP states, at bytes 2 and 10 of the stream. *)
Definition fileBytes (stream : SkStream) : Z := get_int (pending stream) 2.

Definition pixelDataOffset (stream : SkStream) : Z := get_int (pending stream) 10.

End HeaderVocabulary.

Section RleVocabulary.
Import Bmp.
Context {X : Externals}.

(** The address of the N32 pixel [x] of the row that [setRLEPixel] picks for
    the source row [y]. *)
Definition rlePixelAddress (c : SkBmpCodec) (dstInfo : SkImageInfo)
    (dstRowBytes x y : Z) : Z :=
  wrap32s (rleRow c dstInfo y * wrap32s dstRowBytes) + 4 * x.

(** The colour index of pixel [k] of a run with the byte [task]: at 4 bits the
    high and the low nibble in turn, else the byte. *)
Definition runIndex (c : SkBmpCodec) (task k : Z) : Z :=
  if fBitsPerPixel c =? 4
  then if Z.even k then Z.shiftr task 4 else Z.land task 0xF
  else task.

(** The colour index of pixel [k] of an absolute run whose bytes start at
    [curr]: at 4 bits two pixels a byte, the high nibble first, else a pixel a
    byte. *)
Definition absoluteIndex (c : SkBmpCodec) (buffer : list Z) (curr k : Z) : Z :=
  if fBitsPerPixel c =? 4
  then
    let b := get_byte buffer (curr + k / 2) in
    if Z.even k then Z.shiftr b 4 else Z.land b 0xF
  else get_byte buffer (curr + k).

(** What an absolute run of [n] pixels does when it runs to its end: the
    cursor moves by the pixels, the buffer by their bytes, the pixels hold the
    colours of their indices, and no other pixel changes. *)
Definition absolute_run_spec (c : SkBmpCodec) (info : SkImageInfo) (rb : Z)
    (buffer : list Z) (n : nat) : Prop :=
  forall x y curr d,
    0 <= x -> x + Z.of_nat n < 2 ^ 31 ->
    0 <= curr ->
    curr + compute_row_bytes (Z.of_nat n) (fBitsPerPixel c) < 2 ^ 32 ->
    exists d',
      absoluteRun c info rb buffer n (mkRle x y curr d)
      = Continue (mkRle (x + Z.of_nat n) y
                    (curr + compute_row_bytes (Z.of_nat n) (fBitsPerPixel c)) d')
      /\ (forall i, x <= i < x + Z.of_nat n ->
                    load32 d' (rlePixelAddress c info rb i y)
                    = wrap32u (nth (Z.to_nat (absoluteIndex c buffer curr (i - x)))
                                 (colorsOf c) 0))
      /\ (forall q, q + 4 <= rlePixelAddress c info rb x y
                    \/ rlePixelAddress c info rb (x + Z.of_nat n) y <= q ->
                    load32 d' q = load32 d q).

End RleVocabulary.

Section StandardVocabulary.
Import Bmp.
Context {X : Externals}.

(** The destination row that the standard engine gives to source row [y]. *)
Definition standardRow (c : SkBmpCodec) (dstInfo : SkImageInfo) (y : Z) : Z :=
  match fRowOrder c with
  | kTopDown_RowOrder => wrap32u y
  | kBottomUp_RowOrder => wrap32u (height dstInfo - 1 - y)
  end.

(** The destination once the row procedure of the swizzler for [config] has
    converted the first [n] rows of [rowBytes] bytes of [data], one after the
    other, the first of them being source row [y]; each goes to its
    destination row, [dstRowBytes] apart from address 0. *)
Fixpoint swizzledRows (c : SkBmpCodec) (dstInfo : SkImageInfo)
    (config : SrcConfig) (dstRowBytes rowBytes : Z) (n : nat) (y : Z)
    (data : list Z) (dst : Buffer) : Buffer :=
  match n with
  | O => dst
  | S n' =>
      swizzledRows c dstInfo config dstRowBytes rowBytes n' (y + 1)
        (skipn (Z.to_nat rowBytes) data)
        (snd (swizzle_row config (Some (colorsOf c)) dstInfo kNo_ZeroInitialized
                (firstn (Z.to_nat rowBytes) data)
                (0 + standardRow c dstInfo y * dstRowBytes) dst))
  end.

End StandardVocabulary.

(** A journal entry lies between the addresses [lo] and [hi]. *)
Definition inside (lo hi : Z) (entry : Z * Z) : Prop :=
  lo <= fst entry /\ fst entry + snd entry <= hi.

(** [d'] comes from [d] by pixel stores between [lo] and [hi] only. *)
Definition stores_inside (lo hi : Z) (d d' : Buffer) : Prop :=
  exists new, stores_only d d' new /\ Forall (inside lo hi) new.

(** * Properties *)

(** ** Integers, bytes and memory *)

Lemma wrap8u_range (z : Z) : 0 <= wrap8u z < 256.
Proof. unfold wrap8u. change (2 ^ 8) with 256. apply Z.mod_pos_bound. lia. Qed.

Lemma wrap8u_small (z : Z) : 0 <= z < 256 -> wrap8u z = z.
Proof. intros H. unfold wrap8u. change (2 ^ 8) with 256. apply Z.mod_small. exact H. Qed.

Lemma wrap32u_small (z : Z) : 0 <= z < 2 ^ 32 -> wrap32u z = z.
Proof. intros H. unfold wrap32u. apply Z.mod_small. exact H. Qed.

Lemma wrap32u_range (z : Z) : 0 <= wrap32u z < 2 ^ 32.
Proof. unfold wrap32u. apply Z.mod_pos_bound. lia. Qed.

Lemma wrap64u_small (z : Z) : 0 <= z < 2 ^ 64 -> wrap64u z = z.
Proof. intros H. unfold wrap64u. apply Z.mod_small. exact H. Qed.

Lemma wrap32s_small (z : Z) : - 2 ^ 31 <= z < 2 ^ 31 -> wrap32s z = z.
Proof.
  intros H. unfold wrap32s. rewrite Z.mod_small; lia.
Qed.

Lemma wrap32s_range (z : Z) : - 2 ^ 31 <= wrap32s z < 2 ^ 31.
Proof.
  unfold wrap32s.
  pose proof (Z.mod_pos_bound (z + 2 ^ 31) (2 ^ 32) ltac:(lia)). lia.
Qed.

Lemma ltb_false (x y : Z) : y <= x -> (x <? y) = false.
Proof. intros H. apply Z.ltb_ge. exact H. Qed.

Lemma geb_false (x y : Z) : x < y -> (x >=? y) = false.
Proof. intros H. rewrite Z.geb_leb. apply Z.leb_gt. exact H. Qed.

Lemma geb_true (x y : Z) : y <= x -> (x >=? y) = true.
Proof. intros H. rewrite Z.geb_leb. apply Z.leb_le. exact H. Qed.

Lemma gtb_false (x y : Z) : x <= y -> (x >? y) = false.
Proof. intros H. rewrite Z.gtb_ltb. apply Z.ltb_ge. exact H. Qed.

Lemma gtb_true (x y : Z) : y < x -> (x >? y) = true.
Proof. intros H. rewrite Z.gtb_ltb. apply Z.ltb_lt. exact H. Qed.

Lemma eqb_false (x y : Z) : x <> y -> (x =? y) = false.
Proof. intros H. apply Z.eqb_neq. exact H. Qed.

Lemma get_byte_range (buffer : list Z) (i : Z) : 0 <= get_byte buffer i < 256.
Proof. apply wrap8u_range. Qed.

Lemma get_short_range (buffer : list Z) (i : Z) : 0 <= get_short buffer i < 2 ^ 16.
Proof.
  unfold get_short.
  pose proof (get_byte_range buffer i). pose proof (get_byte_range buffer (i + 1)).
  lia.
Qed.

Lemma get_int_range (buffer : list Z) (i : Z) : 0 <= get_int buffer i < 2 ^ 32.
Proof.
  unfold get_int.
  pose proof (get_byte_range buffer i). pose proof (get_byte_range buffer (i + 1)).
  pose proof (get_byte_range buffer (i + 2)).
  pose proof (get_byte_range buffer (i + 3)).
  lia.
Qed.

Lemma obind_Some {A B : Type} (c : option A) (k : A -> option B) (r : B) :
  obind c k = Some r -> exists a, c = Some a /\ k a = Some r.
Proof. destruct c as [a|]; simpl; [eauto | discriminate]. Qed.

(** Splits a hypothesis [obind c k = Some r] into the two steps. *)
Ltac obind_inv H :=
  let a := fresh "a" in
  let Ha := fresh "Hstep" in
  apply obind_Some in H; destruct H as (a & Ha & H).

(** ** The header parser *)

Section HeaderFacts.
Import Bmp.
Context {X : Externals}.

Lemma readFields_height_range (infoBytes : Z) (iBuffer : list Z) (f : HeaderFields) :
  readFields infoBytes iBuffer = Some f ->
  - 2 ^ 31 <= hf_height f < 2 ^ 31 /\ - 2 ^ 31 <= hf_width f < 2 ^ 31.
Proof.
  unfold readFields. intros H.
  destruct (infoBytes >=? kBmpInfoBaseBytes).
  - inversion H; subst; clear H; simpl. split; apply wrap32s_range.
  - destruct (infoBytes >=? kBmpOS2V1Bytes); [|discriminate].
    inversion H; subst; clear H; simpl.
    pose proof (get_short_range iBuffer 0). pose proof (get_short_range iBuffer 2).
    lia.
Qed.

Lemma checkDimensions_bounds (W H : Z) (isIco : bool) (w h : Z) (ro : RowOrder) :
  checkDimensions W H isIco = Some (w, h, ro) ->
  - 2 ^ 31 <= H < 2 ^ 31 ->
  H <> INT_MIN ->
  w = W /\ 0 <= w < 2 ^ 16 /\ 0 <= h < 2 ^ 16.
Proof.
  unfold checkDimensions, INT_MIN. intros Hc Hr Hn.
  change kBmpMaxDim with 65536 in Hc.
  destruct (H <? 0) eqn:Hneg.
  - apply Z.ltb_lt in Hneg.
    rewrite wrap32s_small in Hc by lia.
    destruct ((W <? 0) || (W >=? 65536)
              || ((if isIco then Z.quot (- H) 2 else - H) >=? 65536)) eqn:E;
      [discriminate|].
    inversion Hc; subst; clear Hc.
    apply orb_false_iff in E. destruct E as [E E3].
    apply orb_false_iff in E. destruct E as [E1 E2].
    destruct isIco.
    + pose proof (Z.quot_pos (- H) 2 ltac:(lia) ltac:(lia)). lia.
    + lia.
  - apply Z.ltb_ge in Hneg.
    destruct ((W <? 0) || (W >=? 65536)
              || ((if isIco then Z.quot H 2 else H) >=? 65536)) eqn:E;
      [discriminate|].
    inversion Hc; subst; clear Hc.
    apply orb_false_iff in E. destruct E as [E E3].
    apply orb_false_iff in E. destruct E as [E1 E2].
    destruct isIco.
    + pose proof (Z.quot_pos H 2 ltac:(lia) ltac:(lia)). lia.
    + lia.
Qed.

(** What an accepted header went through, step by step. *)
Lemma NewFromStream_inv (stream : SkStream) (isIco : bool) (c : SkBmpCodec)
    (s : SkStream) :
  NewFromStream stream isIco = Some (c, s) ->
  exists totalBytes offset infoBytes iBuffer s1 f w h ro bpp fmt0 masks0
         maskBytes masks1 at_ masks2 fmt m,
    readHeaders stream isIco = Some (totalBytes, offset, infoBytes, iBuffer, s1)
    /\ readFields infoBytes iBuffer = Some f
    /\ checkDimensions (hf_width f) (hf_height f) isIco = Some (w, h, ro)
    /\ selectFormat f iBuffer s1 = Some (bpp, fmt0, masks0, maskBytes, s)
    /\ selectAlpha (hf_headerType f) isIco bpp iBuffer masks0 = (masks1, at_)
    /\ checkBitsPerPixel bpp fmt0 masks1 = Some (masks2, fmt)
    /\ CreateMasks masks2 bpp = Some m
    /\ (totalBytes <=? offset) && BitmapInputFormat_eqb kRLE_BitmapInputFormat fmt
       = false
    /\ negb isIco && (offset <? wrap32u (kBmpHeaderBytes + infoBytes + maskBytes))
       = false
    /\ c = mkBmpCodec (SkImageInfo_Make w h kN32_SkColorType at_) false bpp fmt m
             None (hf_numColors f) (hf_bytesPerColor f)
             (wrap32u (offset - wrap32u (kBmpHeaderBytes + infoBytes + maskBytes)))
             ro (wrap32u (totalBytes - offset)) isIco.
Proof.
  unfold NewFromStream. intros H.
  obind_inv H. destruct a as [[[[totalBytes offset] infoBytes] iBuffer] s1].
  obind_inv H. rename a into f.
  obind_inv H. destruct a as [[w h] ro].
  obind_inv H. destruct a as [[[[bpp fmt0] masks0] maskBytes] s2].
  destruct (selectAlpha (hf_headerType f) isIco bpp iBuffer masks0)
    as [masks1 at_] eqn:Halpha.
  obind_inv H. destruct a as [masks2 fmt].
  obind_inv H. rename a into m.
  destruct ((totalBytes <=? offset)
            && BitmapInputFormat_eqb kRLE_BitmapInputFormat fmt) eqn:Hrle;
    [discriminate|].
  destruct (negb isIco
            && (offset <? wrap32u (kBmpHeaderBytes + infoBytes + maskBytes)))
    eqn:Hoff; [discriminate|].
  inversion H; subst; clear H.
  exists totalBytes, offset, infoBytes, iBuffer, s1, f, w, h, ro, bpp, fmt0,
    masks0, maskBytes, masks1, at_, masks2, fmt, m.
  repeat split; assumption.
Qed.

End HeaderFacts.

Section HeaderClaims.
Import Bmp.

(** C2, as amended.  For every stream the header parser accepts, regular or
    embedded in an ICO, whose stored height is not the least 32-bit integer,
    the parsed width and height are at least 0 (zero is accepted) and
    strictly less than 2^16.  A 24-bit file of 65535 by 65535 pixels is
    accepted, provided the mask parser accepts empty masks, and the same file
    with either dimension set to 65536 is rejected. *)
Theorem C2_dimensions_after_parse (X : Externals) (stream : SkStream)
    (isIco : bool) (c : SkBmpCodec) (s : SkStream) :
  NewFromStream stream isIco = Some (c, s) ->
  storedHeight stream isIco <> Some INT_MIN ->
  (0 <= width (fInfo c) < 2 ^ 16 /\ 0 <= height (fInfo c) < 2 ^ 16)
  /\ (forall m, CreateMasks noMasks 24 = Some m ->
      exists c' s',
        NewFromStream (sample_bmp 0 54 65535 65535 24 0 0 []) false = Some (c', s')
        /\ width (fInfo c') = 65535 /\ height (fInfo c') = 65535)
  /\ NewFromStream (sample_bmp 0 54 65536 65535 24 0 0 []) false = None
  /\ NewFromStream (sample_bmp 0 54 65535 65536 24 0 0 []) false = None.
Proof.
  intros Hnew Hstored. split; [|split; [|split]].
  - destruct (NewFromStream_inv _ _ _ _ Hnew)
      as (totalBytes & offset & infoBytes & iBuffer & s1 & f & w & h & ro & bpp
          & fmt0 & masks0 & maskBytes & masks1 & at_ & masks2 & fmt & m
          & Hhdr & Hf & Hdim & _ & _ & _ & _ & _ & _ & Hc).
    assert (Hh : hf_height f <> INT_MIN).
    { intros E. apply Hstored. unfold storedHeight. rewrite Hhdr. simpl.
      rewrite Hf. simpl. now rewrite E. }
    destruct (readFields_height_range _ _ _ Hf) as [Hr _].
    destruct (checkDimensions_bounds _ _ _ _ _ _ Hdim Hr Hh) as (_ & Hw & Hht).
    subst c. simpl. split; assumption.
  - intros m Hm. unfold noMasks in Hm.
    eexists. eexists. split.
    + cbv -[CreateMasks]. rewrite Hm. reflexivity.
    + split; reflexivity.
  - vm_compute. reflexivity.
  - vm_compute. reflexivity.
Qed.

Lemma C2_dimensions_after_parse_witness :
  exists c s,
    NewFromStream (X := ref_externals) (sample_bmp 70 54 2 2 24 0 0 []) false
    = Some (c, s)
    /\ 0 <= width (fInfo c) < 2 ^ 16 /\ 0 <= height (fInfo c) < 2 ^ 16.
Proof.
  eexists. eexists. split; [reflexivity|].
  eapply (C2_dimensions_after_parse ref_externals
            (sample_bmp 70 54 2 2 24 0 0 []) false).
  - reflexivity.
  - vm_compute. discriminate.
Defined.

(** A stored height of -2^31 is accepted as well, and stays negative: its
    negation does not fit 32 bits. *)
Example least_height_accepted :
  match NewFromStream (X := ref_externals)
          (sample_bmp 70 54 2 (2 ^ 31) 24 0 0 []) false with
  | Some (c, _) => height (fInfo c) = - 2 ^ 31
  | None => False
  end.
Proof. vm_compute. reflexivity. Qed.

(** C2 as the spec states it fails: a header of width 0 and height 0 is
    accepted. *)
Lemma C2_zero_dimension_accepted :
  ~ (forall (X : Externals) (stream : SkStream) (isIco : bool) (c : SkBmpCodec)
            (s : SkStream),
        NewFromStream stream isIco = Some (c, s) ->
        0 < width (fInfo c) < 2 ^ 16 /\ 0 < height (fInfo c) < 2 ^ 16).
Proof.
  intros H.
  assert (E : NewFromStream (X := ref_externals)
                (sample_bmp 70 54 0 0 24 0 0 []) false
              = Some (mkBmpCodec (X := ref_externals)
                        (sample_info 0 0 kOpaque_SkAlphaType) false 24
                        kStandard_BitmapInputFormat noMasks None 0 4 0
                        kBottomUp_RowOrder 16 false,
                      mkStream (sdata (sample_bmp 70 54 0 0 24 0 0 [])) 54))
    by reflexivity.
  destruct (H _ _ _ _ _ E) as [[Hw _] _].
  exact (Z.lt_irrefl 0 Hw).
Qed.

End HeaderClaims.

(** ** The colour table *)

Section ColorTableFacts.
Import Bmp.
Context {X : Externals}.

Lemma checkBitsPerPixel_legal (bpp : Z) (fmt : BitmapInputFormat)
    (masks : InputMasks) (r : InputMasks * BitmapInputFormat) :
  checkBitsPerPixel bpp fmt masks = Some r ->
  In bpp [1; 2; 4; 8; 16; 24; 32].
Proof.
  unfold checkBitsPerPixel. intros H.
  destruct (bpp =? 16) eqn:E16.
  - apply Z.eqb_eq in E16. subst. simpl. tauto.
  - destruct (existsb (Z.eqb bpp) [1; 2; 4; 8; 24; 32]) eqn:E; [|discriminate].
    apply existsb_exists in E. destruct E as (v & Hin & Hv).
    apply Z.eqb_eq in Hv. subst v. simpl in Hin. simpl. tauto.
Qed.

Lemma selectAlpha_type (headerType : BitmapHeaderType) (isIco : bool) (bpp : Z)
    (iBuffer : list Z) (masks : InputMasks) :
  snd (selectAlpha headerType isIco bpp iBuffer masks) = kOpaque_SkAlphaType
  \/ snd (selectAlpha headerType isIco bpp iBuffer masks) = kUnpremul_SkAlphaType.
Proof.
  unfold selectAlpha.
  destruct (match headerType with
            | kInfoV3_BitmapHeaderType => isIco
            | kInfoV4_BitmapHeaderType | kInfoV5_BitmapHeaderType => true
            | _ => false
            end);
    destruct (isIco && (32 =? bpp)); simpl; auto.
  destruct (negb (get_int iBuffer 48 =? 0)); auto.
Qed.

Lemma readFields_colors (infoBytes : Z) (iBuffer : list Z) (f : HeaderFields) :
  readFields infoBytes iBuffer = Some f ->
  0 <= hf_numColors f < 2 ^ 32
  /\ (hf_bytesPerColor f = 3 \/ hf_bytesPerColor f = 4).
Proof.
  unfold readFields. intros H.
  destruct (infoBytes >=? kBmpInfoBaseBytes).
  - inversion H; subst; clear H; simpl. split; [|auto].
    destruct ((wrap32u (infoBytes - 4) >=? 16) && (wrap32u (infoBytes - 4) >=? 32)).
    + apply get_int_range.
    + lia.
  - destruct (infoBytes >=? kBmpOS2V1Bytes); [|discriminate].
    inversion H; subst; clear H; simpl. split; [lia | auto].
Qed.

Lemma createColorTable_overrun (c : SkBmpCodec) (stream : SkStream)
    (alphaType : SkAlphaType) :
  In (fBitsPerPixel c) [1; 2; 4; 8] ->
  0 <= fNumColors c ->
  fBytesPerColor c = 3 \/ fBytesPerColor c = 4 ->
  fIsIco c = false ->
  choosePack alphaType <> None ->
  fOffset c < tableColors c * fBytesPerColor c ->
  exists c' s', createColorTable c stream alphaType = Some (false, c', s').
Proof.
  intros Hbpp Hn Hbpc Hico Hpack Hoff.
  unfold createColorTable.
  assert (Hle : (fBitsPerPixel c <=? 8) = true).
  { apply Z.leb_le. simpl in Hbpp. lia. }
  rewrite Hle.
  assert (Hmax : wrap32u (Z.shiftl 1 (fBitsPerPixel c)) = 2 ^ fBitsPerPixel c).
  { simpl in Hbpp.
    destruct Hbpp as [E|[E|[E|[E|[]]]]]; rewrite <- E; reflexivity. }
  rewrite Hmax.
  set (c1 := if (fNumColors c =? 0) || (fNumColors c >=? 2 ^ fBitsPerPixel c)
             then setNumColors c (2 ^ fBitsPerPixel c) else c).
  assert (Hc1 : fNumColors c1 = tableColors c /\ fBytesPerColor c1 = fBytesPerColor c
                /\ fIsIco c1 = false /\ fOffset c1 = fOffset c).
  { unfold c1, tableColors.
    destruct ((fNumColors c =? 0) || (fNumColors c >=? 2 ^ fBitsPerPixel c));
      simpl; auto. }
  destruct Hc1 as (Hn1 & Hb1 & Hi1 & Ho1).
  assert (Hrange : 0 < tableColors c <= 256).
  { unfold tableColors.
    destruct ((fNumColors c =? 0) || (fNumColors c >=? 2 ^ fBitsPerPixel c)) eqn:E.
    - simpl in Hbpp.
      destruct Hbpp as [E'|[E'|[E'|[E'|[]]]]]; rewrite <- E'; simpl; lia.
    - apply orb_false_iff in E. destruct E as [E1 E2].
      apply Z.eqb_neq in E1.
      assert (fNumColors c < 2 ^ fBitsPerPixel c) by lia.
      simpl in Hbpp.
      destruct Hbpp as [E'|[E'|[E'|[E'|[]]]]]; rewrite <- E' in H; simpl in H; lia. }
  assert (Hbytes : wrap32u (fNumColors c1 * fBytesPerColor c1)
                   = tableColors c * fBytesPerColor c).
  { rewrite Hn1, Hb1. apply wrap32u_small. destruct Hbpc as [E|E]; rewrite E; lia. }
  rewrite Hbytes.
  destruct (stream_read stream (tableColors c * fBytesPerColor c))
    as [cBuffer s1] eqn:Hread.
  destruct (negb (Z.of_nat (length cBuffer) =? tableColors c * fBytesPerColor c)).
  - simpl. eauto.
  - destruct (choosePack alphaType) as [pack|]; [|congruence].
    simpl. rewrite Hi1. simpl. rewrite Ho1.
    assert (Hlt : (fOffset c <? tableColors c * fBytesPerColor c) = true)
      by (apply Z.ltb_lt; exact Hoff).
    rewrite Hlt. eauto.
Qed.

End ColorTableFacts.

Section ColorTableClaims.
Import Bmp.

(** C10.  For a BMP that is not embedded in an ICO, of at most 8 bits per
    pixel, whose pixel-data offset less the header bytes consumed is smaller
    than the size of its colour table (the number of colours times the bytes
    per colour), a call of getPixels that passes the rewind, dimension and
    conversion checks returns InvalidInput, and the destination is the one it
    was given: no engine has run. *)
Theorem C10_offset_inside_color_table (X : Externals) (stream0 s stream : SkStream)
    (c : SkBmpCodec) (dstInfo : SkImageInfo) (dst : Buffer) (dstRowBytes : Z) :
  NewFromStream stream0 false = Some (c, s) ->
  fBitsPerPixel c <= 8 ->
  fOffset c < tableColors c * fBytesPerColor c ->
  fst (fst (rewindIfNeeded (fNeedsRewind c) stream)) = true ->
  dimensions_eqb dstInfo (fInfo c) = true ->
  conversion_possible dstInfo (fInfo c) = true ->
  exists c' s',
    onGetPixels c stream dstInfo dst dstRowBytes = Some (kInvalidInput, c', s', dst).
Proof.
  intros Hnew Hbpp Hoff Hrew Hdim Hconv.
  destruct (NewFromStream_inv _ _ _ _ Hnew)
    as (totalBytes & offset & infoBytes & iBuffer & s1 & f & w & h & ro & bpp
        & fmt0 & masks0 & maskBytes & masks1 & at_ & masks2 & fmt & m
        & Hhdr & Hf & _ & _ & Halpha & Hcheck & _ & _ & _ & Hc).
  pose proof (checkBitsPerPixel_legal _ _ _ _ Hcheck) as Hlegal.
  pose proof (selectAlpha_type (hf_headerType f) false bpp iBuffer masks0) as Hat.
  rewrite Halpha in Hat. simpl in Hat.
  destruct (readFields_colors _ _ _ Hf) as [Hnum Hbpc].
  unfold onGetPixels.
  destruct (rewindIfNeeded (fNeedsRewind c) stream) as [[rewound needs] s2] eqn:Hr.
  simpl in Hrew. subst rewound. simpl.
  rewrite Hdim, Hconv. simpl.
  set (c2 := setNeedsRewind c needs).
  assert (Hc2 : fInfo c2 = fInfo c /\ fBitsPerPixel c2 = bpp
                /\ fNumColors c2 = hf_numColors f
                /\ fBytesPerColor c2 = hf_bytesPerColor f
                /\ fIsIco c2 = false /\ fOffset c2 = fOffset c
                /\ tableColors c2 = tableColors c).
  { unfold c2, tableColors. subst c. simpl. tauto. }
  destruct Hc2 as (Hi2 & Hb2 & Hn2 & Hp2 & Hico2 & Ho2 & Ht2).
  assert (Hbpp' : fBitsPerPixel c = bpp) by (subst c; reflexivity).
  assert (Hpack : choosePack (alphaType dstInfo) <> None).
  { unfold conversion_possible in Hconv.
    destruct (negb (SkColorProfileType_eqb (profileType dstInfo)
                      (profileType (fInfo c)))); [discriminate|].
    destruct (colorType dstInfo); try discriminate.
    assert (Hsrc : alphaType (fInfo c) = at_) by (subst c; reflexivity).
    rewrite Hsrc in Hconv.
    destruct (alphaType dstInfo); simpl; try discriminate.
    destruct Hat as [E|E]; rewrite E in Hconv; discriminate. }
  destruct (createColorTable_overrun c2 s2 (alphaType dstInfo)) as (c' & s' & Hct).
  - rewrite Hb2. rewrite Hbpp' in Hbpp. simpl in Hlegal. simpl. lia.
  - rewrite Hn2. lia.
  - rewrite Hp2. exact Hbpc.
  - exact Hico2.
  - exact Hpack.
  - rewrite Ht2, Ho2, Hp2.
    assert (Hp : fBytesPerColor c = hf_bytesPerColor f) by (subst c; reflexivity).
    rewrite <- Hp. exact Hoff.
  - rewrite Hct. simpl. eauto.
Qed.

(** An 8-bit file with 256 four-byte colours whose pixel data is said to start
    at byte 60, six bytes after the headers and inside the colour table. *)
Lemma C10_offset_inside_color_table_witness :
  exists c s c' s',
    NewFromStream (X := ref_externals) (sample_bmp 1100 60 1 1 8 0 0 (repeat 0 1030)) false
    = Some (c, s)
    /\ onGetPixels c s (sample_info 1 1 kOpaque_SkAlphaType) sample_dst 4
       = Some (kInvalidInput, c', s', sample_dst).
Proof.
  eexists. eexists.
  assert (E : NewFromStream (X := ref_externals)
                (sample_bmp 1100 60 1 1 8 0 0 (repeat 0 1030)) false
              = Some (mkBmpCodec (X := ref_externals)
                        (sample_info 1 1 kOpaque_SkAlphaType) false 8
                        kStandard_BitmapInputFormat noMasks None 0 4 6
                        kBottomUp_RowOrder 1040 false,
                      mkStream (sdata (sample_bmp 1100 60 1 1 8 0 0 (repeat 0 1030))) 54))
    by reflexivity.
  destruct (C10_offset_inside_color_table ref_externals _ _
              (mkStream (sdata (sample_bmp 1100 60 1 1 8 0 0 (repeat 0 1030))) 54) _
              (sample_info 1 1 kOpaque_SkAlphaType) sample_dst 4 E)
    as (c' & s' & H).
  - vm_compute. discriminate.
  - vm_compute. reflexivity.
  - reflexivity.
  - reflexivity.
  - reflexivity.
  - exists c', s'. split; [exact E | exact H].
Defined.

End ColorTableClaims.

(** ** The RLE engine *)

Section RleFacts.
Import Bmp.
Context {X : Externals}.

Lemma SkAlign2_spec (x : Z) : 0 <= x -> SkAlign2 x = 2 * ((x + 1) / 2).
Proof.
  intros H. unfold SkAlign2.
  rewrite Z.shiftl_mul_pow2, Z.shiftr_div_pow2 by lia.
  change (2 ^ 1) with 2. lia.
Qed.

Lemma SkAlign2_bounds (x : Z) : 0 <= x -> x <= SkAlign2 x <= x + 1.
Proof.
  intros H. rewrite SkAlign2_spec by exact H.
  pose proof (Z.div_mod (x + 1) 2 ltac:(lia)).
  pose proof (Z.mod_pos_bound (x + 1) 2 ltac:(lia)). lia.
Qed.

Lemma SkIsAlign2_spec (x : Z) :
  0 <= x -> SkAlign2 x = if SkIsAlign2 x then x else x + 1.
Proof.
  intros H. rewrite SkAlign2_spec by exact H. unfold SkIsAlign2.
  change 1 with (Z.ones 1) at 2. rewrite Z.land_ones by lia. change (2 ^ 1) with 2.
  pose proof (Z.mod_pos_bound x 2 ltac:(lia)).
  pose proof (Z.div_mod x 2 ltac:(lia)).
  destruct (x mod 2 =? 0) eqn:E.
  - apply Z.eqb_eq in E.
    replace (x + 1) with (1 + (x / 2) * 2) by lia.
    rewrite Z.div_add by lia. change (1 / 2) with 0. lia.
  - apply Z.eqb_neq in E.
    replace (x + 1) with ((x / 2 + 1) * 2) by lia.
    rewrite Z.div_mul by lia. lia.
Qed.

Lemma compute_row_bytes_24 (n : Z) : compute_row_bytes n 24 = 3 * n.
Proof.
  unfold compute_row_bytes.
  replace (n * 24 + 7) with (7 + (3 * n) * 8) by lia.
  rewrite Z.div_add by lia. reflexivity.
Qed.

Lemma compute_row_bytes_8 (n : Z) : compute_row_bytes n 8 = n.
Proof.
  unfold compute_row_bytes.
  replace (n * 8 + 7) with (7 + n * 8) by lia.
  rewrite Z.div_add by lia. reflexivity.
Qed.

Lemma compute_row_bytes_4 (n : Z) : compute_row_bytes n 4 = (n + 1) / 2.
Proof.
  unfold compute_row_bytes.
  pose proof (Z.div_mod (n + 1) 2 ltac:(lia)).
  pose proof (Z.mod_pos_bound (n + 1) 2 ltac:(lia)).
  assert (E : n * 4 + 7 = (4 * ((n + 1) mod 2) + 3) + ((n + 1) / 2) * 8) by lia.
  rewrite E, Z.div_add by lia.
  assert (E2 : (4 * ((n + 1) mod 2) + 3) / 8 = 0) by (apply Z.div_small; lia).
  lia.
Qed.

End RleFacts.

Section RleClaims.
Import Bmp.

(** C8.  A delta opcode (0, 2, dx, dy) that the loop reaches with its cursor
    row inside the image and its four bytes in the buffer moves the cursor to
    (x + dx, y + dy); the decode goes on from there when x + dx <= width and
    y + dy <= height, so landing on (width, height) is legal, and returns
    IncompleteInput otherwise. *)
Theorem C8_delta_moves_cursor (X : Externals) (c : SkBmpCodec)
    (dstInfo : SkImageInfo) (dstRowBytes : Z) (buffer : list Z)
    (totalBytes : Z) (fuel : nat) (s : RleState) (dx dy : Z) :
  0 <= currByte s -> currByte s + 4 <= totalBytes -> totalBytes < 2 ^ 32 ->
  get_byte buffer (currByte s) = 0 ->
  get_byte buffer (currByte s + 1) = 2 ->
  get_byte buffer (currByte s + 2) = dx ->
  get_byte buffer (currByte s + 3) = dy ->
  0 <= rx s <= width dstInfo -> width dstInfo < 2 ^ 16 ->
  0 <= ry s < height dstInfo -> height dstInfo < 2 ^ 16 ->
  rleLoop c dstInfo dstRowBytes buffer totalBytes (S fuel) s
  = if (rx s + dx <=? width dstInfo) && (ry s + dy <=? height dstInfo)
    then rleLoop c dstInfo dstRowBytes buffer totalBytes fuel
           (mkRle (rx s + dx) (ry s + dy) (currByte s + 4) (rdst s))
    else Some (kIncompleteInput,
               mkRle (rx s + dx) (ry s + dy) (currByte s + 4) (rdst s)).
Proof.
  intros Hc0 Hc4 Htot Hb0 Hb1 Hb2 Hb3 Hx Hw Hy Hh.
  destruct s as [x y curr dst]. cbn [rx ry currByte rdst] in *.
  pose proof (get_byte_range buffer (curr + 2)) as Rdx. rewrite Hb2 in Rdx.
  pose proof (get_byte_range buffer (curr + 3)) as Rdy. rewrite Hb3 in Rdy.
  cbn [rleLoop]. unfold rleStep. cbn [rx ry currByte rdst].
  rewrite (wrap32u_small (totalBytes - curr)) by lia.
  rewrite (wrap32u_small (curr + 1)) by lia.
  rewrite (wrap32u_small (curr + 2)) by lia.
  rewrite (wrap32u_small (totalBytes - (curr + 2))) by lia.
  rewrite (wrap32u_small (curr + 2 + 1)) by lia.
  rewrite (wrap32u_small (curr + 2 + 2)) by lia.
  replace (curr + 2 + 1) with (curr + 3) by lia.
  replace (curr + 2 + 2) with (curr + 4) by lia.
  rewrite Hb0, Hb1, Hb2, Hb3.
  rewrite (wrap32s_small (x + dx)) by lia.
  rewrite (wrap32s_small (y + dy)) by lia.
  rewrite (ltb_false (totalBytes - curr) 2) by lia.
  rewrite (geb_false y (height dstInfo)) by lia.
  rewrite (ltb_false (totalBytes - (curr + 2)) 2) by lia.
  change (RLE_ESCAPE =? 0) with true.
  change (2 =? RLE_EOL) with false.
  change (2 =? RLE_EOF) with false.
  change (2 =? RLE_DELTA) with true.
  cbn [andb].
  destruct (x + dx <=? width dstInfo) eqn:Ex;
    destruct (y + dy <=? height dstInfo) eqn:Ey; cbn [andb].
  - apply Z.leb_le in Ex. apply Z.leb_le in Ey.
    rewrite (gtb_false (x + dx) (width dstInfo)) by lia.
    rewrite (gtb_false (y + dy) (height dstInfo)) by lia.
    reflexivity.
  - apply Z.leb_gt in Ey.
    rewrite (gtb_true (y + dy) (height dstInfo)) by lia.
    rewrite orb_true_r. reflexivity.
  - apply Z.leb_gt in Ex.
    rewrite (gtb_true (x + dx) (width dstInfo)) by lia.
    reflexivity.
  - apply Z.leb_gt in Ex.
    rewrite (gtb_true (x + dx) (width dstInfo)) by lia.
    reflexivity.
Qed.

(** A delta of (4, 2) from the origin of a 4 by 2 image lands on
    (width, height). *)
Lemma C8_delta_moves_cursor_witness :
  let c := mkBmpCodec (X := ref_externals) (sample_info 4 2 kOpaque_SkAlphaType)
             false 8 kRLE_BitmapInputFormat noMasks (Some []) 0 4 0
             kBottomUp_RowOrder 6 false in
  let info := sample_info 4 2 kOpaque_SkAlphaType in
  let s := mkRle 0 0 0 sample_dst in
  rleLoop c info 16 [0; 2; 4; 2; 0; 1] 6 2 s
  = if (rx s + 4 <=? width info) && (ry s + 2 <=? height info)
    then rleLoop c info 16 [0; 2; 4; 2; 0; 1] 6 1
           (mkRle (rx s + 4) (ry s + 2) (currByte s + 4) (rdst s))
    else Some (kIncompleteInput,
               mkRle (rx s + 4) (ry s + 2) (currByte s + 4) (rdst s)).
Proof.
  intros c info s.
  apply (C8_delta_moves_cursor ref_externals c info 16 [0; 2; 4; 2; 0; 1] 6 1 s 4 2);
    try reflexivity; simpl; lia.
Defined.

(** A short read does not end the decode: whenever the RLE buffer has a
    positive size, whatever the stream yields, the destination is zeroed and
    the opcode loop runs over the bytes obtained. *)
Lemma decodeRLE_short_read_goes_on (X : Externals) (c : SkBmpCodec)
    (stream : SkStream) (dstInfo : SkImageInfo) (dst : Buffer) (dstRowBytes : Z) :
  0 < fRLEBytes c ->
  Z.of_nat (length (fst (stream_read stream (fRLEBytes c)))) <= fRLEBytes c ->
  decodeRLE c stream dstInfo dst dstRowBytes
  = let buffer := fst (stream_read stream (fRLEBytes c)) in
    let totalBytes := Z.of_nat (length buffer) in
    match rleLoop c dstInfo dstRowBytes buffer totalBytes (S (Z.to_nat totalBytes))
            (mkRle 0 0 0
               (memset dst 0 (wrap64u (dstRowBytes * wrap64u (height dstInfo)))))
    with
    | Some (r, s) => Some (r, snd (stream_read stream (fRLEBytes c)), rdst s)
    | None => None
    end.
Proof.
  intros Hpos Hlen. unfold decodeRLE.
  destruct (stream_read stream (fRLEBytes c)) as [buffer s'].
  cbn [fst snd] in *.
  replace (negb (Z.of_nat (length buffer) <? fRLEBytes c)
           && (Z.of_nat (length buffer) <=? 0)) with false; [reflexivity|].
  symmetry. destruct (Z.of_nat (length buffer) <? fRLEBytes c) eqn:E;
    [reflexivity|].
  apply Z.ltb_ge in E. cbn [negb andb]. apply Z.leb_gt. lia.
Qed.

(** C7, what the code does.  When the stream yields no byte for an RLE buffer of
    positive size, the load is answered with the warning only: the destination
    is zeroed, the opcode loop finds fewer than two bytes, and the decode
    returns IncompleteInput.  InvalidInput is returned only for a buffer of
    size 0. *)
Theorem C7_zero_byte_read_is_incomplete (X : Externals) (c : SkBmpCodec)
    (stream : SkStream) (dstInfo : SkImageInfo) (dst : Buffer) (dstRowBytes : Z) :
  0 < fRLEBytes c ->
  fst (stream_read stream (fRLEBytes c)) = [] ->
  decodeRLE c stream dstInfo dst dstRowBytes
  = Some (kIncompleteInput, snd (stream_read stream (fRLEBytes c)),
          memset dst 0 (wrap64u (dstRowBytes * wrap64u (height dstInfo)))).
Proof.
  intros Hpos Hread. unfold decodeRLE.
  destruct (stream_read stream (fRLEBytes c)) as [buffer s'] eqn:E.
  simpl in Hread. subst buffer. simpl.
  replace (0 <? fRLEBytes c) with true by (symmetry; apply Z.ltb_lt; exact Hpos).
  simpl. reflexivity.
Qed.

Lemma C7_zero_byte_read_is_incomplete_witness :
  let c := mkBmpCodec (X := ref_externals) (sample_info 4 1 kOpaque_SkAlphaType)
             false 8 kRLE_BitmapInputFormat noMasks (Some []) 2 4 0
             kBottomUp_RowOrder 6 false in
  let info := sample_info 4 1 kOpaque_SkAlphaType in
  decodeRLE c (mkStream [1; 2; 3] 3) info sample_dst 16
  = Some (kIncompleteInput, snd (stream_read (mkStream [1; 2; 3] 3) (fRLEBytes c)),
          memset sample_dst 0 (wrap64u (16 * wrap64u (height info)))).
Proof.
  intros c info.
  apply (C7_zero_byte_read_is_incomplete ref_externals c (mkStream [1; 2; 3] 3)
           info sample_dst 16).
  - simpl. lia.
  - reflexivity.
Defined.

(** C1, what the code does.  An absolute run of b >= 3 pixels at 24 bits per
    pixel that fits the row and the buffer stores its first pixel only, takes
    the three bytes of that pixel, and the decode returns InvalidInput: the
    case for 24 bits in the loop over the pixels runs into the default
    case. *)
Theorem C1_absolute_run_24_fails (X : Externals) (c : SkBmpCodec)
    (dstInfo : SkImageInfo) (dstRowBytes : Z) (buffer : list Z)
    (totalBytes : Z) (fuel : nat) (s : RleState) (b : Z) :
  fBitsPerPixel c = 24 ->
  0 <= currByte s -> totalBytes < 2 ^ 32 ->
  currByte s + 2 + SkAlign2 (3 * b) <= totalBytes ->
  get_byte buffer (currByte s) = 0 ->
  get_byte buffer (currByte s + 1) = b ->
  3 <= b ->
  0 <= rx s -> rx s + b <= width dstInfo -> width dstInfo < 2 ^ 16 ->
  ry s < height dstInfo ->
  rleLoop c dstInfo dstRowBytes buffer totalBytes (S fuel) s
  = Some (kInvalidInput,
          mkRle (rx s + 1) (ry s) (currByte s + 5)
            (setRLE24Pixel c (rdst s) dstRowBytes dstInfo (rx s) (ry s)
               (get_byte buffer (currByte s + 4))
               (get_byte buffer (currByte s + 3))
               (get_byte buffer (currByte s + 2)))).
Proof.
  intros Hbpp Hc0 Htot Hfit Hb0 Hb1 Hb3 Hx0 Hx Hw Hy.
  destruct s as [x y curr dst]. cbn [rx ry currByte rdst] in *.
  pose proof (get_byte_range buffer (curr + 1)) as Rb. rewrite Hb1 in Rb.
  pose proof (SkAlign2_bounds (3 * b) ltac:(lia)) as Ha.
  cbn [rleLoop]. unfold rleStep. cbn [rx ry currByte rdst].
  rewrite (wrap32u_small (totalBytes - curr)) by lia.
  rewrite (wrap32u_small (curr + 1)) by lia.
  rewrite (wrap32u_small (curr + 2)) by lia.
  rewrite (wrap32u_small (totalBytes - (curr + 2))) by lia.
  rewrite Hb0, Hb1, Hbpp, compute_row_bytes_24.
  rewrite (wrap32s_small (x + b)) by lia.
  rewrite (ltb_false (totalBytes - curr) 2) by lia.
  rewrite (geb_false y (height dstInfo)) by lia.
  rewrite (eqb_false b RLE_EOL) by (unfold RLE_EOL; lia).
  rewrite (eqb_false b RLE_EOF) by (unfold RLE_EOF; lia).
  rewrite (eqb_false b RLE_DELTA) by (unfold RLE_DELTA; lia).
  rewrite (gtb_false (x + b) (width dstInfo)) by lia.
  rewrite (ltb_false (totalBytes - (curr + 2)) (SkAlign2 (3 * b))) by lia.
  change (RLE_ESCAPE =? 0) with true.
  cbn [andb orb].
  destruct (Z.to_nat b) as [|n] eqn:En; [lia|].
  cbn [absoluteRun]. rewrite Hbpp.
  change (24 =? 4) with false. change (24 =? 8) with false.
  change (24 =? 24) with true.
  cbn [rx ry currByte rdst].
  rewrite (wrap32u_small (curr + 2 + 1)) by lia.
  rewrite (wrap32u_small (curr + 2 + 2)) by lia.
  rewrite (wrap32u_small (curr + 2 + 3)) by lia.
  rewrite (wrap32s_small (x + 1)) by lia.
  replace (curr + 2 + 1) with (curr + 3) by lia.
  replace (curr + 2 + 2) with (curr + 4) by lia.
  replace (curr + 2 + 3) with (curr + 5) by lia.
  reflexivity.
Qed.

(** Three pixels in absolute mode, their padding byte and the end-of-file
    pair, on a row of three pixels. *)
Lemma C1_absolute_run_24_fails_witness :
  let c := mkBmpCodec (X := ref_externals) (sample_info 3 1 kOpaque_SkAlphaType)
             false 24 kRLE_BitmapInputFormat noMasks (Some []) 0 4 0
             kBottomUp_RowOrder 14 false in
  let info := sample_info 3 1 kOpaque_SkAlphaType in
  let buffer := [0; 3; 1; 2; 3; 4; 5; 6; 7; 8; 9; 0; 0; 1] in
  let s := mkRle 0 0 0 sample_dst in
  rleLoop c info 12 buffer 14 15 s
  = Some (kInvalidInput,
          mkRle (rx s + 1) (ry s) (currByte s + 5)
            (setRLE24Pixel c (rdst s) 12 info (rx s) (ry s)
               (get_byte buffer (currByte s + 4))
               (get_byte buffer (currByte s + 3))
               (get_byte buffer (currByte s + 2)))).
Proof.
  intros c info buffer s.
  apply (C1_absolute_run_24_fails ref_externals c info 12 buffer 14 14 s 3);
    try reflexivity; simpl; lia.
Defined.

End RleClaims.

(** ** The RLE engine: stores and termination *)

Section RleLoopFacts.
Import Bmp.
Context {X : Externals}.

Lemma written_app (j1 j2 : list (Z * Z)) (a : Z) :
  written (j1 ++ j2) a = written j1 a || written j2 a.
Proof. unfold written. apply existsb_app. Qed.

Lemma stores_only_refl (d : Buffer) : stores_only d d [].
Proof. split; [reflexivity | intros a _; reflexivity]. Qed.

Lemma stores_only_trans (d1 d2 d3 : Buffer) (n1 n2 : list (Z * Z)) :
  stores_only d1 d2 n1 -> stores_only d2 d3 n2 -> stores_only d1 d3 (n2 ++ n1).
Proof.
  intros [J1 B1] [J2 B2]. split.
  - rewrite J2, J1. apply app_assoc.
  - intros a Ha. rewrite written_app in Ha. apply orb_false_iff in Ha.
    destruct Ha as [H2 H1]. rewrite (B2 a H2). apply B1. exact H1.
Qed.

Lemma stores_only_store (d : Buffer) (addr : Z) (data : list Z) :
  stores_only d (store_bytes d addr data) [(addr, Z.of_nat (length data))].
Proof.
  split; [reflexivity|].
  intros a Ha. unfold written in Ha. simpl in Ha. rewrite orb_false_r in Ha.
  unfold covers in Ha. simpl in Ha. simpl. rewrite Ha. reflexivity.
Qed.

Lemma grows_refl (d : Buffer) : grows d d.
Proof. exists []. apply stores_only_refl. Qed.

Lemma grows_trans (d1 d2 d3 : Buffer) : grows d1 d2 -> grows d2 d3 -> grows d1 d3.
Proof.
  intros [n1 H1] [n2 H2]. exists (n2 ++ n1). eapply stores_only_trans; eassumption.
Qed.

Lemma grows_store (d : Buffer) (addr : Z) (data : list Z) :
  grows d (store_bytes d addr data).
Proof. eexists. apply stores_only_store. Qed.

Lemma grows_setRLEPixel (c : SkBmpCodec) (d : Buffer) (rb : Z)
    (info : SkImageInfo) (x y index : Z) :
  grows d (setRLEPixel c d rb info x y index).
Proof.
  unfold setRLEPixel, store32, store16.
  destruct (colorType info); try apply grows_refl; apply grows_store.
Qed.

Lemma grows_setRLE24Pixel (c : SkBmpCodec) (d : Buffer) (rb : Z)
    (info : SkImageInfo) (x y r g b : Z) :
  grows d (setRLE24Pixel c d rb info x y r g b).
Proof.
  unfold setRLE24Pixel, store32, store16.
  destruct (colorType info); try apply grows_refl; apply grows_store.
Qed.

Lemma grows_fillRun24 (c : SkBmpCodec) (info : SkImageInfo) (rb r g b : Z)
    (n : nat) (x y : Z) (d : Buffer) :
  grows d (snd (fillRun24 c info rb r g b n x y d)).
Proof.
  revert x d. induction n as [|n IH]; intros x d; simpl.
  - apply grows_refl.
  - eapply grows_trans; [apply grows_setRLE24Pixel | apply IH].
Qed.

Lemma grows_fillRun (c : SkBmpCodec) (info : SkImageInfo) (rb i0 i1 : Z)
    (which : bool) (n : nat) (x y : Z) (d : Buffer) :
  grows d (snd (fillRun c info rb i0 i1 which n x y d)).
Proof.
  revert which x d. induction n as [|n IH]; intros which x d; simpl.
  - apply grows_refl.
  - eapply grows_trans; [apply grows_setRLEPixel | apply IH].
Qed.

(** An induction over the pixel count that steps by two, as the 4-bit case of
    [absoluteRun] does. *)
Lemma pair_induction (P : nat -> Prop) :
  P O -> P 1%nat -> (forall n, P n -> P (S (S n))) -> forall n, P n.
Proof.
  intros H0 H1 HS n.
  assert (H : P n /\ P (S n)).
  { induction n as [|n [IH1 IH2]]; [split; assumption|].
    split; [exact IH2 | apply HS; exact IH1]. }
  exact (proj1 H).
Qed.

Lemma grows_absoluteRun (c : SkBmpCodec) (info : SkImageInfo) (rb : Z)
    (buffer : list Z) (n : nat) :
  forall s, grows (rdst s) (step_dst (absoluteRun c info rb buffer n s)).
Proof.
  destruct (fBitsPerPixel c =? 4) eqn:E4.
  - induction n as [| |n IH] using pair_induction; intros s.
    + apply grows_refl.
    + cbn [absoluteRun]. rewrite E4. cbn [step_dst rdst]. apply grows_setRLEPixel.
    + cbn [absoluteRun]. rewrite E4.
      eapply grows_trans; [|apply IH]. cbn [rdst].
      eapply grows_trans; apply grows_setRLEPixel.
  - induction n as [|n IH]; intros s.
    + apply grows_refl.
    + cbn [absoluteRun]. rewrite E4.
      destruct (fBitsPerPixel c =? 8).
      * eapply grows_trans; [|apply IH]. cbn [rdst]. apply grows_setRLEPixel.
      * destruct (fBitsPerPixel c =? 24); cbn [step_dst rdst];
          [apply grows_setRLE24Pixel | apply grows_refl].
Qed.



(** A pass through the loop only stores pixels. *)
Lemma rleStep_grows (c : SkBmpCodec) (info : SkImageInfo) (rb : Z)
    (buffer : list Z) (totalBytes : Z) (s : RleState) :
  grows (rdst s) (step_dst (rleStep c info rb buffer totalBytes s)).
Proof.
  destruct s as [x y curr dst]. unfold rleStep. cbn [rx ry currByte rdst].
  destruct (wrap32u (totalBytes - curr) <? 2); [apply grows_refl|].
  destruct ((y >=? height info)
            && (negb (get_byte buffer curr =? RLE_ESCAPE)
                || negb (get_byte buffer (wrap32u (curr + 1)) =? RLE_EOF)));
    [apply grows_refl|].
  destruct (RLE_ESCAPE =? get_byte buffer curr).
  - destruct (get_byte buffer (wrap32u (curr + 1)) =? RLE_EOL); [apply grows_refl|].
    destruct (get_byte buffer (wrap32u (curr + 1)) =? RLE_EOF); [apply grows_refl|].
    destruct (get_byte buffer (wrap32u (curr + 1)) =? RLE_DELTA).
    + destruct (wrap32u (totalBytes - wrap32u (curr + 2)) <? 2); [apply grows_refl|].
      match goal with |- context [if ?b then _ else _] => destruct b end;
        apply grows_refl.
    + match goal with |- context [if ?b then _ else _] => destruct b end;
        [apply grows_refl|].
      match goal with |- context [absoluteRun ?c ?i ?r ?b ?n ?s0] =>
        pose proof (grows_absoluteRun c i r b n s0) as Hrun;
        destruct (absoluteRun c i r b n s0) as [s1|r1 s1]
      end; simpl in Hrun.
      * match goal with |- context [if ?b then _ else _] => destruct b end;
          simpl; exact Hrun.
      * simpl. exact Hrun.
  - destruct (24 =? fBitsPerPixel c).
    + destruct (wrap32u (totalBytes - wrap32u (curr + 2)) <? 2); [apply grows_refl|].
      match goal with |- context [fillRun24 ?c ?i ?r ?a1 ?a2 ?a3 ?n ?x0 ?y0 ?d0] =>
        pose proof (grows_fillRun24 c i r a1 a2 a3 n x0 y0 d0) as Hrun;
        destruct (fillRun24 c i r a1 a2 a3 n x0 y0 d0) as [x1 d1]
      end.
      simpl in *. exact Hrun.
    + match goal with |- context [fillRun ?c ?i ?r ?a1 ?a2 ?w ?n ?x0 ?y0 ?d0] =>
        pose proof (grows_fillRun c i r a1 a2 w n x0 y0 d0) as Hrun;
        destruct (fillRun c i r a1 a2 w n x0 y0 d0) as [x1 d1]
      end.
      simpl in *. exact Hrun.
Qed.


(** The loop only stores pixels. *)
Lemma rleLoop_grows (c : SkBmpCodec) (info : SkImageInfo) (rb : Z)
    (buffer : list Z) (totalBytes : Z) (fuel : nat) :
  forall s r s',
    rleLoop c info rb buffer totalBytes fuel s = Some (r, s') ->
    grows (rdst s) (rdst s').
Proof.
  induction fuel as [|fuel IH]; intros s r s' H; simpl in H; [discriminate|].
  pose proof (rleStep_grows c info rb buffer totalBytes s) as Hstep.
  destruct (rleStep c info rb buffer totalBytes s) as [s1|r1 s1]; simpl in Hstep.
  - eapply grows_trans; [exact Hstep | eapply IH; exact H].
  - inversion H; subst. exact Hstep.
Qed.


End RleLoopFacts.

(** ** Loads and stores of pixels *)

Lemma split_at (k lo hi : Z) :
  0 <= lo < k -> (lo + k * hi) / k = hi /\ (lo + k * hi) mod k = lo.
Proof.
  intros H. replace (lo + k * hi) with (lo + hi * k) by lia. split.
  - rewrite Z.div_add by lia. rewrite Z.div_small by lia. lia.
  - rewrite Z.mod_add by lia. apply Z.mod_small. lia.
Qed.

Lemma le_bytes32_compose (b0 b1 b2 b3 : Z) :
  0 <= b0 < 256 -> 0 <= b1 < 256 -> 0 <= b2 < 256 -> 0 <= b3 < 256 ->
  le_bytes32 (b0 + 2 ^ 8 * b1 + 2 ^ 16 * b2 + 2 ^ 24 * b3) = [b0; b1; b2; b3].
Proof.
  intros H0 H1 H2 H3. unfold le_bytes32, wrap8u.
  rewrite !Z.shiftr_div_pow2 by lia.
  change (2 ^ 8) with 256. change (2 ^ 16) with 65536. change (2 ^ 24) with 16777216.
  assert (E0 : (b0 + 256 * b1 + 65536 * b2 + 16777216 * b3) mod 256 = b0).
  { replace (b0 + 256 * b1 + 65536 * b2 + 16777216 * b3)
      with (b0 + 256 * (b1 + 256 * b2 + 65536 * b3)) by lia.
    apply (split_at 256). lia. }
  assert (E1 : (b0 + 256 * b1 + 65536 * b2 + 16777216 * b3) / 256
               = b1 + 256 * (b2 + 256 * b3)).
  { replace (b0 + 256 * b1 + 65536 * b2 + 16777216 * b3)
      with (b0 + 256 * (b1 + 256 * (b2 + 256 * b3))) by lia.
    apply (split_at 256). lia. }
  assert (E2 : (b0 + 256 * b1 + 65536 * b2 + 16777216 * b3) / 65536
               = b2 + 256 * b3).
  { replace (b0 + 256 * b1 + 65536 * b2 + 16777216 * b3)
      with ((b0 + 256 * b1) + 65536 * (b2 + 256 * b3)) by lia.
    apply (split_at 65536). lia. }
  assert (E3 : (b0 + 256 * b1 + 65536 * b2 + 16777216 * b3) / 16777216 = b3).
  { replace (b0 + 256 * b1 + 65536 * b2 + 16777216 * b3)
      with ((b0 + 256 * b1 + 65536 * b2) + 16777216 * b3) by lia.
    apply (split_at 16777216). lia. }
  rewrite E0, E1, E2, E3.
  rewrite (proj2 (split_at 256 b1 (b2 + 256 * b3) H1)).
  rewrite (proj2 (split_at 256 b2 b3 H2)).
  rewrite (Z.mod_small b3 256) by lia.
  reflexivity.
Qed.

Lemma load32_range (d : Buffer) (q : Z) : 0 <= load32 d q < 2 ^ 32.
Proof.
  unfold load32.
  pose proof (wrap8u_range (bytes d q)). pose proof (wrap8u_range (bytes d (q + 1))).
  pose proof (wrap8u_range (bytes d (q + 2))).
  pose proof (wrap8u_range (bytes d (q + 3))). lia.
Qed.

(** A load sees only the four bytes of its pixel. *)
Lemma load32_frame (d d' : Buffer) (q : Z) :
  (forall a, q <= a < q + 4 -> bytes d' a = bytes d a) ->
  load32 d' q = load32 d q.
Proof.
  intros H. unfold load32.
  rewrite (H q), (H (q + 1)), (H (q + 2)), (H (q + 3)) by lia. reflexivity.
Qed.

Lemma bytes_store32_out (d : Buffer) (p v a : Z) :
  a < p \/ p + 4 <= a -> bytes (store32 d p v) a = bytes d a.
Proof.
  intros H. unfold store32, store_bytes, le_bytes32. cbn [bytes length].
  destruct (p <=? a) eqn:E1; [|reflexivity].
  destruct (a <? p + Z.of_nat 4) eqn:E2; [|reflexivity].
  apply Z.leb_le in E1. apply Z.ltb_lt in E2. lia.
Qed.

Lemma bytes_store32_in (d : Buffer) (p v : Z) (i : nat) :
  (i < 4)%nat ->
  bytes (store32 d p v) (p + Z.of_nat i) = wrap8u (nth i (le_bytes32 v) 0).
Proof.
  intros H. unfold store32, store_bytes. cbn [bytes].
  replace (length (le_bytes32 v)) with 4%nat by reflexivity.
  replace (p <=? p + Z.of_nat i) with true by (symmetry; apply Z.leb_le; lia).
  replace (p + Z.of_nat i <? p + Z.of_nat 4) with true
    by (symmetry; apply Z.ltb_lt; lia).
  cbn [andb]. f_equal. f_equal. lia.
Qed.

(** Storing the four bytes [b0..b3], each below 256, and loading them. *)
Lemma load32_store32_bytes (d : Buffer) (p v b0 b1 b2 b3 : Z) :
  le_bytes32 v = [b0; b1; b2; b3] ->
  0 <= b0 < 256 -> 0 <= b1 < 256 -> 0 <= b2 < 256 -> 0 <= b3 < 256 ->
  load32 (store32 d p v) p = b0 + 2 ^ 8 * b1 + 2 ^ 16 * b2 + 2 ^ 24 * b3.
Proof.
  intros Hv H0 H1 H2 H3. unfold load32.
  pose proof (bytes_store32_in d p v 0 ltac:(lia)) as E0.
  pose proof (bytes_store32_in d p v 1 ltac:(lia)) as E1.
  pose proof (bytes_store32_in d p v 2 ltac:(lia)) as E2.
  pose proof (bytes_store32_in d p v 3 ltac:(lia)) as E3.
  rewrite Hv in E0, E1, E2, E3. cbn [nth] in E0, E1, E2, E3.
  replace (p + Z.of_nat 0) with p in E0 by lia.
  change (Z.of_nat 1) with 1 in E1. change (Z.of_nat 2) with 2 in E2.
  change (Z.of_nat 3) with 3 in E3.
  rewrite E0, E1, E2, E3.
  rewrite !wrap8u_small by (try apply wrap8u_range; lia).
  reflexivity.
Qed.

Lemma load32_store32_zero (d : Buffer) (p : Z) : load32 (store32 d p 0) p = 0.
Proof.
  rewrite (load32_store32_bytes d p 0 0 0 0 0); try lia. reflexivity.
Qed.

Lemma load32_store32_keep (d : Buffer) (p : Z) :
  load32 (store32 d p (load32 d p)) p = load32 d p.
Proof.
  unfold load32 at 2.
  rewrite (load32_store32_bytes d p _ (wrap8u (bytes d p))
             (wrap8u (bytes d (p + 1))) (wrap8u (bytes d (p + 2)))
             (wrap8u (bytes d (p + 3)))); try apply wrap8u_range.
  - reflexivity.
  - apply le_bytes32_compose; apply wrap8u_range.
Qed.

Lemma load32_store32_out (d : Buffer) (p v q : Z) :
  q + 4 <= p \/ p + 4 <= q -> load32 (store32 d p v) q = load32 d q.
Proof.
  intros H. apply load32_frame. intros a Ha. apply bytes_store32_out. lia.
Qed.

(** ** The AND mask of an ICO *)

Section AndMaskFacts.
Import Bmp.
Context {X : Externals}.

Lemma maskBit_cases (maskRow : list Z) (x : Z) :
  maskBit maskRow x = 0 \/ maskBit maskRow x = 1.
Proof.
  unfold maskBit.
  assert (E : forall z, Z.land z 1 = z mod 2).
  { intros z. change 1 with (Z.ones 1). rewrite Z.land_ones by lia. reflexivity. }
  rewrite E.
  pose proof (Z.mod_pos_bound
                (Z.shiftr (get_byte maskRow (x / 8)) (7 - x mod 8)) 2 ltac:(lia)).
  lia.
Qed.

(** The pass along one row: pixel [x] ends as 0 where its bit is 1 and as it
    was where its bit is 0, and no byte outside the pixels of the pass
    changes. *)
Lemma applyMaskRow_spec (srcBuffer : list Z) (dstRow : Z) (n : nat) :
  forall x0 d,
    0 <= x0 -> x0 + Z.of_nat n < 2 ^ 31 ->
    (forall x, x0 <= x < x0 + Z.of_nat n ->
       load32 (applyMaskRow srcBuffer dstRow n x0 d) (dstRow + 4 * x)
       = if maskBit srcBuffer x =? 1 then 0 else load32 d (dstRow + 4 * x))
    /\ (forall a, a < dstRow + 4 * x0 \/ dstRow + 4 * (x0 + Z.of_nat n) <= a ->
          bytes (applyMaskRow srcBuffer dstRow n x0 d) a = bytes d a).
Proof.
  induction n as [|n IH]; intros x0 d Hx0 Hn.
  - split; [intros x Hx; lia | intros a _; reflexivity].
  - cbn [applyMaskRow].
    rewrite Z.quot_div_nonneg, Z.rem_mod_nonneg by lia.
    pose proof (Z.mod_pos_bound x0 8 ltac:(lia)) as Hm.
    rewrite (wrap32u_small (7 - x0 mod 8)) by lia.
    rewrite (wrap32s_small (x0 + 1)) by lia.
    fold (maskBit srcBuffer x0).
    set (d1 := store32 d (dstRow + 4 * x0)
                 (Z.land (load32 d (dstRow + 4 * x0))
                    (wrap32u (maskBit srcBuffer x0 - 1)))).
    destruct (IH (x0 + 1) d1 ltac:(lia) ltac:(lia)) as [IHpix IHframe].
    assert (Hd1 : load32 d1 (dstRow + 4 * x0)
                  = if maskBit srcBuffer x0 =? 1 then 0
                    else load32 d (dstRow + 4 * x0)).
    { unfold d1. destruct (maskBit_cases srcBuffer x0) as [E|E]; rewrite E.
      - change (wrap32u (0 - 1)) with (Z.ones 32).
        rewrite Z.land_ones by lia.
        rewrite Z.mod_small by apply load32_range.
        apply load32_store32_keep.
      - change (wrap32u (1 - 1)) with 0. rewrite Z.land_0_r.
        apply load32_store32_zero. }
    split.
    + intros x Hx. destruct (Z.eq_dec x x0) as [->|Hne].
      * rewrite <- Hd1. apply load32_frame. intros a Ha. apply IHframe. lia.
      * rewrite IHpix by lia.
        replace (load32 d1 (dstRow + 4 * x)) with (load32 d (dstRow + 4 * x));
          [reflexivity|].
        symmetry. unfold d1. apply load32_store32_out. lia.
    + intros a Ha. rewrite IHframe by lia. unfold d1.
      apply bytes_store32_out. lia.
Qed.

Lemma SkAlign4_ge (x : Z) : 0 <= x -> x <= SkAlign4 x.
Proof.
  intros H. unfold SkAlign4.
  rewrite Z.shiftl_mul_pow2, Z.shiftr_div_pow2 by lia. change (2 ^ 2) with 4.
  pose proof (Z.div_mod (x + 3) 4 ltac:(lia)).
  pose proof (Z.mod_pos_bound (x + 3) 4 ltac:(lia)). lia.
Qed.

(** What a full read yields and where it leaves the stream. *)
Lemma stream_read_full (s s2 : SkStream) (n : Z) (src : list Z) :
  stream_read s n = (src, s2) ->
  Z.of_nat (length src) = n ->
  src = firstn (Z.to_nat n) (skipn (spos s) (sdata s))
  /\ skipn (spos s2) (sdata s2)
     = skipn (Z.to_nat n) (skipn (spos s) (sdata s)).
Proof.
  unfold stream_read. intros H Hlen. inversion H as [[H1 H2]]. clear H.
  split; [reflexivity|]. cbn [spos sdata].
  rewrite H1, skipn_skipn. f_equal. lia.
Qed.

Lemma maskBit_firstn (m : nat) (l : list Z) (x : Z) :
  0 <= x -> x / 8 < Z.of_nat m -> maskBit (firstn m l) x = maskBit l x.
Proof.
  intros Hx Hm. unfold maskBit, get_byte. rewrite nth_firstn.
  assert (0 <= x / 8) by (apply Z.div_pos; lia).
  replace (Z.to_nat (x / 8) <? m)%nat with true; [reflexivity|].
  symmetry. apply Nat.ltb_lt. lia.
Qed.

(** The destination row of source row [y], and back. *)
Lemma srcRowOf_dstRow (c : SkBmpCodec) (h y row : Z) :
  0 <= y < h -> h < 2 ^ 31 ->
  (srcRowOf c h row = y
   <-> row = match fRowOrder c with
             | kBottomUp_RowOrder => wrap32s (h - y - 1)
             | kTopDown_RowOrder => y
             end).
Proof.
  intros Hy Hh. unfold srcRowOf. destruct (fRowOrder c).
  - tauto.
  - rewrite wrap32s_small by lia. lia.
Qed.

(** The rows of the AND mask from source row [y0] on: a pixel whose source row
    is among them ends as 0 or as it was, by its bit; the others are as they
    were. *)
Lemma applyAndMask_spec (c : SkBmpCodec) (info : SkImageInfo) (rb mrb : Z) :
  0 <= width info < 2 ^ 31 -> 0 <= height info < 2 ^ 31 ->
  4 * width info <= rb -> rb * height info < 2 ^ 64 ->
  (width info + 7) / 8 <= mrb ->
  forall (n : nat) (y0 : Z) (s : SkStream) (d : Buffer) (s' : SkStream)
         (d' : Buffer),
    0 <= y0 -> y0 + Z.of_nat n = height info ->
    applyAndMask c info rb mrb n y0 s d = (kSuccess, s', d') ->
    forall x row,
      0 <= x < width info -> 0 <= row < height info ->
      load32 d' (row * rb + 4 * x)
      = if y0 <=? srcRowOf c (height info) row then
          if maskBit
               (skipn (Z.to_nat ((srcRowOf c (height info) row - y0) * mrb))
                  (skipn (spos s) (sdata s))) x =? 1
          then 0 else load32 d (row * rb + 4 * x)
        else load32 d (row * rb + 4 * x).
Proof.
  intros Hw Hh Hrb Hsize Hmrb.
  induction n as [|n IH]; intros y0 s d s' d' Hy0 Hsum Hrun x row Hx Hrow.
  - cbn [applyAndMask] in Hrun. inversion Hrun; subst.
    replace (y0 <=? srcRowOf c (height info) row) with false; [reflexivity|].
    symmetry. apply Z.leb_gt. unfold srcRowOf. destruct (fRowOrder c); lia.
  - cbn [applyAndMask] in Hrun.
    destruct (stream_read s mrb) as [src s2] eqn:Hread.
    destruct (Z.of_nat (length src) =? mrb) eqn:Hlen; cbn [negb] in Hrun;
      [|discriminate].
    apply Z.eqb_eq in Hlen.
    destruct (stream_read_full _ _ _ _ Hread Hlen) as [Hsrc Hrest].
    set (r0 := match fRowOrder c with
               | kBottomUp_RowOrder => wrap32s (height info - y0 - 1)
               | kTopDown_RowOrder => y0
               end) in Hrun.
    assert (Hr0 : 0 <= r0 < height info).
    { unfold r0. destruct (fRowOrder c); [lia|]. rewrite wrap32s_small by lia. lia. }
    assert (Hdst : wrap64u (r0 * rb) = r0 * rb) by (apply wrap64u_small; nia).
    rewrite Hdst in Hrun.
    rewrite (wrap32s_small (y0 + 1)) in Hrun by lia.
    set (d1 := applyMaskRow src (r0 * rb) (Z.to_nat (width info)) 0 d) in Hrun.
    destruct (applyMaskRow_spec src (r0 * rb) (Z.to_nat (width info)) 0 d
                ltac:(lia) ltac:(lia)) as [Hpix Hframe].
    fold d1 in Hpix, Hframe.
    pose proof (IH (y0 + 1) s2 d1 s' d' ltac:(lia) ltac:(lia) Hrun x row Hx Hrow)
      as Hrec.
    pose proof (srcRowOf_dstRow c (height info) y0 row ltac:(lia) ltac:(lia)) as Hiff.
    fold r0 in Hiff.
    assert (Hsr : 0 <= srcRowOf c (height info) row < height info).
    { unfold srcRowOf. destruct (fRowOrder c); lia. }
    destruct (Z.eq_dec (srcRowOf c (height info) row) y0) as [Heq|Hne].
    + (* the row of this pass *)
      assert (row = r0) by (apply Hiff; exact Heq). subst row.
      rewrite Heq in *.
      replace (y0 + 1 <=? y0) with false in Hrec by (symmetry; apply Z.leb_gt; lia).
      replace (y0 <=? y0) with true by (symmetry; apply Z.leb_le; lia).
      rewrite Hrec. rewrite Hpix by lia.
      replace ((y0 - y0) * mrb) with 0 by lia. cbn [Z.to_nat skipn].
      rewrite Hsrc. rewrite maskBit_firstn; [reflexivity | lia |].
      assert (x / 8 <= (width info + 7) / 8) by (apply Z.div_le_mono; lia).
      assert (x / 8 < (width info + 7) / 8).
      { apply Z.div_lt_upper_bound; [lia|].
        pose proof (Z.div_mod (width info + 7) 8 ltac:(lia)).
        pose proof (Z.mod_pos_bound (width info + 7) 8 ltac:(lia)). lia. }
      lia.
    + (* another row: the pass leaves it alone *)
      assert (Hother : row <> r0) by (intros E; apply Hne, Hiff; exact E).
      assert (Hsame : load32 d1 (row * rb + 4 * x) = load32 d (row * rb + 4 * x)).
      { apply load32_frame. intros a Ha. apply Hframe.
        rewrite Z2Nat.id by lia. nia. }
      rewrite Hsame in Hrec. rewrite Hrec.
      destruct (y0 <=? srcRowOf c (height info) row) eqn:E0.
      * apply Z.leb_le in E0.
        replace (y0 + 1 <=? srcRowOf c (height info) row) with true
          by (symmetry; apply Z.leb_le; lia).
        rewrite Hrest. rewrite skipn_skipn.
        replace (Z.to_nat ((srcRowOf c (height info) row - (y0 + 1)) * mrb)
                 + Z.to_nat mrb)%nat
          with (Z.to_nat ((srcRowOf c (height info) row - y0) * mrb));
          [reflexivity|].
        assert (0 <= mrb) by (rewrite <- Hlen; lia).
        rewrite <- Z2Nat.inj_add by nia. f_equal. lia.
      * apply Z.leb_gt in E0.
        replace (y0 + 1 <=? srcRowOf c (height info) row) with false
          by (symmetry; apply Z.leb_gt; lia).
        reflexivity.
Qed.

End AndMaskFacts.

Section AndMaskClaims.
Import Bmp.

(** The colour rows stop early only on a short read. *)
Lemma decodeRows_early (X : Externals) (c : SkBmpCodec) (info : SkImageInfo)
    (rowBytes : Z) (n : nat) :
  forall swizzler y stream dst r s d,
    decodeRows c info swizzler rowBytes n y stream dst = Some (inl (r, s, d)) ->
    r = kIncompleteInput.
Proof.
  induction n as [|n IH]; intros swizzler y stream dst r s d H.
  - cbn [decodeRows] in H. discriminate.
  - cbn [decodeRows] in H.
    destruct (stream_read stream rowBytes) as [src s2].
    destruct (negb (Z.of_nat (length src) =? rowBytes)).
    + inversion H; subst. reflexivity.
    + obind_inv H. obind_inv H. destruct a0 as [[ra sw] d2].
      eapply IH. exact H.
Qed.

(** C4.  For a BMP embedded in an ICO that the standard engine decodes with
    success into a destination whose rows do not overlap (dstRowBytes at least
    four bytes per pixel of the width, dimensions that are non-negative [int]s,
    a size that fits the address space): the colour rows are decoded first,
    and afterwards every pixel whose AND-mask bit is 1 reads 0 in all four
    bytes, and every pixel whose bit is 0 reads what the colour rows left
    there. *)
Theorem C4_and_mask_applied (X : Externals) (c : SkBmpCodec)
    (stream : SkStream) (dstInfo : SkImageInfo) (dst : Buffer) (dstRowBytes : Z)
    (s' : SkStream) (d' : Buffer) :
  fIsIco c = true ->
  0 <= width dstInfo < 2 ^ 31 -> 0 <= height dstInfo < 2 ^ 31 ->
  4 * width dstInfo <= dstRowBytes ->
  dstRowBytes * height dstInfo < 2 ^ 64 ->
  decode c stream dstInfo dst dstRowBytes = Some (kSuccess, s', d') ->
  exists config s1 d1,
    standardConfig c dstInfo = Some config
    /\ decodeRows c dstInfo
         (CreateSwizzler config (Some (colorsOf c)) dstInfo (Some 0) dstRowBytes
            kNo_ZeroInitialized)
         (SkAlign4 (compute_row_bytes (width dstInfo) (fBitsPerPixel c)))
         (Z.to_nat (height dstInfo)) 0 stream dst
       = Some (inr (s1, d1))
    /\ forall x row,
         0 <= x < width dstInfo -> 0 <= row < height dstInfo ->
         load32 d' (row * dstRowBytes + 4 * x)
         = if andMaskBit c dstInfo s1 x row =? 1 then 0
           else load32 d1 (row * dstRowBytes + 4 * x).
Proof.
  intros Hico Hw Hh Hrb Hsize Hdec. unfold decode in Hdec.
  destruct (standardConfig c dstInfo) as [config|] eqn:Hcfg; [|discriminate].
  obind_inv Hdec. destruct a as [[[r s0] d0]|[s1 d1]].
  - inversion Hdec; subst.
    pose proof (decodeRows_early _ _ _ _ _ _ _ _ _ _ _ _ Hstep). discriminate.
  - rewrite Hico in Hdec. inversion Hdec as [Hmask]. clear Hdec.
    exists config, s1, d1. split; [reflexivity|]. split; [exact Hstep|].
    intros x row Hx Hrow.
    assert (Hmrb : (width dstInfo + 7) / 8
                   <= SkAlign4 (compute_row_bytes (width dstInfo) 1)).
    { unfold compute_row_bytes. rewrite Z.mul_1_r.
      apply SkAlign4_ge. apply Z.div_pos; lia. }
    rewrite (applyAndMask_spec c dstInfo dstRowBytes _ Hw Hh Hrb Hsize Hmrb
               (Z.to_nat (height dstInfo)) 0 s1 d1 s' d' ltac:(lia) ltac:(lia)
               Hmask x row Hx Hrow).
    replace (0 <=? srcRowOf c (height dstInfo) row) with true.
    + unfold andMaskBit. rewrite Z.sub_0_r. reflexivity.
    + symmetry. apply Z.leb_le. unfold srcRowOf. destruct (fRowOrder c); lia.
Qed.

(** A 2 by 2 image of 32 bits per pixel from an ICO, all pixels opaque red,
    with the AND-mask bits 10 for the first row of the stream and 01 for the
    second. *)
Lemma C4_and_mask_applied_witness :
  let c := mkBmpCodec (X := ref_externals) (sample_info 2 2 kUnpremul_SkAlphaType)
             false 32 kStandard_BitmapInputFormat noMasks (Some []) 0 4 0
             kBottomUp_RowOrder 0 true in
  let info := sample_info 2 2 kUnpremul_SkAlphaType in
  let stream :=
    mkStream [0; 0; 255; 255; 0; 0; 255; 255; 0; 0; 255; 255; 0; 0; 255; 255;
              128; 0; 0; 0; 64; 0; 0; 0] 0 in
  exists s' d' config s1 d1,
    decode c stream info sample_dst 8 = Some (kSuccess, s', d')
    /\ standardConfig c info = Some config
    /\ decodeRows c info
         (CreateSwizzler (X := ref_externals) config (Some (colorsOf c)) info
            (Some 0) 8 kNo_ZeroInitialized)
         (SkAlign4 (compute_row_bytes (width info) (fBitsPerPixel c)))
         (Z.to_nat (height info)) 0 stream sample_dst
       = Some (inr (s1, d1))
    /\ forall x row,
         0 <= x < width info -> 0 <= row < height info ->
         load32 d' (row * 8 + 4 * x)
         = if andMaskBit c info s1 x row =? 1 then 0
           else load32 d1 (row * 8 + 4 * x).
Proof.
  intros c info stream.
  eexists. eexists.
  assert (E : decode c stream info sample_dst 8
              = Some (kSuccess, _, _)) by reflexivity.
  destruct (C4_and_mask_applied ref_externals c stream info sample_dst 8 _ _
              eq_refl ltac:(simpl; lia) ltac:(simpl; lia) ltac:(simpl; lia)
              ltac:(simpl; lia) E)
    as (config & s1 & d1 & H1 & H2 & H3).
  exists config, s1, d1. split; [exact E|]. split; [exact H1|].
  split; [exact H2 | exact H3].
Defined.

End AndMaskClaims.

(** ** The bit-mask engine *)

Section MaskFacts.
Import Bmp.
Context {X : Externals}.

Lemma applyStores_agree (stores : list (Z * list Z)) (a : Z) :
  forall d1 d2,
    (written (footprints stores) a = false -> bytes d1 a = bytes d2 a) ->
    bytes (applyStores stores d1) a = bytes (applyStores stores d2) a.
Proof.
  induction stores as [|w stores IH]; intros d1 d2 H.
  - apply H. reflexivity.
  - cbn [applyStores fold_left]. apply IH. intros Hrest.
    cbn [store_bytes bytes].
    destruct ((fst w <=? a) && (a <? fst w + Z.of_nat (length (snd w)))) eqn:E;
      [reflexivity|].
    apply H. unfold written. cbn [footprints map existsb].
    unfold covers. cbn [fst snd]. rewrite E. exact Hrest.
Qed.

Lemma applyStores_frame (stores : list (Z * list Z)) (a : Z) :
  forall d, written (footprints stores) a = false ->
            bytes (applyStores stores d) a = bytes d a.
Proof.
  induction stores as [|w stores IH]; intros d H; [reflexivity|].
  cbn [applyStores fold_left]. unfold written in H.
  cbn [footprints map existsb] in H. apply orb_false_iff in H.
  destruct H as [Hw Hrest].
  unfold applyStores in IH. rewrite IH by exact Hrest.
  cbn [store_bytes bytes]. unfold covers in Hw. cbn [fst snd] in Hw.
  rewrite Hw. reflexivity.
Qed.

(** A second pass that stores over the same places hides the first. *)
Lemma applyStores_absorb (first second : list (Z * list Z)) (d : Buffer) (a : Z) :
  footprints first = footprints second ->
  bytes (applyStores second (applyStores first d)) a
  = bytes (applyStores second d) a.
Proof.
  intros Hfp. apply applyStores_agree. intros Hout.
  apply applyStores_frame. rewrite Hfp. exact Hout.
Qed.

Lemma maskStores_footprints (c : SkBmpCodec) (info info2 : SkImageInfo) (rb : Z)
    (rows : list (list Z)) :
  height info2 = height info ->
  Forall (fun srcRow =>
            length (fst (mask_row info (fMasks c) (fBitsPerPixel c) srcRow))
            = length (fst (mask_row info2 (fMasks c) (fBitsPerPixel c) srcRow)))
    rows ->
  forall y, footprints (maskStores c info rb rows y)
            = footprints (maskStores c info2 rb rows y).
Proof.
  intros Hh Hall. induction Hall as [|srcRow rows Hrow _ IH]; intros y.
  - reflexivity.
  - cbn [maskStores footprints map fst snd]. rewrite Hrow, Hh. f_equal. apply IH.
Qed.


(** The first pass: the rows it buffers and the stores it makes; and the same
    pass for a second image description of the same height, whose swizzler
    exists, buffers the same rows from the same stream. *)
Lemma decodeMaskRows_stores (c : SkBmpCodec) (info info2 : SkImageInfo)
    (rb rowBytes : Z) (n : nat) :
  height info2 = height info ->
  n = O \/ CreateMaskSwizzler_ok info2 rb (fMasks c) (fBitsPerPixel c) = true ->
  forall y t buf s d t' buf' s' d',
    decodeMaskRows c info rb rowBytes n y t buf s d
    = Some (inr (t', buf', s', d')) ->
    exists rows,
      buf' = buf ++ rows
      /\ d' = applyStores (maskStores c info rb rows y) d
      /\ forall t2 buf2 d2,
           exists t2',
             decodeMaskRows c info2 rb rowBytes n y t2 buf2 s d2
             = Some (inr (t2', buf2 ++ rows, s',
                          applyStores (maskStores c info2 rb rows y) d2)).
Proof.
  intros Hh. induction n as [|n IH]; intros Hok y t buf s d t' buf' s' d' Hrun.
  - cbn [decodeMaskRows] in Hrun. inversion Hrun; subst.
    exists []. rewrite app_nil_r. split; [reflexivity|]. split; [reflexivity|].
    intros t2 buf2 d2. exists t2. cbn [decodeMaskRows]. rewrite app_nil_r.
    reflexivity.
  - destruct Hok as [Hok|Hok]; [discriminate|].
    cbn [decodeMaskRows] in Hrun.
    destruct (stream_read s rowBytes) as [srcRow s2] eqn:Hread.
    destruct (negb (Z.of_nat (length srcRow) =? rowBytes)) eqn:Hlen; [discriminate|].
    destruct (negb (CreateMaskSwizzler_ok info rb (fMasks c) (fBitsPerPixel c)));
      [discriminate|].
    unfold maskSwizzler_next in Hrun.
    destruct (mask_row info (fMasks c) (fBitsPerPixel c) srcRow) as [out r] eqn:Hrow.
    destruct (IH (or_intror Hok) _ _ _ _ _ _ _ _ _ Hrun) as (rows & Hbuf & Hd & Hsec).
    exists (srcRow :: rows). split; [|split].
    + rewrite Hbuf, <- app_assoc. reflexivity.
    + rewrite Hd. cbn [maskStores applyStores fold_left fst snd]. rewrite Hrow.
      reflexivity.
    + intros t2 buf2 d2. cbn [decodeMaskRows]. rewrite Hread, Hlen, Hok.
      cbn [negb]. unfold maskSwizzler_next.
      destruct (mask_row info2 (fMasks c) (fBitsPerPixel c) srcRow)
        as [out2 r2] eqn:Hrow2.
      destruct (Hsec (t2 && IsTransparent r2) (buf2 ++ [srcRow])
                  (store_bytes d2 (dstRowOf c (height info2) y * rb) out2))
        as (t2' & Hrun2).
      exists t2'. rewrite Hh. rewrite Hh in Hrun2. rewrite Hrun2.
      rewrite <- app_assoc. cbn [app maskStores applyStores fold_left fst snd].
      rewrite Hrow2, Hh. reflexivity.
Qed.

(** The second pass makes the stores of the opaque swizzler over the buffered
    rows. *)
Lemma opaqueMaskRows_stores (c : SkBmpCodec) (info : SkImageInfo) (rb : Z)
    (rows : list (list Z)) :
  forall y d,
    (rows = [] \/ CreateMaskSwizzler_ok info rb (fMasks c) (fBitsPerPixel c) = true) ->
    opaqueMaskRows c info rb rows y d
    = Some (applyStores (maskStores c info rb rows y) d).
Proof.
  induction rows as [|srcRow rows IH]; intros y d Hok; [reflexivity|].
  destruct Hok as [Hok|Hok]; [discriminate|].
  cbn [opaqueMaskRows]. rewrite Hok. cbn [negb]. unfold maskSwizzler_next.
  destruct (mask_row info (fMasks c) (fBitsPerPixel c) srcRow) as [out r] eqn:Hrow.
  rewrite IH by (right; exact Hok).
  cbn [maskStores applyStores fold_left fst snd]. rewrite Hrow. reflexivity.
Qed.

Lemma opaqueMaskRows_ok (c : SkBmpCodec) (info : SkImageInfo) (rb : Z)
    (rows : list (list Z)) (y : Z) (d d' : Buffer) :
  opaqueMaskRows c info rb rows y d = Some d' ->
  rows = [] \/ CreateMaskSwizzler_ok info rb (fMasks c) (fBitsPerPixel c) = true.
Proof.
  destruct rows as [|srcRow rows]; [auto|].
  cbn [opaqueMaskRows].
  destruct (CreateMaskSwizzler_ok info rb (fMasks c) (fBitsPerPixel c));
    [auto | discriminate].
Qed.

(** The first pass buffers one row for each row of the image. *)
Lemma decodeMaskRows_length (c : SkBmpCodec) (info : SkImageInfo)
    (rb rowBytes : Z) (n : nat) :
  forall y t buf s d t' buf' s' d',
    decodeMaskRows c info rb rowBytes n y t buf s d
    = Some (inr (t', buf', s', d')) ->
    length buf' = (length buf + n)%nat.
Proof.
  induction n as [|n IH]; intros y t buf s d t' buf' s' d' Hrun.
  - cbn [decodeMaskRows] in Hrun. inversion Hrun; subst. lia.
  - cbn [decodeMaskRows] in Hrun.
    destruct (stream_read s rowBytes) as [srcRow s2].
    destruct (negb (Z.of_nat (length srcRow) =? rowBytes)); [discriminate|].
    destruct (negb (CreateMaskSwizzler_ok info rb (fMasks c) (fBitsPerPixel c)));
      [discriminate|].
    destruct (maskSwizzler_next info rb (fMasks c) (fBitsPerPixel c) srcRow
                (dstRowOf c (height info) y) d) as [r d2].
    apply IH in Hrun. rewrite length_app in Hrun. cbn [length] in Hrun. lia.
Qed.

End MaskFacts.

Section MaskClaims.
Import Bmp.

(** C5.  When the first pass of the bit-mask engine has read every row and
    every row was reported transparent, and the decode succeeds, the engine
    has run every buffered source row through the mask swizzler of the same
    destination with alpha type Opaque; and decoding the same stream with the
    destination declared Opaque from the start succeeds too and leaves the same
    bytes in the destination.  The mask swizzler is taken to store, for a given
    source row, rows of the same length for both alpha types. *)
Theorem C5_opaque_repass (X : Externals) (c : SkBmpCodec) (stream : SkStream)
    (dstInfo : SkImageInfo) (dst : Buffer) (dstRowBytes : Z)
    (srcBuffer : list (list Z)) (s1 : SkStream) (d1 : Buffer)
    (s' : SkStream) (d' : Buffer) :
  let rowBytes := SkAlign4 (compute_row_bytes (width dstInfo) (fBitsPerPixel c)) in
  let opaqueInfo := makeAlphaType dstInfo kOpaque_SkAlphaType in
  decodeMaskRows c dstInfo dstRowBytes rowBytes (Z.to_nat (height dstInfo)) 0
    true [] stream dst
  = Some (inr (true, srcBuffer, s1, d1)) ->
  Forall (fun srcRow =>
            length (fst (mask_row dstInfo (fMasks c) (fBitsPerPixel c) srcRow))
            = length (fst (mask_row opaqueInfo (fMasks c) (fBitsPerPixel c) srcRow)))
    srcBuffer ->
  decodeMask c stream dstInfo dst dstRowBytes = Some (kSuccess, s', d') ->
  opaqueMaskRows c opaqueInfo dstRowBytes srcBuffer 0 d1 = Some d'
  /\ exists s'' d'',
       decodeMask c stream opaqueInfo dst dstRowBytes = Some (kSuccess, s'', d'')
       /\ forall a, bytes d' a = bytes d'' a.
Proof.
  intros rowBytes opaqueInfo Hfirst Hlen Hdec.
  unfold decodeMask in Hdec. fold rowBytes in Hdec. rewrite Hfirst in Hdec.
  cbn [obind] in Hdec. fold opaqueInfo in Hdec.
  destruct (opaqueMaskRows c opaqueInfo dstRowBytes srcBuffer 0 d1)
    as [dO|] eqn:Hsecond; [|discriminate].
  cbn [obind] in Hdec. inversion Hdec; subst s' d'. clear Hdec.
  split; [reflexivity|].
  pose proof (opaqueMaskRows_ok _ _ _ _ _ _ _ Hsecond) as Hok.
  pose proof (decodeMaskRows_length _ _ _ _ _ _ _ _ _ _ _ _ _ _ Hfirst) as Hn.
  cbn [length] in Hn.
  assert (Hok' : Z.to_nat (height dstInfo) = O
                 \/ CreateMaskSwizzler_ok opaqueInfo dstRowBytes (fMasks c)
                      (fBitsPerPixel c) = true).
  { destruct Hok as [E|E]; [left | right; exact E]. subst srcBuffer.
    cbn [length] in Hn. lia. }
  destruct (decodeMaskRows_stores c dstInfo opaqueInfo dstRowBytes rowBytes
              (Z.to_nat (height dstInfo)) eq_refl Hok' _ _ _ _ _ _ _ _ _ Hfirst)
    as (rows & Hbuf & Hd1 & Hopaque).
  cbn [app] in Hbuf. subst rows.
  destruct (Hopaque true [] dst) as (tO & HfirstO). cbn [app] in HfirstO.
  rewrite (opaqueMaskRows_stores c opaqueInfo dstRowBytes srcBuffer 0 d1 Hok)
    in Hsecond.
  inversion Hsecond; subst dO. clear Hsecond.
  pose proof (maskStores_footprints c dstInfo opaqueInfo dstRowBytes srcBuffer
                eq_refl Hlen 0) as Hfp.
  unfold decodeMask.
  change (width opaqueInfo) with (width dstInfo).
  change (height opaqueInfo) with (height dstInfo).
  fold rowBytes. rewrite HfirstO. cbn [obind].
  change (makeAlphaType opaqueInfo kOpaque_SkAlphaType) with opaqueInfo.
  destruct tO.
  - rewrite (opaqueMaskRows_stores c opaqueInfo dstRowBytes srcBuffer 0 _ Hok).
    cbn [obind]. eexists. eexists. split; [reflexivity|].
    intros a. rewrite Hd1.
    rewrite (applyStores_absorb _ _ dst a Hfp).
    symmetry. apply applyStores_absorb. reflexivity.
  - eexists. eexists. split; [reflexivity|].
    intros a. rewrite Hd1. apply applyStores_absorb. exact Hfp.
Qed.

(** One pixel of 32 bits with the alpha mask FF000000 and an alpha byte of 0:
    the row is reported transparent. *)
Lemma C5_opaque_repass_witness :
  let c := mkBmpCodec (X := ref_externals) (sample_info 1 1 kUnpremul_SkAlphaType)
             false 32 kBitMask_BitmapInputFormat
             (mkInputMasks 0xFF0000 0xFF00 0xFF 0xFF000000) None 0 4 0
             kBottomUp_RowOrder 0 false in
  let info := sample_info 1 1 kUnpremul_SkAlphaType in
  let opaqueInfo := makeAlphaType info kOpaque_SkAlphaType in
  let stream := mkStream [1; 2; 3; 0] 0 in
  exists d1 s' d',
    decodeMaskRows c info 4
      (SkAlign4 (compute_row_bytes (width info) (fBitsPerPixel c)))
      (Z.to_nat (height info)) 0 true [] stream sample_dst
    = Some (inr (true, [[1; 2; 3; 0]], mkStream [1; 2; 3; 0] 4, d1))
    /\ decodeMask c stream info sample_dst 4 = Some (kSuccess, s', d')
    /\ opaqueMaskRows c opaqueInfo 4 [[1; 2; 3; 0]] 0 d1 = Some d'
    /\ exists s'' d'',
         decodeMask c stream opaqueInfo sample_dst 4 = Some (kSuccess, s'', d'')
         /\ forall a, bytes d' a = bytes d'' a.
Proof.
  intros c info opaqueInfo stream.
  eexists. eexists. eexists.
  assert (E1 : decodeMaskRows c info 4
                 (SkAlign4 (compute_row_bytes (width info) (fBitsPerPixel c)))
                 (Z.to_nat (height info)) 0 true [] stream sample_dst
               = Some (inr (true, [[1; 2; 3; 0]], mkStream [1; 2; 3; 0] 4, _)))
    by reflexivity.
  assert (E2 : decodeMask c stream info sample_dst 4 = Some (kSuccess, _, _))
    by reflexivity.
  split; [exact E1|]. split; [exact E2|].
  eapply (C5_opaque_repass ref_externals c stream info sample_dst 4
            [[1; 2; 3; 0]] (mkStream [1; 2; 3; 0] 4)).
  - exact E1.
  - constructor; [reflexivity | constructor].
  - exact E2.
Defined.

End MaskClaims.

(** ** The PNG decoder *)

Section PngFacts.
Import Png.
Context {X : Externals}.

Lemma lor_negative (a b : Z) : (Z.lor a b <? 0) = (a <? 0) || (b <? 0).
Proof.
  pose proof (Z.lor_neg a b) as H.
  destruct (Z.lor a b <? 0) eqn:E; destruct (a <? 0) eqn:Ea;
    destruct (b <? 0) eqn:Eb; cbn [orb]; try reflexivity;
    rewrite ?Z.ltb_lt, ?Z.ltb_ge in *; lia.
Qed.

Lemma fold_lor_negative (trans : list Z) :
  forall acc,
    (fold_left (fun acc t => Z.lor acc (wrap8u t - 0xFF)) trans acc <? 0)
    = (acc <? 0) || existsb (fun t => wrap8u t <? 0xFF) trans.
Proof.
  induction trans as [|t trans IH]; intros acc; cbn [fold_left existsb].
  - rewrite orb_false_r. reflexivity.
  - rewrite IH, lor_negative, <- orb_assoc. f_equal. f_equal.
    destruct (wrap8u t <? 255) eqn:E.
    + apply Z.ltb_lt in E. apply Z.ltb_lt. lia.
    + apply Z.ltb_ge in E. apply Z.ltb_ge. lia.
Qed.

Lemma transLessThanFF_negative (trans : list Z) :
  (transLessThanFF trans <? 0) = existsb (fun t => wrap8u t <? 0xFF) trans.
Proof. unfold transLessThanFF. rewrite fold_lor_negative. reflexivity. Qed.

(** The entries the palette pass looks at. *)
Lemma firstn_numTrans (palette : list (Z * Z * Z)) (trans : list Z) :
  firstn
    (Z.to_nat (if Z.of_nat (length trans) >? Z.of_nat (length palette)
               then Z.of_nat (length palette) else Z.of_nat (length trans)))
    trans
  = firstn (length palette) trans.
Proof.
  destruct (Z.of_nat (length trans) >? Z.of_nat (length palette)) eqn:E.
  - rewrite Nat2Z.id. reflexivity.
  - rewrite Nat2Z.id. rewrite Z.gtb_ltb in E. apply Z.ltb_ge in E.
    rewrite !firstn_all2 by lia. reflexivity.
Qed.

Lemma decodePalette_facts (c : SkPngCodec) (premultiply : bool) (c1 : SkPngCodec) :
  decodePalette c premultiply = (true, c1) ->
  fNumberPasses c1 = fNumberPasses c
  /\ fSwizzler c1 = fSwizzler c
  /\ fPng_ptr c1 = fPng_ptr c
  /\ exists palette,
       png_get_PLTE (fPng_ptr c) = Some palette
       /\ fReallyHasAlpha c1
          = existsb (fun t => wrap8u t <? 0xFF)
              (firstn (length palette)
                 (if png_valid_tRNS (fPng_ptr c)
                  then png_get_tRNS (fPng_ptr c) else [])).
Proof.
  unfold decodePalette. intros H.
  destruct (png_get_PLTE (fPng_ptr c)) as [palette|]; [|discriminate].
  inversion H; subst; clear H. cbn.
  repeat split; try reflexivity.
  exists palette. split; [reflexivity|].
  rewrite transLessThanFF_negative, firstn_numTrans. reflexivity.
Qed.

(** The last steps of [initializeSwizzler], from the codec [c0] that the
    choice of the source configuration leaves. *)
Lemma createSwizzler_success (c0 : SkPngCodec) (info : SkImageInfo)
    (dst : option Z) (rb : Z) (zero : ZeroInitialized) (c1 : SkPngCodec) :
  match fSwizzler
          (setSwizzler c0
             (CreateSwizzler (fSrcConfig c0) (fColorTable c0) info dst rb zero))
  with
  | None =>
      (kUnimplemented,
       setSwizzler c0
         (CreateSwizzler (fSrcConfig c0) (fColorTable c0) info dst rb zero))
  | Some _ =>
      match png_read_update_info
              (fPng_ptr
                 (setSwizzler c0
                    (CreateSwizzler (fSrcConfig c0) (fColorTable c0) info dst
                       rb zero)))
      with
      | None =>
          (kInvalidInput,
           setSwizzler c0
             (CreateSwizzler (fSrcConfig c0) (fColorTable c0) info dst rb zero))
      | Some png =>
          (kSuccess,
           setPng
             (setSwizzler c0
                (CreateSwizzler (fSrcConfig c0) (fColorTable c0) info dst rb
                   zero))
             png)
      end
  end = (kSuccess, c1) ->
  fNumberPasses c1 = fNumberPasses c0
  /\ fReallyHasAlpha c1 = fReallyHasAlpha c0
  /\ exists sw, fSwizzler c1 = Some sw /\ swReported sw = [] /\ swDstRow sw = dst.
Proof.
  unfold CreateSwizzler.
  destruct (CreateSwizzler_ok (fSrcConfig c0) (fColorTable c0) info rb zero);
    cbn [setSwizzler fSwizzler fPng_ptr]; [|discriminate].
  destruct (png_read_update_info (fPng_ptr c0)) as [png|]; [|discriminate].
  intros H. inversion H; subst; clear H. cbn.
  repeat split. eexists. repeat split.
Qed.

Lemma initializeSwizzler_success (c : SkPngCodec) (info : SkImageInfo)
    (dst : option Z) (rb : Z) (zero : ZeroInitialized) (c1 : SkPngCodec) :
  initializeSwizzler c info dst rb zero = (kSuccess, c1) ->
  fNumberPasses c1 = numberPasses c
  /\ fReallyHasAlpha c1 = paletteAlpha c
  /\ exists sw, fSwizzler c1 = Some sw /\ swReported sw = [] /\ swDstRow sw = dst.
Proof.
  unfold initializeSwizzler, numberPasses, paletteAlpha.
  destruct (png_get_IHDR (fPng_ptr c)) as [[[[w h] bd] ct] it].
  set (c2 := setReallyHasAlpha
               (if negb (it =? PNG_INTERLACE_NONE)
                then
                  let '(passes, png) := png_set_interlace_handling (fPng_ptr c) in
                  setNumberPasses (setPng c png) passes
                else setNumberPasses c 1) false).
  assert (Hc2 : fNumberPasses c2
                = (if negb (it =? PNG_INTERLACE_NONE)
                   then fst (png_set_interlace_handling (fPng_ptr c)) else 1)
                /\ fReallyHasAlpha c2 = false
                /\ fPng_ptr c2
                   = (if negb (it =? PNG_INTERLACE_NONE)
                      then snd (png_set_interlace_handling (fPng_ptr c))
                      else fPng_ptr c)).
  { unfold c2. destruct (negb (it =? PNG_INTERLACE_NONE)).
    - destruct (png_set_interlace_handling (fPng_ptr c)) as [passes png].
      cbn. auto.
    - cbn. auto. }
  destruct Hc2 as (Hp2 & Ha2 & Hpng2).
  rewrite <- Hp2, <- Hpng2.
  destruct (PNG_COLOR_TYPE_PALETTE =? ct) eqn:Ect; cbn [andb].
  - destruct (decodePalette (setSrcConfig c2 kIndex)
                (SkAlphaType_eqb kPremul_SkAlphaType (alphaType info)))
      as [ok c3] eqn:Hpal.
    destruct ok; cbn [negb]; [|discriminate].
    destruct (decodePalette_facts _ _ _ Hpal)
      as (Hp3 & Hs3 & Hpng3 & palette & Hplte & Ha3).
    cbn [setSrcConfig fNumberPasses fSwizzler fPng_ptr] in Hp3, Hs3, Hpng3, Hplte, Ha3.
    intros H. destruct (createSwizzler_success _ _ _ _ _ _ H) as (H1 & H2 & H3).
    rewrite Hplte. rewrite H1, H2, Hp3, Ha3. auto.
  - intros H.
    match type of H with
    | (let '(paletteOk, c) := ?e in _) = _ =>
        assert (Hsel : exists c3, e = (true, c3)
                                  /\ fNumberPasses c3 = fNumberPasses c2
                                  /\ fReallyHasAlpha c3 = false)
    end.
    { destruct (SkColorType_eqb kAlpha_8_SkColorType (colorType info)).
      - eexists. split; [reflexivity|]. cbn. auto.
      - destruct (SkAlphaType_eqb (alphaType (fInfo c2)) kOpaque_SkAlphaType);
          eexists; (split; [reflexivity|]); cbn; auto. }
    destruct Hsel as (c3 & Hsel & Hp3 & Ha3).
    rewrite Hsel in H. cbn [negb] in H.
    destruct (createSwizzler_success _ _ _ _ _ _ H) as (H1 & H2 & H3).
    rewrite H1, H2, Hp3, Ha3. auto.
Qed.

End PngFacts.

Section PngLoops.
Import Png.
Context {X : Externals}.

Lemma swizzler_next_reported (sw sw' : SkSwizzler) (row : list Z)
    (dst dst' : Buffer) (r : ResultAlpha) :
  swizzler_next sw row dst = Some (r, sw', dst') ->
  swReported sw' = r :: swReported sw.
Proof.
  unfold swizzler_next. intros H. obind_inv H.
  destruct (swizzle_row (swConfig sw) (swColors sw) (swInfo sw) (swZero sw) row a dst)
    as [r0 d0].
  inversion H; subst. reflexivity.
Qed.

(** The swizzling pass of an interlaced image: the flag gathers the rows that
    were reported as not opaque. *)
Lemma swizzleRows_flag (rows : list (list Z)) :
  forall sw flag dst sw' flag' dst',
    swizzleRows rows sw flag dst = Some (sw', flag', dst') ->
    exists new,
      swReported sw' = new ++ swReported sw
      /\ flag' = flag || someRowNotOpaque new.
Proof.
  induction rows as [|row rows IH]; intros sw flag dst sw' flag' dst' H.
  - cbn [swizzleRows] in H. inversion H; subst.
    exists []. split; [reflexivity|]. cbn. rewrite orb_false_r. reflexivity.
  - cbn [swizzleRows] in H. obind_inv H. destruct a as [[r sw1] d1].
    apply swizzler_next_reported in Hstep.
    destruct (IH _ _ _ _ _ _ H) as (new & Hrep & Hflag).
    exists (new ++ [r]). split.
    + rewrite Hrep, Hstep, <- app_assoc. reflexivity.
    + rewrite Hflag. unfold someRowNotOpaque. rewrite existsb_app.
      cbn [existsb]. rewrite orb_false_r, <- orb_assoc. f_equal. apply orb_comm.
Qed.

(** The rows of a non-interlaced image: the same. *)
Lemma readAndSwizzleRows_flag (n : nat) :
  forall png srcRow sw flag dst png' sw' flag' dst',
    readAndSwizzleRows n png srcRow sw flag dst = Done (png', sw', flag', dst') ->
    exists new,
      swReported sw' = new ++ swReported sw
      /\ flag' = flag || someRowNotOpaque new.
Proof.
  induction n as [|n IH]; intros png srcRow sw flag dst png' sw' flag' dst' H.
  - cbn [readAndSwizzleRows] in H. inversion H; subst.
    exists []. split; [reflexivity|]. cbn. rewrite orb_false_r. reflexivity.
  - cbn [readAndSwizzleRows] in H.
    destruct (png_read_row png srcRow) as [[png1 row1]|]; [|discriminate].
    destruct (swizzler_next sw row1 dst) as [[[r sw1] d1]|] eqn:Hnext;
      [|discriminate].
    apply swizzler_next_reported in Hnext.
    destruct (IH _ _ _ _ _ _ _ _ _ H) as (new & Hrep & Hflag).
    exists (new ++ [r]). split.
    + rewrite Hrep, Hnext, <- app_assoc. reflexivity.
    + rewrite Hflag. unfold someRowNotOpaque. rewrite existsb_app.
      cbn [existsb]. rewrite orb_false_r, <- orb_assoc. f_equal. apply orb_comm.
Qed.

Lemma finish_keeps (c : SkPngCodec) :
  fReallyHasAlpha (finish c) = fReallyHasAlpha c
  /\ fSwizzler (finish c) = fSwizzler c.
Proof. unfold finish. destruct (png_read_end (fPng_ptr c)); cbn; auto. Qed.

End PngLoops.

Section PngClaims.
Import Png.

(** C6, as amended.  After a getPixels that returns Success, reallyHasAlpha is
    true exactly when the swizzler reported at least one row of this decode as
    not opaque, or the image is paletted and one of the transparency entries
    that have a palette entry is below 0xFF, whether or not a pixel uses that
    entry. *)
Theorem C6_reallyHasAlpha (X : Externals) (c : SkPngCodec)
    (requestedInfo : SkImageInfo) (dst : Buffer) (rowBytes : Z)
    (zero : ZeroInitialized) (c' : SkPngCodec) (dst' : Buffer) :
  onGetPixels c requestedInfo dst rowBytes zero = Some (kSuccess, c', dst') ->
  exists sw,
    fSwizzler c' = Some sw
    /\ fReallyHasAlpha c' = paletteAlpha c || someRowNotOpaque (swReported sw).
Proof.
  unfold onGetPixels. intros H.
  destruct (rewindIfNeeded (fNeedsRewind c) (fStream c)) as [[rewound needs] stream].
  set (c0 := setRewind c needs stream) in H.
  assert (Hpal : paletteAlpha c0 = paletteAlpha c) by reflexivity.
  destruct (negb rewound); [discriminate|].
  destruct (negb (dimensions_eqb requestedInfo (fInfo c0))); [discriminate|].
  destruct (negb (conversion_possible requestedInfo (fInfo c0))); [discriminate|].
  destruct (initializeSwizzler c0 requestedInfo (Some 0) rowBytes zero)
    as [result c1] eqn:Hinit.
  destruct result; try discriminate.
  destruct (initializeSwizzler_success _ _ _ _ _ _ Hinit)
    as (_ & Hflag & sw0 & Hsw0 & Hrep0 & _).
  rewrite Hsw0 in H. cbn [obind] in H.
  destruct (fNumberPasses c1 >? 1).
  - destruct (readPasses (Z.to_nat (fNumberPasses c1)) (fPng_ptr c1)
                (rowsOf (Z.to_nat (height requestedInfo))
                   (Z.to_nat (width requestedInfo * BytesPerPixel (fSrcConfig c1)))
                   (fresh_storage
                      (width requestedInfo * height requestedInfo
                       * BytesPerPixel (fSrcConfig c1)))))
      as [[png storage]|]; [|discriminate].
    obind_inv H. destruct a as [[sw1 flag1] d1].
    destruct (swizzleRows_flag _ _ _ _ _ _ _ Hstep) as (new & Hrep & Hfl).
    inversion H; subst c' dst'. clear H.
    destruct (finish_keeps
                (setSwizzler (setReallyHasAlpha (setPng c1 png) flag1) (Some sw1)))
      as [Hf1 Hf2].
    exists sw1. rewrite Hf1, Hf2. cbn. split; [reflexivity|].
    rewrite Hfl, Hflag, Hpal, Hrep, Hrep0, app_nil_r. reflexivity.
  - destruct (readAndSwizzleRows (Z.to_nat (height requestedInfo)) (fPng_ptr c1)
                (fresh_storage
                   (width requestedInfo * BytesPerPixel (fSrcConfig c1)))
                sw0 (fReallyHasAlpha c1) dst)
      as [|[[[png sw1] flag1] d1]|[[[png sw1] flag1] d1]] eqn:Hrows;
      try discriminate.
    destruct (readAndSwizzleRows_flag _ _ _ _ _ _ _ _ _ _ Hrows)
      as (new & Hrep & Hfl).
    inversion H; subst c' dst'. clear H.
    destruct (finish_keeps
                (setSwizzler (setReallyHasAlpha (setPng c1 png) flag1) (Some sw1)))
      as [Hf1 Hf2].
    exists sw1. rewrite Hf1, Hf2. cbn. split; [reflexivity|].
    rewrite Hfl, Hflag, Hpal, Hrep, Hrep0, app_nil_r. reflexivity.
Qed.

(** C9.  For an interlaced PNG, one for which the interlace handling of libpng
    announces more than one pass, getScanlineDecoder returns null. *)
Theorem C9_interlaced_has_no_scanline_decoder (X : Externals) (c : SkPngCodec)
    (dstInfo : SkImageInfo) :
  1 < numberPasses c ->
  fst (onGetScanlineDecoder c dstInfo) = None.
Proof.
  intros Hpasses. unfold onGetScanlineDecoder.
  destruct (negb (dimensions_eqb dstInfo (fInfo c))); [reflexivity|].
  destruct (negb (conversion_possible dstInfo (fInfo c))); [reflexivity|].
  destruct (initializeSwizzler c dstInfo None (minRowBytes dstInfo)
              kNo_ZeroInitialized) as [result c1] eqn:Hinit.
  destruct result; try reflexivity.
  destruct (initializeSwizzler_success _ _ _ _ _ _ Hinit) as (Hp & _).
  rewrite Hp. rewrite (gtb_true (numberPasses c) 1) by exact Hpasses.
  reflexivity.
Qed.

Lemma C6_reallyHasAlpha_witness :
  let c := sample_png (sample_info 2 2 kUnpremul_SkAlphaType) sample_png_red in
  exists c' dst' sw,
    onGetPixels c (sample_info 2 2 kUnpremul_SkAlphaType) sample_dst 8
      kNo_ZeroInitialized
    = Some (kSuccess, c', dst')
    /\ fSwizzler c' = Some sw
    /\ fReallyHasAlpha c' = paletteAlpha c || someRowNotOpaque (swReported sw).
Proof.
  intros c. eexists. eexists.
  assert (E : onGetPixels c (sample_info 2 2 kUnpremul_SkAlphaType) sample_dst 8
                kNo_ZeroInitialized
              = Some (kSuccess, _, _)) by reflexivity.
  destruct (C6_reallyHasAlpha ref_externals c _ _ _ _ _ _ E) as (sw & H1 & H2).
  exists sw. split; [exact E|]. split; [exact H1 | exact H2].
Defined.

(** The paletted sample, whose transparent entry no pixel uses: all four
    pixels come out white and opaque, both rows are reported opaque, and
    reallyHasAlpha is true. *)
Lemma white_image_decoded :
  match
    onGetPixels (X := ref_externals)
      (sample_png (sample_info 2 2 kUnpremul_SkAlphaType) sample_png_white)
      (sample_info 2 2 kUnpremul_SkAlphaType) sample_dst 8 kNo_ZeroInitialized
  with
  | Some (r, c', d) =>
      (r, fReallyHasAlpha c',
       match fSwizzler c' with
       | Some sw => Some (swReported sw)
       | None => None
       end,
       map (load32 d) [0; 4; 8; 12])
      = (kSuccess, true, Some [kOpaque_ResultAlpha; kOpaque_ResultAlpha],
         [0xFFFFFFFF; 0xFFFFFFFF; 0xFFFFFFFF; 0xFFFFFFFF])
  | None => False
  end.
Proof. vm_compute. reflexivity. Qed.

(** C6 as the spec states it fails: in a paletted image whose transparent
    palette entry no pixel uses, every row is reported opaque and
    reallyHasAlpha is true. *)
Lemma C6_unused_transparent_entry :
  ~ (forall (X : Externals) (c : SkPngCodec) (requestedInfo : SkImageInfo)
            (dst : Buffer) (rowBytes : Z) (zero : ZeroInitialized)
            (c' : SkPngCodec) (dst' : Buffer) (sw : SkSwizzler),
        onGetPixels c requestedInfo dst rowBytes zero = Some (kSuccess, c', dst') ->
        fSwizzler c' = Some sw ->
        fReallyHasAlpha c' = someRowNotOpaque (swReported sw)).
Proof.
  intros H. pose proof white_image_decoded as S. revert S.
  destruct (onGetPixels (X := ref_externals)
              (sample_png (sample_info 2 2 kUnpremul_SkAlphaType) sample_png_white)
              (sample_info 2 2 kUnpremul_SkAlphaType) sample_dst 8
              kNo_ZeroInitialized) as [[[r c'] d]|] eqn:E; intros S; [|exact S].
  destruct (fSwizzler c') as [sw|] eqn:Esw; [|discriminate].
  inversion S as [[Hr Hflag Hrep Hpix]]. subst r.
  pose proof (H _ _ _ _ _ _ _ _ _ E Esw) as Hclaim.
  rewrite Hflag, Hrep in Hclaim. discriminate.
Qed.

Lemma C9_interlaced_has_no_scanline_decoder_witness :
  fst (onGetScanlineDecoder
         (sample_png (sample_info 2 2 kUnpremul_SkAlphaType) sample_png_interlaced)
         (sample_info 2 2 kUnpremul_SkAlphaType))
  = None.
Proof.
  apply (C9_interlaced_has_no_scanline_decoder ref_externals).
  vm_compute. reflexivity.
Defined.

End PngClaims.

(** ** The two RLE defects, from the file to the pixels *)

(** ** The RLE engine over the zeroed destination *)

Section RleStoreFacts.
Import Bmp.
Context {X : Externals}.
















End RleStoreFacts.

Section RleZeroClaims.
Import Bmp.




End RleZeroClaims.

Section RleEndToEnd.
Import Bmp.

(** An RLE24 file of 3 by 1 pixels whose data is an absolute run of three
    pixels, its padding byte and the end-of-file pair: getPixels returns
    InvalidInput with one pixel stored and the other two zero. *)
Example rle24_absolute_run_decoded :
  match NewFromStream (X := ref_externals)
          (sample_bmp 68 54 3 1 24 4 0 [0; 3; 1; 2; 3; 4; 5; 6; 7; 8; 9; 0; 0; 1])
          false with
  | Some (c, s) =>
      match onGetPixels c s (fInfo c) sample_dst 12 with
      | Some (r, _, _, d) =>
          (r, map (load32 d) [0; 4; 8], journal d)
          = (kInvalidInput, [0xFF030201; 0; 0], [(0, 4)])
      | None => False
      end
  | None => False
  end.
Proof. vm_compute. reflexivity. Qed.

(** The same picture as a run of three pixels decodes. *)
Example rle24_run_decoded :
  match NewFromStream (X := ref_externals)
          (sample_bmp 60 54 3 1 24 4 0 [3; 1; 2; 3; 0; 1]) false with
  | Some (c, s) =>
      match onGetPixels c s (fInfo c) sample_dst 12 with
      | Some (r, _, _, d) =>
          (r, map (load32 d) [0; 4; 8])
          = (kSuccess, [0xFF030201; 0xFF030201; 0xFF030201])
      | None => False
      end
  | None => False
  end.
Proof. vm_compute. reflexivity. Qed.

(** An RLE8 file that ends after its colour table: getPixels returns
    IncompleteInput over a zeroed destination. *)
Example rle8_empty_data_decoded :
  match NewFromStream (X := ref_externals)
          (sample_bmp 68 62 4 1 8 1 2 [0; 0; 0; 0; 255; 255; 255; 0]) false with
  | Some (c, s) =>
      match onGetPixels c s (fInfo c) sample_dst 16 with
      | Some (r, _, _, d) =>
          (r, map (load32 d) [0; 4; 8; 12], journal d)
          = (kIncompleteInput, [0; 0; 0; 0], [])
      | None => False
      end
  | None => False
  end.
Proof. vm_compute. reflexivity. Qed.

(** An RLE8 file of four pixels in one row whose data is a run of two white
    pixels and the end of the file: the run is stored and the other two
    pixels, 0xAA before the call, are zero. *)
Example rle8_short_run_decoded :
  match NewFromStream (X := ref_externals)
          (sample_bmp 66 62 4 1 8 1 2 [0; 0; 0; 0; 255; 255; 255; 0; 2; 1; 0; 1])
          false with
  | Some (c, s) =>
      match onGetPixels c s (fInfo c) sample_dst 16 with
      | Some (r, _, _, d) =>
          (r, map (load32 d) [0; 4; 8; 12], journal d)
          = (kSuccess, [0xFFFFFFFF; 0xFFFFFFFF; 0; 0], [(4, 4); (0, 4)])
      | None => False
      end
  | None => False
  end.
Proof. vm_compute. reflexivity. Qed.

End RleEndToEnd.

(** * Further properties of the code *)

(** ** Streams *)

Lemma get_byte_firstn (n : nat) (l : list Z) (i : Z) :
  (Z.to_nat i < n)%nat -> get_byte (firstn n l) i = get_byte l i.
Proof.
  intros H. unfold get_byte. f_equal.
  rewrite <- (firstn_skipn n l) at 2.
  destruct (Nat.lt_ge_cases (Z.to_nat i) (length (firstn n l))) as [Hlt|Hge].
  - rewrite app_nth1 by exact Hlt. reflexivity.
  - rewrite (nth_overflow (firstn n l)) by exact Hge.
    rewrite length_firstn in Hge.
    assert (Hl : (length l <= Z.to_nat i)%nat) by lia.
    rewrite nth_overflow; [reflexivity|].
    rewrite length_app, length_firstn, length_skipn. lia.
Qed.

Lemma get_int_firstn (n : nat) (l : list Z) (i : Z) :
  0 <= i -> (Z.to_nat i + 3 < n)%nat -> get_int (firstn n l) i = get_int l i.
Proof.
  intros H0 H. unfold get_int.
  rewrite !get_byte_firstn by lia. reflexivity.
Qed.

(** A read that delivers all the bytes asked for moves the stream by that
    many. *)
Lemma stream_read_pos (s s2 : SkStream) (n : Z) (src : list Z) :
  stream_read s n = (src, s2) ->
  Z.of_nat (length src) = n ->
  sdata s2 = sdata s /\ Z.of_nat (spos s2) = Z.of_nat (spos s) + n
  /\ n <= available s.
Proof.
  unfold stream_read, available, pending. intros H Hlen.
  inversion H as [[H1 H2]]. clear H. cbn [sdata spos].
  rewrite H1. split; [reflexivity|]. split; [lia|].
  rewrite <- Hlen, <- H1. rewrite length_firstn. lia.
Qed.

(** The bytes left never exceed the stream, and a stream with bytes left
    stands inside its data. *)
Lemma available_pos (s : SkStream) :
  0 < available s ->
  Z.of_nat (spos s) + available s = Z.of_nat (length (sdata s)).
Proof.
  unfold available, pending. rewrite length_skipn. lia.
Qed.

(** ** The header parser, continued *)

Section HeaderMoreFacts.
Import Bmp.
Context {X : Externals}.

(** What the two reads of [readHeaders] found and where they left the
    stream. *)
Lemma readHeaders_inv (stream : SkStream) (isIco : bool) (totalBytes offset
    infoBytes : Z) (iBuffer : list Z) (s1 : SkStream) :
  readHeaders stream isIco = Some (totalBytes, offset, infoBytes, iBuffer, s1) ->
  sdata s1 = sdata stream
  /\ 12 <= infoBytes < 2 ^ 32
  /\ (if isIco
      then totalBytes = 0 /\ offset = 0
           /\ Z.of_nat (spos s1) = Z.of_nat (spos stream) + infoBytes
      else totalBytes = fileBytes stream /\ offset = pixelDataOffset stream
           /\ 26 <= offset
           /\ Z.of_nat (spos s1) = Z.of_nat (spos stream) + 14 + infoBytes)
  /\ Z.of_nat (spos s1) <= Z.of_nat (length (sdata stream)).
Proof.
  unfold readHeaders. intros H. obind_inv H.
  destruct a as [[[tb off] ib] s0].
  destruct (stream_read s0 (wrap32u (ib - 4))) as [ibuf s2] eqn:Hread2.
  destruct (negb (Z.of_nat (length ibuf) =? wrap32u (ib - 4))) eqn:Hlen2;
    [discriminate|].
  apply negb_false_iff, Z.eqb_eq in Hlen2.
  inversion H; subst; clear H.
  destruct (stream_read_pos _ _ _ _ Hread2 Hlen2) as (Hd2 & Hp2 & Ha2).
  assert (Hend : 0 < wrap32u (infoBytes - 4) ->
                 Z.of_nat (spos s1) <= Z.of_nat (length (sdata s0))).
  { unfold available, pending in Ha2. rewrite length_skipn in Ha2. lia. }
  destruct isIco; cbn [negb] in Hstep.
  - destruct (stream_read stream 4) as [hb s3] eqn:Hread1.
    destruct (negb (Z.of_nat (length hb) =? 4)) eqn:Hlen1; [discriminate|].
    apply negb_false_iff, Z.eqb_eq in Hlen1.
    destruct (get_int hb 0 <? kBmpOS2V1Bytes) eqn:Hib; [discriminate|].
    inversion Hstep; subst; clear Hstep.
    apply Z.ltb_ge in Hib. change kBmpOS2V1Bytes with 12 in Hib.
    pose proof (get_int_range hb 0) as Hr.
    destruct (stream_read_pos _ _ _ _ Hread1 Hlen1) as (Hd1 & Hp1 & _).
    rewrite wrap32u_small in Hp2, Hend by lia.
    rewrite Hd1 in Hd2, Hend.
    repeat split; try assumption; try reflexivity; lia.
  - destruct (stream_read stream kBmpHeaderBytesPlusFour) as [hb s3] eqn:Hread1.
    destruct (negb (Z.of_nat (length hb) =? kBmpHeaderBytesPlusFour)) eqn:Hlen1;
      [discriminate|].
    apply negb_false_iff, Z.eqb_eq in Hlen1.
    destruct (get_int hb 10 <? kBmpHeaderBytes + kBmpOS2V1Bytes) eqn:Hoff;
      [discriminate|].
    destruct (get_int hb 14 <? kBmpOS2V1Bytes) eqn:Hib; [discriminate|].
    inversion Hstep; subst; clear Hstep.
    apply Z.ltb_ge in Hib. change kBmpOS2V1Bytes with 12 in Hib.
    apply Z.ltb_ge in Hoff. change (kBmpHeaderBytes + 12) with 26 in Hoff.
    pose proof (get_int_range hb 14) as Hr.
    destruct (stream_read_pos _ _ _ _ Hread1 Hlen1) as (Hd1 & Hp1 & _).
    change kBmpHeaderBytesPlusFour with 18 in *.
    rewrite wrap32u_small in Hp2, Hend by lia.
    rewrite Hd1 in Hd2, Hend.
    assert (Hhb : hb = firstn 18 (pending stream)).
    { unfold stream_read in Hread1. inversion Hread1. reflexivity. }
    unfold fileBytes, pixelDataOffset.
    repeat split; try assumption; try lia.
    + rewrite Hhb. apply get_int_firstn; simpl; lia.
    + rewrite Hhb. apply get_int_firstn; simpl; lia.
Qed.

(** The formats [selectFormat] hands out, by compression method, and the
    bytes it reads. *)
Lemma selectFormat_inv (f : HeaderFields) (iBuffer : list Z) (s1 s : SkStream)
    (bpp : Z) (fmt : BitmapInputFormat) (masks : InputMasks) (maskBytes : Z) :
  selectFormat f iBuffer s1 = Some (bpp, fmt, masks, maskBytes, s) ->
  sdata s = sdata s1
  /\ Z.of_nat (spos s) = Z.of_nat (spos s1) + maskBytes
  /\ 0 <= maskBytes <= 12
  /\ (0 < maskBytes -> Z.of_nat (spos s) <= Z.of_nat (length (sdata s1)))
  /\ ((hf_compression f = 0 /\ fmt = kStandard_BitmapInputFormat
       /\ bpp = hf_bitsPerPixel f)
      \/ (hf_compression f = 1 /\ fmt = kRLE_BitmapInputFormat /\ bpp = 8)
      \/ (hf_compression f = 2 /\ fmt = kRLE_BitmapInputFormat /\ bpp = 4)
      \/ ((hf_compression f = 3 \/ hf_compression f = 6)
          /\ fmt = kBitMask_BitmapInputFormat /\ bpp = hf_bitsPerPixel f)
      \/ (hf_compression f = 4 /\ fmt = kRLE_BitmapInputFormat /\ bpp = 24
          /\ hf_bitsPerPixel f = 24)).
Proof.
  unfold selectFormat. intros H.
  change kNone_BitmapCompressionMethod with 0 in H.
  change k8BitRLE_BitmapCompressionMethod with 1 in H.
  change k4BitRLE_BitmapCompressionMethod with 2 in H.
  change kAlphaBitMasks_BitmapCompressionMethod with 6 in H.
  change kBitMasks_BitmapCompressionMethod with 3 in H.
  change kJpeg_BitmapCompressionMethod with 4 in H.
  destruct (hf_compression f =? 0) eqn:E0.
  { apply Z.eqb_eq in E0. inversion H; subst. repeat split; try reflexivity; try lia. tauto. }
  destruct (hf_compression f =? 1) eqn:E1.
  { apply Z.eqb_eq in E1. inversion H; subst. repeat split; try reflexivity; try lia. tauto. }
  destruct (hf_compression f =? 2) eqn:E2.
  { apply Z.eqb_eq in E2. inversion H; subst. repeat split; try reflexivity; try lia. tauto. }
  destruct ((hf_compression f =? 6) || (hf_compression f =? 3)) eqn:E3.
  { assert (Hc : hf_compression f = 3 \/ hf_compression f = 6).
    { apply orb_true_iff in E3. destruct E3 as [E|E]; apply Z.eqb_eq in E; auto. }
    destruct (hf_headerType f); try discriminate.
    - destruct (stream_read s1 kBmpMaskBytes) as [mb s2] eqn:Hread.
      destruct (negb (Z.of_nat (length mb) =? kBmpMaskBytes)) eqn:Hlen;
        [discriminate|].
      apply negb_false_iff, Z.eqb_eq in Hlen.
      destruct (stream_read_pos _ _ _ _ Hread Hlen) as (Hd & Hp & Ha).
      inversion H; subst. change kBmpMaskBytes with 12 in *.
      pose proof (available_pos s1 ltac:(lia)).
      repeat split; try assumption; try lia. tauto.
    - inversion H; subst. repeat split; try reflexivity; try lia. tauto.
    - inversion H; subst. repeat split; try reflexivity; try lia. tauto.
    - inversion H; subst. repeat split; try reflexivity; try lia. tauto.
    - inversion H; subst. repeat split; try reflexivity; try lia. tauto. }
  destruct ((hf_compression f =? 4) && (24 =? hf_bitsPerPixel f)) eqn:E4;
    [|discriminate].
  apply andb_true_iff in E4. destruct E4 as [E4 E24].
  apply Z.eqb_eq in E4. apply Z.eqb_eq in E24.
  inversion H; subst. repeat split; try reflexivity; try lia.
  symmetry in E24. tauto.
Qed.

Lemma checkBitsPerPixel_format (bpp : Z) (fmt0 : BitmapInputFormat)
    (masks masks2 : InputMasks) (fmt : BitmapInputFormat) :
  checkBitsPerPixel bpp fmt0 masks = Some (masks2, fmt) ->
  fmt = (if bpp =? 16 then kBitMask_BitmapInputFormat else fmt0).
Proof.
  unfold checkBitsPerPixel. intros H.
  destruct (bpp =? 16).
  - destruct fmt0; inversion H; reflexivity.
  - destruct (existsb (Z.eqb bpp) [1; 2; 4; 8; 24; 32]); [|discriminate].
    inversion H; reflexivity.
Qed.

End HeaderMoreFacts.

Section HeaderExtras.
Import Bmp.

(** The fields of an accepted header that the colour table and the offset
    arithmetic rely on. *)
Lemma NewFromStream_fields (X : Externals) (stream : SkStream) (isIco : bool)
    (c : SkBmpCodec) (s : SkStream) :
  NewFromStream stream isIco = Some (c, s) ->
  In (fBitsPerPixel c) [1; 2; 4; 8; 16; 24; 32]
  /\ 0 <= fNumColors c < 2 ^ 32
  /\ (fBytesPerColor c = 3 \/ fBytesPerColor c = 4)
  /\ fIsIco c = isIco
  /\ fColorTable c = None
  /\ sdata s = sdata stream.
Proof.
  intros Hnew.
  destruct (NewFromStream_inv _ _ _ _ Hnew)
    as (totalBytes & offset & infoBytes & iBuffer & s1 & f & w & h & ro & bpp
        & fmt0 & masks0 & maskBytes & masks1 & at_ & masks2 & fmt & m
        & Hhdr & Hf & _ & Hfmt & _ & Hbpp & _ & _ & _ & Hc).
  subst c. cbn [fBitsPerPixel fNumColors fBytesPerColor fIsIco fColorTable].
  destruct (readFields_colors _ _ _ Hf) as (Hn & Hb).
  destruct (readHeaders_inv _ _ _ _ _ _ _ Hhdr) as (Hd1 & _).
  destruct (selectFormat_inv _ _ _ _ _ _ _ _ Hfmt) as (Hd2 & _).
  repeat split; try assumption; try reflexivity; try lia.
  - eapply checkBitsPerPixel_legal. exact Hbpp.
  - congruence.
Qed.

(** For a stand-alone BMP: the bytes the parser has read and the gap it
    records add up to the offset of the pixel data. *)
Lemma NewFromStream_gap (X : Externals) (stream : SkStream) (c : SkBmpCodec)
    (s : SkStream) :
  NewFromStream stream false = Some (c, s) ->
  Z.of_nat (length (sdata stream)) < 2 ^ 32 ->
  0 <= fOffset c < 2 ^ 32
  /\ Z.of_nat (spos s) + fOffset c
     = Z.of_nat (spos stream) + pixelDataOffset stream.
Proof.
  intros Hnew Hsize.
  destruct (NewFromStream_inv _ _ _ _ Hnew)
    as (totalBytes & offset & infoBytes & iBuffer & s1 & f & w & h & ro & bpp
        & fmt0 & masks0 & maskBytes & masks1 & at_ & masks2 & fmt & m
        & Hhdr & Hf & _ & Hfmt & _ & Hbpp & _ & _ & Hoff & Hc).
  subst c. cbn [fOffset].
  destruct (readHeaders_inv _ _ _ _ _ _ _ Hhdr)
    as (Hd1 & Hib & (Htb & Ho & Ho26 & Hp1) & Hend1).
  destruct (selectFormat_inv _ _ _ _ _ _ _ _ Hfmt)
    as (Hd2 & Hp2 & Hmb & Hend2 & _).
  cbn [negb andb] in Hoff. apply Z.ltb_ge in Hoff.
  change kBmpHeaderBytes with 14 in *.
  assert (Hread : 14 + infoBytes + maskBytes < 2 ^ 32).
  { destruct (Z.eq_dec maskBytes 0) as [E|E].
    - lia.
    - rewrite Hd1 in Hend2. lia. }
  rewrite (wrap32u_small (14 + infoBytes + maskBytes)) in Hoff |- * by lia.
  assert (Horange : 0 <= offset < 2 ^ 32).
  { rewrite Ho. apply get_int_range. }
  rewrite wrap32u_small by lia.
  subst offset. lia.
Qed.

(** X1.  Every header the BMP parser accepts gives a codec whose bit depth is
    one of 1, 2, 4, 8, 16, 24 and 32, whose input format is known and is the
    bit-mask format whenever the depth is 16, and whose image description is
    N32 with an alpha type that is opaque or unpremultiplied. *)
Theorem X1_accepted_header_is_legal (X : Externals) (stream : SkStream)
    (isIco : bool) (c : SkBmpCodec) (s : SkStream) :
  NewFromStream stream isIco = Some (c, s) ->
  In (fBitsPerPixel c) [1; 2; 4; 8; 16; 24; 32]
  /\ (fBitsPerPixel c = 16 -> fInputFormat c = kBitMask_BitmapInputFormat)
  /\ fInputFormat c <> kUnknown_BitmapInputFormat
  /\ colorType (fInfo c) = kN32_SkColorType
  /\ (alphaType (fInfo c) = kOpaque_SkAlphaType
      \/ alphaType (fInfo c) = kUnpremul_SkAlphaType).
Proof.
  intros Hnew.
  destruct (NewFromStream_inv _ _ _ _ Hnew)
    as (totalBytes & offset & infoBytes & iBuffer & s1 & f & w & h & ro & bpp
        & fmt0 & masks0 & maskBytes & masks1 & at_ & masks2 & fmt & m
        & Hhdr & Hf & _ & Hfmt & Halpha & Hbpp & _ & _ & _ & Hc).
  subst c. cbn [fBitsPerPixel fInputFormat fInfo colorType alphaType SkImageInfo_Make].
  pose proof (checkBitsPerPixel_format _ _ _ _ _ Hbpp) as Hfmt2.
  destruct (selectFormat_inv _ _ _ _ _ _ _ _ Hfmt) as (_ & _ & _ & _ & Hcases).
  split; [eapply checkBitsPerPixel_legal; exact Hbpp|].
  split; [intros E; rewrite Hfmt2, E; reflexivity|].
  split.
  - rewrite Hfmt2. destruct (bpp =? 16); [discriminate|].
    destruct Hcases as [(_ & E & _)|[(_ & E & _)|[(_ & E & _)|[(_ & E & _)|(_ & E & _)]]]];
      rewrite E; discriminate.
  - split; [reflexivity|].
    pose proof (selectAlpha_type (hf_headerType f) isIco bpp iBuffer masks0) as Ha.
    rewrite Halpha in Ha. exact Ha.
Qed.

Lemma X1_accepted_header_is_legal_witness :
  exists c s,
    NewFromStream (X := ref_externals) (sample_bmp 70 54 2 2 24 0 0 []) false
    = Some (c, s)
    /\ In (fBitsPerPixel c) [1; 2; 4; 8; 16; 24; 32]
    /\ (fBitsPerPixel c = 16 -> fInputFormat c = kBitMask_BitmapInputFormat)
    /\ fInputFormat c <> kUnknown_BitmapInputFormat
    /\ colorType (fInfo c) = kN32_SkColorType
    /\ (alphaType (fInfo c) = kOpaque_SkAlphaType
        \/ alphaType (fInfo c) = kUnpremul_SkAlphaType).
Proof.
  eexists. eexists. split; [reflexivity|].
  eapply (X1_accepted_header_is_legal ref_externals
            (sample_bmp 70 54 2 2 24 0 0 []) false).
  reflexivity.
Defined.

(** X2.  A codec of the RLE format comes from a stand-alone BMP only, never
    from a BMP embedded in an ICO; its depth is 4, 8 or 24 bits, the file
    header states a file larger than the offset of the pixel data, and the
    size of the RLE buffer is the difference of the two. *)
Theorem X2_rle_header (X : Externals) (stream : SkStream) (isIco : bool)
    (c : SkBmpCodec) (s : SkStream) :
  NewFromStream stream isIco = Some (c, s) ->
  fInputFormat c = kRLE_BitmapInputFormat ->
  isIco = false
  /\ In (fBitsPerPixel c) [4; 8; 24]
  /\ pixelDataOffset stream < fileBytes stream
  /\ fRLEBytes c = fileBytes stream - pixelDataOffset stream.
Proof.
  intros Hnew Hrlefmt.
  destruct (NewFromStream_inv _ _ _ _ Hnew)
    as (totalBytes & offset & infoBytes & iBuffer & s1 & f & w & h & ro & bpp
        & fmt0 & masks0 & maskBytes & masks1 & at_ & masks2 & fmt & m
        & Hhdr & Hf & _ & Hfmt & _ & Hbpp & _ & Hrle & _ & Hc).
  subst c. cbn [fBitsPerPixel fInputFormat fRLEBytes] in *. subst fmt.
  cbn [BitmapInputFormat_eqb] in Hrle. rewrite andb_true_r in Hrle.
  apply Z.leb_gt in Hrle.
  pose proof (checkBitsPerPixel_format _ _ _ _ _ Hbpp) as Hfmt2.
  destruct (bpp =? 16); [discriminate|]. subst fmt0.
  destruct (selectFormat_inv _ _ _ _ _ _ _ _ Hfmt) as (_ & _ & _ & _ & Hcases).
  destruct (readHeaders_inv _ _ _ _ _ _ _ Hhdr) as (_ & _ & Hico & _).
  destruct isIco.
  - destruct Hico as (Htb & Ho & _). lia.
  - destruct Hico as (Htb & Ho & _ & _).
    split; [reflexivity|].
    split.
    + destruct Hcases as [(_ & E & _)|[(_ & _ & E)|[(_ & _ & E)|[(_ & E & _)|(_ & _ & E & _)]]]];
        try discriminate; rewrite E; simpl; tauto.
    + subst totalBytes offset.
      pose proof (get_int_range (pending stream) 2) as R2.
      pose proof (get_int_range (pending stream) 10) as R10.
      unfold fileBytes, pixelDataOffset in *.
      split; [lia|]. apply wrap32u_small. lia.
Qed.

Lemma X2_rle_header_witness :
  let file := sample_bmp 68 62 4 1 8 1 2 [0; 0; 0; 0; 255; 255; 255; 0;
                                            2; 0; 2; 1; 0; 1] in
  let c := mkBmpCodec (X := ref_externals) (sample_info 4 1 kOpaque_SkAlphaType)
             false 8 kRLE_BitmapInputFormat noMasks None 2 4 8
             kBottomUp_RowOrder 6 false in
  false = false
  /\ In (fBitsPerPixel c) [4; 8; 24]
  /\ pixelDataOffset file < fileBytes file
  /\ fRLEBytes c = fileBytes file - pixelDataOffset file.
Proof.
  intros file c.
  apply (X2_rle_header ref_externals file false c (mkStream (sdata file) 54)).
  - reflexivity.
  - reflexivity.
Defined.

(** X3.  The input format and the bit depth of an accepted header follow from
    the compression field alone: 0 keeps the stored depth and decodes as
    standard, or through bit masks when the depth is 16; 1 and 2 are RLE at 8
    and 4 bits whatever depth is stored; 3 and 6 are bit masks; 4 is RLE at 24
    bits, and only with a stored depth of 24.  No other compression value is
    accepted. *)
Theorem X3_compression_dispatch (X : Externals) (stream : SkStream)
    (isIco : bool) (c : SkBmpCodec) (s : SkStream) :
  NewFromStream stream isIco = Some (c, s) ->
  exists f,
    storedFields stream isIco = Some f
    /\ ((hf_compression f = 0 /\ fBitsPerPixel c = hf_bitsPerPixel f
         /\ fInputFormat c = (if hf_bitsPerPixel f =? 16
                              then kBitMask_BitmapInputFormat
                              else kStandard_BitmapInputFormat))
        \/ (hf_compression f = 1 /\ fBitsPerPixel c = 8
            /\ fInputFormat c = kRLE_BitmapInputFormat)
        \/ (hf_compression f = 2 /\ fBitsPerPixel c = 4
            /\ fInputFormat c = kRLE_BitmapInputFormat)
        \/ ((hf_compression f = 3 \/ hf_compression f = 6)
            /\ fBitsPerPixel c = hf_bitsPerPixel f
            /\ fInputFormat c = kBitMask_BitmapInputFormat)
        \/ (hf_compression f = 4 /\ hf_bitsPerPixel f = 24
            /\ fBitsPerPixel c = 24
            /\ fInputFormat c = kRLE_BitmapInputFormat)).
Proof.
  intros Hnew.
  destruct (NewFromStream_inv _ _ _ _ Hnew)
    as (totalBytes & offset & infoBytes & iBuffer & s1 & f & w & h & ro & bpp
        & fmt0 & masks0 & maskBytes & masks1 & at_ & masks2 & fmt & m
        & Hhdr & Hf & _ & Hfmt & _ & Hbpp & _ & _ & _ & Hc).
  subst c. cbn [fBitsPerPixel fInputFormat].
  exists f. split.
  { unfold storedFields. rewrite Hhdr. exact Hf. }
  pose proof (checkBitsPerPixel_format _ _ _ _ _ Hbpp) as Hfmt2.
  destruct (selectFormat_inv _ _ _ _ _ _ _ _ Hfmt) as (_ & _ & _ & _ & Hcases).
  destruct Hcases as [(Ec & E & Eb)|[(Ec & E & Eb)|[(Ec & E & Eb)|[(Ec & E & Eb)|(Ec & E & Eb & Es)]]]];
    subst fmt0 bpp.
  - left. rewrite Hfmt2. auto.
  - right; left. rewrite Hfmt2. auto.
  - right; right; left. rewrite Hfmt2. auto.
  - right; right; right; left. rewrite Hfmt2.
    destruct (hf_bitsPerPixel f =? 16); auto.
  - right; right; right; right. rewrite Hfmt2. auto.
Qed.

Lemma X3_compression_dispatch_witness :
  exists f,
    storedFields (sample_bmp 70 54 2 2 16 0 0 []) false = Some f
    /\ hf_compression f = 0
    /\ exists c s,
         NewFromStream (X := ref_externals) (sample_bmp 70 54 2 2 16 0 0 []) false
         = Some (c, s)
         /\ fInputFormat c = kBitMask_BitmapInputFormat.
Proof.
  assert (E : NewFromStream (X := ref_externals)
                (sample_bmp 70 54 2 2 16 0 0 []) false
              = Some (mkBmpCodec (X := ref_externals)
                        (sample_info 2 2 kOpaque_SkAlphaType) false 16
                        kBitMask_BitmapInputFormat
                        (mkInputMasks 0x7C00 0x03E0 0x001F 0) None 0 4 0
                        kBottomUp_RowOrder 16 false,
                      mkStream (sdata (sample_bmp 70 54 2 2 16 0 0 [])) 54))
    by reflexivity.
  destruct (X3_compression_dispatch ref_externals _ _ _ _ E) as (f & Hf & Hcases).
  exists f. split; [exact Hf|].
  assert (Hc : hf_compression f = 0).
  { revert Hf. vm_compute. intros Hf. inversion Hf. reflexivity. }
  split; [exact Hc|].
  eexists. eexists. split; [exact E|]. reflexivity.
Defined.

(** X4.  For an accepted stand-alone BMP shorter than 4 GiB, the number of
    bytes the parser has read plus the gap it records in the codec is the
    offset of the pixel data that the file header states: skipping the gap
    from where the parser stopped leads to the pixel data. *)
Theorem X4_gap_leads_to_pixel_data (X : Externals) (stream : SkStream)
    (c : SkBmpCodec) (s : SkStream) :
  NewFromStream stream false = Some (c, s) ->
  Z.of_nat (length (sdata stream)) < 2 ^ 32 ->
  sdata s = sdata stream
  /\ Z.of_nat (spos s) + fOffset c
     = Z.of_nat (spos stream) + pixelDataOffset stream.
Proof.
  intros Hnew Hsize. split.
  - apply (NewFromStream_fields _ _ _ _ _ Hnew).
  - apply (NewFromStream_gap _ _ _ _ Hnew Hsize).
Qed.

Lemma X4_gap_leads_to_pixel_data_witness :
  let file := sample_bmp 1100 60 1 1 8 0 0 (repeat 0 1030) in
  let c := mkBmpCodec (X := ref_externals) (sample_info 1 1 kOpaque_SkAlphaType)
             false 8 kStandard_BitmapInputFormat noMasks None 0 4 6
             kBottomUp_RowOrder 1040 false in
  let s := mkStream (sdata file) 54 in
  sdata s = sdata file
  /\ Z.of_nat (spos s) + fOffset c = Z.of_nat (spos file) + pixelDataOffset file.
Proof.
  intros file c s.
  apply (X4_gap_leads_to_pixel_data ref_externals file c s).
  - reflexivity.
  - vm_compute. reflexivity.
Defined.

End HeaderExtras.

(** ** The colour table, continued *)

Lemma stream_skip_pos (s s2 : SkStream) (n k : Z) :
  stream_skip s n = (k, s2) ->
  k = n ->
  sdata s2 = sdata s /\ Z.of_nat (spos s2) = Z.of_nat (spos s) + n.
Proof.
  unfold stream_skip. intros H Hk. inversion H as [[H1 H2]]. clear H.
  cbn [sdata spos]. split; [reflexivity|]. lia.
Qed.

Section ColorTableMoreFacts.
Import Bmp.
Context {X : Externals}.

Lemma tableColors_range (c : SkBmpCodec) :
  In (fBitsPerPixel c) [1; 2; 4; 8] ->
  0 <= fNumColors c ->
  0 < tableColors c <= 2 ^ fBitsPerPixel c /\ 2 ^ fBitsPerPixel c <= 256
  /\ wrap32u (Z.shiftl 1 (fBitsPerPixel c)) = 2 ^ fBitsPerPixel c.
Proof.
  intros Hbpp Hn. unfold tableColors.
  assert (Hpow : 0 < 2 ^ fBitsPerPixel c <= 256
                 /\ wrap32u (Z.shiftl 1 (fBitsPerPixel c)) = 2 ^ fBitsPerPixel c).
  { simpl in Hbpp.
    destruct Hbpp as [E|[E|[E|[E|[]]]]]; rewrite <- E; simpl; split; try lia;
      reflexivity. }
  destruct Hpow as (Hpow & Hmax).
  destruct ((fNumColors c =? 0) || (fNumColors c >=? 2 ^ fBitsPerPixel c)) eqn:E.
  - lia.
  - apply orb_false_iff in E. destruct E as [E1 E2].
    apply Z.eqb_neq in E1. lia.
Qed.

(** A colour table of a depth of at most 8 bits that was created with
    success: the bytes read, the table made of them, and the skip up to the
    pixel data. *)
Lemma createColorTable_small (c : SkBmpCodec) (stream : SkStream)
    (alphaType : SkAlphaType) (c' : SkBmpCodec) (s' : SkStream) :
  In (fBitsPerPixel c) [1; 2; 4; 8] ->
  0 <= fNumColors c ->
  fBytesPerColor c = 3 \/ fBytesPerColor c = 4 ->
  createColorTable c stream alphaType = Some (true, c', s') ->
  exists cBuffer s1 pack,
    stream_read stream (tableColors c * fBytesPerColor c) = (cBuffer, s1)
    /\ Z.of_nat (length cBuffer) = tableColors c * fBytesPerColor c
    /\ choosePack alphaType = Some pack
    /\ fColorTable c'
       = Some (map (fun i => colorEntry c alphaType pack cBuffer (Z.of_nat i))
                 (seq 0 (Z.to_nat (tableColors c)))
               ++ repeat (SkPackARGB32NoCheck 0xFF 0 0 0)
                    (Z.to_nat (2 ^ fBitsPerPixel c - tableColors c)))
    /\ fNumColors c' = tableColors c
    /\ (if fIsIco c then s' = s1
        else tableColors c * fBytesPerColor c <= fOffset c
             /\ stream_skip s1
                  (wrap32u (fOffset c - tableColors c * fBytesPerColor c))
                = (wrap32u (fOffset c - tableColors c * fBytesPerColor c), s')).
Proof.
  intros Hbpp Hn Hbpc H.
  destruct (tableColors_range c Hbpp Hn) as (Hrange & Hpow & Hmax).
  unfold createColorTable in H.
  assert (Hle : (fBitsPerPixel c <=? 8) = true).
  { apply Z.leb_le. simpl in Hbpp. lia. }
  rewrite Hle, Hmax in H.
  set (c1 := if (fNumColors c =? 0) || (fNumColors c >=? 2 ^ fBitsPerPixel c)
             then setNumColors c (2 ^ fBitsPerPixel c) else c) in H.
  assert (Hc1 : fNumColors c1 = tableColors c /\ fBytesPerColor c1 = fBytesPerColor c
                /\ fIsIco c1 = fIsIco c /\ fOffset c1 = fOffset c
                /\ fMasks c1 = fMasks c).
  { unfold c1, tableColors.
    destruct ((fNumColors c =? 0) || (fNumColors c >=? 2 ^ fBitsPerPixel c));
      simpl; auto. }
  destruct Hc1 as (Hn1 & Hb1 & Hi1 & Ho1 & Hm1).
  assert (Hbytes : wrap32u (fNumColors c1 * fBytesPerColor c1)
                   = tableColors c * fBytesPerColor c).
  { rewrite Hn1, Hb1. apply wrap32u_small. destruct Hbpc as [E|E]; rewrite E; lia. }
  rewrite Hbytes in H.
  destruct (stream_read stream (tableColors c * fBytesPerColor c))
    as [cBuffer s1] eqn:Hread.
  destruct (negb (Z.of_nat (length cBuffer) =? tableColors c * fBytesPerColor c))
    eqn:Hlen.
  { cbn in H. discriminate. }
  apply negb_false_iff, Z.eqb_eq in Hlen.
  destruct (choosePack alphaType) as [pack|] eqn:Hpack.
  - cbn [obind negb] in H. rewrite Hi1, Ho1 in H.
    exists cBuffer, s1, pack.
    assert (Htable :
              map (fun i => colorEntry c1 alphaType pack cBuffer (Z.of_nat i))
                (seq 0 (Z.to_nat (fNumColors c1)))
              ++ repeat (SkPackARGB32NoCheck 0xFF 0 0 0)
                   (Z.to_nat (2 ^ fBitsPerPixel c - fNumColors c1))
              = map (fun i => colorEntry c alphaType pack cBuffer (Z.of_nat i))
                  (seq 0 (Z.to_nat (tableColors c)))
                ++ repeat (SkPackARGB32NoCheck 0xFF 0 0 0)
                     (Z.to_nat (2 ^ fBitsPerPixel c - tableColors c))).
    { rewrite Hn1. f_equal. apply map_ext. intros i.
      unfold colorEntry. rewrite Hb1, Hm1. reflexivity. }
    rewrite Htable in H. clear Htable.
    destruct (fIsIco c); cbn [negb] in H.
    + inversion H; subst. cbn [fColorTable setColorTable fNumColors].
      repeat split; try assumption; reflexivity.
    + destruct (fOffset c <? tableColors c * fBytesPerColor c) eqn:Hoff;
        [discriminate|].
      apply Z.ltb_ge in Hoff.
      destruct (stream_skip s1 (wrap32u (fOffset c - tableColors c * fBytesPerColor c)))
        as [skipped s2] eqn:Hskip.
      destruct (negb (skipped =? wrap32u (fOffset c - tableColors c * fBytesPerColor c)))
        eqn:Hsk; [discriminate|].
      apply negb_false_iff, Z.eqb_eq in Hsk.
      inversion H; subst. cbn [fColorTable setColorTable fNumColors].
      repeat split; try assumption; reflexivity.
  - assert (Hpos : (0 <? fNumColors c1) = true) by (apply Z.ltb_lt; lia).
    rewrite Hpos in H. cbn in H. discriminate.
Qed.

(** Above 8 bits there is no table to read: the table is empty and the gap is
    skipped whole. *)
Lemma createColorTable_large (c : SkBmpCodec) (stream : SkStream)
    (alphaType : SkAlphaType) (c' : SkBmpCodec) (s' : SkStream) :
  8 < fBitsPerPixel c ->
  createColorTable c stream alphaType = Some (true, c', s') ->
  c' = setColorTable c (Some [])
  /\ (if fIsIco c then s' = stream
      else 0 <= fOffset c
           /\ stream_skip stream (wrap32u (fOffset c - 0))
              = (wrap32u (fOffset c - 0), s')).
Proof.
  intros Hbpp H. unfold createColorTable in H.
  assert (Hle : (fBitsPerPixel c <=? 8) = false) by (apply Z.leb_gt; lia).
  rewrite Hle in H. cbn [obind negb] in H.
  destruct (fIsIco c); cbn [negb] in H.
  - inversion H; subst. split; reflexivity.
  - destruct (fOffset c <? 0) eqn:Hoff; [discriminate|].
    apply Z.ltb_ge in Hoff.
    destruct (stream_skip stream (wrap32u (fOffset c - 0))) as [skipped s2] eqn:Hskip.
    destruct (negb (skipped =? wrap32u (fOffset c - 0))) eqn:Hsk; [discriminate|].
    apply negb_false_iff, Z.eqb_eq in Hsk.
    inversion H; subst. repeat split; try assumption; reflexivity.
Qed.

End ColorTableMoreFacts.

Section ColorTableExtras.
Import Bmp.

(** X5.  A colour table created with success for a depth of 1, 2, 4 or 8 bits
    has exactly 2^depth entries, whatever number of colours the header states:
    the codec's count becomes the header's, or 2^depth when that is 0 or too
    large, and every entry from that count on is opaque black, so that no
    index of the pixel data falls outside the table.  For an opaque
    destination the entries below the count are the stored colours in the
    order blue, green, red, packed with alpha 0xFF. *)
Theorem X5_color_table_has_every_index (X : Externals) (c : SkBmpCodec)
    (stream : SkStream) (alphaType : SkAlphaType) (c' : SkBmpCodec)
    (s' : SkStream) :
  In (fBitsPerPixel c) [1; 2; 4; 8] ->
  0 <= fNumColors c ->
  fBytesPerColor c = 3 \/ fBytesPerColor c = 4 ->
  createColorTable c stream alphaType = Some (true, c', s') ->
  exists t,
    fColorTable c' = Some t
    /\ Z.of_nat (length t) = 2 ^ fBitsPerPixel c
    /\ fNumColors c' = tableColors c
    /\ 0 < tableColors c <= 2 ^ fBitsPerPixel c
    /\ (forall i, tableColors c <= i < 2 ^ fBitsPerPixel c ->
                  nth (Z.to_nat i) t 0 = SkPackARGB32NoCheck 0xFF 0 0 0)
    /\ (alphaType = kOpaque_SkAlphaType ->
        forall i, 0 <= i < tableColors c ->
                  nth (Z.to_nat i) t 0
                  = SkPackARGB32NoCheck 0xFF
                      (get_byte (pending stream) (i * fBytesPerColor c + 2))
                      (get_byte (pending stream) (i * fBytesPerColor c + 1))
                      (get_byte (pending stream) (i * fBytesPerColor c))).
Proof.
  intros Hbpp Hn Hbpc H.
  destruct (tableColors_range c Hbpp Hn) as (Hrange & Hpow & _).
  destruct (createColorTable_small c stream alphaType c' s' Hbpp Hn Hbpc H)
    as (cBuffer & s1 & pack & Hread & Hlen & Hpack & Ht & Hcount & _).
  eexists. split; [exact Ht|].
  assert (Hmaplen :
            length (map (fun i => colorEntry c alphaType pack cBuffer (Z.of_nat i))
                      (seq 0 (Z.to_nat (tableColors c))))
            = Z.to_nat (tableColors c)).
  { rewrite length_map, length_seq. reflexivity. }
  split; [|split; [exact Hcount|split; [exact Hrange|split]]].
  - rewrite length_app, Hmaplen, repeat_length. lia.
  - intros i Hi. rewrite app_nth2 by (rewrite Hmaplen; lia).
    rewrite Hmaplen. apply nth_repeat_lt. lia.
  - intros Hopaque i Hi.
    rewrite app_nth1 by (rewrite Hmaplen; lia).
    rewrite (nth_indep _ 0 (colorEntry c alphaType pack cBuffer (Z.of_nat 0)))
      by (rewrite Hmaplen; lia).
    rewrite (map_nth (fun i => colorEntry c alphaType pack cBuffer (Z.of_nat i))).
    rewrite seq_nth by lia. cbn [Nat.add]. rewrite Z2Nat.id by lia.
    subst alphaType. cbn [choosePack] in Hpack. inversion Hpack; subst pack.
    unfold colorEntry. cbn [SkAlphaType_eqb].
    assert (Hcb : cBuffer
                  = firstn (Z.to_nat (tableColors c * fBytesPerColor c))
                      (pending stream)).
    { unfold stream_read in Hread. inversion Hread. reflexivity. }
    assert (Hb : 0 <= i * fBytesPerColor c
                 /\ i * fBytesPerColor c + 3 <= tableColors c * fBytesPerColor c
                 /\ tableColors c * fBytesPerColor c <= 1024).
    { destruct Hbpc as [E|E]; rewrite E; lia. }
    rewrite !wrap32u_small by lia.
    rewrite Hcb, !get_byte_firstn by lia. reflexivity.
Qed.

Lemma X5_color_table_has_every_index_witness :
  let c := mkBmpCodec (X := ref_externals) (sample_info 2 2 kOpaque_SkAlphaType)
             false 2 kStandard_BitmapInputFormat noMasks None 3 4 12
             kBottomUp_RowOrder 0 false in
  let stream := mkStream [1; 2; 3; 0; 4; 5; 6; 0; 7; 8; 9; 0; 255] 0 in
  exists c' s',
    createColorTable c stream kOpaque_SkAlphaType = Some (true, c', s')
    /\ exists t,
         fColorTable c' = Some t
         /\ Z.of_nat (length t) = 2 ^ fBitsPerPixel c
         /\ fNumColors c' = tableColors c
         /\ 0 < tableColors c <= 2 ^ fBitsPerPixel c
         /\ (forall i, tableColors c <= i < 2 ^ fBitsPerPixel c ->
                       nth (Z.to_nat i) t 0 = SkPackARGB32NoCheck (Externals := ref_externals) 0xFF 0 0 0)
         /\ (kOpaque_SkAlphaType = kOpaque_SkAlphaType ->
             forall i, 0 <= i < tableColors c ->
                       nth (Z.to_nat i) t 0
                       = SkPackARGB32NoCheck (Externals := ref_externals) 0xFF
                           (get_byte (pending stream) (i * fBytesPerColor c + 2))
                           (get_byte (pending stream) (i * fBytesPerColor c + 1))
                           (get_byte (pending stream) (i * fBytesPerColor c))).
Proof.
  intros c stream. eexists. eexists. split; [reflexivity|].
  eapply (X5_color_table_has_every_index ref_externals c stream
            kOpaque_SkAlphaType).
  - simpl. tauto.
  - simpl. lia.
  - right. reflexivity.
  - reflexivity.
Defined.

(** X6.  For an accepted stand-alone BMP shorter than 4 GiB, whatever its
    depth, a colour table created with success leaves the stream at the offset
    of the pixel data that the file header states: the engines start to read
    there. *)
Theorem X6_engines_start_at_pixel_data (X : Externals) (stream : SkStream)
    (c : SkBmpCodec) (s : SkStream) (alphaType : SkAlphaType)
    (c' : SkBmpCodec) (s' : SkStream) :
  NewFromStream stream false = Some (c, s) ->
  Z.of_nat (length (sdata stream)) < 2 ^ 32 ->
  createColorTable c s alphaType = Some (true, c', s') ->
  sdata s' = sdata stream
  /\ Z.of_nat (spos s') = Z.of_nat (spos stream) + pixelDataOffset stream.
Proof.
  intros Hnew Hsize Hct.
  destruct (NewFromStream_fields _ _ _ _ _ Hnew)
    as (Hbpp & Hn & Hbpc & Hico & _ & Hdata).
  destruct (NewFromStream_gap _ _ _ _ Hnew Hsize) as (Hoff & Hgap).
  assert (Hcase : In (fBitsPerPixel c) [1; 2; 4; 8] \/ 8 < fBitsPerPixel c).
  { simpl in Hbpp |- *. intuition lia. }
  destruct Hcase as [Hsmall|Hlarge].
  - destruct (tableColors_range c Hsmall ltac:(lia)) as (Hrange & Hpow & _).
    destruct (createColorTable_small c s alphaType c' s' Hsmall ltac:(lia) Hbpc Hct)
      as (cBuffer & s1 & pack & Hread & Hlen & _ & _ & _ & Hskip).
    rewrite Hico in Hskip. destruct Hskip as (Hle & Hskip).
    destruct (stream_read_pos _ _ _ _ Hread Hlen) as (Hd1 & Hp1 & _).
    assert (Hcb : 0 <= tableColors c * fBytesPerColor c).
    { destruct Hbpc as [E|E]; rewrite E; lia. }
    rewrite wrap32u_small in Hskip by lia.
    destruct (stream_skip_pos _ _ _ _ Hskip eq_refl) as (Hd2 & Hp2).
    split; [congruence|lia].
  - destruct (createColorTable_large c s alphaType c' s' Hlarge Hct) as (_ & Hskip).
    rewrite Hico in Hskip. destruct Hskip as (_ & Hskip).
    rewrite Z.sub_0_r, wrap32u_small in Hskip by lia.
    destruct (stream_skip_pos _ _ _ _ Hskip eq_refl) as (Hd2 & Hp2).
    split; [congruence|lia].
Qed.

Lemma X6_engines_start_at_pixel_data_witness :
  let file := sample_bmp 68 62 4 1 8 1 2 [0; 0; 0; 0; 255; 255; 255; 0;
                                            2; 0; 2; 1; 0; 1] in
  let c := mkBmpCodec (X := ref_externals) (sample_info 4 1 kOpaque_SkAlphaType)
             false 8 kRLE_BitmapInputFormat noMasks None 2 4 8
             kBottomUp_RowOrder 6 false in
  exists c' s',
    createColorTable c (mkStream (sdata file) 54) kOpaque_SkAlphaType
    = Some (true, c', s')
    /\ sdata s' = sdata file
    /\ Z.of_nat (spos s') = Z.of_nat (spos file) + pixelDataOffset file.
Proof.
  intros file c. eexists. eexists. split; [reflexivity|].
  eapply (X6_engines_start_at_pixel_data ref_externals file c
            (mkStream (sdata file) 54) kOpaque_SkAlphaType).
  - reflexivity.
  - vm_compute. reflexivity.
  - reflexivity.
Defined.

End ColorTableExtras.

(** ** The RLE engine never leaves the destination *)

Section RleInsideFacts.
Import Bmp.
Context {X : Externals}.

Lemma stores_inside_refl (lo hi : Z) (d : Buffer) : stores_inside lo hi d d.
Proof. exists []. split; [apply stores_only_refl | constructor]. Qed.

Lemma stores_inside_trans (lo hi : Z) (d1 d2 d3 : Buffer) :
  stores_inside lo hi d1 d2 -> stores_inside lo hi d2 d3 ->
  stores_inside lo hi d1 d3.
Proof.
  intros (n1 & S1 & F1) (n2 & S2 & F2). exists (n2 ++ n1). split.
  - eapply stores_only_trans; eassumption.
  - apply Forall_app. split; assumption.
Qed.

Lemma stores_inside_store (lo hi : Z) (d : Buffer) (addr : Z) (data : list Z) :
  lo <= addr -> addr + Z.of_nat (length data) <= hi ->
  stores_inside lo hi d (store_bytes d addr data).
Proof.
  intros H1 H2. eexists. split; [apply stores_only_store|].
  constructor; [|constructor]. split; assumption.
Qed.

(** Outside the addresses of its stores, the destination is as before. *)
Lemma stores_inside_frame (lo hi : Z) (d d' : Buffer) (a : Z) :
  stores_inside lo hi d d' -> a < lo \/ hi <= a -> bytes d' a = bytes d a.
Proof.
  intros (new & (_ & Hb) & Hin) Ha. apply Hb.
  unfold written. apply not_true_is_false. intros Hex.
  apply existsb_exists in Hex. destruct Hex as (e & He & Hcov).
  rewrite Forall_forall in Hin. specialize (Hin e He). unfold inside in Hin.
  unfold covers in Hcov. apply andb_true_iff in Hcov.
  destruct Hcov as [C1 C2]. apply Z.leb_le in C1. apply Z.ltb_lt in C2. lia.
Qed.

(** The row of a pixel inside the image starts inside the destination, and
    the row fits. *)
Lemma rle_row_address (c : SkBmpCodec) (info : SkImageInfo) (rb x y : Z) :
  0 <= x < width info -> 0 <= y < height info -> height info < 2 ^ 31 ->
  4 * width info <= rb -> rb * height info < 2 ^ 31 ->
  wrap32u x = x
  /\ 0 <= wrap32s (rleRow c info y * wrap32s rb)
  /\ wrap32s (rleRow c info y * wrap32s rb) + 4 * width info <= rb * height info.
Proof.
  intros Hx Hy Hh Hrb Hsize.
  assert (Hrb2 : 0 <= rb < 2 ^ 31) by nia.
  assert (Hrow : 0 <= rleRow c info y <= height info - 1).
  { unfold rleRow. rewrite (wrap32u_small y) by lia.
    destruct (fRowOrder c); rewrite wrap32s_small by lia; lia. }
  rewrite (wrap32s_small rb) by lia.
  assert (Hprod : 0 <= rleRow c info y * rb <= (height info - 1) * rb) by nia.
  rewrite wrap32s_small by nia.
  split; [apply wrap32u_small; lia|]. nia.
Qed.

Lemma inside_setRLEPixel (c : SkBmpCodec) (d : Buffer) (rb : Z)
    (info : SkImageInfo) (x y index : Z) :
  0 <= x < width info -> 0 <= y < height info -> height info < 2 ^ 31 ->
  4 * width info <= rb -> rb * height info < 2 ^ 31 ->
  stores_inside 0 (rb * height info) d (setRLEPixel c d rb info x y index).
Proof.
  intros Hx Hy Hh Hrb Hsize.
  destruct (rle_row_address c info rb x y Hx Hy Hh Hrb Hsize) as (Ex & H0 & H1).
  unfold setRLEPixel, store32, store16. rewrite Ex.
  destruct (colorType info); try apply stores_inside_refl;
    apply stores_inside_store; cbn [length le_bytes32 le_bytes16]; lia.
Qed.

Lemma inside_setRLE24Pixel (c : SkBmpCodec) (d : Buffer) (rb : Z)
    (info : SkImageInfo) (x y r g b : Z) :
  0 <= x < width info -> 0 <= y < height info -> height info < 2 ^ 31 ->
  4 * width info <= rb -> rb * height info < 2 ^ 31 ->
  stores_inside 0 (rb * height info) d (setRLE24Pixel c d rb info x y r g b).
Proof.
  intros Hx Hy Hh Hrb Hsize.
  destruct (rle_row_address c info rb x y Hx Hy Hh Hrb Hsize) as (Ex & H0 & H1).
  unfold setRLE24Pixel, store32, store16. rewrite Ex.
  destruct (colorType info); try apply stores_inside_refl;
    apply stores_inside_store; cbn [length le_bytes32 le_bytes16]; lia.
Qed.

Section Image.
Variables (c : SkBmpCodec) (info : SkImageInfo) (rb : Z).
Hypothesis Hwidth : 0 <= width info < 2 ^ 31 - 255.
Hypothesis Hheight : 0 <= height info < 2 ^ 31 - 255.
Hypothesis Hrb : 4 * width info <= rb.
Hypothesis Hsize : rb * height info < 2 ^ 31.

Lemma inside_fillRun (i0 i1 : Z) (n : nat) :
  forall which x y d,
    0 <= x -> x + Z.of_nat n <= width info -> 0 <= y < height info ->
    fst (fillRun c info rb i0 i1 which n x y d) = x + Z.of_nat n
    /\ stores_inside 0 (rb * height info) d
         (snd (fillRun c info rb i0 i1 which n x y d)).
Proof.
  induction n as [|n IH]; intros which x y d Hx Hfit Hy; cbn [fillRun].
  - split; [cbn [fst]; lia | apply stores_inside_refl].
  - rewrite (wrap32s_small (x + 1)) by lia.
    destruct (IH (negb which) (x + 1) y
                (setRLEPixel c d rb info x y (if which then i1 else i0))
                ltac:(lia) ltac:(lia) Hy) as (E & Hin).
    split; [rewrite E; lia|].
    eapply stores_inside_trans; [|exact Hin].
    apply inside_setRLEPixel; lia.
Qed.

Lemma inside_fillRun24 (r g b : Z) (n : nat) :
  forall x y d,
    0 <= x -> x + Z.of_nat n <= width info -> 0 <= y < height info ->
    fst (fillRun24 c info rb r g b n x y d) = x + Z.of_nat n
    /\ stores_inside 0 (rb * height info) d
         (snd (fillRun24 c info rb r g b n x y d)).
Proof.
  induction n as [|n IH]; intros x y d Hx Hfit Hy; cbn [fillRun24].
  - split; [cbn [fst]; lia | apply stores_inside_refl].
  - rewrite (wrap32s_small (x + 1)) by lia.
    destruct (IH (x + 1) y (setRLE24Pixel c d rb info x y r g b)
                ltac:(lia) ltac:(lia) Hy) as (E & Hin).
    split; [rewrite E; lia|].
    eapply stores_inside_trans; [|exact Hin].
    apply inside_setRLE24Pixel; lia.
Qed.

(** An absolute run that fits the row stores inside the destination, and
    where it runs to its end the cursor has moved by its pixels. *)
Lemma inside_absoluteRun (buffer : list Z) (n : nat) :
  forall s,
    0 <= rx s -> rx s + Z.of_nat n <= width info -> 0 <= ry s < height info ->
    stores_inside 0 (rb * height info) (rdst s)
      (step_dst (absoluteRun c info rb buffer n s))
    /\ forall s', absoluteRun c info rb buffer n s = Continue s' ->
                  rx s' = rx s + Z.of_nat n /\ ry s' = ry s.
Proof.
  destruct (fBitsPerPixel c =? 4) eqn:E4.
  - induction n as [| |n IH] using pair_induction; intros s Hx Hfit Hy.
    + cbn [absoluteRun step_dst]. split; [apply stores_inside_refl|].
      intros s' H. inversion H; subst. lia.
    + cbn [absoluteRun]. rewrite E4. cbn [step_dst rdst]. split.
      * apply inside_setRLEPixel; lia.
      * intros s' H. inversion H; subst. cbn [rx ry].
        rewrite wrap32s_small by lia. lia.
    + cbn [absoluteRun]. rewrite E4.
      rewrite (wrap32s_small (rx s + 1)) by lia.
      rewrite (wrap32s_small (rx s + 1 + 1)) by lia.
      match goal with |- context [absoluteRun c info rb buffer n ?s0] =>
        destruct (IH s0) as (Hin & Hcur); cbn [rx ry rdst]; try lia
      end.
      cbn [rx ry rdst] in Hin, Hcur. split.
      * eapply stores_inside_trans; [|exact Hin].
        eapply stores_inside_trans; apply inside_setRLEPixel; lia.
      * intros s' H. destruct (Hcur s' H) as (E1 & E2). lia.
  - induction n as [|n IH]; intros s Hx Hfit Hy.
    + cbn [absoluteRun step_dst]. split; [apply stores_inside_refl|].
      intros s' H. inversion H; subst. lia.
    + cbn [absoluteRun]. rewrite E4.
      destruct (fBitsPerPixel c =? 8).
      * rewrite (wrap32s_small (rx s + 1)) by lia.
        match goal with |- context [absoluteRun c info rb buffer n ?s0] =>
          destruct (IH s0) as (Hin & Hcur); cbn [rx ry rdst]; try lia
        end.
        cbn [rx ry rdst] in Hin, Hcur. split.
        -- eapply stores_inside_trans; [|exact Hin].
           apply inside_setRLEPixel; lia.
        -- intros s' H. destruct (Hcur s' H) as (E1 & E2). lia.
      * destruct (fBitsPerPixel c =? 24); cbn [step_dst rdst]; split;
          try (intros s' H; discriminate).
        -- apply inside_setRLE24Pixel; lia.
        -- apply stores_inside_refl.
Qed.

(** One pass through the loop, from a cursor inside the image: the stores
    stay inside the destination, and so does the cursor if the loop goes
    on. *)
Lemma rleStep_inside (buffer : list Z) (totalBytes : Z) (s : RleState) :
  0 <= rx s <= width info -> 0 <= ry s <= height info ->
  stores_inside 0 (rb * height info) (rdst s)
    (step_dst (rleStep c info rb buffer totalBytes s))
  /\ forall s', rleStep c info rb buffer totalBytes s = Continue s' ->
                0 <= rx s' <= width info /\ 0 <= ry s' <= height info.
Proof.
  destruct s as [x y curr dst]. unfold rleStep. cbn [rx ry currByte rdst].
  intros Hx Hy.
  assert (Hret : forall r s0,
            rdst s0 = dst ->
            stores_inside 0 (rb * height info) dst (step_dst (Return r s0))
            /\ forall s', Return r s0 = Continue s' ->
                          0 <= rx s' <= width info /\ 0 <= ry s' <= height info).
  { intros r s0 E. cbn [step_dst]. rewrite E.
    split; [apply stores_inside_refl | intros s' H; discriminate]. }
  destruct (wrap32u (totalBytes - curr) <? 2); [apply Hret; reflexivity|].
  pose proof (get_byte_range buffer curr) as Rflag.
  pose proof (get_byte_range buffer (wrap32u (curr + 1))) as Rtask.
  destruct ((y >=? height info)
            && (negb (get_byte buffer curr =? RLE_ESCAPE)
                || negb (get_byte buffer (wrap32u (curr + 1)) =? RLE_EOF)))
    eqn:Epast; [apply Hret; reflexivity|].
  destruct (RLE_ESCAPE =? get_byte buffer curr) eqn:Eesc.
  - destruct (get_byte buffer (wrap32u (curr + 1)) =? RLE_EOL) eqn:Eeol.
    { cbn [step_dst rdst]. split; [apply stores_inside_refl|].
      intros s' H. inversion H; subst. cbn [rx ry].
      apply Z.eqb_eq in Eeol. rewrite Eeol in Epast.
      rewrite orb_true_r, andb_true_r in Epast.
      rewrite Z.geb_leb in Epast. apply Z.leb_gt in Epast.
      rewrite wrap32s_small by lia. lia. }
    destruct (get_byte buffer (wrap32u (curr + 1)) =? RLE_EOF) eqn:Eeof;
      [apply Hret; reflexivity|].
    assert (Hin : y < height info).
    { rewrite orb_true_r, andb_true_r in Epast.
      rewrite Z.geb_leb in Epast. apply Z.leb_gt in Epast. exact Epast. }
    destruct (get_byte buffer (wrap32u (curr + 1)) =? RLE_DELTA).
    + destruct (wrap32u (totalBytes - wrap32u (curr + 2)) <? 2);
        [apply Hret; reflexivity|].
      pose proof (get_byte_range buffer (wrap32u (curr + 2))) as Rdx.
      pose proof (get_byte_range buffer (wrap32u (wrap32u (curr + 2) + 1))) as Rdy.
      rewrite (wrap32s_small (x + _)) by lia.
      rewrite (wrap32s_small (y + _)) by lia.
      match goal with |- context [if ?b then _ else _] => destruct b eqn:Eout end;
        [apply Hret; reflexivity|].
      apply orb_false_iff in Eout. destruct Eout as [E1 E2].
      rewrite Z.gtb_ltb in E1, E2. apply Z.ltb_ge in E1. apply Z.ltb_ge in E2.
      cbn [step_dst rdst]. split; [apply stores_inside_refl|].
      intros s' H. inversion H; subst. cbn [rx ry]. lia.
    + rewrite (wrap32s_small (x + _)) by lia.
      match goal with |- context [if ?b then _ else _] => destruct b eqn:Efit end;
        [apply Hret; reflexivity|].
      apply orb_false_iff in Efit. destruct Efit as [E1 _].
      rewrite Z.gtb_ltb in E1. apply Z.ltb_ge in E1.
      match goal with |- context [absoluteRun c info rb buffer ?n ?s0] =>
        destruct (inside_absoluteRun buffer n s0) as (Hstores & Hcur);
        cbn [rx ry rdst]; try lia;
        destruct (absoluteRun c info rb buffer n s0) as [s1|r1 s1]
      end.
      * cbn [rx ry rdst step_dst] in Hstores, Hcur.
        destruct (Hcur s1 eq_refl) as (Ex & Ey).
        match goal with |- context [if ?b then _ else _] => destruct b end;
          cbn [step_dst rdst]; (split; [exact Hstores|]);
          intros s' H; inversion H; subst; cbn [rx ry]; lia.
      * cbn [step_dst] in Hstores |- *. split; [exact Hstores|].
        intros s' H. discriminate.
  - assert (Hin : y < height info).
    { rewrite Z.eqb_sym in Eesc. rewrite Eesc in Epast.
      cbn [negb orb] in Epast. rewrite andb_true_r in Epast.
      rewrite Z.geb_leb in Epast. apply Z.leb_gt in Epast. exact Epast. }
    rewrite (wrap32s_small (x + _)) by lia.
    assert (Hend : x + Z.of_nat (Z.to_nat (Z.min (x + get_byte buffer curr)
                                              (width info) - x))
                   <= width info) by lia.
    destruct (24 =? fBitsPerPixel c).
    + destruct (wrap32u (totalBytes - wrap32u (curr + 2)) <? 2);
        [apply Hret; reflexivity|].
      match goal with |- context [fillRun24 c info rb ?a1 ?a2 ?a3 ?n x y dst] =>
        destruct (inside_fillRun24 a1 a2 a3 n x y dst) as (Ex & Hstores);
        try lia;
        destruct (fillRun24 c info rb a1 a2 a3 n x y dst) as [x1 d1]
      end.
      cbn [fst snd] in Ex, Hstores. cbn [step_dst rdst].
      split; [exact Hstores|].
      intros s' H. inversion H; subst. cbn [rx ry]. lia.
    + match goal with |- context [fillRun c info rb ?a1 ?a2 ?w ?n x y dst] =>
        destruct (inside_fillRun a1 a2 n w x y dst) as (Ex & Hstores);
        try lia;
        destruct (fillRun c info rb a1 a2 w n x y dst) as [x1 d1]
      end.
      cbn [fst snd] in Ex, Hstores. cbn [step_dst rdst].
      split; [exact Hstores|].
      intros s' H. inversion H; subst. cbn [rx ry]. lia.
Qed.

Lemma rleLoop_inside (buffer : list Z) (totalBytes : Z) (fuel : nat) :
  forall s r s',
    0 <= rx s <= width info -> 0 <= ry s <= height info ->
    rleLoop c info rb buffer totalBytes fuel s = Some (r, s') ->
    stores_inside 0 (rb * height info) (rdst s) (rdst s').
Proof.
  induction fuel as [|fuel IH]; intros s r s' Hx Hy H; cbn [rleLoop] in H;
    [discriminate|].
  destruct (rleStep_inside buffer totalBytes s Hx Hy) as (Hstores & Hcur).
  destruct (rleStep c info rb buffer totalBytes s) as [s1|r1 s1].
  - destruct (Hcur s1 eq_refl) as (Hx1 & Hy1). cbn [step_dst] in Hstores.
    eapply stores_inside_trans; [exact Hstores|].
    eapply IH; eassumption.
  - inversion H; subst. exact Hstores.
Qed.

End Image.

End RleInsideFacts.

Section RleInsideExtras.
Import Bmp.

(** X7.  Whatever bytes the stream holds, the RLE engine stores pixels inside
    the destination only: for an image of non-negative dimensions below
    2^31 - 255 (the parser accepts none larger), rows of at least four bytes
    per pixel of the width and a destination of dstRowBytes * height bytes
    that fits an [int], every pixel store of the engine lies between the
    first and the last byte of the destination, and every byte outside keeps
    its value. *)
Theorem X7_rle_stays_inside_destination (X : Externals) (c : SkBmpCodec)
    (stream : SkStream) (dstInfo : SkImageInfo) (dst : Buffer)
    (dstRowBytes : Z) (r : Result) (s' : SkStream) (d' : Buffer) :
  0 <= width dstInfo < 2 ^ 31 - 255 ->
  0 <= height dstInfo < 2 ^ 31 - 255 ->
  4 * width dstInfo <= dstRowBytes ->
  dstRowBytes * height dstInfo < 2 ^ 31 ->
  decodeRLE c stream dstInfo dst dstRowBytes = Some (r, s', d') ->
  (exists new,
     journal d' = new ++ journal dst
     /\ Forall (inside 0 (dstRowBytes * height dstInfo)) new)
  /\ forall a, a < 0 \/ dstRowBytes * height dstInfo <= a ->
               bytes d' a = bytes dst a.
Proof.
  intros Hw Hh Hrb Hsize H. unfold decodeRLE in H.
  destruct (stream_read stream (fRLEBytes c)) as [buffer s1].
  destruct (negb (Z.of_nat (length buffer) <? fRLEBytes c)
            && (Z.of_nat (length buffer) <=? 0)).
  - inversion H; subst. split; [|reflexivity].
    exists []. split; [reflexivity | constructor].
  - assert (Hn : wrap64u (dstRowBytes * wrap64u (height dstInfo))
                 = dstRowBytes * height dstInfo).
    { assert (Hpow : 2 ^ 31 < 2 ^ 64) by reflexivity.
      rewrite (wrap64u_small (height dstInfo)) by lia.
      apply wrap64u_small. nia. }
    rewrite Hn in H.
    destruct (rleLoop c dstInfo dstRowBytes buffer (Z.of_nat (length buffer))
                (S (Z.to_nat (Z.of_nat (length buffer))))
                (mkRle 0 0 0 (memset dst 0 (dstRowBytes * height dstInfo))))
      as [[r1 s2]|] eqn:Hloop; [|discriminate].
    inversion H; subst. clear H.
    assert (Hin : stores_inside 0 (dstRowBytes * height dstInfo)
                    (memset dst 0 (dstRowBytes * height dstInfo)) (rdst s2)).
    { apply (rleLoop_inside c dstInfo dstRowBytes Hw Hh Hrb Hsize buffer
               (Z.of_nat (length buffer))
               (S (Z.to_nat (Z.of_nat (length buffer))))
               (mkRle 0 0 0 (memset dst 0 (dstRowBytes * height dstInfo)))
               r s2); [cbn [rx]; lia | cbn [ry]; lia | exact Hloop]. }
    split.
    + destruct Hin as (new & (Hj & _) & Hall). exists new. split; [|exact Hall].
      rewrite Hj. reflexivity.
    + intros a Ha. rewrite (stores_inside_frame _ _ _ _ a Hin Ha).
      cbn [memset bytes].
      destruct ((0 <=? a) && (a <? dstRowBytes * height dstInfo)) eqn:E;
        [|reflexivity].
      apply andb_true_iff in E. destruct E as [E1 E2].
      apply Z.leb_le in E1. apply Z.ltb_lt in E2. lia.
Qed.

Lemma X7_rle_stays_inside_destination_witness :
  let file := sample_bmp 68 62 4 1 8 1 2 [0; 0; 0; 0; 255; 255; 255; 0;
                                            2; 0; 200; 1; 0; 1] in
  let c := mkBmpCodec (X := ref_externals) (sample_info 4 1 kOpaque_SkAlphaType)
             false 8 kRLE_BitmapInputFormat noMasks
             (Some [0xFF000000; 0xFFFFFFFF]) 2 4 8 kBottomUp_RowOrder 6 false in
  let info := sample_info 4 1 kOpaque_SkAlphaType in
  exists r s' d',
    decodeRLE c (mkStream (sdata file) 62) info sample_dst 16 = Some (r, s', d')
    /\ (exists new,
          journal d' = new ++ journal sample_dst
          /\ Forall (inside 0 (16 * height info)) new)
    /\ forall a, a < 0 \/ 16 * height info <= a -> bytes d' a = bytes sample_dst a.
Proof.
  intros file c info. eexists. eexists. eexists. split; [reflexivity|].
  eapply (X7_rle_stays_inside_destination ref_externals c
            (mkStream (sdata file) 62) info sample_dst 16).
  - simpl. lia.
  - simpl. lia.
  - simpl. lia.
  - simpl. lia.
  - reflexivity.
Defined.

End RleInsideExtras.

(** ** Encoded runs *)

Lemma load32_store32_same (d : Buffer) (p v : Z) :
  load32 (store32 d p v) p = wrap32u v.
Proof.
  rewrite (load32_store32_bytes d p v _ _ _ _ eq_refl) by apply wrap8u_range.
  unfold wrap8u, wrap32u. rewrite !Z.shiftr_div_pow2 by lia.
  change (2 ^ 8) with 256. change (2 ^ 16) with (256 * 256).
  change (2 ^ 24) with (256 * 256 * 256).
  change (2 ^ 32) with (256 * (256 * (256 * 256))).
  rewrite <- !Z.div_div by lia.
  pose proof (Z.div_mod v 256 ltac:(lia)) as E0.
  pose proof (Z.div_mod (v / 256) 256 ltac:(lia)) as E1.
  pose proof (Z.div_mod (v / 256 / 256) 256 ltac:(lia)) as E2.
  pose proof (Z.div_mod (v / 256 / 256 / 256) 256 ltac:(lia)) as E3.
  pose proof (Z.mod_pos_bound v 256 ltac:(lia)) as B0.
  pose proof (Z.mod_pos_bound (v / 256) 256 ltac:(lia)) as B1.
  pose proof (Z.mod_pos_bound (v / 256 / 256) 256 ltac:(lia)) as B2.
  pose proof (Z.mod_pos_bound (v / 256 / 256 / 256) 256 ltac:(lia)) as B3.
  apply Z.mod_unique with (q := v / 256 / 256 / 256 / 256); [left; lia | lia].
Qed.

Section RunFacts.
Import Bmp.
Context {X : Externals}.

Variables (c : SkBmpCodec) (info : SkImageInfo) (rb : Z).
Hypothesis Hn32 : colorType info = kN32_SkColorType.

Lemma setRLEPixel_N32 (d : Buffer) (x y index : Z) :
  0 <= x < 2 ^ 31 ->
  setRLEPixel c d rb info x y index
  = store32 d (rlePixelAddress c info rb x y) (nth (Z.to_nat index) (colorsOf c) 0).
Proof.
  intros Hx. unfold setRLEPixel, rlePixelAddress. rewrite Hn32.
  rewrite (wrap32u_small x) by lia. reflexivity.
Qed.

Lemma setRLE24Pixel_N32 (d : Buffer) (x y r g b : Z) :
  0 <= x < 2 ^ 31 ->
  setRLE24Pixel c d rb info x y r g b
  = store32 d (rlePixelAddress c info rb x y) (SkPackARGB32NoCheck 0xFF r g b).
Proof.
  intros Hx. unfold setRLE24Pixel, rlePixelAddress. rewrite Hn32.
  rewrite (wrap32u_small x) by lia. reflexivity.
Qed.

(** The pixels of an indexed run: pixel [k] of the run takes the second index
    when [which] and the parity of [k] differ. *)
Lemma fillRun_spec (i0 i1 : Z) (y : Z) (n : nat) :
  forall which x d,
    0 <= x -> x + Z.of_nat n < 2 ^ 31 ->
    fst (fillRun c info rb i0 i1 which n x y d) = x + Z.of_nat n
    /\ (forall i, x <= i < x + Z.of_nat n ->
                  load32 (snd (fillRun c info rb i0 i1 which n x y d))
                    (rlePixelAddress c info rb i y)
                  = wrap32u (nth (Z.to_nat (if xorb which (Z.odd (i - x))
                                            then i1 else i0))
                               (colorsOf c) 0))
    /\ (forall q, q + 4 <= rlePixelAddress c info rb x y
                  \/ rlePixelAddress c info rb (x + Z.of_nat n) y <= q ->
                  load32 (snd (fillRun c info rb i0 i1 which n x y d)) q
                  = load32 d q).
Proof.
  induction n as [|n IH]; intros which x d Hx Hfit; cbn [fillRun].
  - cbn [fst snd]. split; [lia|]. split; [intros i Hi; lia | reflexivity].
  - rewrite (wrap32s_small (x + 1)) by lia.
    rewrite setRLEPixel_N32 by lia.
    destruct (IH (negb which) (x + 1)
                (store32 d (rlePixelAddress c info rb x y)
                   (nth (Z.to_nat (if which then i1 else i0)) (colorsOf c) 0))
                ltac:(lia) ltac:(lia)) as (Ex & Hpix & Hframe).
    split; [rewrite Ex; lia|]. split.
    + intros i Hi. destruct (Z.eq_dec i x) as [->|Hne].
      * rewrite Hframe by (unfold rlePixelAddress; lia).
        rewrite load32_store32_same. rewrite Z.sub_diag.
        change (Z.odd 0) with false. rewrite xorb_false_r. reflexivity.
      * rewrite Hpix by lia.
        replace (i - x) with (Z.succ (i - (x + 1))) by lia.
        rewrite Z.odd_succ, <- Z.negb_odd.
        destruct which, (Z.odd (i - (x + 1))); reflexivity.
    + intros q Hq. rewrite Hframe by (unfold rlePixelAddress in *; lia).
      apply load32_store32_out. unfold rlePixelAddress in *. lia.
Qed.

Lemma fillRun24_spec (r g b : Z) (y : Z) (n : nat) :
  forall x d,
    0 <= x -> x + Z.of_nat n < 2 ^ 31 ->
    fst (fillRun24 c info rb r g b n x y d) = x + Z.of_nat n
    /\ (forall i, x <= i < x + Z.of_nat n ->
                  load32 (snd (fillRun24 c info rb r g b n x y d))
                    (rlePixelAddress c info rb i y)
                  = wrap32u (SkPackARGB32NoCheck 0xFF r g b))
    /\ (forall q, q + 4 <= rlePixelAddress c info rb x y
                  \/ rlePixelAddress c info rb (x + Z.of_nat n) y <= q ->
                  load32 (snd (fillRun24 c info rb r g b n x y d)) q
                  = load32 d q).
Proof.
  induction n as [|n IH]; intros x d Hx Hfit; cbn [fillRun24].
  - cbn [fst snd]. split; [lia|]. split; [intros i Hi; lia | reflexivity].
  - rewrite (wrap32s_small (x + 1)) by lia.
    rewrite setRLE24Pixel_N32 by lia.
    destruct (IH (x + 1)
                (store32 d (rlePixelAddress c info rb x y)
                   (SkPackARGB32NoCheck 0xFF r g b))
                ltac:(lia) ltac:(lia)) as (Ex & Hpix & Hframe).
    split; [rewrite Ex; lia|]. split.
    + intros i Hi. destruct (Z.eq_dec i x) as [->|Hne].
      * rewrite Hframe by (unfold rlePixelAddress; lia).
        apply load32_store32_same.
      * apply Hpix. lia.
    + intros q Hq. rewrite Hframe by (unfold rlePixelAddress in *; lia).
      apply load32_store32_out. unfold rlePixelAddress in *. lia.
Qed.

End RunFacts.

Section RunExtras.
Import Bmp.

(** X8.  An encoded run of an indexed RLE image (a count byte that is not 0,
    then a byte of indices), met with the cursor inside the image and an N32
    destination: the loop goes on two bytes further with the cursor on the
    same row at x + count, or at the row's edge when the run is longer than
    what is left of the row; the pixels from x up to there hold the colour of
    the table that the byte selects - at 8 bits the byte itself, at 4 bits its
    high and its low nibble in turn, the high one first - and no other pixel
    of the destination changes. *)
Theorem X8_indexed_run (X : Externals) (c : SkBmpCodec) (dstInfo : SkImageInfo)
    (dstRowBytes : Z) (buffer : list Z) (totalBytes x y curr : Z) (dst : Buffer) :
  colorType dstInfo = kN32_SkColorType ->
  fBitsPerPixel c <> 24 ->
  0 <= x <= width dstInfo ->
  width dstInfo < 2 ^ 31 - 255 ->
  y < height dstInfo ->
  0 <= curr ->
  curr + 2 <= totalBytes ->
  totalBytes < 2 ^ 32 ->
  get_byte buffer curr <> 0 ->
  let count := get_byte buffer curr in
  let task := get_byte buffer (curr + 1) in
  let endX := Z.min (x + count) (width dstInfo) in
  exists d',
    rleStep c dstInfo dstRowBytes buffer totalBytes (mkRle x y curr dst)
    = Continue (mkRle endX y (curr + 2) d')
    /\ (forall i, x <= i < endX ->
                  load32 d' (rlePixelAddress c dstInfo dstRowBytes i y)
                  = wrap32u (nth (Z.to_nat (runIndex c task (i - x)))
                               (colorsOf c) 0))
    /\ (forall q, q + 4 <= rlePixelAddress c dstInfo dstRowBytes x y
                  \/ rlePixelAddress c dstInfo dstRowBytes endX y <= q ->
                  load32 d' q = load32 dst q).
Proof.
  intros Hn32 Hbpp Hx Hw Hy Hc Hfit Htot Hflag count task endX.
  pose proof (get_byte_range buffer curr) as Rflag.
  unfold rleStep. cbn [rx ry currByte rdst].
  rewrite (wrap32u_small (totalBytes - curr)) by lia.
  rewrite (ltb_false (totalBytes - curr) 2) by lia.
  rewrite (wrap32u_small (curr + 1)) by lia.
  rewrite (wrap32u_small (curr + 2)) by lia.
  rewrite (geb_false y (height dstInfo)) by lia. cbn [andb].
  change RLE_ESCAPE with 0.
  rewrite (eqb_false 0 (get_byte buffer curr)) by lia.
  rewrite (eqb_false 24 (fBitsPerPixel c)) by lia.
  rewrite (wrap32s_small (x + get_byte buffer curr)) by lia.
  fold count task endX.
  set (i0 := if 4 =? fBitsPerPixel c then Z.shiftr task 4 else task).
  set (i1 := if 4 =? fBitsPerPixel c then Z.land task 15 else task).
  assert (Hend : x + Z.of_nat (Z.to_nat (endX - x)) = endX) by (unfold endX; lia).
  destruct (fillRun_spec c dstInfo dstRowBytes Hn32 i0 i1 y (Z.to_nat (endX - x))
              false x dst ltac:(lia) ltac:(lia)) as (Ex & Hpix & Hframe).
  rewrite Hend in Ex, Hpix, Hframe.
  destruct (fillRun c dstInfo dstRowBytes i0 i1 false (Z.to_nat (endX - x)) x y dst)
    as [x1 d1].
  cbn [fst snd] in Ex, Hpix, Hframe. subst x1.
  exists d1. split; [reflexivity|]. split; [|exact Hframe].
  intros i Hi. rewrite (Hpix i Hi). f_equal. f_equal. f_equal.
  unfold runIndex, i0, i1. rewrite (Z.eqb_sym 4). cbn [xorb].
  rewrite <- Z.negb_even.
  destruct (fBitsPerPixel c =? 4), (Z.even (i - x)); reflexivity.
Qed.

Lemma X8_indexed_run_witness :
  let c := mkBmpCodec (X := ref_externals) (sample_info 4 2 kOpaque_SkAlphaType)
             false 4 kRLE_BitmapInputFormat noMasks
             (Some [0xFF000000; 0xFFFFFFFF; 0xFFFF0000]) 3 4 0
             kBottomUp_RowOrder 4 false in
  let info := sample_info 4 2 kOpaque_SkAlphaType in
  let buffer := [6; 0x12; 0; 1] in
  exists d',
    rleStep c info 16 buffer 4 (mkRle 1 0 0 sample_dst)
    = Continue (mkRle (Z.min (1 + 6) (width info)) 0 (0 + 2) d')
    /\ (forall i, 1 <= i < Z.min (1 + 6) (width info) ->
                  load32 d' (rlePixelAddress c info 16 i 0)
                  = wrap32u (nth (Z.to_nat (runIndex c 0x12 (i - 1)))
                               (colorsOf c) 0))
    /\ (forall q, q + 4 <= rlePixelAddress c info 16 1 0
                  \/ rlePixelAddress c info 16 (Z.min (1 + 6) (width info)) 0 <= q ->
                  load32 d' q = load32 sample_dst q).
Proof.
  intros c info buffer.
  apply (X8_indexed_run ref_externals c info 16 buffer 4 1 0 0 sample_dst).
  - reflexivity.
  - simpl. lia.
  - simpl. lia.
  - simpl. lia.
  - simpl. lia.
  - lia.
  - lia.
  - lia.
  - vm_compute. discriminate.
Defined.

(** X9.  An encoded run of a 24-bit RLE image (a count byte that is not 0,
    then blue, green and red), met with the cursor inside the image and an
    N32 destination: the loop goes on four bytes further with the cursor on
    the same row at x + count, or at the row's edge when the run is longer;
    the pixels from x up to there hold the colour packed with alpha 0xFF, and
    no other pixel of the destination changes. *)
Theorem X9_rle24_run (X : Externals) (c : SkBmpCodec) (dstInfo : SkImageInfo)
    (dstRowBytes : Z) (buffer : list Z) (totalBytes x y curr : Z) (dst : Buffer) :
  colorType dstInfo = kN32_SkColorType ->
  fBitsPerPixel c = 24 ->
  0 <= x <= width dstInfo ->
  width dstInfo < 2 ^ 31 - 255 ->
  y < height dstInfo ->
  0 <= curr ->
  curr + 4 <= totalBytes ->
  totalBytes < 2 ^ 32 ->
  get_byte buffer curr <> 0 ->
  let count := get_byte buffer curr in
  let blue := get_byte buffer (curr + 1) in
  let green := get_byte buffer (curr + 2) in
  let red := get_byte buffer (curr + 3) in
  let endX := Z.min (x + count) (width dstInfo) in
  exists d',
    rleStep c dstInfo dstRowBytes buffer totalBytes (mkRle x y curr dst)
    = Continue (mkRle endX y (curr + 4) d')
    /\ (forall i, x <= i < endX ->
                  load32 d' (rlePixelAddress c dstInfo dstRowBytes i y)
                  = wrap32u (SkPackARGB32NoCheck 0xFF red green blue))
    /\ (forall q, q + 4 <= rlePixelAddress c dstInfo dstRowBytes x y
                  \/ rlePixelAddress c dstInfo dstRowBytes endX y <= q ->
                  load32 d' q = load32 dst q).
Proof.
  intros Hn32 Hbpp Hx Hw Hy Hc Hfit Htot Hflag count blue green red endX.
  pose proof (get_byte_range buffer curr) as Rflag.
  unfold rleStep. cbn [rx ry currByte rdst].
  rewrite (wrap32u_small (totalBytes - curr)) by lia.
  rewrite (ltb_false (totalBytes - curr) 2) by lia.
  rewrite (wrap32u_small (curr + 1)) by lia.
  rewrite (wrap32u_small (curr + 2)) by lia.
  rewrite (wrap32u_small (curr + 2 + 1)) by lia.
  rewrite (wrap32u_small (curr + 2 + 2)) by lia.
  rewrite (geb_false y (height dstInfo)) by lia. cbn [andb].
  change RLE_ESCAPE with 0.
  rewrite (eqb_false 0 (get_byte buffer curr)) by lia.
  rewrite Hbpp. change (24 =? 24) with true. cbn iota.
  rewrite (wrap32u_small (totalBytes - (curr + 2))) by lia.
  rewrite (ltb_false (totalBytes - (curr + 2)) 2) by lia.
  rewrite (wrap32s_small (x + get_byte buffer curr)) by lia.
  replace (curr + 2 + 1) with (curr + 3) by lia.
  replace (curr + 2 + 2) with (curr + 4) by lia.
  fold count blue green red endX.
  assert (Hend : x + Z.of_nat (Z.to_nat (endX - x)) = endX) by (unfold endX; lia).
  destruct (fillRun24_spec c dstInfo dstRowBytes Hn32 red green blue y
              (Z.to_nat (endX - x)) x dst ltac:(lia) ltac:(lia))
    as (Ex & Hpix & Hframe).
  rewrite Hend in Ex, Hpix, Hframe.
  destruct (fillRun24 c dstInfo dstRowBytes red green blue (Z.to_nat (endX - x))
              x y dst) as [x1 d1].
  cbn [fst snd] in Ex, Hpix, Hframe. subst x1.
  exists d1. split; [reflexivity|]. split; assumption.
Qed.

Lemma X9_rle24_run_witness :
  let c := mkBmpCodec (X := ref_externals) (sample_info 3 1 kOpaque_SkAlphaType)
             false 24 kRLE_BitmapInputFormat noMasks (Some []) 0 4 0
             kBottomUp_RowOrder 6 false in
  let info := sample_info 3 1 kOpaque_SkAlphaType in
  let buffer := [3; 1; 2; 3; 0; 1] in
  exists d',
    rleStep c info 12 buffer 6 (mkRle 0 0 0 sample_dst)
    = Continue (mkRle (Z.min (0 + 3) (width info)) 0 (0 + 4) d')
    /\ (forall i, 0 <= i < Z.min (0 + 3) (width info) ->
                  load32 d' (rlePixelAddress c info 12 i 0)
                  = wrap32u (SkPackARGB32NoCheck (Externals := ref_externals)
                               0xFF 3 2 1))
    /\ (forall q, q + 4 <= rlePixelAddress c info 12 0 0
                  \/ rlePixelAddress c info 12 (Z.min (0 + 3) (width info)) 0 <= q ->
                  load32 d' q = load32 sample_dst q).
Proof.
  intros c info buffer.
  apply (X9_rle24_run ref_externals c info 12 buffer 6 0 0 0 sample_dst).
  - reflexivity.
  - reflexivity.
  - simpl. lia.
  - simpl. lia.
  - simpl. lia.
  - lia.
  - lia.
  - lia.
  - vm_compute. discriminate.
Defined.

End RunExtras.

(** ** The standard and the bit-mask engine read every row *)

(** A read of [n] bytes delivers them all exactly when that many are left. *)
Lemma stream_read_available (s s2 : SkStream) (n : Z) (src : list Z) :
  stream_read s n = (src, s2) ->
  0 <= n ->
  (n <= available s ->
   Z.of_nat (length src) = n /\ available s2 = available s - n
   /\ sdata s2 = sdata s /\ Z.of_nat (spos s2) = Z.of_nat (spos s) + n)
  /\ (available s < n -> Z.of_nat (length src) <> n).
Proof.
  unfold stream_read, available, pending. intros H Hn.
  inversion H as [[H1 H2]]. clear H. cbn [sdata spos].
  rewrite !length_skipn, !length_firstn, !length_skipn. split.
  - intros Hfit. repeat split; lia.
  - intros Hshort. lia.
Qed.

Section RowFacts.
Import Bmp.
Context {X : Externals}.

Lemma row_bytes_nonneg (w bpp : Z) :
  0 <= w -> 0 <= bpp -> 0 <= SkAlign4 (compute_row_bytes w bpp).
Proof.
  intros Hw Hb.
  assert (H : 0 <= compute_row_bytes w bpp).
  { unfold compute_row_bytes. apply Z.div_pos; nia. }
  pose proof (SkAlign4_ge _ H). lia.
Qed.

Lemma standardConfig_depth (c : SkBmpCodec) (info : SkImageInfo) (config : SrcConfig) :
  standardConfig c info = Some config -> In (fBitsPerPixel c) [1; 2; 4; 8; 24; 32].
Proof.
  unfold standardConfig. intros H.
  repeat match type of H with
         | (if ?x =? ?v then _ else _) = _ =>
             destruct (x =? v) eqn:E;
               [apply Z.eqb_eq in E; rewrite E; simpl; tauto | clear E]
         end.
  discriminate.
Qed.

(** The colour rows: all of them are read when the stream holds them, and the
    pass stops with the input incomplete when it does not. *)
Lemma decodeRows_available (c : SkBmpCodec) (info : SkImageInfo) (rowBytes : Z)
    (n : nat) :
  0 <= rowBytes ->
  forall sw y stream dst,
    swDstRow sw <> None ->
    (Z.of_nat n * rowBytes <= available stream ->
     exists s' d',
       decodeRows c info (Some sw) rowBytes n y stream dst = Some (inr (s', d'))
       /\ available s' = available stream - Z.of_nat n * rowBytes
       /\ sdata s' = sdata stream
       /\ Z.of_nat (spos s') = Z.of_nat (spos stream) + Z.of_nat n * rowBytes)
    /\ (available stream < Z.of_nat n * rowBytes ->
        exists s' d',
          decodeRows c info (Some sw) rowBytes n y stream dst
          = Some (inl (kIncompleteInput, s', d'))).
Proof.
  intros Hrb. induction n as [|n IH]; intros sw y stream dst Hsw.
  - cbn [decodeRows]. split.
    + intros _. exists stream, dst. repeat split; lia.
    + intros H. pose proof (Nat2Z.is_nonneg (length (pending stream))).
      unfold available in H. lia.
  - cbn [decodeRows].
    destruct (stream_read stream rowBytes) as [src s2] eqn:Hread.
    destruct (stream_read_available _ _ _ _ Hread Hrb) as (Hfull & Hshort).
    destruct (Z_le_gt_dec rowBytes (available stream)) as [Hle|Hgt].
    + destruct (Hfull Hle) as (Hlen & Hav & Hd & Hp).
      rewrite Hlen, Z.eqb_refl. cbn [negb obind].
      unfold swizzler_next_row.
      destruct (swDstRow sw) as [base|] eqn:Hbase; [|congruence].
      cbn [obind].
      match goal with |- context [swizzle_row ?a1 ?a2 ?a3 ?a4 ?a5 ?a6 ?a7] =>
        destruct (swizzle_row a1 a2 a3 a4 a5 a6 a7) as [r d2]
      end.
      cbn [obind].
      match goal with |- context [decodeRows c info (Some ?sw1) rowBytes n ?y1 s2 d2] =>
        destruct (IH sw1 y1 s2 d2) as (IHfull & IHshort);
          [cbn [swDstRow]; discriminate|]
      end.
      split.
      * intros Hfit.
        destruct IHfull as (s' & d' & E & Hav' & Hd' & Hp'); [nia|].
        exists s', d'. rewrite E. repeat split; try congruence; nia.
      * intros Hfew.
        destruct IHshort as (s' & d' & E); [nia|].
        exists s', d'. exact E.
    + assert (Hne : (Z.of_nat (length src) =? rowBytes) = false).
      { apply Z.eqb_neq. apply Hshort. lia. }
      rewrite Hne. cbn [negb]. split.
      * intros Hfit. nia.
      * intros _. eauto.
Qed.

(** The rows of the AND mask, likewise. *)
Lemma applyAndMask_available (c : SkBmpCodec) (info : SkImageInfo)
    (rb rowBytes : Z) (n : nat) :
  0 <= rowBytes ->
  forall y stream dst,
    (Z.of_nat n * rowBytes <= available stream ->
     exists s' d',
       applyAndMask c info rb rowBytes n y stream dst = (kSuccess, s', d')
       /\ sdata s' = sdata stream
       /\ Z.of_nat (spos s') = Z.of_nat (spos stream) + Z.of_nat n * rowBytes)
    /\ (available stream < Z.of_nat n * rowBytes ->
        exists s' d',
          applyAndMask c info rb rowBytes n y stream dst
          = (kIncompleteInput, s', d')).
Proof.
  intros Hrb. induction n as [|n IH]; intros y stream dst.
  - cbn [applyAndMask]. split.
    + intros _. exists stream, dst. repeat split; lia.
    + intros H. pose proof (Nat2Z.is_nonneg (length (pending stream))).
      unfold available in H. lia.
  - cbn [applyAndMask].
    destruct (stream_read stream rowBytes) as [src s2] eqn:Hread.
    destruct (stream_read_available _ _ _ _ Hread Hrb) as (Hfull & Hshort).
    destruct (Z_le_gt_dec rowBytes (available stream)) as [Hle|Hgt].
    + destruct (Hfull Hle) as (Hlen & Hav & Hd & Hp).
      rewrite Hlen, Z.eqb_refl. cbn [negb].
      match goal with |- context [applyAndMask c info rb rowBytes n ?y1 s2 ?d2] =>
        destruct (IH y1 s2 d2) as (IHfull & IHshort)
      end.
      split.
      * intros Hfit.
        destruct IHfull as (s' & d' & E & Hd' & Hp'); [nia|].
        exists s', d'. rewrite E. repeat split; try congruence; nia.
      * intros Hfew.
        destruct IHshort as (s' & d' & E); [nia|].
        exists s', d'. exact E.
    + assert (Hne : (Z.of_nat (length src) =? rowBytes) = false).
      { apply Z.eqb_neq. apply Hshort. lia. }
      rewrite Hne. cbn [negb]. split.
      * intros Hfit. nia.
      * intros _. eauto.
Qed.

(** The first pass of the bit-mask engine, likewise. *)
Lemma decodeMaskRows_available (c : SkBmpCodec) (info : SkImageInfo)
    (rb rowBytes : Z) (n : nat) :
  0 <= rowBytes ->
  CreateMaskSwizzler_ok info rb (fMasks c) (fBitsPerPixel c) = true ->
  forall y t buf stream dst,
    (Z.of_nat n * rowBytes <= available stream ->
     exists t' buf' s' d',
       decodeMaskRows c info rb rowBytes n y t buf stream dst
       = Some (inr (t', buf', s', d'))
       /\ sdata s' = sdata stream
       /\ Z.of_nat (spos s') = Z.of_nat (spos stream) + Z.of_nat n * rowBytes)
    /\ (available stream < Z.of_nat n * rowBytes ->
        exists s' d',
          decodeMaskRows c info rb rowBytes n y t buf stream dst
          = Some (inl (kIncompleteInput, s', d'))).
Proof.
  intros Hrb Hok. induction n as [|n IH]; intros y t buf stream dst.
  - cbn [decodeMaskRows]. split.
    + intros _. exists t, buf, stream, dst. repeat split; lia.
    + intros H. pose proof (Nat2Z.is_nonneg (length (pending stream))).
      unfold available in H. lia.
  - cbn [decodeMaskRows].
    destruct (stream_read stream rowBytes) as [src s2] eqn:Hread.
    destruct (stream_read_available _ _ _ _ Hread Hrb) as (Hfull & Hshort).
    destruct (Z_le_gt_dec rowBytes (available stream)) as [Hle|Hgt].
    + destruct (Hfull Hle) as (Hlen & Hav & Hd & Hp).
      rewrite Hlen, Z.eqb_refl, Hok. cbn [negb].
      match goal with |- context [maskSwizzler_next ?a1 ?a2 ?a3 ?a4 ?a5 ?a6 ?a7] =>
        destruct (maskSwizzler_next a1 a2 a3 a4 a5 a6 a7) as [r d2]
      end.
      match goal with
      | |- context [decodeMaskRows c info rb rowBytes n ?y1 ?t1 ?b1 s2 d2] =>
          destruct (IH y1 t1 b1 s2 d2) as (IHfull & IHshort)
      end.
      split.
      * intros Hfit.
        destruct IHfull as (t' & buf' & s' & d' & E & Hd' & Hp'); [nia|].
        exists t', buf', s', d'. rewrite E. repeat split; try congruence; nia.
      * intros Hfew.
        destruct IHshort as (s' & d' & E); [nia|].
        exists s', d'. exact E.
    + assert (Hne : (Z.of_nat (length src) =? rowBytes) = false).
      { apply Z.eqb_neq. apply Hshort. lia. }
      rewrite Hne. cbn [negb]. split.
      * intros Hfit. nia.
      * intros _. eauto.
Qed.

(** With a mask swizzler at hand the second pass runs to its end. *)
Lemma opaqueMaskRows_runs (c : SkBmpCodec) (info : SkImageInfo) (rb : Z)
    (rows : list (list Z)) :
  CreateMaskSwizzler_ok info rb (fMasks c) (fBitsPerPixel c) = true ->
  forall y d, exists d', opaqueMaskRows c info rb rows y d = Some d'.
Proof.
  intros Hok. induction rows as [|row rows IH]; intros y d.
  - cbn [opaqueMaskRows]. eauto.
  - cbn [opaqueMaskRows]. rewrite Hok. cbn [negb].
    match goal with |- context [maskSwizzler_next ?a1 ?a2 ?a3 ?a4 ?a5 ?a6 ?a7] =>
      destruct (maskSwizzler_next a1 a2 a3 a4 a5 a6 a7) as [r d2]
    end.
    apply IH.
Qed.

End RowFacts.

Section RowExtras.
Import Bmp.

(** X10.  The standard engine, for a depth it supports, a swizzler that could
    be created and an image of non-negative dimensions, returns Success when
    the stream still holds every row - height rows of the width's bits
    rounded up to whole bytes and then to a multiple of four, and for a BMP
    embedded in an ICO as many rows again of the one-bit AND mask - and
    IncompleteInput when it holds fewer bytes; it returns nothing else.  On
    success the stream has moved by exactly that many bytes. *)
Theorem X10_standard_engine_reads_every_row (X : Externals) (c : SkBmpCodec)
    (stream : SkStream) (dstInfo : SkImageInfo) (dst : Buffer)
    (dstRowBytes : Z) (config : SrcConfig) :
  standardConfig c dstInfo = Some config ->
  CreateSwizzler_ok config (Some (colorsOf c)) dstInfo dstRowBytes
    kNo_ZeroInitialized = true ->
  0 <= width dstInfo ->
  0 <= height dstInfo ->
  let rowBytes := SkAlign4 (compute_row_bytes (width dstInfo) (fBitsPerPixel c)) in
  let maskRowBytes := SkAlign4 (compute_row_bytes (width dstInfo) 1) in
  let needed :=
    height dstInfo * rowBytes
    + (if fIsIco c then height dstInfo * maskRowBytes else 0) in
  exists s' d',
    decode c stream dstInfo dst dstRowBytes
    = Some (if needed <=? available stream then kSuccess else kIncompleteInput,
            s', d')
    /\ (needed <= available stream ->
        sdata s' = sdata stream
        /\ Z.of_nat (spos s') = Z.of_nat (spos stream) + needed).
Proof.
  intros Hcfg Hok Hw Hh rowBytes maskRowBytes needed.
  pose proof (standardConfig_depth _ _ _ Hcfg) as Hbpp.
  assert (Hrb : 0 <= rowBytes).
  { apply row_bytes_nonneg; [exact Hw|]. simpl in Hbpp. lia. }
  assert (Hmrb : 0 <= maskRowBytes) by (apply row_bytes_nonneg; lia).
  unfold decode. rewrite Hcfg. unfold CreateSwizzler. rewrite Hok.
  fold rowBytes maskRowBytes.
  destruct (decodeRows_available c dstInfo rowBytes (Z.to_nat (height dstInfo)) Hrb
              (mkSwizzler config (Some (colorsOf c)) dstInfo dstRowBytes
                 kNo_ZeroInitialized (Some 0) [])
              0 stream dst ltac:(cbn [swDstRow]; discriminate))
    as (Hfull & Hshort).
  rewrite Z2Nat.id in Hfull, Hshort by exact Hh.
  destruct (Z_le_gt_dec (height dstInfo * rowBytes) (available stream)) as [Hle|Hgt].
  - destruct (Hfull Hle) as (s1 & d1 & E & Hav & Hd & Hp). rewrite E.
    cbn [obind]. unfold needed.
    destruct (fIsIco c).
    + destruct (applyAndMask_available c dstInfo dstRowBytes maskRowBytes
                  (Z.to_nat (height dstInfo)) Hmrb 0 s1 d1) as (Mfull & Mshort).
      rewrite Z2Nat.id in Mfull, Mshort by exact Hh.
      destruct (Z_le_gt_dec (height dstInfo * maskRowBytes) (available s1))
        as [Mle|Mgt].
      * destruct (Mfull Mle) as (s2 & d2 & E2 & Hd2 & Hp2). rewrite E2.
        exists s2, d2.
        replace (height dstInfo * rowBytes + height dstInfo * maskRowBytes
                 <=? available stream) with true
          by (symmetry; apply Z.leb_le; lia).
        split; [reflexivity|]. intros _. split; [congruence|lia].
      * destruct (Mshort ltac:(lia)) as (s2 & d2 & E2). rewrite E2.
        exists s2, d2.
        replace (height dstInfo * rowBytes + height dstInfo * maskRowBytes
                 <=? available stream) with false
          by (symmetry; apply Z.leb_gt; lia).
        split; [reflexivity|]. intros Hneed. lia.
    + exists s1, d1. rewrite Z.add_0_r.
      replace (height dstInfo * rowBytes <=? available stream) with true
        by (symmetry; apply Z.leb_le; lia).
      split; [reflexivity|]. intros _. split; [exact Hd|lia].
  - destruct (Hshort ltac:(lia)) as (s1 & d1 & E). rewrite E. cbn [obind].
    exists s1, d1.
    assert (Hmore : 0 <= (if fIsIco c then height dstInfo * maskRowBytes else 0)).
    { destruct (fIsIco c); nia. }
    replace (needed <=? available stream) with false
      by (symmetry; apply Z.leb_gt; unfold needed; lia).
    split; [reflexivity|]. intros Hneed. unfold needed in Hneed. lia.
Qed.

Lemma X10_standard_engine_reads_every_row_witness :
  let c := mkBmpCodec (X := ref_externals) (sample_info 1 2 kOpaque_SkAlphaType)
             false 24 kStandard_BitmapInputFormat noMasks (Some []) 0 4 0
             kBottomUp_RowOrder 0 false in
  let info := sample_info 1 2 kOpaque_SkAlphaType in
  let stream := mkStream [1; 2; 3; 0; 4; 5] 0 in
  let rowBytes := SkAlign4 (compute_row_bytes (width info) (fBitsPerPixel c)) in
  let maskRowBytes := SkAlign4 (compute_row_bytes (width info) 1) in
  let needed :=
    height info * rowBytes + (if fIsIco c then height info * maskRowBytes else 0) in
  exists s' d',
    decode c stream info sample_dst 4
    = Some (if needed <=? available stream then kSuccess else kIncompleteInput,
            s', d')
    /\ (needed <= available stream ->
        sdata s' = sdata stream
        /\ Z.of_nat (spos s') = Z.of_nat (spos stream) + needed).
Proof.
  intros c info stream.
  apply (X10_standard_engine_reads_every_row ref_externals c stream info
           sample_dst 4 kBGR).
  - reflexivity.
  - reflexivity.
  - simpl. lia.
  - simpl. lia.
Defined.

(** X11.  The bit-mask engine, with its mask swizzlers at hand and an image
    of non-negative dimensions and depth, returns Success when the stream
    still holds height rows of the width's bits rounded up to whole bytes and
    then to a multiple of four, and IncompleteInput when it holds fewer
    bytes; on success the stream has moved by exactly that many bytes. *)
Theorem X11_mask_engine_reads_every_row (X : Externals) (c : SkBmpCodec)
    (stream : SkStream) (dstInfo : SkImageInfo) (dst : Buffer)
    (dstRowBytes : Z) :
  CreateMaskSwizzler_ok dstInfo dstRowBytes (fMasks c) (fBitsPerPixel c) = true ->
  CreateMaskSwizzler_ok (makeAlphaType dstInfo kOpaque_SkAlphaType) dstRowBytes
    (fMasks c) (fBitsPerPixel c) = true ->
  0 <= width dstInfo ->
  0 <= height dstInfo ->
  0 <= fBitsPerPixel c ->
  let rowBytes := SkAlign4 (compute_row_bytes (width dstInfo) (fBitsPerPixel c)) in
  exists s' d',
    decodeMask c stream dstInfo dst dstRowBytes
    = Some (if height dstInfo * rowBytes <=? available stream
            then kSuccess else kIncompleteInput, s', d')
    /\ (height dstInfo * rowBytes <= available stream ->
        sdata s' = sdata stream
        /\ Z.of_nat (spos s')
           = Z.of_nat (spos stream) + height dstInfo * rowBytes).
Proof.
  intros Hok Hok2 Hw Hh Hbpp rowBytes.
  assert (Hrb : 0 <= rowBytes) by (apply row_bytes_nonneg; assumption).
  unfold decodeMask. fold rowBytes.
  destruct (decodeMaskRows_available c dstInfo dstRowBytes rowBytes
              (Z.to_nat (height dstInfo)) Hrb Hok 0 true [] stream dst)
    as (Hfull & Hshort).
  rewrite Z2Nat.id in Hfull, Hshort by exact Hh.
  destruct (Z_le_gt_dec (height dstInfo * rowBytes) (available stream)) as [Hle|Hgt].
  - destruct (Hfull Hle) as (t1 & buf1 & s1 & d1 & E & Hd & Hp). rewrite E.
    cbn [obind].
    replace (height dstInfo * rowBytes <=? available stream) with true
      by (symmetry; apply Z.leb_le; lia).
    destruct t1.
    + destruct (opaqueMaskRows_runs c (makeAlphaType dstInfo kOpaque_SkAlphaType)
                  dstRowBytes buf1 Hok2 0 d1) as (d2 & E2).
      rewrite E2. cbn [obind]. exists s1, d2.
      split; [reflexivity|]. intros _. split; [exact Hd|lia].
    + exists s1, d1. split; [reflexivity|]. intros _. split; [exact Hd|lia].
  - destruct (Hshort ltac:(lia)) as (s1 & d1 & E). rewrite E. cbn [obind].
    replace (height dstInfo * rowBytes <=? available stream) with false
      by (symmetry; apply Z.leb_gt; lia).
    exists s1, d1. split; [reflexivity|]. intros Hneed. lia.
Qed.

Lemma X11_mask_engine_reads_every_row_witness :
  let c := mkBmpCodec (X := ref_externals) (sample_info 1 2 kUnpremul_SkAlphaType)
             false 32 kBitMask_BitmapInputFormat
             (mkInputMasks 0xFF0000 0xFF00 0xFF 0xFF000000) (Some []) 0 4 0
             kBottomUp_RowOrder 0 false in
  let info := sample_info 1 2 kUnpremul_SkAlphaType in
  let stream := mkStream [1; 2; 3; 255; 4; 5; 6; 255] 0 in
  let rowBytes := SkAlign4 (compute_row_bytes (width info) (fBitsPerPixel c)) in
  exists s' d',
    decodeMask c stream info sample_dst 4
    = Some (if height info * rowBytes <=? available stream
            then kSuccess else kIncompleteInput, s', d')
    /\ (height info * rowBytes <= available stream ->
        sdata s' = sdata stream
        /\ Z.of_nat (spos s') = Z.of_nat (spos stream) + height info * rowBytes).
Proof.
  intros c info stream.
  apply (X11_mask_engine_reads_every_row ref_externals c stream info sample_dst 4).
  - reflexivity.
  - reflexivity.
  - simpl. lia.
  - simpl. lia.
  - simpl. lia.
Defined.

End RowExtras.

(** ** The palette of a PNG *)

Lemma last_as_nth {A : Type} (l : list A) (d : A) :
  last l d = nth (length l - 1) l d.
Proof.
  induction l as [|a l IH]; [reflexivity|].
  destruct l as [|b l]; [reflexivity|].
  change (last (a :: b :: l) d) with (last (b :: l) d). rewrite IH.
  cbn [length]. replace (S (S (length l)) - 1)%nat with (S (length l - 0)) by lia.
  cbn [nth]. replace (S (length l) - 1)%nat with (length l - 0)%nat by lia.
  reflexivity.
Qed.

Lemma nth_map_inside {A B : Type} (f : A -> B) (l : list A) (i : nat) (d : B)
    (d' : A) :
  (i < length l)%nat -> nth i (map f l) d = f (nth i l d').
Proof.
  intros H. rewrite (nth_indep _ d (f d')) by (rewrite length_map; exact H).
  apply map_nth.
Qed.

Section PaletteExtras.
Import Png.

(** X12.  For a PNG with a palette, the palette pass succeeds and makes a
    colour table of one entry for each palette entry and, when the palette has
    fewer than 256 entries, one more that repeats the last, so that an index
    equal to the number of colours still finds a colour.  A transparency chunk
    longer than the palette does not lengthen the table, and every palette
    entry past the transparency entries is packed with alpha 0xFF. *)
Theorem X12_palette_table (X : Externals) (c : SkPngCodec) (premultiply : bool)
    (palette : list (Z * Z * Z)) :
  png_get_PLTE (fPng_ptr c) = Some palette ->
  let trans :=
    if png_valid_tRNS (fPng_ptr c) then png_get_tRNS (fPng_ptr c) else [] in
  exists t,
    decodePalette c premultiply
    = (true,
       setColorTable
         (setReallyHasAlpha c
            (existsb (fun a => wrap8u a <? 0xFF) (firstn (length palette) trans)))
         (Some t))
    /\ length t = (length palette + (if length palette <? 256 then 1 else 0))%nat
    /\ ((0 < length palette < 256)%nat ->
        nth (length palette) t 0 = nth (length palette - 1) t 0)
    /\ (forall i, (length trans <= i < length palette)%nat ->
                  nth i t 0
                  = let '(r, g, b) := nth i palette (0, 0, 0) in
                    SkPackARGB32 0xFF r g b).
Proof.
  intros Hplte trans. unfold decodePalette. rewrite Hplte. fold trans.
  set (k := Z.to_nat (if Z.of_nat (length trans) >? Z.of_nat (length palette)
                      then Z.of_nat (length palette)
                      else Z.of_nat (length trans))).
  assert (Hflag : (transLessThanFF (firstn k trans) <? 0)
                  = existsb (fun a => wrap8u a <? 0xFF)
                      (firstn (length palette) trans)).
  { unfold k. rewrite transLessThanFF_negative, firstn_numTrans. reflexivity. }
  rewrite Hflag.
  assert (Hk : k = Nat.min (length trans) (length palette)).
  { unfold k. destruct (Z.of_nat (length trans) >? Z.of_nat (length palette)) eqn:E.
    - rewrite Z.gtb_ltb in E. apply Z.ltb_lt in E. lia.
    - rewrite Z.gtb_ltb in E. apply Z.ltb_ge in E. lia. }
  set (proc := if premultiply then SkPreMultiplyARGB else SkPackARGB32NoCheck).
  set (withTrans :=
         map (fun tp : Z * (Z * Z * Z) =>
                let '(t, (r, g, b)) := tp in proc (wrap8u t) r g b)
           (combine (firstn k trans) (firstn k palette))).
  set (opaque :=
         map (fun p : Z * Z * Z => let '(r, g, b) := p in SkPackARGB32 0xFF r g b)
           (skipn k palette)).
  assert (Hlw : length withTrans = k).
  { unfold withTrans. rewrite length_map, length_combine, !length_firstn. lia. }
  assert (Hlo : length opaque = (length palette - k)%nat).
  { unfold opaque. rewrite length_map, length_skipn. reflexivity. }
  assert (Hlc : length (withTrans ++ opaque) = length palette).
  { rewrite length_app, Hlw, Hlo. lia. }
  assert (Hop : forall i, (length trans <= i < length palette)%nat ->
                          nth i (withTrans ++ opaque) 0
                          = let '(r, g, b) := nth i palette (0, 0, 0) in
                            SkPackARGB32 0xFF r g b).
  { intros i Hi. rewrite app_nth2 by lia. rewrite Hlw. unfold opaque.
    rewrite (nth_map_inside _ _ _ _ (0, 0, 0)) by (rewrite length_skipn; lia).
    rewrite nth_skipn. replace (k + (i - k))%nat with i by lia. reflexivity. }
  destruct (Z.of_nat (length palette) <? 256) eqn:E256.
  - apply Z.ltb_lt in E256.
    assert (E256' : (length palette <? 256)%nat = true) by (apply Nat.ltb_lt; lia).
    rewrite E256'.
    replace (Z.to_nat (Z.of_nat (length palette) + 1)) with (S (length palette))
      by lia.
    rewrite (@firstn_all2 _ _ ((withTrans ++ opaque) ++ [last (withTrans ++ opaque) 0]))
      by (rewrite length_app, Hlc; cbn [length]; lia).
    eexists. split; [reflexivity|]. split; [|split].
    + rewrite length_app, Hlc. reflexivity.
    + intros Hn. rewrite app_nth2 by lia. rewrite Hlc, Nat.sub_diag. cbn [nth].
      rewrite app_nth1 by lia. rewrite last_as_nth, Hlc. reflexivity.
    + intros i Hi. rewrite app_nth1 by lia. apply Hop. exact Hi.
  - apply Z.ltb_ge in E256.
    assert (E256' : (length palette <? 256)%nat = false) by (apply Nat.ltb_ge; lia).
    rewrite E256'.
    rewrite Z.add_0_r, Nat2Z.id.
    rewrite (@firstn_all2 _ _ (withTrans ++ opaque)) by lia.
    eexists. split; [reflexivity|]. split; [|split].
    + rewrite Hlc. lia.
    + intros Hn. lia.
    + exact Hop.
Qed.

Lemma X12_palette_table_witness :
  let c := sample_png (sample_info 2 2 kUnpremul_SkAlphaType) sample_png_white in
  let palette := [(0, 0, 0); (255, 255, 255)] in
  let trans := [0] in
  exists t,
    decodePalette c false
    = (true,
       setColorTable
         (setReallyHasAlpha c
            (existsb (fun a => wrap8u a <? 0xFF) (firstn (length palette) trans)))
         (Some t))
    /\ length t = (length palette + (if length palette <? 256 then 1 else 0))%nat
    /\ ((0 < length palette < 256)%nat ->
        nth (length palette) t 0 = nth (length palette - 1) t 0)
    /\ (forall i, (length trans <= i < length palette)%nat ->
                  nth i t 0
                  = let '(r, g, b) := nth i palette (0, 0, 0) in
                    SkPackARGB32 (Externals := ref_externals) 0xFF r g b).
Proof.
  intros c palette trans.
  apply (X12_palette_table ref_externals c false palette).
  reflexivity.
Defined.

End PaletteExtras.

(** ** Rows of a PNG, whole or by scanlines *)

Ltac png_fields :=
  cbn [Png.fInfo Png.fStream Png.fNeedsRewind Png.fPng_ptr Png.fSrcConfig
       Png.fNumberPasses Png.fReallyHasAlpha Png.fColorTable Png.fSwizzler
       Png.setPng Png.setSrcConfig Png.setNumberPasses Png.setReallyHasAlpha
       Png.setColorTable Png.setSwizzler Png.setRewind fst snd negb].

Tactic Notation "png_fields" "in" hyp(H) :=
  cbn [Png.fInfo Png.fStream Png.fNeedsRewind Png.fPng_ptr Png.fSrcConfig
       Png.fNumberPasses Png.fReallyHasAlpha Png.fColorTable Png.fSwizzler
       Png.setPng Png.setSrcConfig Png.setNumberPasses Png.setReallyHasAlpha
       Png.setColorTable Png.setSwizzler Png.setRewind fst snd negb] in H.

Section PngRowFacts.
Import Png.
Context {X : Externals}.

(** The swizzler that a successful [initializeSwizzler] leaves. *)
Lemma initializeSwizzler_shape (c : SkPngCodec) (info : SkImageInfo)
    (dst : option Z) (rb : Z) (zero : ZeroInitialized) (c1 : SkPngCodec) :
  initializeSwizzler c info dst rb zero = (kSuccess, c1) ->
  fSwizzler c1
  = Some (mkSwizzler (fSrcConfig c1) (fColorTable c1) info rb zero dst []).
Proof.
  unfold initializeSwizzler.
  destruct (png_get_IHDR (fPng_ptr c)) as [[[[w h] bd] ct] it].
  match goal with
  | |- (let '(paletteOk, c0) := ?e in _) = _ -> _ => destruct e as [ok c3]
  end.
  destruct ok; cbn [negb]; [|discriminate].
  unfold CreateSwizzler.
  destruct (CreateSwizzler_ok (fSrcConfig c3) (fColorTable c3) info rb zero);
    cbn [setSwizzler fSwizzler fPng_ptr]; [|discriminate].
  destruct (png_read_update_info (fPng_ptr c3)) as [png|]; [|discriminate].
  intros H. inversion H; subst; clear H. reflexivity.
Qed.

(** Two successful calls that differ in the destination and the row bytes
    leave codecs that differ in the swizzler only. *)
Lemma initializeSwizzler_two (c : SkPngCodec) (info : SkImageInfo)
    (dst1 dst2 : option Z) (rb1 rb2 : Z) (zero : ZeroInitialized)
    (c1 c2 : SkPngCodec) :
  initializeSwizzler c info dst1 rb1 zero = (kSuccess, c1) ->
  initializeSwizzler c info dst2 rb2 zero = (kSuccess, c2) ->
  c2 = setSwizzler c1
         (Some (mkSwizzler (fSrcConfig c1) (fColorTable c1) info rb2 zero dst2 [])).
Proof.
  unfold initializeSwizzler.
  destruct (png_get_IHDR (fPng_ptr c)) as [[[[w h] bd] ct] it].
  match goal with
  | |- (let '(paletteOk, c0) := ?e in _) = _ -> _ => destruct e as [ok c3]
  end.
  destruct ok; cbn [negb]; [|discriminate].
  unfold CreateSwizzler.
  destruct (CreateSwizzler_ok (fSrcConfig c3) (fColorTable c3) info rb1 zero);
    cbn [setSwizzler fSwizzler fPng_ptr]; [|discriminate].
  destruct (CreateSwizzler_ok (fSrcConfig c3) (fColorTable c3) info rb2 zero);
    cbn [setSwizzler fSwizzler fPng_ptr]; [|discriminate].
  destruct (png_read_update_info (fPng_ptr c3)) as [png|]; [|discriminate].
  intros H1 H2. inversion H1; subst; clear H1. inversion H2; subst; clear H2.
  reflexivity.
Qed.

(** [initializeSwizzler] does not look at the stream or at the rewind flag. *)
Lemma initializeSwizzler_setRewind (c : SkPngCodec) (needs : bool)
    (stream : SkStream) (info : SkImageInfo) (dst : option Z) (rb : Z)
    (zero : ZeroInitialized) :
  initializeSwizzler (setRewind c needs stream) info dst rb zero
  = (fst (initializeSwizzler c info dst rb zero),
     setRewind (snd (initializeSwizzler c info dst rb zero)) needs stream).
Proof.
  unfold initializeSwizzler, decodePalette, CreateSwizzler. png_fields.
  destruct (png_get_IHDR (fPng_ptr c)) as [[[[w h] bd] ct] it].
  destruct (negb (it =? PNG_INTERLACE_NONE));
    [destruct (png_set_interlace_handling (fPng_ptr c)) as [passes png]|];
    png_fields;
    (destruct (PNG_COLOR_TYPE_PALETTE =? ct);
     [match goal with |- context [png_get_PLTE ?p] =>
        destruct (png_get_PLTE p) as [palette|]
      end
     |destruct (SkColorType_eqb kAlpha_8_SkColorType (colorType info));
      [|destruct (SkAlphaType_eqb (alphaType (fInfo c)) kOpaque_SkAlphaType)]]);
    png_fields; try reflexivity;
    match goal with |- context [CreateSwizzler_ok ?a1 ?a2 ?a3 ?a4 ?a5] =>
      destruct (CreateSwizzler_ok a1 a2 a3 a4 a5)
    end; png_fields; try reflexivity;
    match goal with |- context [png_read_update_info ?p] =>
      destruct (png_read_update_info p)
    end; reflexivity.
Qed.

(** A swizzler that has a destination row converts the row there and moves
    on by its row bytes. *)
Lemma swizzler_next_moves (sw sw' : SkSwizzler) (row : list Z)
    (dst dst' : Buffer) (r : ResultAlpha) (base : Z) :
  swDstRow sw = Some base ->
  swizzler_next sw row dst = Some (r, sw', dst') ->
  swDstRow sw' = Some (base + swRowBytes sw)
  /\ swRowBytes sw' = swRowBytes sw
  /\ swReported sw' = r :: swReported sw.
Proof.
  unfold swizzler_next. intros Hbase H. rewrite Hbase in H. cbn [obind] in H.
  destruct (swizzle_row (swConfig sw) (swColors sw) (swInfo sw) (swZero sw) row
              base dst) as [r0 d0].
  inversion H; subst. cbn. auto.
Qed.

Lemma swizzleRows_count (rows : list (list Z)) :
  forall sw flag dst sw' flag' dst' base,
    swDstRow sw = Some base ->
    swizzleRows rows sw flag dst = Some (sw', flag', dst') ->
    length (swReported sw') = (length rows + length (swReported sw))%nat
    /\ swDstRow sw' = Some (base + Z.of_nat (length rows) * swRowBytes sw)
    /\ swRowBytes sw' = swRowBytes sw.
Proof.
  induction rows as [|row rows IH]; intros sw flag dst sw' flag' dst' base Hb H.
  - cbn [swizzleRows] in H. inversion H; subst. cbn [length].
    split; [reflexivity|]. split; [|reflexivity]. rewrite Hb. f_equal. lia.
  - cbn [swizzleRows] in H. obind_inv H. destruct a as [[r sw1] d1].
    destruct (swizzler_next_moves _ _ _ _ _ _ _ Hb Hstep) as (Hb1 & Hrb1 & Hrep1).
    destruct (IH _ _ _ _ _ _ _ Hb1 H) as (Hlen & Hrow & Hrb).
    rewrite Hlen, Hrow, Hrb, Hrep1, Hrb1. cbn [length].
    split; [lia|]. split; [f_equal; lia | reflexivity].
Qed.

Lemma readAndSwizzleRows_count (n : nat) :
  forall png srcRow sw flag dst png' sw' flag' dst' base,
    swDstRow sw = Some base ->
    readAndSwizzleRows n png srcRow sw flag dst = Done (png', sw', flag', dst') ->
    length (swReported sw') = (n + length (swReported sw))%nat
    /\ swDstRow sw' = Some (base + Z.of_nat n * swRowBytes sw)
    /\ swRowBytes sw' = swRowBytes sw.
Proof.
  induction n as [|n IH];
    intros png srcRow sw flag dst png' sw' flag' dst' base Hb H.
  - cbn [readAndSwizzleRows] in H. inversion H; subst.
    split; [reflexivity|]. split; [|reflexivity]. rewrite Hb. f_equal. lia.
  - cbn [readAndSwizzleRows] in H.
    destruct (png_read_row png srcRow) as [[png1 row1]|]; [|discriminate].
    destruct (swizzler_next sw row1 dst) as [[[r sw1] d1]|] eqn:Hnext;
      [|discriminate].
    destruct (swizzler_next_moves _ _ _ _ _ _ _ Hb Hnext) as (Hb1 & Hrb1 & Hrep1).
    destruct (IH _ _ _ _ _ _ _ _ _ _ Hb1 H) as (Hlen & Hrow & Hrb).
    rewrite Hlen, Hrow, Hrb, Hrep1, Hrb1. cbn [length].
    split; [lia|]. split; [f_equal; lia | reflexivity].
Qed.

Lemma rowsOf_length (n rowBytes : nat) :
  forall block, length (rowsOf n rowBytes block) = n.
Proof.
  induction n as [|n IH]; intros block; cbn [rowsOf length]; [reflexivity|].
  rewrite IH. reflexivity.
Qed.

Lemma readPass_length (rows : list (list Z)) :
  forall png png' rows',
    readPass png rows = Some (png', rows') -> length rows' = length rows.
Proof.
  induction rows as [|row rows IH]; intros png png' rows' H.
  - cbn [readPass] in H. inversion H; subst. reflexivity.
  - cbn [readPass] in H. obind_inv H. destruct a as [png1 row1].
    obind_inv H. destruct a as [png2 rest].
    inversion H; subst. cbn [length]. f_equal. eapply IH. exact Hstep0.
Qed.

Lemma readPasses_length (n : nat) :
  forall png rows png' rows',
    readPasses n png rows = Some (png', rows') -> length rows' = length rows.
Proof.
  induction n as [|n IH]; intros png rows png' rows' H.
  - cbn [readPasses] in H. inversion H; subst. reflexivity.
  - cbn [readPasses] in H. obind_inv H. destruct a as [png1 rows1].
    apply readPass_length in Hstep. rewrite <- Hstep. eapply IH. exact H.
Qed.

(** The scanline loop over [n + m] rows is the loop over [n] rows followed by
    the loop over [m] rows, [n] rows further down. *)
Lemma getScanlineRows_app (n m : nat) :
  forall png srcRow sw flag dstRow rb dst,
    getScanlineRows (n + m) png srcRow sw flag dstRow rb dst
    = match getScanlineRows n png srcRow sw flag dstRow rb dst with
      | Done (png1, srcRow1, sw1, flag1, dst1) =>
          getScanlineRows m png1 srcRow1 sw1 flag1 (dstRow + Z.of_nat n * rb)
            rb dst1
      | other => other
      end.
Proof.
  induction n as [|n IH]; intros png srcRow sw flag dstRow rb dst.
  - cbn [Nat.add getScanlineRows]. f_equal. lia.
  - cbn [Nat.add getScanlineRows].
    destruct (png_read_row png srcRow) as [[png1 row1]|]; [|reflexivity].
    destruct sw as [sw0|]; [|reflexivity].
    destruct (swizzler_next (setDstRow sw0 dstRow) row1 dst) as [[[r sw1] d1]|];
      [|reflexivity].
    rewrite IH.
    replace (dstRow + rb + Z.of_nat n * rb) with (dstRow + Z.of_nat (S n) * rb)
      by lia.
    reflexivity.
Qed.

(** The scanline loop writes what the loop of the whole decode writes, row
    for row, when the two swizzlers convert alike and the rows start at the
    destination row of the whole decode's swizzler. *)
Lemma getScanlineRows_as_whole (n : nat) :
  forall png srcRow sw swS flag flagS dstRow dst png' sw' flag' dst',
    swDstRow sw = Some dstRow ->
    swConfig swS = swConfig sw -> swColors swS = swColors sw ->
    swInfo swS = swInfo sw -> swZero swS = swZero sw ->
    readAndSwizzleRows n png srcRow sw flag dst = Done (png', sw', flag', dst') ->
    exists srcRow' swS' flagS',
      getScanlineRows n png srcRow (Some swS) flagS dstRow (swRowBytes sw) dst
      = Done (png', srcRow', Some swS', flagS', dst').
Proof.
  induction n as [|n IH];
    intros png srcRow sw swS flag flagS dstRow dst png' sw' flag' dst'
      Hb Hc Hcol Hi Hz H.
  - cbn [readAndSwizzleRows] in H. inversion H; subst.
    cbn [getScanlineRows]. eauto.
  - cbn [readAndSwizzleRows] in H. cbn [getScanlineRows].
    destruct (png_read_row png srcRow) as [[png1 row1]|]; [|discriminate].
    destruct (swizzler_next sw row1 dst) as [[[r sw1] d1]|] eqn:Hnext;
      [|discriminate].
    destruct (swizzler_next_moves _ _ _ _ _ _ _ Hb Hnext) as (Hb1 & Hrb1 & _).
    unfold swizzler_next in Hnext |- *. rewrite Hb in Hnext.
    cbn [obind setDstRow swDstRow swConfig swColors swInfo swZero swRowBytes
         swReported] in Hnext |- *.
    rewrite Hc, Hcol, Hi, Hz.
    destruct (swizzle_row (swConfig sw) (swColors sw) (swInfo sw) (swZero sw) row1
                dstRow dst) as [r0 d0].
    inversion Hnext; subst r0 d0. clear Hnext.
    rewrite <- Hrb1 in Hb1 |- *.
    eapply IH; [exact Hb1 | | | | | exact H]; subst sw1; reflexivity.
Qed.

End PngRowFacts.

Section PngRowExtras.
Import Png.

(** X13.  A getPixels on a PNG that returns Success has run the swizzler once
    for each row of the requested image, interlaced or not, each row one
    rowBytes below the one before: afterwards the swizzler has reported
    height rows and stands height rows below the destination. *)
Theorem X13_whole_decode_swizzles_every_row (X : Externals) (c : SkPngCodec)
    (requestedInfo : SkImageInfo) (dst : Buffer) (rowBytes : Z)
    (zero : ZeroInitialized) (c' : SkPngCodec) (dst' : Buffer) :
  onGetPixels c requestedInfo dst rowBytes zero = Some (kSuccess, c', dst') ->
  exists sw,
    fSwizzler c' = Some sw
    /\ length (swReported sw) = Z.to_nat (height requestedInfo)
    /\ swDstRow sw
       = Some (Z.of_nat (Z.to_nat (height requestedInfo)) * rowBytes).
Proof.
  unfold onGetPixels. intros H.
  destruct (rewindIfNeeded (fNeedsRewind c) (fStream c)) as [[rewound needs] stream].
  set (c0 := setRewind c needs stream) in H.
  destruct (negb rewound); [discriminate|].
  destruct (negb (dimensions_eqb requestedInfo (fInfo c0))); [discriminate|].
  destruct (negb (conversion_possible requestedInfo (fInfo c0))); [discriminate|].
  destruct (initializeSwizzler c0 requestedInfo (Some 0) rowBytes zero)
    as [result c1] eqn:Hinit.
  destruct result; try discriminate.
  pose proof (initializeSwizzler_shape _ _ _ _ _ _ Hinit) as Hsw0.
  rewrite Hsw0 in H. cbn [obind] in H.
  set (sw0 := mkSwizzler (fSrcConfig c1) (fColorTable c1) requestedInfo rowBytes
                zero (Some 0) []) in H.
  assert (Hb0 : swDstRow sw0 = Some 0) by reflexivity.
  destruct (fNumberPasses c1 >? 1).
  - destruct (readPasses (Z.to_nat (fNumberPasses c1)) (fPng_ptr c1)
                (rowsOf (Z.to_nat (height requestedInfo))
                   (Z.to_nat (width requestedInfo * BytesPerPixel (fSrcConfig c1)))
                   (fresh_storage
                      (width requestedInfo * height requestedInfo
                       * BytesPerPixel (fSrcConfig c1)))))
      as [[png storage]|] eqn:Hpasses; [|discriminate].
    apply readPasses_length in Hpasses. rewrite rowsOf_length in Hpasses.
    obind_inv H. destruct a as [[sw1 flag1] d1].
    destruct (swizzleRows_count _ _ _ _ _ _ _ _ Hb0 Hstep) as (Hlen & Hrow & _).
    inversion H; subst c' dst'. clear H.
    destruct (finish_keeps
                (setSwizzler (setReallyHasAlpha (setPng c1 png) flag1) (Some sw1)))
      as [_ Hf2].
    exists sw1. rewrite Hf2. cbn [setSwizzler fSwizzler].
    split; [reflexivity|]. rewrite Hlen, Hrow, Hpasses. cbn [sw0 swReported
      swRowBytes length]. split; [lia|]. f_equal.
  - destruct (readAndSwizzleRows (Z.to_nat (height requestedInfo)) (fPng_ptr c1)
                (fresh_storage
                   (width requestedInfo * BytesPerPixel (fSrcConfig c1)))
                sw0 (fReallyHasAlpha c1) dst)
      as [|[[[png sw1] flag1] d1]|[[[png sw1] flag1] d1]] eqn:Hrows;
      try discriminate.
    destruct (readAndSwizzleRows_count _ _ _ _ _ _ _ _ _ _ _ Hb0 Hrows)
      as (Hlen & Hrow & _).
    inversion H; subst c' dst'. clear H.
    destruct (finish_keeps
                (setSwizzler (setReallyHasAlpha (setPng c1 png) flag1) (Some sw1)))
      as [_ Hf2].
    exists sw1. rewrite Hf2. cbn [setSwizzler fSwizzler].
    split; [reflexivity|]. rewrite Hlen, Hrow. cbn [sw0 swReported swRowBytes
      length]. split; [lia|]. f_equal.
Qed.

Lemma X13_whole_decode_swizzles_every_row_witness :
  let c := sample_png (sample_info 2 2 kUnpremul_SkAlphaType) sample_png_red in
  exists c' dst' sw,
    onGetPixels c (sample_info 2 2 kUnpremul_SkAlphaType) sample_dst 8
      kNo_ZeroInitialized
    = Some (kSuccess, c', dst')
    /\ fSwizzler c' = Some sw
    /\ length (swReported sw) = 2%nat
    /\ swDstRow sw = Some 16.
Proof.
  intros c. eexists. eexists.
  assert (E : onGetPixels c (sample_info 2 2 kUnpremul_SkAlphaType) sample_dst 8
                kNo_ZeroInitialized
              = Some (kSuccess, _, _)) by reflexivity.
  destruct (X13_whole_decode_swizzles_every_row ref_externals c _ _ _ _ _ _ E)
    as (sw & H1 & H2 & H3).
  exists sw. split; [exact E|]. split; [exact H1|]. split; [exact H2 | exact H3].
Defined.

(** X14.  Reading scanlines composes: after a call of getScanlines for a rows
    that returns Success, a call for a + b rows from the start does what a
    call for b rows does from there, a rows further down the destination -
    the same result, decoder, codec and destination. *)
Theorem X14_scanlines_compose (X : Externals) (d : SkPngScanlineDecoder)
    (c : SkPngCodec) (dstRow a b rowBytes : Z) (dst : Buffer)
    (d1 : SkPngScanlineDecoder) (c1 : SkPngCodec) (dst1 : Buffer) :
  0 <= a ->
  0 <= b ->
  onGetScanlines d c dstRow a rowBytes dst = Some (kSuccess, d1, c1, dst1) ->
  onGetScanlines d c dstRow (a + b) rowBytes dst
  = onGetScanlines d1 c1 (dstRow + a * rowBytes) b rowBytes dst1.
Proof.
  intros Ha Hb H. unfold onGetScanlines in *.
  rewrite Z2Nat.inj_add by assumption. rewrite getScanlineRows_app.
  rewrite Z2Nat.id by exact Ha.
  destruct (getScanlineRows (Z.to_nat a) (fPng_ptr c) (fSrcRow d) (fSwizzler c)
              (fHasAlpha d) dstRow rowBytes dst)
    as [|[[[[png1 src1] sw1] flag1] dd1]|[[[[png1 src1] sw1] flag1] dd1]];
    try discriminate.
  inversion H; subst d1 c1 dst1. clear H.
  png_fields. cbn [fSrcRow fHasAlpha sdDstInfo].
  destruct (getScanlineRows (Z.to_nat b) png1 src1 sw1 flag1
              (dstRow + a * rowBytes) rowBytes dd1)
    as [|[[[[png2 src2] sw2] flag2] dd2]|[[[[png2 src2] sw2] flag2] dd2]];
    reflexivity.
Qed.

Lemma X14_scanlines_compose_witness :
  let info := sample_info 2 2 kUnpremul_SkAlphaType in
  let c := sample_png info sample_png_red in
  exists dec cS d1 c1 dst1,
    onGetScanlineDecoder c info = (Some dec, cS)
    /\ onGetScanlines dec cS 0 1 8 sample_dst = Some (kSuccess, d1, c1, dst1)
    /\ onGetScanlines dec cS 0 (1 + 1) 8 sample_dst
       = onGetScanlines d1 c1 (0 + 1 * 8) 1 8 dst1.
Proof.
  intros info c. eexists. eexists. eexists. eexists. eexists.
  split; [reflexivity|].
  assert (E : onGetScanlines
                (mkScanlineDecoder info false
                   (fresh_storage (Externals := ref_externals) (2 * 4)))
                (snd (onGetScanlineDecoder c info)) 0 1 8 sample_dst
              = Some (kSuccess, _, _, _)) by reflexivity.
  split; [exact E|].
  apply (X14_scanlines_compose ref_externals _ _ 0 1 1 8 sample_dst _ _ _);
    [lia | lia | exact E].
Defined.

(** X15.  For a PNG that is not interlaced, the scanline decoder writes what
    the whole decode writes: from the same codec, if getPixels (with the
    destination not known to be zeroed) returns Success and getScanlineDecoder
    returns a decoder, then getScanlines for all height rows at the same
    rowBytes returns Success and leaves the same destination. *)
Theorem X15_scanlines_match_whole_decode (X : Externals) (c : SkPngCodec)
    (info : SkImageInfo) (dst : Buffer) (rowBytes : Z) (cW : SkPngCodec)
    (dW : Buffer) (dec : SkPngScanlineDecoder) (cS : SkPngCodec) :
  onGetPixels c info dst rowBytes kNo_ZeroInitialized = Some (kSuccess, cW, dW) ->
  onGetScanlineDecoder c info = (Some dec, cS) ->
  exists dec' cS',
    onGetScanlines dec cS 0 (height info) rowBytes dst
    = Some (kSuccess, dec', cS', dW).
Proof.
  unfold onGetPixels, onGetScanlineDecoder. intros HW HS.
  destruct (rewindIfNeeded (fNeedsRewind c) (fStream c)) as [[rewound needs] stream].
  rewrite initializeSwizzler_setRewind in HW.
  cbn [setRewind fInfo] in HW.
  destruct (negb rewound); [discriminate|].
  destruct (negb (dimensions_eqb info (fInfo c))); [discriminate|].
  destruct (negb (conversion_possible info (fInfo c))); [discriminate|].
  destruct (initializeSwizzler c info (Some 0) rowBytes kNo_ZeroInitialized)
    as [resW c1] eqn:HinitW.
  cbn [fst snd] in HW.
  destruct resW; try discriminate.
  destruct (initializeSwizzler c info None (minRowBytes info) kNo_ZeroInitialized)
    as [resS c2] eqn:HinitS.
  destruct resS; try discriminate.
  destruct (fNumberPasses c2 >? 1) eqn:Hpass; [discriminate|].
  inversion HS; subst dec cS. clear HS.
  pose proof (initializeSwizzler_two _ _ _ _ _ _ _ _ _ HinitW HinitS) as E2.
  pose proof (initializeSwizzler_shape _ _ _ _ _ _ HinitW) as Hsw1.
  assert (Hfields : fNumberPasses c2 = fNumberPasses c1
                    /\ fSrcConfig c2 = fSrcConfig c1
                    /\ fPng_ptr c2 = fPng_ptr c1
                    /\ fSwizzler c2
                       = Some (mkSwizzler (fSrcConfig c1) (fColorTable c1) info
                                 (minRowBytes info) kNo_ZeroInitialized None [])).
  { rewrite E2. png_fields. auto. }
  destruct Hfields as (Hp & Hcfg & Hpng & Hsw2).
  png_fields in HW. rewrite Hsw1 in HW. cbn [obind] in HW.
  rewrite <- Hp, Hpass in HW.
  destruct (readAndSwizzleRows (Z.to_nat (height info)) (fPng_ptr c1)
              (fresh_storage (width info * BytesPerPixel (fSrcConfig c1)))
              (mkSwizzler (fSrcConfig c1) (fColorTable c1) info rowBytes
                 kNo_ZeroInitialized (Some 0) [])
              (fReallyHasAlpha c1) dst)
    as [|[[[png sw1] flag1] d1]|[[[png sw1] flag1] d1]] eqn:Hrows;
    try discriminate.
  inversion HW; subst cW dW. clear HW.
  unfold onGetScanlines. cbn [fSrcRow fHasAlpha sdDstInfo].
  rewrite Hcfg, Hpng, Hsw2.
  destruct (getScanlineRows_as_whole (Z.to_nat (height info)) (fPng_ptr c1)
              (fresh_storage (width info * BytesPerPixel (fSrcConfig c1)))
              (mkSwizzler (fSrcConfig c1) (fColorTable c1) info rowBytes
                 kNo_ZeroInitialized (Some 0) [])
              (mkSwizzler (fSrcConfig c1) (fColorTable c1) info
                 (minRowBytes info) kNo_ZeroInitialized None [])
              (fReallyHasAlpha c1) false 0 dst png sw1 flag1 d1
              eq_refl eq_refl eq_refl eq_refl eq_refl Hrows)
    as (srcRow' & swS' & flagS' & E).
  cbn [swRowBytes] in E. rewrite E. eauto.
Qed.

Lemma X15_scanlines_match_whole_decode_witness :
  let info := sample_info 2 2 kUnpremul_SkAlphaType in
  let c := sample_png info sample_png_red in
  exists cW dW dec cS dec' cS',
    onGetPixels c info sample_dst 8 kNo_ZeroInitialized = Some (kSuccess, cW, dW)
    /\ onGetScanlineDecoder c info = (Some dec, cS)
    /\ onGetScanlines dec cS 0 (height info) 8 sample_dst
       = Some (kSuccess, dec', cS', dW).
Proof.
  intros info c. eexists. eexists. eexists. eexists.
  assert (EW : onGetPixels c info sample_dst 8 kNo_ZeroInitialized
               = Some (kSuccess, _, _)) by reflexivity.
  assert (ES : onGetScanlineDecoder c info = (Some _, _)) by reflexivity.
  destruct (X15_scanlines_match_whole_decode ref_externals c info sample_dst 8
              _ _ _ _ EW ES) as (dec' & cS' & H).
  exists dec', cS'. split; [exact EW|]. split; [exact ES | exact H].
Defined.

End PngRowExtras.

(** ** The PNG factory *)

Section FactoryFacts.
Import Png.
Context {X : Externals}.

(** The 64-bit product of two 32-bit sizes is negative or the true product. *)
Lemma sk_64_mul_sizes (a b : Z) :
  0 <= a < 2 ^ 32 -> 0 <= b < 2 ^ 32 ->
  sk_64_mul a b < 0 \/ sk_64_mul a b = a * b.
Proof.
  intros Ha Hb. unfold sk_64_mul.
  change (2 ^ 32) with 4294967296 in *.
  change (2 ^ 63) with 9223372036854775808.
  change (2 ^ 64) with 18446744073709551616.
  assert (Hp : 0 <= a * b < 18446744073709551616) by nia.
  pose proof (Z.div_mod (a * b + 9223372036854775808) 18446744073709551616
                ltac:(lia)) as E.
  pose proof (Z.mod_pos_bound (a * b + 9223372036854775808) 18446744073709551616
                ltac:(lia)) as B.
  lia.
Qed.

Lemma defaultTypes_cases (png : png_struct) (ct : Z) :
  fst (defaultTypes png ct) = kN32_SkColorType
  /\ (snd (defaultTypes png ct) = kOpaque_SkAlphaType
      \/ snd (defaultTypes png ct) = kUnpremul_SkAlphaType)
  /\ (ct = PNG_COLOR_TYPE_GRAY -> snd (defaultTypes png ct) = kOpaque_SkAlphaType)
  /\ (ct = PNG_COLOR_TYPE_RGB_ALPHA \/ ct = PNG_COLOR_TYPE_GRAY_ALPHA ->
      snd (defaultTypes png ct) = kUnpremul_SkAlphaType).
Proof.
  unfold defaultTypes.
  change PNG_COLOR_TYPE_PALETTE with 3. change PNG_COLOR_TYPE_GRAY with 0.
  change PNG_COLOR_TYPE_RGB_ALPHA with 6. change PNG_COLOR_TYPE_GRAY_ALPHA with 4.
  destruct (ct =? 3) eqn:E3; [apply Z.eqb_eq in E3|apply Z.eqb_neq in E3].
  - cbn [fst snd]. split; [reflexivity|].
    split; [destruct (has_transparency_in_palette png); auto|].
    split; intros H; lia.
  - destruct (ct =? 0) eqn:E0; [apply Z.eqb_eq in E0|apply Z.eqb_neq in E0].
    + cbn [fst snd]. split; [reflexivity|]. split; [auto|].
      split; [auto | intros H; lia].
    + cbn [fst snd]. split; [reflexivity|].
      split.
      { destruct (has_transparency_in_palette png || (6 =? ct) || (4 =? ct)); auto. }
      split; [intros H; lia|].
      intros [H|H]; subst ct; cbn; rewrite ?orb_true_r; reflexivity.
Qed.

End FactoryFacts.

Section FactoryExtras.
Import Png.

(** X16.  A PNG the factory accepts has passed the size guard: the width and
    the height of its header multiply to at most (2^31 - 1) / 4 =
    536870911, so that at four bytes a pixel the size of a decoded image of
    positive dimensions fits an [int], and the codec describes those
    dimensions.  The description is always N32; its alpha type is opaque or
    unpremultiplied, opaque for every grey image and unpremultiplied for
    every image with an alpha channel. *)
Theorem X16_png_factory_guards_size (X : Externals) (F : FactoryExternals)
    (stream : SkStream) (c : SkPngCodec) :
  NewFromStream stream = Some c ->
  exists png w h bitDepth ct il,
    readInfo stream = Some png
    /\ png_get_IHDR png = (w, h, bitDepth, ct, il)
    /\ wrap32u w * wrap32u h <= 536870911
    /\ (0 < wrap32u w -> 0 < wrap32u h ->
        width (fInfo c) = wrap32u w /\ height (fInfo c) = wrap32u h
        /\ 4 * (width (fInfo c) * height (fInfo c)) < 2 ^ 31)
    /\ colorType (fInfo c) = kN32_SkColorType
    /\ (alphaType (fInfo c) = kOpaque_SkAlphaType
        \/ alphaType (fInfo c) = kUnpremul_SkAlphaType)
    /\ (ct = PNG_COLOR_TYPE_GRAY -> alphaType (fInfo c) = kOpaque_SkAlphaType)
    /\ (ct = PNG_COLOR_TYPE_RGB_ALPHA \/ ct = PNG_COLOR_TYPE_GRAY_ALPHA ->
        alphaType (fInfo c) = kUnpremul_SkAlphaType).
Proof.
  unfold NewFromStream. intros H. obind_inv H. rename a into png.
  destruct (png_get_IHDR png) as [[[[w h] bitDepth] ct] il] eqn:Hihdr.
  exists png, w, h, bitDepth, ct, il.
  split; [exact Hstep|]. split; [exact Hihdr|].
  pose proof (wrap32u_range w) as Rw. pose proof (wrap32u_range h) as Rh.
  destruct ((sk_64_mul (wrap32u w) (wrap32u h) <? 0)
            || (sk_64_mul (wrap32u w) (wrap32u h) >? Z.shiftr 2147483647 2))
    eqn:Hguard; [discriminate|].
  apply orb_false_iff in Hguard. destruct Hguard as [G1 G2].
  apply Z.ltb_ge in G1. rewrite Z.gtb_ltb in G2. apply Z.ltb_ge in G2.
  change (Z.shiftr 2147483647 2) with 536870911 in G2.
  destruct (sk_64_mul_sizes (wrap32u w) (wrap32u h) Rw Rh) as [Hneg|Hprod];
    [lia|].
  rewrite Hprod in G2.
  set (png1 := applyTransforms (transformsOfDepth bitDepth ct) png) in H.
  destruct (defaultTypes_cases png1 ct) as (Hct & Hat & Hgray & Halpha).
  destruct (defaultTypes png1 ct) as [skColorType skAlphaType].
  cbn [fst snd] in Hct, Hat, Hgray, Halpha.
  inversion H; subst c. clear H.
  cbn [fInfo SkImageInfo_Make width height colorType alphaType].
  split; [exact G2|].
  split.
  { intros Hw Hh. change (2 ^ 32) with 4294967296 in *.
    change (2 ^ 31) with 2147483648.
    assert (wrap32u w <= 536870911) by nia.
    assert (wrap32u h <= 536870911) by nia.
    rewrite !wrap32s_small by (change (2 ^ 31) with 2147483648; lia).
    split; [reflexivity|]. split; [reflexivity|]. lia. }
  split; [exact Hct|]. split; [exact Hat|]. split; assumption.
Qed.

Lemma X16_png_factory_guards_size_witness :
  exists c png w h bitDepth ct il,
    NewFromStream (X := ref_externals) (F := ref_factory)
      (sample_png_stream 640 480 8 6 0) = Some c
    /\ readInfo (X := ref_externals) (F := ref_factory)
         (sample_png_stream 640 480 8 6 0) = Some png
    /\ png_get_IHDR (Externals := ref_externals) png = (w, h, bitDepth, ct, il)
    /\ wrap32u w * wrap32u h <= 536870911
    /\ (0 < wrap32u w -> 0 < wrap32u h ->
        width (fInfo c) = wrap32u w /\ height (fInfo c) = wrap32u h
        /\ 4 * (width (fInfo c) * height (fInfo c)) < 2 ^ 31)
    /\ colorType (fInfo c) = kN32_SkColorType
    /\ (alphaType (fInfo c) = kOpaque_SkAlphaType
        \/ alphaType (fInfo c) = kUnpremul_SkAlphaType)
    /\ (ct = PNG_COLOR_TYPE_GRAY -> alphaType (fInfo c) = kOpaque_SkAlphaType)
    /\ (ct = PNG_COLOR_TYPE_RGB_ALPHA \/ ct = PNG_COLOR_TYPE_GRAY_ALPHA ->
        alphaType (fInfo c) = kUnpremul_SkAlphaType).
Proof.
  eexists.
  assert (E : NewFromStream (X := ref_externals) (F := ref_factory)
                (sample_png_stream 640 480 8 6 0) = Some _) by reflexivity.
  destruct (X16_png_factory_guards_size ref_externals ref_factory _ _ E)
    as (png & w & h & bitDepth & ct & il & H).
  exists png, w, h, bitDepth, ct, il. split; [exact E | exact H].
Defined.

(** An image of 65536 by 8192 pixels, one more than the guard lets pass in
    its width, is turned down; at 65535 by 8192 it is taken. *)
Example png_size_guard_edge :
  (match NewFromStream (X := ref_externals) (F := ref_factory)
           (sample_png_stream 65536 8192 8 6 0) with
   | Some _ => false
   | None => true
   end,
   match NewFromStream (X := ref_externals) (F := ref_factory)
           (sample_png_stream 65535 8192 8 6 0) with
   | Some c => (width (fInfo c) =? 65535) && (height (fInfo c) =? 8192)
   | None => false
   end) = (true, true).
Proof. vm_compute. reflexivity. Qed.

End FactoryExtras.

(** ** What the standard engine leaves when the input ends early *)

Section PartialFacts.
Import Bmp.
Context {X : Externals}.

(** The colour rows, when the stream holds [k] whole rows of the [n] asked
    for. *)
Lemma decodeRows_rows (c : SkBmpCodec) (info : SkImageInfo) (config : SrcConfig)
    (rb rowBytes : Z) (n : nat) :
  0 <= rowBytes ->
  forall (k : nat) sw y stream dst,
    swConfig sw = config -> swColors sw = Some (colorsOf c) ->
    swInfo sw = info -> swZero sw = kNo_ZeroInitialized ->
    swDstRow sw = Some 0 -> swRowBytes sw = rb ->
    0 <= y -> y + Z.of_nat n < 2 ^ 31 ->
    (k <= n)%nat ->
    Z.of_nat k * rowBytes <= available stream ->
    ((k < n)%nat -> available stream < (Z.of_nat k + 1) * rowBytes) ->
    exists s',
      decodeRows c info (Some sw) rowBytes n y stream dst
      = Some (if Nat.eqb k n
              then inr (s', swizzledRows c info config rb rowBytes k y
                              (pending stream) dst)
              else inl (kIncompleteInput, s',
                        swizzledRows c info config rb rowBytes k y
                          (pending stream) dst)).
Proof.
  intros Hrb. induction n as [|n IH];
    intros k sw y stream dst Hc Hcol Hi Hz Hb Hr Hy Hfit Hk Hav Hshort.
  - assert (k = 0)%nat by lia. subst k. cbn [decodeRows Nat.eqb swizzledRows].
    eauto.
  - cbn [decodeRows].
    destruct (stream_read stream rowBytes) as [src s2] eqn:Hread.
    destruct (stream_read_available _ _ _ _ Hread Hrb) as (Hfull & Hfew).
    destruct k as [|k].
    + cbn [Nat.eqb swizzledRows].
      assert (Hne : (Z.of_nat (length src) =? rowBytes) = false).
      { apply Z.eqb_neq. apply Hfew. specialize (Hshort ltac:(lia)). lia. }
      rewrite Hne. cbn [negb]. eauto.
    + assert (Hle : rowBytes <= available stream) by nia.
      destruct (Hfull Hle) as (Hlen & Hav2 & _ & _).
      destruct (stream_read_full _ _ _ _ Hread Hlen) as (Hsrc & Hrest).
      rewrite Hlen, Z.eqb_refl. cbn [negb obind].
      unfold swizzler_next_row. rewrite Hb, Hc, Hcol, Hi, Hz, Hr. cbn [obind].
      fold (standardRow c info y).
      rewrite (wrap32s_small (y + 1)) by lia.
      cbn [swizzledRows Nat.eqb].
      fold (pending stream) in Hsrc, Hrest. fold (pending s2) in Hrest.
      rewrite <- Hsrc, <- Hrest.
      destruct (swizzle_row config (Some (colorsOf c)) info kNo_ZeroInitialized
                  src (0 + standardRow c info y * rb) dst) as [r d2].
      cbn [obind snd].
      apply IH; try reflexivity; lia.
Qed.

End PartialFacts.

Section PartialExtras.
Import Bmp.

(** X17.  The standard engine decodes the rows that are there.  For a
    stand-alone BMP of a depth the engine supports, with a swizzler that could
    be created: when the stream holds k whole rows of the image and no more
    (k = height, or too few bytes for row k + 1), the destination is what the
    swizzler's row procedure makes of the first k rows of the stream, the
    source row y going to the destination row y of a top-down image and to
    row height - 1 - y of a bottom-up one; the result is Success when k is
    the height and IncompleteInput otherwise, and the rows of the destination
    that were not reached are as they were. *)
Theorem X17_rows_present_are_decoded (X : Externals) (c : SkBmpCodec)
    (stream : SkStream) (dstInfo : SkImageInfo) (dst : Buffer)
    (dstRowBytes : Z) (config : SrcConfig) (k : Z) :
  standardConfig c dstInfo = Some config ->
  CreateSwizzler_ok config (Some (colorsOf c)) dstInfo dstRowBytes
    kNo_ZeroInitialized = true ->
  fIsIco c = false ->
  0 <= width dstInfo ->
  height dstInfo < 2 ^ 31 ->
  let rowBytes := SkAlign4 (compute_row_bytes (width dstInfo) (fBitsPerPixel c)) in
  0 <= k <= height dstInfo ->
  k * rowBytes <= available stream ->
  (k < height dstInfo -> available stream < (k + 1) * rowBytes) ->
  exists s',
    decode c stream dstInfo dst dstRowBytes
    = Some (if k =? height dstInfo then kSuccess else kIncompleteInput, s',
            swizzledRows c dstInfo config dstRowBytes rowBytes (Z.to_nat k) 0
              (pending stream) dst).
Proof.
  intros Hcfg Hok Hico Hw Hh rowBytes Hk Hav Hshort.
  pose proof (standardConfig_depth _ _ _ Hcfg) as Hbpp.
  assert (Hrb : 0 <= rowBytes).
  { apply row_bytes_nonneg; [exact Hw|]. simpl in Hbpp. lia. }
  unfold decode. rewrite Hcfg. unfold CreateSwizzler. rewrite Hok.
  fold rowBytes. rewrite Hico.
  destruct (decodeRows_rows c dstInfo config dstRowBytes rowBytes
              (Z.to_nat (height dstInfo)) Hrb (Z.to_nat k)
              (mkSwizzler config (Some (colorsOf c)) dstInfo dstRowBytes
                 kNo_ZeroInitialized (Some 0) [])
              0 stream dst eq_refl eq_refl eq_refl eq_refl eq_refl eq_refl
              ltac:(lia) ltac:(lia) ltac:(lia) ltac:(lia)
              ltac:(intros Hlt; rewrite Z2Nat.id by lia; apply Hshort; lia))
    as (s' & E).
  rewrite E. exists s'.
  destruct (Z.eq_dec k (height dstInfo)) as [->|Hne].
  - rewrite Nat.eqb_refl, Z.eqb_refl. reflexivity.
  - rewrite (proj2 (Nat.eqb_neq _ _)) by lia.
    rewrite (proj2 (Z.eqb_neq _ _)) by exact Hne. reflexivity.
Qed.

Lemma X17_rows_present_are_decoded_witness :
  let c := mkBmpCodec (X := ref_externals) (sample_info 1 2 kOpaque_SkAlphaType)
             false 24 kStandard_BitmapInputFormat noMasks (Some []) 0 4 0
             kBottomUp_RowOrder 0 false in
  let info := sample_info 1 2 kOpaque_SkAlphaType in
  let stream := mkStream [1; 2; 3; 0; 4; 5] 0 in
  let rowBytes := SkAlign4 (compute_row_bytes (width info) (fBitsPerPixel c)) in
  exists s',
    decode c stream info sample_dst 4
    = Some (if 1 =? height info then kSuccess else kIncompleteInput, s',
            swizzledRows c info kBGR 4 rowBytes (Z.to_nat 1) 0 (pending stream)
              sample_dst).
Proof.
  intros c info stream.
  apply (X17_rows_present_are_decoded ref_externals c stream info sample_dst 4
           kBGR 1).
  - reflexivity.
  - reflexivity.
  - reflexivity.
  - simpl. lia.
  - simpl. lia.
  - simpl. lia.
  - vm_compute. discriminate.
  - intros _. vm_compute. reflexivity.
Defined.

(** The destination of that decode: the one row present is the bottom row,
    and the top row is untouched. *)
Example partial_bottom_up_decode :
  let c := mkBmpCodec (X := ref_externals) (sample_info 1 2 kOpaque_SkAlphaType)
             false 24 kStandard_BitmapInputFormat noMasks (Some []) 0 4 0
             kBottomUp_RowOrder 0 false in
  match decode c (mkStream [1; 2; 3; 0; 4; 5] 0)
          (sample_info 1 2 kOpaque_SkAlphaType) sample_dst 4 with
  | Some (r, _, d) =>
      (r, map (load32 d) [0; 4]) = (kIncompleteInput, [0xAAAAAAAA; 0xFF030201])
  | None => False
  end.
Proof. vm_compute. reflexivity. Qed.

End PartialExtras.

(** ** A stand-alone BMP of the standard format, end to end *)

Lemma stream_skip_available (s : SkStream) (n : Z) :
  0 <= n <= available s ->
  exists s2,
    stream_skip s n = (n, s2)
    /\ sdata s2 = sdata s
    /\ Z.of_nat (spos s2) = Z.of_nat (spos s) + n
    /\ available s2 = available s - n.
Proof.
  intros Hn. unfold stream_skip. eexists. split; [|split; [|split]].
  - f_equal. unfold available, pending in Hn. rewrite length_firstn. lia.
  - reflexivity.
  - cbn [spos]. unfold available, pending in Hn. rewrite length_firstn. lia.
  - unfold available, pending in *. cbn [sdata spos].
    rewrite !length_skipn, length_firstn, length_skipn in *. lia.
Qed.

Section EndToEndFacts.
Import Bmp.
Context {X : Externals}.

(** A colour table that lies before the pixel data, in a stream that reaches
    the pixel data, is created with success, and the stream then stands at
    the pixel data. *)
Lemma createColorTable_runs (c : SkBmpCodec) (stream : SkStream)
    (alphaType : SkAlphaType) :
  In (fBitsPerPixel c) [1; 2; 4; 8; 16; 24; 32] ->
  0 <= fNumColors c ->
  fBytesPerColor c = 3 \/ fBytesPerColor c = 4 ->
  fIsIco c = false ->
  choosePack alphaType <> None ->
  0 <= fOffset c < 2 ^ 32 ->
  (fBitsPerPixel c <= 8 -> tableColors c * fBytesPerColor c <= fOffset c) ->
  fOffset c <= available stream ->
  exists c' s',
    createColorTable c stream alphaType = Some (true, c', s')
    /\ fBitsPerPixel c' = fBitsPerPixel c /\ fInputFormat c' = fInputFormat c
    /\ fIsIco c' = fIsIco c
    /\ sdata s' = sdata stream
    /\ Z.of_nat (spos s') = Z.of_nat (spos stream) + fOffset c
    /\ available s' = available stream - fOffset c.
Proof.
  intros Hbpp Hn Hbpc Hico Hpack Hoff Htable Hav.
  unfold createColorTable.
  destruct (fBitsPerPixel c <=? 8) eqn:Hle.
  - apply Z.leb_le in Hle.
    assert (Hsmall : In (fBitsPerPixel c) [1; 2; 4; 8]).
    { simpl in Hbpp |- *. intuition lia. }
    destruct (tableColors_range c Hsmall Hn) as (Hrange & Hpow & Hmax).
    rewrite Hmax.
    set (c1 := if (fNumColors c =? 0) || (fNumColors c >=? 2 ^ fBitsPerPixel c)
               then setNumColors c (2 ^ fBitsPerPixel c) else c).
    assert (Hc1 : fNumColors c1 = tableColors c
                  /\ fBytesPerColor c1 = fBytesPerColor c
                  /\ fIsIco c1 = fIsIco c /\ fOffset c1 = fOffset c
                  /\ fBitsPerPixel c1 = fBitsPerPixel c
                  /\ fInputFormat c1 = fInputFormat c).
    { unfold c1, tableColors.
      destruct ((fNumColors c =? 0) || (fNumColors c >=? 2 ^ fBitsPerPixel c));
        simpl; auto 6. }
    destruct Hc1 as (Hn1 & Hb1 & Hi1 & Ho1 & Hbp1 & Hf1).
    assert (Hcb : 0 <= tableColors c * fBytesPerColor c <= 1024).
    { destruct Hbpc as [E|E]; rewrite E; lia. }
    assert (Hbytes : wrap32u (fNumColors c1 * fBytesPerColor c1)
                     = tableColors c * fBytesPerColor c).
    { rewrite Hn1, Hb1. apply wrap32u_small. lia. }
    rewrite Hbytes.
    specialize (Htable Hle).
    destruct (stream_read stream (tableColors c * fBytesPerColor c))
      as [cBuffer s1] eqn:Hread.
    destruct (stream_read_available _ _ _ _ Hread ltac:(lia)) as (Hfull & _).
    destruct (Hfull ltac:(lia)) as (Hlen & Hav1 & Hd1 & Hp1).
    rewrite Hlen, Z.eqb_refl. cbn [negb].
    destruct (choosePack alphaType) as [pack|]; [|congruence].
    cbn [obind negb]. rewrite Hi1, Hico, Ho1. cbn [negb].
    rewrite (ltb_false (fOffset c) (tableColors c * fBytesPerColor c)) by lia.
    rewrite (wrap32u_small (fOffset c - tableColors c * fBytesPerColor c)) by lia.
    destruct (stream_skip_available s1
                (fOffset c - tableColors c * fBytesPerColor c) ltac:(lia))
      as (s2 & Hskip & Hd2 & Hp2 & Hav2).
    rewrite Hskip, Z.eqb_refl. cbn [negb].
    eexists. exists s2. split; [reflexivity|].
    cbn [setColorTable fBitsPerPixel fInputFormat fIsIco].
    repeat split; try assumption; try congruence; lia.
  - apply Z.leb_gt in Hle. cbn [obind negb]. rewrite Hico. cbn [negb].
    rewrite (ltb_false (fOffset c) 0) by lia.
    rewrite Z.sub_0_r, (wrap32u_small (fOffset c)) by lia.
    destruct (stream_skip_available stream (fOffset c) ltac:(lia))
      as (s2 & Hskip & Hd2 & Hp2 & Hav2).
    rewrite Hskip, Z.eqb_refl. cbn [negb].
    eexists. exists s2. split; [reflexivity|].
    cbn [setColorTable fBitsPerPixel fInputFormat fIsIco].
    repeat split; try assumption; try congruence; lia.
Qed.

(** A request that can be converted asks for an alpha type that has a packing
    function. *)
Lemma conversion_possible_pack (dst src : SkImageInfo) :
  conversion_possible dst src = true ->
  alphaType src = kOpaque_SkAlphaType \/ alphaType src = kUnpremul_SkAlphaType ->
  choosePack (alphaType dst) <> None.
Proof.
  unfold conversion_possible. intros H Hsrc.
  destruct (negb (SkColorProfileType_eqb (profileType dst) (profileType src)));
    [discriminate|].
  destruct (colorType dst); try discriminate.
  destruct (alphaType dst); cbn [choosePack]; try discriminate.
  destruct Hsrc as [E|E]; rewrite E in H; discriminate.
Qed.

Lemma standardConfig_some (c : SkBmpCodec) (info : SkImageInfo) :
  In (fBitsPerPixel c) [1; 2; 4; 8; 24; 32] ->
  exists config, standardConfig c info = Some config.
Proof.
  unfold standardConfig. simpl.
  intros [E|[E|[E|[E|[E|[E|[]]]]]]]; rewrite <- E; cbn; eauto;
    destruct (alphaType info); eauto.
Qed.

End EndToEndFacts.

Section EndToEndExtras.
Import Bmp.

(** X18.  A well-formed stand-alone BMP of the standard format decodes.  For
    a file shorter than 4 GiB that the parser accepts with the standard
    format and a height that is not negative, whose colour table (if the
    depth has one) ends at or before the offset of the pixel data and whose
    data reaches that offset: a getPixels for the codec's own dimensions and
    a conversion that is possible, on the stream the parser left (no rewind
    being needed), with swizzlers available, never fails - it returns Success
    when the file holds height rows of pixel data from that offset on, and
    IncompleteInput when it holds fewer bytes. *)
Theorem X18_well_formed_bmp_decodes (X : Externals) (stream s : SkStream)
    (c : SkBmpCodec) (dstInfo : SkImageInfo) (dst : Buffer) (dstRowBytes : Z)
    (needs : bool) :
  NewFromStream stream false = Some (c, s) ->
  fInputFormat c = kStandard_BitmapInputFormat ->
  Z.of_nat (length (sdata stream)) < 2 ^ 32 ->
  rewindIfNeeded (fNeedsRewind c) s = (true, needs, s) ->
  dimensions_eqb dstInfo (fInfo c) = true ->
  conversion_possible dstInfo (fInfo c) = true ->
  0 <= height (fInfo c) ->
  (fBitsPerPixel c <= 8 -> tableColors c * fBytesPerColor c <= fOffset c) ->
  (forall config colors,
     CreateSwizzler_ok config colors dstInfo dstRowBytes kNo_ZeroInitialized
     = true) ->
  pixelDataOffset stream <= available stream ->
  let rowBytes := SkAlign4 (compute_row_bytes (width dstInfo) (fBitsPerPixel c)) in
  exists c' s' d',
    onGetPixels c s dstInfo dst dstRowBytes
    = Some (if height dstInfo * rowBytes
               <=? available stream - pixelDataOffset stream
            then kSuccess else kIncompleteInput, c', s', d').
Proof.
  intros Hnew Hstd Hsize Hrew Hdim Hconv Hh Htable Hsw Hdata rowBytes.
  destruct (NewFromStream_fields _ _ _ _ _ Hnew)
    as (Hbpp & Hn & Hbpc & Hico & _ & Hsdata).
  destruct (NewFromStream_gap _ _ _ _ Hnew Hsize) as (Hoff & Hgap).
  destruct (NewFromStream_inv _ _ _ _ Hnew)
    as (totalBytes & offset & infoBytes & iBuffer & s1 & f & w & h & ro & bpp
        & fmt0 & masks0 & maskBytes & masks1 & at_ & masks2 & fmt & m
        & Hhdr & Hf & Hcd & Hfmt & Halpha & Hcheck & _ & _ & _ & Hc).
  pose proof (checkBitsPerPixel_format _ _ _ _ _ Hcheck) as Hfmt2.
  pose proof (selectAlpha_type (hf_headerType f) false bpp iBuffer masks0) as Hat.
  rewrite Halpha in Hat. cbn [snd] in Hat.
  assert (Hinfo : alphaType (fInfo c) = at_ /\ fBitsPerPixel c = bpp
                  /\ fInputFormat c = fmt).
  { subst c. cbn. auto. }
  destruct Hinfo as (Hia & Hib & Hif).
  assert (Hdepth : In (fBitsPerPixel c) [1; 2; 4; 8; 24; 32]).
  { rewrite Hif in Hstd. rewrite Hstd in Hfmt2. rewrite Hib in *.
    destruct (bpp =? 16) eqn:E16; [discriminate|].
    apply Z.eqb_neq in E16. simpl in Hbpp |- *. intuition lia. }
  assert (Hdims : width dstInfo = width (fInfo c)
                  /\ height dstInfo = height (fInfo c)).
  { unfold dimensions_eqb in Hdim. apply andb_true_iff in Hdim.
    destruct Hdim as [E1 E2]. apply Z.eqb_eq in E1. apply Z.eqb_eq in E2. auto. }
  destruct Hdims as (Hdw & Hdh).
  assert (Hwidth : 0 <= width (fInfo c)).
  { subst c. cbn [fInfo width SkImageInfo_Make].
    unfold checkDimensions in Hcd.
    destruct (if hf_height f <? 0
              then (wrap32s (- hf_height f), kTopDown_RowOrder)
              else (hf_height f, kBottomUp_RowOrder)) as [h0 ro0].
    cbn [negb] in Hcd.
    destruct ((hf_width f <? 0) || (hf_width f >=? kBmpMaxDim)
              || (h0 >=? kBmpMaxDim)) eqn:E; [discriminate|].
    inversion Hcd; subst. apply orb_false_iff in E. destruct E as [E _].
    apply orb_false_iff in E. destruct E as [E _]. apply Z.ltb_ge in E. exact E. }
  assert (Hpos : Z.of_nat (spos stream) + pixelDataOffset stream
                 <= Z.of_nat (length (sdata stream))).
  { destruct (readHeaders_inv _ _ _ _ _ _ _ Hhdr)
      as (_ & _ & (_ & Ho & Ho26 & _) & _).
    rewrite <- (available_pos stream) by lia. lia. }
  assert (Havs : fOffset c <= available s).
  { unfold available, pending. rewrite length_skipn, Hsdata. lia. }
  unfold onGetPixels. rewrite Hrew. cbn [negb].
  set (c0 := setNeedsRewind c needs).
  assert (Hc0 : fInfo c0 = fInfo c /\ fBitsPerPixel c0 = fBitsPerPixel c
                /\ fNumColors c0 = fNumColors c
                /\ fBytesPerColor c0 = fBytesPerColor c
                /\ fIsIco c0 = fIsIco c /\ fOffset c0 = fOffset c
                /\ fInputFormat c0 = fInputFormat c
                /\ tableColors c0 = tableColors c).
  { unfold c0, tableColors. cbn. auto 10. }
  destruct Hc0 as (Hi0 & Hb0 & Hn0 & Hbc0 & Hico0 & Ho0 & Hf0 & Ht0).
  rewrite Hi0, Hdim, Hconv. cbn [negb].
  assert (Hpack : choosePack (alphaType dstInfo) <> None).
  { apply (conversion_possible_pack dstInfo (fInfo c) Hconv).
    rewrite Hia. exact Hat. }
  rewrite <- Hb0 in Hbpp, Htable. rewrite <- Hn0 in Hn. rewrite <- Hbc0 in Hbpc.
  rewrite <- Hico0 in Hico. rewrite <- Ho0 in Hoff, Havs, Htable.
  rewrite <- Ht0 in Htable.
  destruct (createColorTable_runs c0 s (alphaType dstInfo) Hbpp ltac:(lia) Hbpc
              Hico Hpack Hoff Htable Havs)
    as (c' & s' & Hct & Hb' & Hf' & Hico' & Hd' & Hp' & Hav').
  rewrite Hct. cbn [obind negb].
  rewrite Hf', Hf0, Hstd.
  assert (Hdepth' : In (fBitsPerPixel c') [1; 2; 4; 8; 24; 32]).
  { rewrite Hb', Hb0. exact Hdepth. }
  destruct (standardConfig_some c' dstInfo Hdepth') as (config & Hcfg).
  assert (Hrb : 0 <= rowBytes).
  { apply row_bytes_nonneg; [lia|]. simpl in Hdepth. lia. }
  unfold decode. rewrite Hcfg. unfold CreateSwizzler. rewrite Hsw.
  rewrite Hb', Hb0. fold rowBytes.
  destruct (decodeRows_available c' dstInfo rowBytes (Z.to_nat (height dstInfo)) Hrb
              (mkSwizzler config (Some (colorsOf c')) dstInfo dstRowBytes
                 kNo_ZeroInitialized (Some 0) [])
              0 s' dst ltac:(cbn [swDstRow]; discriminate))
    as (Hfull & Hshort).
  rewrite Z2Nat.id in Hfull, Hshort by lia.
  assert (Hleft : available s' = available stream - pixelDataOffset stream).
  { pose proof (get_int_range (pending stream) 10) as R.
    fold (pixelDataOffset stream) in R.
    rewrite Hav', Ho0. unfold available, pending.
    rewrite !length_skipn, Hsdata. lia. }
  rewrite Hleft in Hfull, Hshort.
  destruct (Z_le_gt_dec (height dstInfo * rowBytes)
              (available stream - pixelDataOffset stream)) as [Hle|Hgt].
  - destruct (Hfull Hle) as (s2 & d2 & E & _). rewrite E. cbn [obind].
    rewrite Hico', Hico.
    rewrite (proj2 (Z.leb_le _ _)) by exact Hle.
    eexists. eexists. eexists. reflexivity.
  - destruct (Hshort ltac:(lia)) as (s2 & d2 & E). rewrite E. cbn [obind].
    rewrite (proj2 (Z.leb_gt _ _)) by lia.
    eexists. eexists. eexists. reflexivity.
Qed.

Lemma X18_well_formed_bmp_decodes_witness :
  let file := sample_bmp 70 62 2 2 8 0 2 [0; 0; 0; 0; 255; 255; 255; 0;
                                            0; 1; 0; 0; 1; 0; 0; 0] in
  let c := mkBmpCodec (X := ref_externals) (sample_info 2 2 kOpaque_SkAlphaType)
             false 8 kStandard_BitmapInputFormat noMasks None 2 4 8
             kBottomUp_RowOrder 8 false in
  let info := sample_info 2 2 kOpaque_SkAlphaType in
  let rowBytes := SkAlign4 (compute_row_bytes (width info) (fBitsPerPixel c)) in
  exists c' s' d',
    onGetPixels c (mkStream (sdata file) 54) info sample_dst 8
    = Some (if height info * rowBytes <=? available file - pixelDataOffset file
            then kSuccess else kIncompleteInput, c', s', d').
Proof.
  intros file c info.
  apply (X18_well_formed_bmp_decodes ref_externals file
           (mkStream (sdata file) 54) c info sample_dst 8 true).
  - reflexivity.
  - reflexivity.
  - vm_compute. reflexivity.
  - reflexivity.
  - reflexivity.
  - reflexivity.
  - simpl. lia.
  - intros _. vm_compute. discriminate.
  - intros config colors. reflexivity.
  - vm_compute. discriminate.
Defined.

(** That file decodes to its four pixels, the bottom row first in the file. *)
Example well_formed_bmp_decoded :
  match NewFromStream (X := ref_externals)
          (sample_bmp 70 62 2 2 8 0 2 [0; 0; 0; 0; 255; 255; 255; 0;
                                        0; 1; 0; 0; 1; 0; 0; 0]) false with
  | Some (c, s) =>
      match onGetPixels c s (fInfo c) sample_dst 8 with
      | Some (r, _, _, d) =>
          (r, map (load32 d) [0; 4; 8; 12])
          = (kSuccess, [0xFFFFFFFF; 0xFF000000; 0xFF000000; 0xFFFFFFFF])
      | None => False
      end
  | None => False
  end.
Proof. vm_compute. reflexivity. Qed.

End EndToEndExtras.

(** ** Absolute runs *)

Section AbsoluteFacts.
Import Bmp.
Context {X : Externals}.

Variables (c : SkBmpCodec) (info : SkImageInfo) (rb : Z) (buffer : list Z).
Hypothesis Hn32 : colorType info = kN32_SkColorType.

Lemma compute_row_bytes_0 (bpp : Z) : compute_row_bytes (Z.of_nat 0) bpp = 0.
Proof. unfold compute_row_bytes. change (Z.of_nat 0 * bpp + 7) with 7. reflexivity. Qed.

Lemma absolute_run_none : absolute_run_spec c info rb buffer 0.
Proof.
  intros x y curr d Hx Hfit Hc Hcf. exists d. cbn [absoluteRun].
  rewrite compute_row_bytes_0, !Z.add_0_r.
  split; [reflexivity|]. split; [intros i Hi; lia | reflexivity].
Qed.

Lemma absoluteRun_8 (n : nat) :
  fBitsPerPixel c = 8 -> absolute_run_spec c info rb buffer n.
Proof.
  intros E8. induction n as [|n IH]; [apply absolute_run_none|].
  intros x y curr d Hx Hfit Hc Hcf.
  rewrite E8, compute_row_bytes_8 in Hcf.
  assert (IH' := IH). unfold absolute_run_spec in IH'.
  rewrite E8 in IH'. setoid_rewrite compute_row_bytes_8 in IH'.
  clear IH. rename IH' into IH.
  cbn [absoluteRun]. rewrite E8. change (8 =? 4) with false.
  change (8 =? 8) with true. cbn iota. cbn [rx ry currByte rdst].
  rewrite (wrap32s_small (x + 1)) by lia.
  rewrite (wrap32u_small (curr + 1)) by lia.
  rewrite (setRLEPixel_N32 c info rb Hn32) by lia.
  destruct (IH (x + 1) y (curr + 1)
              (store32 d (rlePixelAddress c info rb x y)
                 (nth (Z.to_nat (get_byte buffer curr)) (colorsOf c) 0))
              ltac:(lia) ltac:(lia) ltac:(lia) ltac:(lia))
    as (d' & Erun & Hpix & Hframe).
  rewrite compute_row_bytes_8.
  exists d'. split; [rewrite Erun; f_equal; f_equal; lia|]. split.
  - intros i Hi. destruct (Z.eq_dec i x) as [->|Hne].
    + rewrite Hframe by (unfold rlePixelAddress; lia).
      rewrite load32_store32_same. unfold absoluteIndex. rewrite E8.
      change (8 =? 4) with false. cbn iota. rewrite Z.sub_diag, Z.add_0_r.
      reflexivity.
    + rewrite Hpix by lia. unfold absoluteIndex. rewrite E8.
      change (8 =? 4) with false. cbn iota.
      replace (curr + 1 + (i - (x + 1))) with (curr + (i - x)) by lia.
      reflexivity.
  - intros q Hq. rewrite Hframe by (unfold rlePixelAddress in *; lia).
    apply load32_store32_out. unfold rlePixelAddress in *. lia.
Qed.

Lemma absoluteRun_4 (n : nat) :
  fBitsPerPixel c = 4 -> absolute_run_spec c info rb buffer n.
Proof.
  intros E4. induction n as [| |n IH] using pair_induction.
  - apply absolute_run_none.
  - intros x y curr d Hx Hfit Hc Hcf.
    rewrite E4, compute_row_bytes_4 in Hcf.
    change ((Z.of_nat 1 + 1) / 2) with 1 in Hcf.
    cbn [absoluteRun]. rewrite E4. change (4 =? 4) with true. cbn iota.
    cbn [rx ry currByte rdst].
    rewrite (wrap32s_small (x + 1)) by lia.
    rewrite (wrap32u_small (curr + 1)) by lia.
    rewrite (setRLEPixel_N32 c info rb Hn32) by lia.
    rewrite compute_row_bytes_4. change ((Z.of_nat 1 + 1) / 2) with 1.
    change (Z.of_nat 1) with 1.
    eexists. split; [reflexivity|]. split.
    + intros i Hi. assert (i = x) by lia. subst i.
      rewrite load32_store32_same. unfold absoluteIndex. rewrite E4.
      change (4 =? 4) with true. cbn iota. rewrite Z.sub_diag.
      change (0 / 2) with 0. change (Z.even 0) with true. cbn iota.
      rewrite Z.add_0_r. reflexivity.
    + intros q Hq. apply load32_store32_out. unfold rlePixelAddress in *. lia.
  - intros x y curr d Hx Hfit Hc Hcf.
    assert (Hdiv : (Z.of_nat (S (S n)) + 1) / 2 = 1 + (Z.of_nat n + 1) / 2).
    { replace (Z.of_nat (S (S n)) + 1) with ((Z.of_nat n + 1) + 1 * 2) by lia.
      rewrite Z.div_add by lia. lia. }
    assert (Hhalf : 0 <= (Z.of_nat n + 1) / 2) by (apply Z.div_pos; lia).
    rewrite E4, compute_row_bytes_4, Hdiv in Hcf.
    assert (IH' := IH). unfold absolute_run_spec in IH'.
    rewrite E4 in IH'. setoid_rewrite compute_row_bytes_4 in IH'.
    clear IH. rename IH' into IH.
    cbn [absoluteRun]. rewrite E4. change (4 =? 4) with true. cbn iota.
    cbn [rx ry currByte rdst].
    rewrite (wrap32s_small (x + 1)) by lia.
    rewrite (wrap32s_small (x + 1 + 1)) by lia.
    rewrite (wrap32u_small (curr + 1)) by lia.
    rewrite !(setRLEPixel_N32 c info rb Hn32) by lia.
    set (val := get_byte buffer curr).
    set (d1 := store32 d (rlePixelAddress c info rb x y)
                 (nth (Z.to_nat (Z.shiftr val 4)) (colorsOf c) 0)).
    set (d2 := store32 d1 (rlePixelAddress c info rb (x + 1) y)
                 (nth (Z.to_nat (Z.land val 15)) (colorsOf c) 0)).
    destruct (IH (x + 1 + 1) y (curr + 1) d2
                ltac:(lia) ltac:(lia) ltac:(lia) ltac:(lia))
      as (d' & Erun & Hpix & Hframe).
    rewrite compute_row_bytes_4, Hdiv.
    exists d'. split; [rewrite Erun; f_equal; f_equal; lia|]. split.
    + intros i Hi. unfold absoluteIndex. rewrite E4.
      change (4 =? 4) with true. cbn iota.
      destruct (Z.eq_dec i x) as [->|Hne0].
      * rewrite Hframe by (unfold rlePixelAddress; lia).
        unfold d2. rewrite load32_store32_out by (unfold rlePixelAddress; lia).
        unfold d1. rewrite load32_store32_same.
        rewrite Z.sub_diag. change (0 / 2) with 0. change (Z.even 0) with true.
        cbn iota. rewrite Z.add_0_r. reflexivity.
      * destruct (Z.eq_dec i (x + 1)) as [->|Hne1].
        -- rewrite Hframe by (unfold rlePixelAddress; lia).
           unfold d2. rewrite load32_store32_same.
           replace (x + 1 - x) with 1 by lia.
           change (1 / 2) with 0. change (Z.even 1) with false. cbn iota.
           rewrite Z.add_0_r. reflexivity.
        -- rewrite Hpix by lia. unfold absoluteIndex. rewrite E4.
           change (4 =? 4) with true. cbn iota.
           replace (i - x) with ((i - (x + 1 + 1)) + 1 * 2) by lia.
           rewrite Z.div_add by lia.
           replace (i - (x + 1 + 1) + 1 * 2) with (i - (x + 1 + 1) + 2 * 1) by lia.
           rewrite Z.even_add_mul_2.
           replace (curr + 1 + (i - (x + 1 + 1)) / 2)
             with (curr + ((i - (x + 1 + 1)) / 2 + 1)) by lia.
           reflexivity.
    + intros q Hq. rewrite Hframe by (unfold rlePixelAddress in *; lia).
      unfold d2, d1.
      rewrite !load32_store32_out by (unfold rlePixelAddress in *; lia).
      reflexivity.
Qed.

End AbsoluteFacts.

Section AbsoluteExtras.
Import Bmp.

(** X19.  An absolute run of an indexed RLE image (a 0 byte, a count of 3 or
    more, then the indices of that many pixels), met with the cursor inside
    the image, a run that fits the row and bytes enough in the buffer: the
    pixels from x on hold the colours that the bytes select, in their order -
    at 8 bits a pixel a byte, at 4 bits two pixels a byte, the high nibble
    first - and no other pixel of the destination changes; the loop goes on
    with the cursor on the same row at x + count, and past the bytes of the
    run rounded up to an even number. *)
Theorem X19_absolute_run (X : Externals) (c : SkBmpCodec) (dstInfo : SkImageInfo)
    (dstRowBytes : Z) (buffer : list Z) (totalBytes x y curr : Z) (dst : Buffer) :
  colorType dstInfo = kN32_SkColorType ->
  fBitsPerPixel c = 4 \/ fBitsPerPixel c = 8 ->
  0 <= x ->
  width dstInfo < 2 ^ 31 - 255 ->
  y < height dstInfo ->
  0 <= curr ->
  totalBytes < 2 ^ 32 ->
  get_byte buffer curr = 0 ->
  let count := get_byte buffer (curr + 1) in
  let runBytes := SkAlign2 (compute_row_bytes count (fBitsPerPixel c)) in
  3 <= count ->
  x + count <= width dstInfo ->
  curr + 2 + runBytes <= totalBytes ->
  exists d',
    rleStep c dstInfo dstRowBytes buffer totalBytes (mkRle x y curr dst)
    = Continue (mkRle (x + count) y (curr + 2 + runBytes) d')
    /\ (forall i, x <= i < x + count ->
                  load32 d' (rlePixelAddress c dstInfo dstRowBytes i y)
                  = wrap32u (nth (Z.to_nat (absoluteIndex c buffer (curr + 2)
                                              (i - x)))
                               (colorsOf c) 0))
    /\ (forall q, q + 4 <= rlePixelAddress c dstInfo dstRowBytes x y
                  \/ rlePixelAddress c dstInfo dstRowBytes (x + count) y <= q ->
                  load32 d' q = load32 dst q).
Proof.
  intros Hn32 Hbpp Hx Hw Hy Hc Htot Hflag count runBytes Hcount Hfit Hbytes.
  pose proof (get_byte_range buffer (curr + 1)) as Rcount. fold count in Rcount.
  assert (Hrow : 0 <= compute_row_bytes count (fBitsPerPixel c) <= count).
  { destruct Hbpp as [E|E]; rewrite E.
    - rewrite compute_row_bytes_4.
      pose proof (Z.div_mod (count + 1) 2 ltac:(lia)).
      pose proof (Z.mod_pos_bound (count + 1) 2 ltac:(lia)). lia.
    - rewrite compute_row_bytes_8. lia. }
  pose proof (SkAlign2_bounds _ (proj1 Hrow)) as Hal. fold runBytes in Hal.
  pose proof (SkIsAlign2_spec _ (proj1 Hrow)) as Hpad. fold runBytes in Hpad.
  unfold rleStep. cbn [rx ry currByte rdst].
  rewrite (wrap32u_small (totalBytes - curr)) by lia.
  rewrite (ltb_false (totalBytes - curr) 2) by lia.
  rewrite (wrap32u_small (curr + 1)) by lia.
  rewrite (wrap32u_small (curr + 2)) by lia.
  rewrite (geb_false y (height dstInfo)) by lia. cbn [andb].
  rewrite Hflag. change (RLE_ESCAPE =? 0) with true. cbn iota.
  fold count.
  change RLE_EOL with 0. change RLE_EOF with 1. change RLE_DELTA with 2.
  rewrite (eqb_false count 0), (eqb_false count 1), (eqb_false count 2) by lia.
  rewrite (wrap32s_small (x + count)) by lia.
  rewrite (gtb_false (x + count) (width dstInfo)) by lia.
  rewrite (wrap32u_small (totalBytes - (curr + 2))) by lia.
  fold runBytes. rewrite (ltb_false (totalBytes - (curr + 2)) runBytes) by lia.
  cbn [orb].
  assert (Hspec : absolute_run_spec c dstInfo dstRowBytes buffer (Z.to_nat count)).
  { destruct Hbpp as [E|E];
      [apply absoluteRun_4 | apply absoluteRun_8]; assumption. }
  destruct (Hspec x y (curr + 2) dst ltac:(lia) ltac:(lia) ltac:(lia)
              ltac:(rewrite Z2Nat.id by lia; lia))
    as (d' & Erun & Hpix & Hframe).
  rewrite Z2Nat.id in Erun, Hpix, Hframe by lia.
  rewrite Erun. exists d'. split; [|split; assumption].
  cbn [rx ry currByte rdst].
  destruct (SkIsAlign2 (compute_row_bytes count (fBitsPerPixel c)));
    cbn [negb]; f_equal; f_equal; try lia.
  rewrite wrap32u_small by lia. lia.
Qed.

Lemma X19_absolute_run_witness :
  let c := mkBmpCodec (X := ref_externals) (sample_info 4 2 kOpaque_SkAlphaType)
             false 4 kRLE_BitmapInputFormat noMasks
             (Some [0xFF000000; 0xFFFFFFFF; 0xFFFF0000]) 3 4 0
             kBottomUp_RowOrder 6 false in
  let info := sample_info 4 2 kOpaque_SkAlphaType in
  let buffer := [0; 3; 0x12; 0x01; 0; 1] in
  exists d',
    rleStep c info 16 buffer 6 (mkRle 1 0 0 sample_dst)
    = Continue (mkRle (1 + 3) 0 (0 + 2 + SkAlign2 (compute_row_bytes 3 4)) d')
    /\ (forall i, 1 <= i < 1 + 3 ->
                  load32 d' (rlePixelAddress c info 16 i 0)
                  = wrap32u (nth (Z.to_nat (absoluteIndex c buffer (0 + 2) (i - 1)))
                               (colorsOf c) 0))
    /\ (forall q, q + 4 <= rlePixelAddress c info 16 1 0
                  \/ rlePixelAddress c info 16 (1 + 3) 0 <= q ->
                  load32 d' q = load32 sample_dst q).
Proof.
  intros c info buffer.
  apply (X19_absolute_run ref_externals c info 16 buffer 6 1 0 0 sample_dst).
  - reflexivity.
  - left. reflexivity.
  - lia.
  - simpl. lia.
  - simpl. lia.
  - lia.
  - lia.
  - reflexivity.
  - vm_compute. discriminate.
  - vm_compute. discriminate.
  - vm_compute. discriminate.
Defined.

End AbsoluteExtras.

(** ** The results of getPixels *)

Section ResultFacts.
Import Bmp.
Context {X : Externals}.

Lemma absoluteRun_result (c : SkBmpCodec) (info : SkImageInfo) (rb : Z)
    (buffer : list Z) (n : nat) :
  forall s r s', absoluteRun c info rb buffer n s = Return r s' -> r = kInvalidInput.
Proof.
  destruct (fBitsPerPixel c =? 4) eqn:E4.
  - induction n as [| |n IH] using pair_induction; intros s r s' H.
    + cbn [absoluteRun] in H. discriminate.
    + cbn [absoluteRun] in H. rewrite E4 in H. discriminate.
    + cbn [absoluteRun] in H. rewrite E4 in H. eapply IH. exact H.
  - induction n as [|n IH]; intros s r s' H.
    + cbn [absoluteRun] in H. discriminate.
    + cbn [absoluteRun] in H. rewrite E4 in H.
      destruct (fBitsPerPixel c =? 8).
      * eapply IH. exact H.
      * destruct (fBitsPerPixel c =? 24); inversion H; reflexivity.
Qed.

Lemma rleStep_result (c : SkBmpCodec) (info : SkImageInfo) (rb : Z)
    (buffer : list Z) (totalBytes : Z) (s : RleState) (r : Result)
    (s' : RleState) :
  rleStep c info rb buffer totalBytes s = Return r s' ->
  r = kSuccess \/ r = kIncompleteInput \/ r = kInvalidInput.
Proof.
  destruct s as [x y curr dst]. unfold rleStep. cbn [rx ry currByte rdst].
  assert (Hret : forall r0 s0,
            Return r0 s0 = Return r s' ->
            r0 = kSuccess \/ r0 = kIncompleteInput \/ r0 = kInvalidInput ->
            r = kSuccess \/ r = kIncompleteInput \/ r = kInvalidInput).
  { intros r0 s0 H Hr. inversion H; subst. exact Hr. }
  destruct (wrap32u (totalBytes - curr) <? 2); [intros H; eapply Hret; eauto|].
  destruct ((y >=? height info)
            && (negb (get_byte buffer curr =? RLE_ESCAPE)
                || negb (get_byte buffer (wrap32u (curr + 1)) =? RLE_EOF)));
    [intros H; eapply Hret; eauto|].
  destruct (RLE_ESCAPE =? get_byte buffer curr).
  - destruct (get_byte buffer (wrap32u (curr + 1)) =? RLE_EOL); [discriminate|].
    destruct (get_byte buffer (wrap32u (curr + 1)) =? RLE_EOF);
      [intros H; eapply Hret; eauto|].
    destruct (get_byte buffer (wrap32u (curr + 1)) =? RLE_DELTA).
    + destruct (wrap32u (totalBytes - wrap32u (curr + 2)) <? 2);
        [intros H; eapply Hret; eauto|].
      match goal with |- context [if ?b then _ else _] => destruct b end;
        [intros H; eapply Hret; eauto | discriminate].
    + match goal with |- context [if ?b then _ else _] => destruct b end;
        [intros H; eapply Hret; eauto|].
      match goal with |- context [absoluteRun ?c ?i ?r ?b ?n ?s0] =>
        pose proof (absoluteRun_result c i r b n s0) as Hrun;
        destruct (absoluteRun c i r b n s0) as [s1|r1 s1]
      end.
      * match goal with |- context [if ?b then _ else _] => destruct b end;
          discriminate.
      * intros H. inversion H; subst. right. right. eapply Hrun. reflexivity.
  - destruct (24 =? fBitsPerPixel c).
    + destruct (wrap32u (totalBytes - wrap32u (curr + 2)) <? 2);
        [intros H; eapply Hret; eauto|].
      match goal with |- context [fillRun24 ?c ?i ?r ?a1 ?a2 ?a3 ?n ?x0 ?y0 ?d0] =>
        destruct (fillRun24 c i r a1 a2 a3 n x0 y0 d0) as [x1 d1]
      end.
      discriminate.
    + match goal with |- context [fillRun ?c ?i ?r ?a1 ?a2 ?w ?n ?x0 ?y0 ?d0] =>
        destruct (fillRun c i r a1 a2 w n x0 y0 d0) as [x1 d1]
      end.
      discriminate.
Qed.

Lemma rleLoop_result (c : SkBmpCodec) (info : SkImageInfo) (rb : Z)
    (buffer : list Z) (totalBytes : Z) (fuel : nat) :
  forall s r s',
    rleLoop c info rb buffer totalBytes fuel s = Some (r, s') ->
    r = kSuccess \/ r = kIncompleteInput \/ r = kInvalidInput.
Proof.
  induction fuel as [|fuel IH]; intros s r s' H; cbn [rleLoop] in H;
    [discriminate|].
  destruct (rleStep c info rb buffer totalBytes s) as [s1|r1 s1] eqn:Estep.
  - eapply IH. exact H.
  - inversion H; subst. eapply rleStep_result. exact Estep.
Qed.

Lemma decodeMaskRows_early (c : SkBmpCodec) (info : SkImageInfo)
    (rb rowBytes : Z) (n : nat) :
  forall y t buf stream dst r s d,
    decodeMaskRows c info rb rowBytes n y t buf stream dst = Some (inl (r, s, d)) ->
    r = kIncompleteInput.
Proof.
  induction n as [|n IH]; intros y t buf stream dst r s d H.
  - cbn [decodeMaskRows] in H. discriminate.
  - cbn [decodeMaskRows] in H.
    destruct (stream_read stream rowBytes) as [src s2].
    destruct (negb (Z.of_nat (length src) =? rowBytes)).
    + inversion H; subst. reflexivity.
    + destruct (negb (CreateMaskSwizzler_ok info rb (fMasks c) (fBitsPerPixel c)));
        [discriminate|].
      destruct (maskSwizzler_next info rb (fMasks c) (fBitsPerPixel c) src
                  (dstRowOf c (height info) y) dst) as [ra d2].
      eapply IH. exact H.
Qed.

Lemma applyAndMask_result (c : SkBmpCodec) (info : SkImageInfo)
    (rb rowBytes : Z) (n : nat) :
  forall y stream dst,
    fst (fst (applyAndMask c info rb rowBytes n y stream dst)) = kSuccess
    \/ fst (fst (applyAndMask c info rb rowBytes n y stream dst)) = kIncompleteInput.
Proof.
  induction n as [|n IH]; intros y stream dst; cbn [applyAndMask].
  - left. reflexivity.
  - destruct (stream_read stream rowBytes) as [src s2].
    destruct (negb (Z.of_nat (length src) =? rowBytes)).
    + right. reflexivity.
    + apply IH.
Qed.

(** What the three engines return. *)
Lemma engine_results (c : SkBmpCodec) (stream : SkStream) (info : SkImageInfo)
    (dst : Buffer) (rb : Z) (r : Result) (s' : SkStream) (d' : Buffer) :
  decodeMask c stream info dst rb = Some (r, s', d')
  \/ decodeRLE c stream info dst rb = Some (r, s', d')
  \/ decode c stream info dst rb = Some (r, s', d') ->
  r = kSuccess \/ r = kIncompleteInput \/ r = kInvalidInput.
Proof.
  intros [H|[H|H]].
  - unfold decodeMask in H. obind_inv H.
    destruct a as [[[r0 s0] d0]|[[[t buf] s0] d0]].
    + inversion H; subst. right. left. eapply decodeMaskRows_early. exact Hstep.
    + destruct t.
      * obind_inv H. inversion H; subst. auto.
      * inversion H; subst. auto.
  - unfold decodeRLE in H.
    destruct (stream_read stream (fRLEBytes c)) as [buffer s1].
    destruct (negb (Z.of_nat (length buffer) <? fRLEBytes c)
              && (Z.of_nat (length buffer) <=? 0)).
    + inversion H; subst. auto.
    + match type of H with
      | match ?e with _ => _ end = _ => destruct e as [[r1 s2]|] eqn:Hloop
      end; [|discriminate].
      inversion H; subst. eapply rleLoop_result. exact Hloop.
  - unfold decode in H.
    destruct (standardConfig c info) as [config|]; [|inversion H; subst; auto].
    obind_inv H. destruct a as [[[r0 s0] d0]|[s0 d0]].
    + inversion H; subst. right. left.
      eapply (decodeRows_early X). exact Hstep.
    + destruct (fIsIco c).
      * pose proof (applyAndMask_result c info rb
                      (SkAlign4 (compute_row_bytes (width info) 1))
                      (Z.to_nat (height info)) 0 s0 d0) as Hres.
        inversion H as [Heq]. rewrite Heq in Hres. cbn [fst] in Hres.
        destruct Hres; auto.
      * inversion H; subst. auto.
Qed.

End ResultFacts.

Section ResultExtras.

(** X20.  What getPixels on a BMP can return.  The result is never
    Unimplemented or InvalidParameters; CouldNotRewind, InvalidScale and
    InvalidConversion come from the checks made before anything is read or
    written, so with each of them the destination is the one that was given
    and the codec's colour table is the one it had. *)
Theorem X20_bmp_results (X : Externals) (c : Bmp.SkBmpCodec) (stream : SkStream)
    (dstInfo : SkImageInfo) (dst : Buffer) (dstRowBytes : Z) (r : Result)
    (c' : Bmp.SkBmpCodec) (s' : SkStream) (d' : Buffer) :
  Bmp.onGetPixels c stream dstInfo dst dstRowBytes = Some (r, c', s', d') ->
  r <> kUnimplemented /\ r <> kInvalidParameters
  /\ (r = kCouldNotRewind \/ r = kInvalidScale \/ r = kInvalidConversion ->
      d' = dst /\ Bmp.fColorTable c' = Bmp.fColorTable c).
Proof.
  unfold Bmp.onGetPixels. intros H.
  destruct (rewindIfNeeded (Bmp.fNeedsRewind c) stream) as [[rewound needs] s1].
  destruct (negb rewound).
  { inversion H; subst. split; [discriminate|]. split; [discriminate|].
    intros _. split; reflexivity. }
  destruct (negb (dimensions_eqb dstInfo (Bmp.fInfo (Bmp.setNeedsRewind c needs)))).
  { inversion H; subst. split; [discriminate|]. split; [discriminate|].
    intros _. split; reflexivity. }
  destruct (negb (Bmp.conversion_possible dstInfo
                    (Bmp.fInfo (Bmp.setNeedsRewind c needs)))).
  { inversion H; subst. split; [discriminate|]. split; [discriminate|].
    intros _. split; reflexivity. }
  obind_inv H. destruct a as [[created c1] s2].
  destruct (negb created).
  { inversion H; subst. split; [discriminate|]. split; [discriminate|].
    intros [E|[E|E]]; discriminate. }
  obind_inv H. destruct a as [[r0 s3] d3]. inversion H; subst. clear H.
  assert (Hres : r = kSuccess \/ r = kIncompleteInput \/ r = kInvalidInput).
  { destruct (Bmp.fInputFormat c').
    - eapply engine_results. right. right. exact Hstep0.
    - eapply engine_results. right. left. exact Hstep0.
    - eapply engine_results. left. exact Hstep0.
    - inversion Hstep0; subst. auto. }
  destruct Hres as [E|[E|E]]; rewrite E;
    (split; [discriminate|]; split; [discriminate|];
     intros [F|[F|F]]; discriminate).
Qed.

Lemma X20_bmp_results_witness :
  let c := Bmp.mkBmpCodec (X := ref_externals)
             (sample_info 4 1 kOpaque_SkAlphaType) false 8
             Bmp.kRLE_BitmapInputFormat Bmp.noMasks None 2 4 8
             Bmp.kBottomUp_RowOrder 6 false in
  exists r c' s' d',
    Bmp.onGetPixels c (mkStream [] 0) (sample_info 5 1 kOpaque_SkAlphaType)
      sample_dst 16 = Some (r, c', s', d')
    /\ r <> kUnimplemented /\ r <> kInvalidParameters
    /\ (r = kCouldNotRewind \/ r = kInvalidScale \/ r = kInvalidConversion ->
        d' = sample_dst /\ Bmp.fColorTable c' = Bmp.fColorTable c).
Proof.
  intros c. eexists. eexists. eexists. eexists. split; [reflexivity|].
  eapply (X20_bmp_results ref_externals c (mkStream [] 0)
            (sample_info 5 1 kOpaque_SkAlphaType) sample_dst 16).
  reflexivity.
Defined.

(** X21.  What getPixels on a PNG can return.  The result is never
    IncompleteInput or InvalidParameters: a stream that ends early is an
    error of libpng, and is reported as InvalidInput.  With CouldNotRewind,
    InvalidScale, InvalidConversion and Unimplemented no row has been
    decoded, and the destination is the one that was given. *)
Theorem X21_png_results (X : Externals) (c : Png.SkPngCodec)
    (requestedInfo : SkImageInfo) (dst : Buffer) (rowBytes : Z)
    (zero : ZeroInitialized) (r : Result) (c' : Png.SkPngCodec) (d' : Buffer) :
  Png.onGetPixels c requestedInfo dst rowBytes zero = Some (r, c', d') ->
  r <> kIncompleteInput /\ r <> kInvalidParameters
  /\ (r = kCouldNotRewind \/ r = kInvalidScale \/ r = kInvalidConversion
      \/ r = kUnimplemented -> d' = dst).
Proof.
  unfold Png.onGetPixels. intros H.
  destruct (rewindIfNeeded (Png.fNeedsRewind c) (Png.fStream c))
    as [[rewound needs] stream].
  destruct (negb rewound).
  { inversion H; subst. split; [discriminate|]. split; [discriminate|].
    intros _. reflexivity. }
  destruct (negb (dimensions_eqb requestedInfo
                    (Png.fInfo (Png.setRewind c needs stream)))).
  { inversion H; subst. split; [discriminate|]. split; [discriminate|].
    intros _. reflexivity. }
  destruct (negb (Png.conversion_possible requestedInfo
                    (Png.fInfo (Png.setRewind c needs stream)))).
  { inversion H; subst. split; [discriminate|]. split; [discriminate|].
    intros _. reflexivity. }
  destruct (Png.initializeSwizzler (Png.setRewind c needs stream) requestedInfo
              (Some 0) rowBytes zero) as [result c1] eqn:Hinit.
  assert (Hcodes : result = kSuccess \/ result = kInvalidInput
                   \/ result = kUnimplemented).
  { revert Hinit. unfold Png.initializeSwizzler.
    destruct (png_get_IHDR (Png.fPng_ptr (Png.setRewind c needs stream)))
      as [[[[w h] bd] ct] it].
    match goal with
    | |- (let '(paletteOk, c0) := ?e in _) = _ -> _ => destruct e as [ok c3]
    end.
    destruct ok; cbn [negb]; [|intros H0; inversion H0; auto].
    match goal with
    | |- match ?e with _ => _ end = _ -> _ => destruct e
    end; [|intros H0; inversion H0; auto].
    match goal with
    | |- match ?e with _ => _ end = _ -> _ => destruct e
    end; intros H0; inversion H0; auto. }
  destruct result; try (destruct Hcodes as [E|[E|E]]; discriminate).
  - obind_inv H. rename a into sw.
    destruct (Png.fNumberPasses c1 >? 1).
    + match type of H with
      | match ?e with _ => _ end = _ => destruct e as [[png storage]|]
      end.
      * obind_inv H. destruct a as [[sw1 flag1] d1].
        inversion H; subst. split; [discriminate|]. split; [discriminate|].
        intros [E|[E|[E|E]]]; discriminate.
      * inversion H; subst. split; [discriminate|]. split; [discriminate|].
        intros [E|[E|[E|E]]]; discriminate.
    + match type of H with
      | match ?e with _ => _ end = _ =>
          destruct e as [|[[[png sw1] flag1] d1]|[[[png sw1] flag1] d1]]
      end; try discriminate; inversion H; subst;
        (split; [discriminate|]; split; [discriminate|];
         intros [E|[E|[E|E]]]; discriminate).
  - inversion H; subst. split; [discriminate|]. split; [discriminate|].
    intros [E|[E|[E|E]]]; discriminate.
  - inversion H; subst. split; [discriminate|]. split; [discriminate|].
    intros _. reflexivity.
Qed.

Lemma X21_png_results_witness :
  let c := sample_png (sample_info 2 2 kUnpremul_SkAlphaType)
             (mkRefPng (2, 2, 8, Png.PNG_COLOR_TYPE_RGB_ALPHA, 0) None None
                [[255; 0; 0; 255; 255; 0; 0; 255]]) in
  exists r c' d',
    Png.onGetPixels c (sample_info 2 2 kUnpremul_SkAlphaType) sample_dst 8
      kNo_ZeroInitialized = Some (r, c', d')
    /\ r <> kIncompleteInput /\ r <> kInvalidParameters
    /\ (r = kCouldNotRewind \/ r = kInvalidScale \/ r = kInvalidConversion
        \/ r = kUnimplemented -> d' = sample_dst).
Proof.
  intros c. eexists. eexists. eexists. split; [reflexivity|].
  eapply (X21_png_results ref_externals c
            (sample_info 2 2 kUnpremul_SkAlphaType) sample_dst 8
            kNo_ZeroInitialized).
  reflexivity.
Defined.

(** The PNG of that witness ends after its first row: the result is
    InvalidInput, with the first row decoded. *)
Example truncated_png_is_invalid_input :
  match Png.onGetPixels
          (sample_png (sample_info 2 2 kUnpremul_SkAlphaType)
             (mkRefPng (2, 2, 8, Png.PNG_COLOR_TYPE_RGB_ALPHA, 0) None None
                [[255; 0; 0; 255; 255; 0; 0; 255]]))
          (sample_info 2 2 kUnpremul_SkAlphaType) sample_dst 8
          kNo_ZeroInitialized with
  | Some (r, _, d) =>
      (r, map (load32 d) [0; 4; 8; 12])
      = (kInvalidInput, [0xFFFF0000; 0xFFFF0000; 0xAAAAAAAA; 0xAAAAAAAA])
  | None => False
  end.
Proof. vm_compute. reflexivity. Qed.

End ResultExtras.
